(* ===== verification/_CoqProject ===== *)
-Q . S2P
Prelude.v
Frame.v
Ledger.v
Client.v
Assets.v
AssetsFacts.v
AssetsLedger.v
Currency.v
Demo.v
CurrencyFacts.v
AssetsProps.v
Bridge.v
BridgeFacts.v
BridgeProps.v
BridgeSupply.v
MockChain.v
BridgeReplay.v
Fee.v
FeeFacts.v
ChainSpec.v
Price.v
PriceFacts.v
RioRuntime.v
RioRuntimeFacts.v
RioRuntimeProps.v
RioRuntimeWitness.v
RioRuntimeFrozen.v
Loan.v
LoanFacts.v
LoanOps.v
LoanBlocks.v
LoanProps.v
LoanRuns.v
LoanSafety.v
LoanContracts.v
LoanWitness.v
LoanReplay.v
Saving.v
SavingPacks.v
SavingFacts.v
SavingTypes.v
SavingContracts.v
SavingShares.v
SavingRelease.v
SavingRuns.v
SavingBonus.v
SavingWitness.v
SavingReplay.v
