(* ===== verification/Prelude.v ===== *)
(** * RioChain: a verification development

    RioChain is a Substrate chain; its own logic is a set of FRAME pallets under
    [src/modules/], which this development models in a shallow embedding and
    proves correct.

    ** Parts

    - [modules/rio-assets] is the multi-asset ledger.  [lib.rs], [attributes.rs],
      [permissions.rs], [traits.rs] and [protocol.rs] are [Assets.v] (Module
      [RioAssets], storage [AssetsStore]); [currency.rs], [imbalances.rs] and
      [make_transfer_between_assets] are [Currency.v] (Modules [Positive],
      [Negative] and [AssetCurrency]).
    - [modules/rio-bridge] is [Bridge.v] (Module [RioBridge], [BridgeStore]).
    - [modules/rio-fee], [modules/rio-transaction-payment], [primitives/src/types.rs]
      and the fee parameters of [runtime/src] are [Fee.v].
    - [modules/rio-oracle] and [modules/rio-price] are [Price.v].
    - [modules/rio-loan] is [Loan.v] (Module [RioLoan], [LoanStore]).
    - [modules/rio-saving] is [Saving.v] (Module [RioSaving], [SavingStore]).
    - [runtime/src/lib.rs], which composes the pallets, is [RioRuntime.v]; the
      fee parameters and [runtime/src/constants.rs] are in [Fee.v].
    - [src/chain_spec.rs] and the loading of a specification in [src/cli.rs] are
      [ChainSpec.v].

    The runtime of this commit composes the ledger, the fees, the oracles, the
    prices and the bridge; [rio-saving] and [rio-loan] are commented out of it and
    are run by their mocks only.  They are modelled as pallets, and their
    witnesses wire them as the mocks do.

    A dispatchable or routine [f] of a pallet is the definition [f] of the
    pallet's module; a storage item is a field of the pallet's store; an event is
    a constructor of its event type.  [Call] and [dispatch] are the calls that
    [decl_module!] generates.

    ** How the code runs

    [Frame.v] is the execution layer: a handler is a state and error computation
    [M S A] that ends with [Ok], with [Err], which keeps the storage written so
    far, or with [Panic].  The chain storage [S] is abstract: a pallet needs a
    lens [Store S T] for each storage [T] it reads, and [Separate] lenses do not
    interfere.  Machine integers are [Z] with the width written out; [Overflow]
    says whether the build checks for overflow ([None] is a panic) or wraps.
    Balances have 128 bits, asset ids and block numbers 32, moments 64, as the
    runtime instantiates them.  [wp m Q E P s] is the weakest precondition of a
    run: [Q] after [Ok], [E] after [Err], [P] when a panic is allowed.

    Three judgements on computations carry the proofs: [wp m Q E P s], above;
    [preserves R m], every run goes from a state to one related by [R] (what a
    handler leaves alone); and [typed I m Q], every run keeps [I] and a result is
    in [Q] (a type system for handlers).  [wp_steps], [preserves_steps] and
    [typed_steps] follow a handler by the rules of each.

    ** Interfaces

    [Ledger.v] states what [rio-assets] promises to the pallets built on it: the
    operations (class [Ledger]) and their laws (class [LedgerSpec]).
    [AssetsLedger.v] proves that [rio-assets] implements it; the bridge, the loans
    and the savings are modelled and proved against the interface, with the
    effects of [Client.v].  [OracleMixedIn] is the interface between prices and oracles,
    with its laws [OracleSpec] in [PriceFacts.v].  What Substrate provides (the
    origin check of reports, the weight of a block, fixed-point arithmetic, the
    order in which a linked map is enumerated) is a parameter.

    ** What is proved

    - The ledger ([AssetsFacts.v], [AssetsLedger.v], [AssetsProps.v]): its
      invariant over all reachable states, the absence of panics, the refinement
      of the interface, the behaviour of the calls on every branch, what an
      account other than root cannot do, and the genesis.
    - Currencies ([CurrencyFacts.v]): tokens account for the issuance, burning
      excepted; the algebra of imbalances; the exchange between assets, which leaves
      [FromId] and [ToId] in the storage: [FromToContext::new] returns [()], so that
      its [Drop] never runs and is no definition of the model.
    - The bridge ([BridgeFacts.v], [BridgeProps.v], [BridgeSupply.v]): no
      transaction is credited twice, the vault backs the pending withdraws, the
      contracts of the calls, and every change of the issuance is a logged deposit.
    - Fees ([FeeFacts.v]): a transaction is charged exactly its fee.
    - Prices ([PriceFacts.v]): a minority of oracles cannot move the price out of
      the range of the majority; the reports and the end of a block.
    - Loans ([LoanFacts.v] arithmetic and limits, [LoanOps.v] effects of the
      routines, [LoanBlocks.v] the hook of a block against [age], the reference of
      what a block makes of one loan, [LoanProps.v] the invariant and the calls,
      [LoanRuns.v] runs of calls, liquidations, blocks, prices, time and other
      transactions, [LoanSafety.v] the block in reachable states, [LoanContracts.v]
      the calls, [LoanWitness.v]): the books balance up to what liquidations wrote
      off, the borrower can repay, a block ages every loan by the reference and
      panics exactly when one does not age, bounds under which it returns, the calls
      are atomic and within the limit, and which loan halts the chain.
    - Savings ([SavingPacks.v] packs of shares and their aggregation,
      [SavingFacts.v] the recursion over the phases, [SavingTypes.v] a type system
      for the storage, [SavingContracts.v] staking and redemption,
      [SavingShares.v] and [SavingRuns.v] the shares along all runs,
      [SavingRelease.v] the change of phase against the reference of one release,
      [SavingBonus.v] the daily bonus, [SavingWitness.v]).
    - The runtime ([RioRuntimeFacts.v] what each part leaves alone,
      [RioRuntimeProps.v], [RioRuntimeWitness.v], [RioRuntimeFrozen.v]): from the
      genesis of every shipped chain the composition stays safe, the whole issuance of
      SBTC is backed by distinct Bitcoin transactions as long as root does not mint or
      burn it, and an asset other than the two fuels whose owners were renounced keeps
      its issuance.
    - The chain specifications ([ChainSpec.v]): a specification leads back to its
      alternative.

    - The unit tests of the repository ([MockChain.v] the genesis of the mocks and
      the assertions, [SavingReplay.v], [LoanReplay.v], [BridgeReplay.v]) run on the
      definitions and pass, which checks the model against the expectations of its
      authors.

    Each theorem that has hypotheses comes with an instance on a concrete chain,
    [<name>_witness]; [Demo.v] holds the concrete ledger.

    ** Choices

    - Loops over a list of the storage are structural fixpoints.  The recursion of
      [create_staking] over the phases has the fuel [staking_fuel], one more than
      the phases in the storage; [SavingFacts.staking_terminates] shows that it is
      never used up.
    - A linked map is enumerated in an order that the model takes as a parameter
      (a list of its keys); the theorems hold for every order of a complete list.
    - The hooks of the ledger that [rio-saving] implements are composed around the
      operations of the interface: [asset_mint], [asset_burn], [asset_transfer].
    - The theorems on savings assume the build with overflow checks where they
      compute a result of a whole call; the type of the storage, the change of phase,
      the bonus and the packs hold in both builds, and what wraps is stated
      ([pack_conserves_balance], [aggregation_keeps_shares]).  So do the contracts of an
      application for a loan and of the granted amounts; the runs of the loans and
      [block_returns] take the build with overflow checks.  The release profile of the
      repository does not enable them.
    - The log of events runs over all blocks; the chain keeps it per block.
    - The runs of the loans take blocks while every package locks the asset in which
      the block collects its fees ([block_ok]); with another asset the fees leave the
      pawn shop in an asset that the loans do not lock.
    - A payment needs room for twice the fuel in a balance ([fuel_fits]), because
      the fee is created before it is destroyed.

    ** Not modelled

    Logging ([modules/rio-support] and the [debug!] lines) has no effect on the
    state.  The rest of the node ([main.rs], [service.rs], the subcommands of
    [cli.rs]) starts the services of Substrate and keeps no state of its own.  The
    runtime APIs forward to Substrate's executive, which is the environment of the
    runs: nonces, signatures, block weights, the collective, sudo and batches appear
    as calls of any origin.  The mocks configure their runtimes with
    instances of the model; the tests without assertions and the one that mints
    through sudo are left out.  The SCALE codecs are derived by a macro.  *)
From Stdlib Require Import ZArith Lia.
From stdpp Require Export base tactics option list gmap strings sorting.

#[global] Open Scope Z_scope.

(** ** Record update

    [r <| f ::= g |>] applies [g] to the field [f] of the record [r]; the setter
    of a field is computed from the eta-expansion of the record. *)
Class Settable (R : Type) := eta_record : R -> R.
Class Setter {R T : Type} (proj : R -> T) := set_field : (T -> T) -> R -> R.
Arguments set_field {R T} proj {_} _ _ : simpl never.

Ltac derive_setter proj :=
  lazymatch type of proj with
  | ?R -> ?T =>
      let e := eval hnf in (@eta_record R _) in
      lazymatch eval pattern proj in e with
      | ?abs proj => exact (fun (g : T -> T) => abs (fun r => g (proj r)))
      end
  end.

#[global] Hint Extern 0 (Setter ?proj) => derive_setter proj : typeclass_instances.

Notation "r <| f ::= g |>" := (set_field f g r)
  (at level 1, f at next level, g at level 99, left associativity,
   format "r  <|  f  ::=  g  |>").
Notation "r <| f := v |>" := (set_field f (fun _ => v) r)
  (at level 1, f at next level, v at level 99, left associativity,
   format "r  <|  f  :=  v  |>").

(** Projections of updated records, simplified by conversion. *)
Ltac field_law p R T f i g :=
  lazymatch p with
  | set_field _ _ => fail
  | f => constr:(fun r : R => eq_refl : p (@set_field R T f i g r) = g (p r))
  | _ => constr:(fun r : R => eq_refl : p (@set_field R T f i g r) = p r)
  end.
Ltac fields :=
  repeat match goal with
  | |- context [?p (@set_field ?R ?T ?f ?i ?g ?r)] =>
      let e := field_law p R T f i g in rewrite (e r); cbv beta
  end.
Ltac fields_in H :=
  repeat match type of H with
  | context [?p (@set_field ?R ?T ?f ?i ?g ?r)] =>
      let e := field_law p R T f i g in rewrite (e r) in H; cbv beta in H
  end.

(** ** Machine integers

    A [w]-bit unsigned integer is a [Z] in [0, 2^w).  The plain Rust operators
    panic on overflow when overflow checks are compiled in and wrap otherwise;
    both builds are modelled, [overflow_checks] says which one runs.  [None] is
    a panic. *)
Class Overflow := { overflow_checks : bool }.

Definition in_width (w x : Z) : Prop := 0 <= x < 2 ^ w.
#[global] Instance in_width_dec w x : Decision (in_width w x).
Proof. unfold in_width. apply _. Defined.

Definition umax (w : Z) : Z := 2 ^ w - 1.

Definition arith `{!Overflow} (w r : Z) : option Z :=
  if decide (in_width w r) then Some r
  else if overflow_checks then None else Some (r mod 2 ^ w).

Definition uadd `{!Overflow} (w x y : Z) : option Z := arith w (x + y).
Definition usub `{!Overflow} (w x y : Z) : option Z := arith w (x - y).
Definition umul `{!Overflow} (w x y : Z) : option Z := arith w (x * y).
Definition udiv (x y : Z) : option Z := if decide (y = 0) then None else Some (x / y).

Definition checked (w r : Z) : option Z := if decide (in_width w r) then Some r else None.
Definition checked_add (w x y : Z) : option Z := checked w (x + y).
Definition checked_sub (w x y : Z) : option Z := checked w (x - y).
Definition checked_mul (w x y : Z) : option Z := checked w (x * y).

Definition saturating_add (w x y : Z) : Z := Z.min (x + y) (umax w).
Definition saturating_sub (x y : Z) : Z := Z.max (x - y) 0.
Definition saturating_mul (w x y : Z) : Z := Z.min (x * y) (umax w).

Section arith_lemmas.
Context `{!Overflow}.

Lemma arith_ok w r : in_width w r -> arith w r = Some r.
Proof. intros. unfold arith. by rewrite decide_True. Qed.

Lemma arith_in_width w r x : 0 <= w -> arith w r = Some x -> in_width w x.
Proof.
  unfold arith. intros Hw. case_decide; [naive_solver|].
  destruct overflow_checks; [done|]. intros [= <-].
  apply Z.mod_pos_bound. by apply Z.pow_pos_nonneg.
Qed.

Lemma uadd_ok w x y : in_width w (x + y) -> uadd w x y = Some (x + y).
Proof. apply arith_ok. Qed.
Lemma usub_ok w x y : in_width w (x - y) -> usub w x y = Some (x - y).
Proof. apply arith_ok. Qed.
Lemma umul_ok w x y : in_width w (x * y) -> umul w x y = Some (x * y).
Proof. apply arith_ok. Qed.
Lemma udiv_ok x y : y <> 0 -> udiv x y = Some (x / y).
Proof. intros. unfold udiv. by rewrite decide_False. Qed.
End arith_lemmas.

Lemma checked_Some w r x : checked w r = Some x <-> x = r /\ in_width w r.
Proof. unfold checked. case_decide; naive_solver. Qed.
Lemma checked_None w r : checked w r = None <-> ~ in_width w r.
Proof. unfold checked. case_decide; naive_solver. Qed.

(** ** Sums over lists *)
Definition zsum (l : list Z) : Z := foldr Z.add 0 l.
Lemma zsum_app l1 l2 : zsum (l1 ++ l2) = zsum l1 + zsum l2.
Proof. induction l1 as [|y l IH]; cbn; [done|]. unfold zsum in *. lia. Qed.
Lemma zsum_perm l1 l2 : l1 ≡ₚ l2 -> zsum l1 = zsum l2.
Proof. unfold zsum. induction 1; cbn in *; lia. Qed.
Lemma zsum_nonneg l : Forall (fun x => 0 <= x) l -> 0 <= zsum l.
Proof. unfold zsum. induction 1; cbn in *; lia. Qed.

(** What every step of a fold over a list keeps of a map. *)
Lemma foldl_map_Forall `{Countable K} {V A} (P : K -> V -> Prop) (f : gmap K V -> A -> gmap K V) l m :
  map_Forall P m -> (forall m a, a ∈ l -> map_Forall P m -> map_Forall P (f m a)) ->
  map_Forall P (foldl f m l).
Proof.
  revert m. induction l as [|a l IH]; intros m Hm Hf; cbn; [done|].
  apply IH; [apply Hf; [by left|done]|]. intros m' b Hb. apply Hf. by right.
Qed.

(** ** Sums over finite maps *)
Definition map_sum `{Countable K} {V} (f : K -> V -> Z) (m : gmap K V) : Z :=
  map_fold (fun k v acc => f k v + acc) 0 m.

Section map_sum.
Context `{Countable K} {V : Type}.
Implicit Types (m : gmap K V) (f g : K -> V -> Z).

Lemma map_sum_empty f : map_sum f (∅ : gmap K V) = 0.
Proof. apply map_fold_empty. Qed.

Lemma map_sum_insert_new f m k v :
  m !! k = None -> map_sum f (<[k:=v]> m) = f k v + map_sum f m.
Proof.
  intros Hk. unfold map_sum. rewrite map_fold_insert_L; [done| |done].
  intros. lia.
Qed.

Lemma map_sum_delete f m k :
  map_sum f (delete k m) = map_sum f m - from_option (f k) 0 (m !! k).
Proof.
  destruct (m !! k) as [v|] eqn:Hk; cbn.
  - rewrite <-(insert_delete_id m k v) at 2 by done.
    rewrite map_sum_insert_new by apply lookup_delete_eq. lia.
  - rewrite delete_id by done. lia.
Qed.

Lemma map_sum_insert f m k v :
  map_sum f (<[k:=v]> m) = map_sum f m - from_option (f k) 0 (m !! k) + f k v.
Proof.
  rewrite <-insert_delete_eq, map_sum_insert_new by apply lookup_delete_eq.
  rewrite map_sum_delete. lia.
Qed.

Lemma map_sum_nonneg f m :
  (forall k v, m !! k = Some v -> 0 <= f k v) -> 0 <= map_sum f m.
Proof.
  induction m as [|k v m Hk IH] using map_ind; intros Hf.
  - by rewrite map_sum_empty.
  - rewrite map_sum_insert_new by done.
    assert (0 <= f k v) by (apply Hf; by rewrite lookup_insert_eq).
    assert (0 <= map_sum f m); [|lia].
    apply IH. intros k' v' Hk'. apply Hf.
    rewrite lookup_insert_ne; [done|]. congruence.
Qed.

Lemma map_sum_lookup_le f m k v :
  (forall k v, m !! k = Some v -> 0 <= f k v) ->
  m !! k = Some v -> f k v <= map_sum f m.
Proof.
  intros Hf Hk. pose proof (map_sum_delete f m k) as Hd. rewrite Hk in Hd. cbn in Hd.
  assert (0 <= map_sum f (delete k m)); [|lia].
  apply map_sum_nonneg. intros k' v' Hl. apply Hf.
  by apply lookup_delete_Some in Hl as [_ ?].
Qed.

Lemma map_sum_ext f g m :
  (forall k v, m !! k = Some v -> f k v = g k v) -> map_sum f m = map_sum g m.
Proof.
  induction m as [|k v m Hk IH] using map_ind; intros Hfg; [by rewrite !map_sum_empty|].
  rewrite !map_sum_insert_new by done.
  rewrite (Hfg k v) by apply lookup_insert_eq. f_equal.
  apply IH. intros k' v' Hk'. apply Hfg. rewrite lookup_insert_ne; congruence.
Qed.
Lemma map_sum_list f m : map_sum f m = zsum (map (fun kv => f kv.1 kv.2) (map_to_list m)).
Proof.
  unfold map_sum, zsum. rewrite map_fold_foldr. induction (map_to_list m) as [|[k v] l IH]; [done|].
  cbn. by rewrite IH.
Qed.
Lemma map_sum_minus f g m : map_sum (fun k v => f k v - g k v) m = map_sum f m - map_sum g m.
Proof.
  induction m as [|k v m Hk IH] using map_ind; [by rewrite !map_sum_empty|].
  rewrite !map_sum_insert_new by done. lia.
Qed.
Lemma map_sum_zero m : map_sum (fun _ _ => 0) m = 0.
Proof.
  induction m as [|k v m Hk IH] using map_ind; [apply map_sum_empty|]. by rewrite map_sum_insert_new, IH.
Qed.
(** A complete enumeration of the keys, and the sum over it. *)
Definition complete (ks : list K) m : Prop := NoDup ks /\ forall k, k ∈ ks <-> is_Some (m !! k).
Lemma map_keys_complete m : complete (map_to_list m).*1 m.
Proof.
  split; [apply NoDup_fst_map_to_list|]. intros k. rewrite list_elem_of_fmap. split.
  - intros ([k' v] & -> & Hk%elem_of_map_to_list). by exists v.
  - intros [v Hv]. exists (k, v). by rewrite elem_of_map_to_list.
Qed.
Lemma complete_perm ks ks' m : complete ks m -> complete ks' m -> ks ≡ₚ ks'.
Proof. intros [H1 H2] [H1' H2']. apply NoDup_Permutation; [done..|]. intros k. by rewrite H2, H2'. Qed.
Lemma map_sum_keys (f : K -> Z) m ks :
  complete ks m -> map_sum (fun k _ => f k) m = zsum (map f ks).
Proof.
  intros Hks. rewrite map_sum_list. transitivity (zsum (map f (map_to_list m).*1)).
  - f_equal. induction (map_to_list m) as [|kv l IH]; [done|]. cbn. by rewrite IH.
  - apply zsum_perm, fmap_Permutation. eapply complete_perm; [apply map_keys_complete|done].
Qed.
End map_sum.
Lemma map_sum_imap `{Countable K} {V W} (f : K -> W -> Z) (g : K -> V -> option W) (m : gmap K V) :
  map_sum f (map_imap g m) = map_sum (fun k v => from_option (f k) 0 (g k v)) m.
Proof.
  induction m as [|k v m Hk IH] using map_ind; [by rewrite map_imap_empty, !map_sum_empty|].
  assert (map_imap g m !! k = None) as Hk' by (by rewrite map_lookup_imap, Hk).
  rewrite map_sum_insert_new, <-IH by done. destruct (g k v) as [w|] eqn:Hg.
  - by rewrite (map_imap_insert_Some _ _ _ _ _ Hg), map_sum_insert_new.
  - by rewrite (map_imap_insert_None _ _ _ _ Hg), delete_id.
Qed.
