(* ===== verification/Frame.v ===== *)
(** * The execution layer of the pallets

    Dispatchables run in a state and error monad over the chain storage.  An
    [Err] keeps the storage written so far (the Substrate revision the code is
    built on has no transactional dispatch, which is why the pallets carry their
    own revert callbacks); a panic aborts the execution and has no state.

    What the pallets use of FRAME is an argument of the model: the storage
    ([Store], one lens per pallet), the values of system, timestamp and sudo they
    observe ([Frame]) and the origin of a call. *)
From S2P Require Export Prelude.
#[local] Open Scope Z_scope.

(** The storage keys and scalar types of [runtime/src/types.rs]. *)
Abbreviation AccountId := N (only parsing).
Abbreviation AssetId := Z (only parsing).
Abbreviation Balance := Z (only parsing).
Abbreviation BlockNumber := Z (only parsing).
Abbreviation Moment := Z (only parsing).

Definition balance_bits : Z := 128.
Definition asset_id_bits : Z := 32.
Definition block_number_bits : Z := 32.
Definition moment_bits : Z := 64.
Definition default_account : AccountId := 0%N.

(** ** Outcomes and the monad *)
Inductive error :=
| Msg (s : string)
| BadOrigin
| InvalidPayment
| InvalidCustom (code : Z).
#[global] Instance error_eq_dec : EqDecision error.
Proof. solve_decision. Defined.

Inductive outcome (S A : Type) :=
| Ok (a : A) (s : S)
| Err (e : error) (s : S)
| Panic.
Arguments Ok {S A} a s.
Arguments Err {S A} e s.
Arguments Panic {S A}.

Definition M (S A : Type) : Type := S -> outcome S A.

#[global] Instance M_ret {S} : MRet (M S) := fun A a s => Ok a s.
#[global] Instance M_bind {S} : MBind (M S) := fun A B f m s =>
  match m s with Ok a s' => f a s' | Err e s' => Err e s' | Panic => Panic end.

Definition fail {S A} (e : error) : M S A := fun s => Err e s.
Definition panic {S A} : M S A := fun _ => Panic.
Definition lift {S A} (o : option A) : M S A :=
  match o with Some a => mret a | None => panic end.
Definition ok_or {S A} (o : option A) (e : string) : M S A :=
  match o with Some a => mret a | None => fail (Msg e) end.
Definition ensure {S} (b : bool) (e : string) : M S unit :=
  if b then mret tt else fail (Msg e).
Definition or_else {S A} (m : M S A) (h : error -> M S A) : M S A := fun s =>
  match m s with Ok a s' => Ok a s' | Err e s' => h e s' | Panic => Panic end.
(** [.unwrap_or_default()] on a unit result. *)
Definition ignore {S} (m : M S unit) : M S unit := or_else m (fun _ => mret tt).
(** [.unwrap()] and [.expect()] on a result. *)
Definition unwrap {S A} (m : M S A) : M S A := or_else m (fun _ => panic).

Fixpoint for_each {S A} (f : A -> M S unit) (l : list A) : M S unit :=
  match l with
  | [] => mret tt
  | x :: l' => f x ;; for_each f l'
  end.

(** ** Storage *)
Class Store (S T : Type) := {
  sget : S -> T;
  sput : T -> S -> S;
  sget_sput s x : sget (sput x s) = x;
  sput_sget s : sput (sget s) s = s;
  sput_sput s x y : sput x (sput y s) = sput x s;
}.

Class Separate (S T1 T2 : Type) `{!Store S T1, !Store S T2} : Prop := {
  sget_sput_ne1 s (x : T2) : sget (T:=T1) (sput x s) = sget s;
  sget_sput_ne2 s (x : T1) : sget (T:=T2) (sput x s) = sget s;
}.

Definition gets {S T A} `{!Store S T} (f : T -> A) : M S A := fun s => Ok (f (sget s)) s.
Definition modify {S T} `{!Store S T} (f : T -> T) : M S unit :=
  fun s => Ok tt (sput (f (sget s)) s).

Section pair_stores.
Context {A B T : Type}.
#[global] Program Instance store_fst : Store (A * B) A := {|
  sget := fst; sput x s := (x, s.2) |}.
Solve All Obligations with (intros; by repeat match goal with p : (_ * _)%type |- _ => destruct p end).
#[global] Program Instance store_snd `{!Store B T} : Store (A * B) T | 10 := {|
  sget s := sget s.2; sput x s := (s.1, sput x s.2) |}.
Next Obligation. intros; cbn. apply sget_sput. Qed.
Next Obligation. intros ? [a b]; cbn. by rewrite sput_sget. Qed.
Next Obligation. intros; cbn. by rewrite sput_sput. Qed.

End pair_stores.

Section pair_separate.
Context {A B T T1 T2 : Type}.
#[global] Instance separate_fst `{!Store B T} : Separate (A * B) A T.
Proof. by split. Qed.
#[global] Instance separate_snd `{!Store B T1, !Store B T2, !Separate B T1 T2} :
  Separate (A * B) T1 T2 | 10.
Proof. split; intros; cbn; [apply sget_sput_ne1|apply sget_sput_ne2]. Qed.
End pair_separate.

(** ** The FRAME pallets: system, timestamp and sudo *)
Record Frame (E : Type) := MkFrame {
  events : list E;
  block_number : BlockNumber;
  extrinsic_index : option Z;
  now : Moment;
  sudo_key : AccountId;
}.
Arguments MkFrame {E}.
Arguments events {E}.
Arguments block_number {E}.
Arguments extrinsic_index {E}.
Arguments now {E}.
Arguments sudo_key {E}.
#[global] Instance Frame_settable E : Settable (Frame E) := fun f =>
  MkFrame (events f) (block_number f) (extrinsic_index f) (now f) (sudo_key f).

(** [From<Event<T>>] of a pallet's event into the runtime's event type. *)
Class Inject (Ev E : Type) := inject : Ev -> E.

Definition deposit_event {S E Ev} `{!Store S (Frame E), !Inject Ev E} (e : Ev) : M S unit :=
  modify (fun f : Frame E => f <| events ::= fun l => l ++ [inject e] |>).

Inductive origin :=
| Root
| Signed (who : AccountId)
| NoOrigin.
#[global] Instance origin_eq_dec : EqDecision origin.
Proof. solve_decision. Defined.

Definition ensure_root {S} (o : origin) : M S unit :=
  match o with Root => mret tt | _ => fail BadOrigin end.
Definition ensure_signed {S} (o : origin) : M S AccountId :=
  match o with Signed who => mret who | _ => fail BadOrigin end.

(** A storage map read with its default value. *)
Definition get_or `{Countable K} {V} (d : V) (m : gmap K V) (k : K) : V := default d (m !! k).

(** ** Weakest preconditions

    [wp m Q E P s]: from [s], [m] ends with [Ok] in [Q], with [Err] in [E], or
    panics when [P] allows it. *)
Definition wp {S A} (m : M S A) (Q : A -> S -> Prop) (E : error -> S -> Prop) (P : Prop)
    (s : S) : Prop :=
  match m s with Ok a s' => Q a s' | Err e s' => E e s' | Panic => P end.

Section wp_rules.
Context {S : Type}.
Implicit Types (E : error -> S -> Prop) (P : Prop) (s : S).

Lemma wp_ret {A} (a : A) (Q : A -> S -> Prop) E P s : wp (mret a) Q E P s = Q a s.
Proof. done. Qed.
Lemma wp_bind {A B} (m : M S A) (f : A -> M S B) (Q : B -> S -> Prop) E P s :
  wp (m ≫= f) Q E P s = wp m (fun a => wp (f a) Q E P) E P s.
Proof. unfold wp, mbind, M_bind. by destruct (m s). Qed.
Lemma wp_fail {A} e (Q : A -> S -> Prop) E P s : wp (fail e) Q E P s = E e s.
Proof. done. Qed.
Lemma wp_panic {A} (Q : A -> S -> Prop) E P s : wp panic Q E P s = P.
Proof. done. Qed.
Lemma wp_or_else {A} (m : M S A) h (Q : A -> S -> Prop) E P s :
  wp (or_else m h) Q E P s = wp m Q (fun e => wp (h e) Q E P) P s.
Proof. unfold wp, or_else. by destruct (m s). Qed.
Lemma wp_gets {T A} `{!Store S T} (f : T -> A) (Q : A -> S -> Prop) E P s :
  wp (gets f) Q E P s = Q (f (sget s)) s.
Proof. done. Qed.
Lemma wp_modify {T} `{!Store S T} (f : T -> T) Q E P s :
  wp (modify f) Q E P s = Q tt (sput (f (sget s)) s).
Proof. done. Qed.

Lemma wp_ensure b e (Q : unit -> S -> Prop) E P s :
  wp (ensure b e) Q E P s <-> (b = true -> Q tt s) /\ (b = false -> E (Msg e) s).
Proof. destruct b; cbn; naive_solver. Qed.
Lemma wp_ok_or {A} (o : option A) e (Q : A -> S -> Prop) E P s :
  wp (ok_or o e) Q E P s <->
  (forall a, o = Some a -> Q a s) /\ (o = None -> E (Msg e) s).
Proof. destruct o; cbn; naive_solver. Qed.
Lemma wp_lift {A} (o : option A) (Q : A -> S -> Prop) E P s :
  wp (lift o) Q E P s <-> (forall a, o = Some a -> Q a s) /\ (o = None -> P).
Proof. destruct o; cbn; naive_solver. Qed.
Lemma wp_lift_Some {A} (o : option A) a (Q : A -> S -> Prop) E P s :
  o = Some a -> Q a s -> wp (lift o) Q E P s.
Proof. by intros -> ?. Qed.

Lemma wp_mono {A} (m : M S A) (Q Q' : A -> S -> Prop) E E' (P P' : Prop) s :
  wp m Q E P s ->
  (forall a s', Q a s' -> Q' a s') -> (forall e s', E e s' -> E' e s') -> (P -> P') ->
  wp m Q' E' P' s.
Proof. unfold wp. destruct (m s); auto. Qed.

Lemma wp_conj {A} (m : M S A) (Q Q' : A -> S -> Prop) E E' P P' s :
  wp m Q E P s -> wp m Q' E' P' s ->
  wp m (fun a s' => Q a s' /\ Q' a s') (fun e s' => E e s' /\ E' e s') (P /\ P') s.
Proof. unfold wp. destruct (m s); auto. Qed.

(** From a weakest precondition to a run, and back. *)
Lemma wp_Ok {A} (m : M S A) (Q : A -> S -> Prop) E P s a s' :
  wp m Q E P s -> m s = Ok a s' -> Q a s'.
Proof. unfold wp. intros Hwp Hm. by rewrite Hm in Hwp. Qed.
Lemma wp_Err {A} (m : M S A) (Q : A -> S -> Prop) E P s e s' :
  wp m Q E P s -> m s = Err e s' -> E e s'.
Proof. unfold wp. intros Hwp Hm. by rewrite Hm in Hwp. Qed.
Lemma wp_Panic {A} (m : M S A) (Q : A -> S -> Prop) E P s :
  wp m Q E P s -> m s = Panic -> P.
Proof. unfold wp. intros Hwp Hm. by rewrite Hm in Hwp. Qed.
Lemma wp_run_Ok {A} (m : M S A) (Q : A -> S -> Prop) E P s a s' :
  m s = Ok a s' -> Q a s' -> wp m Q E P s.
Proof. unfold wp. by intros ->. Qed.
Lemma wp_run_Err {A} (m : M S A) (Q : A -> S -> Prop) E P s e s' :
  m s = Err e s' -> E e s' -> wp m Q E P s.
Proof. unfold wp. by intros ->. Qed.
Lemma wp_intro {A} (m : M S A) (Q : A -> S -> Prop) E P s :
  (forall a s', m s = Ok a s' -> Q a s') -> (forall e s', m s = Err e s' -> E e s') ->
  (m s = Panic -> P) -> wp m Q E P s.
Proof. unfold wp. destruct (m s); auto. Qed.

(** A state predicate kept by every element is kept by the loop. *)
Lemma wp_for_each {A} (f : A -> M S unit) (I : S -> Prop) E P l s :
  I s -> (forall x s, x ∈ l -> I s -> wp (f x) (fun _ => I) E P s) ->
  wp (for_each f l) (fun _ => I) E P s.
Proof.
  revert s. induction l as [|x l IH]; intros s Hs Hf; [done|].
  cbn. rewrite wp_bind. eapply wp_mono; [apply Hf; [set_solver|done]| |done|done].
  intros [] s' Hs'. apply IH; [done|]. intros; apply Hf; [set_solver|done].
Qed.
End wp_rules.

Lemma wp_ensure_root {S} o (Q : unit -> S -> Prop) E P s :
  wp (ensure_root o) Q E P s <-> (o = Root -> Q tt s) /\ (o <> Root -> E BadOrigin s).
Proof. destruct o; cbn; naive_solver. Qed.
Lemma wp_ensure_signed {S} o (Q : AccountId -> S -> Prop) E P s :
  wp (ensure_signed o) Q E P s <->
  (forall who, o = Signed who -> Q who s) /\ ((forall who, o <> Signed who) -> E BadOrigin s).
Proof. destruct o; cbn; naive_solver. Qed.

(** ** Arithmetic in handlers

    [owp o Q P]: the computation [o] gives a value in [Q], or panics when [P]
    allows it.  A result is exact when the build checks for overflow or when the
    numbers fit ([exact fits]); what is computed inexactly, or panics, shows that
    they do not fit. *)
Definition owp {A} (o : option A) (Q : A -> Prop) (P : Prop) : Prop :=
  match o with Some a => Q a | None => P end.

Lemma owp_Some {A} (a : A) (Q : A -> Prop) P : owp (Some a) Q P = Q a.
Proof. done. Qed.
Lemma owp_bind {A B} (o : option A) (f : A -> option B) Q P :
  owp (o ≫= f) Q P <-> owp o (fun a => owp (f a) Q P) P.
Proof. by destruct o. Qed.
Lemma owp_mono {A} (o : option A) (Q Q' : A -> Prop) (P P' : Prop) :
  owp o Q P -> (forall a, Q a -> Q' a) -> (P -> P') -> owp o Q' P'.
Proof. destruct o; cbn; auto. Qed.
Lemma wp_owp {S A} (o : option A) (Q : A -> S -> Prop) E P s :
  owp o (fun a => Q a s) P -> wp (lift o) Q E P s.
Proof. rewrite wp_lift. destruct o; cbn; naive_solver. Qed.
Lemma owp_udiv x y (Q : Z -> Prop) (P : Prop) :
  (y = 0 -> P) -> (y <> 0 -> Q (x / y)) -> owp (udiv x y) Q P.
Proof. intros H1 H2. unfold udiv. case_decide; cbn; auto. Qed.

Section exact.
Context `{!Overflow}.

Definition exact (fits : Prop) : Prop := overflow_checks = true \/ fits.

Lemma exact_mono (P Q : Prop) : exact P -> (P -> Q) -> exact Q.
Proof. unfold exact. tauto. Qed.

Lemma owp_arith (fits : Prop) w r (Q : Z -> Prop) :
  exact fits -> (fits -> in_width w r) -> (in_width w r -> Q r) -> owp (arith w r) Q (~ fits).
Proof.
  unfold exact, arith. intros Hx Hf HQ. case_decide as Hw; [by apply HQ|].
  destruct overflow_checks; cbn; [tauto|]. destruct Hx; [done|tauto].
Qed.
End exact.

(** ** Runs inside a relation

    [preserves R m]: whatever its outcome, [m] goes from a state to one related by
    [R]; with [R s s'] an implication this is an invariant. *)
Definition preserves {S A} (R : S -> S -> Prop) (m : M S A) : Prop :=
  forall s, wp m (fun _ s' => R s s') (fun _ s' => R s s') True s.

Section preserves.
Context {S : Type} (R : S -> S -> Prop) `{!PreOrder R}.

Lemma preserves_bind {A B} (m : M S A) (f : A -> M S B) :
  preserves R m -> (forall a, preserves R (f a)) -> preserves R (m ≫= f).
Proof.
  intros Hm Hf s. rewrite wp_bind. eapply wp_mono; [apply (Hm s)| |done|done]. intros a s1 H1.
  eapply wp_mono; [apply (Hf a s1)| | |done]; intros ? s2 H2; (etrans; [exact H1|exact H2]).
Qed.
Lemma preserves_ret {A} (a : A) : preserves R (mret a).
Proof. intros s. rewrite wp_ret. reflexivity. Qed.
Lemma preserves_fail {A} e : preserves R (fail (S:=S) (A:=A) e).
Proof. intros s. rewrite wp_fail. reflexivity. Qed.
Lemma preserves_panic {A} : preserves R (panic (S:=S) (A:=A)).
Proof. intros s. by rewrite wp_panic. Qed.
Lemma preserves_gets {T A} `{!Store S T} (f : T -> A) : preserves R (gets (S:=S) f).
Proof. intros s. rewrite wp_gets. reflexivity. Qed.
Lemma preserves_modify {T} `{!Store S T} (f : T -> T) :
  (forall s, R s (sput (f (sget s)) s)) -> preserves R (modify (S:=S) f).
Proof. intros Hf s. by rewrite wp_modify. Qed.
Lemma preserves_lift {A} (o : option A) : preserves R (lift (S:=S) o).
Proof. destruct o; [apply preserves_ret|apply preserves_panic]. Qed.
Lemma preserves_ok_or {A} (o : option A) e : preserves R (ok_or (S:=S) o e).
Proof. destruct o; [apply preserves_ret|apply preserves_fail]. Qed.
Lemma preserves_ensure b e : preserves R (ensure (S:=S) b e).
Proof. destruct b; [apply preserves_ret|apply preserves_fail]. Qed.
Lemma preserves_or_else {A} (m : M S A) h :
  preserves R m -> (forall e, preserves R (h e)) -> preserves R (or_else m h).
Proof.
  intros Hm Hh s. rewrite wp_or_else. eapply wp_mono; [apply (Hm s)|done| |done]. intros e s1 H1.
  eapply wp_mono; [apply (Hh e s1)| | |done]; intros ? s2 H2; (etrans; [exact H1|exact H2]).
Qed.
Lemma preserves_ignore (m : M S unit) : preserves R m -> preserves R (ignore m).
Proof. intros Hm. apply preserves_or_else; [done|]. intros e. apply preserves_ret. Qed.
Lemma preserves_unwrap {A} (m : M S A) : preserves R m -> preserves R (unwrap m).
Proof. intros Hm. apply preserves_or_else; [done|]. intros e. apply preserves_panic. Qed.
Lemma preserves_for_each {A} (f : A -> M S unit) l :
  (forall a, preserves R (f a)) -> preserves R (for_each f l).
Proof.
  intros Hf. induction l as [|a l IH]; cbn; [apply preserves_ret|].
  apply preserves_bind; [apply Hf|done].
Qed.
Lemma preserves_ensure_root o : preserves R (ensure_root (S:=S) o).
Proof. destruct o; [apply preserves_ret|apply preserves_fail|apply preserves_fail]. Qed.
Lemma preserves_ensure_signed o : preserves R (ensure_signed (S:=S) o).
Proof. destruct o; [apply preserves_fail|apply preserves_ret|apply preserves_fail]. Qed.
End preserves.

(** An equation between two continuations, after the same computation. *)
Lemma bind_ext_wp {S A B} (m : M S A) (f g : A -> M S B) s :
  wp m (fun a s' => f a s' = g a s') (fun _ _ => True) True s -> (m ≫= f) s = (m ≫= g) s.
Proof. unfold wp, mbind, M_bind. by destruct (m s). Qed.

Create HintDb preserves discriminated.
#[global] Hint Resolve preserves_ret preserves_fail preserves_panic preserves_gets preserves_lift
  preserves_ok_or preserves_ensure preserves_ignore preserves_unwrap preserves_for_each
  preserves_ensure_root preserves_ensure_signed : preserves.
#[global] Hint Extern 0 (PreOrder _) => typeclasses eauto : preserves.
(** Goes through a handler; leaves the writes and the calls without a hint. *)
Ltac preserves_steps := repeat first
  [ progress auto with preserves | simple apply preserves_bind; [typeclasses eauto|..|intros ?]
  | simple apply preserves_or_else; [typeclasses eauto|..|intros ?]
  | simple apply preserves_ignore; [typeclasses eauto|]
  | simple apply preserves_unwrap; [typeclasses eauto|]
  | simple apply preserves_for_each; [typeclasses eauto|intros ?]
  | match goal with |- preserves _ (match ?b with _ => _ end) => destruct b eqn:? end ].

(** ** Runs inside an invariant

    [typed I m Q]: whatever its outcome, [m] keeps [I], and a result is in [Q].  The
    rules follow the handler as a type system would. *)
Definition typed {S A} (I : S -> Prop) (m : M S A) (Q : A -> Prop) : Prop :=
  forall s, I s -> wp m (fun a s' => Q a /\ I s') (fun _ s' => I s') True s.

Section typed.
Context {S : Type} (I : S -> Prop).
#[local] Abbreviation any := (fun _ => True).

Lemma typed_bind {A B} (m : M S A) (f : A -> M S B) Q R :
  typed I m Q -> (forall a, Q a -> typed I (f a) R) -> typed I (m ≫= f) R.
Proof.
  intros Hm Hf s Hs. rewrite wp_bind. eapply wp_mono; [by apply Hm| |done|done].
  intros a s1 [Ha Hs1]. by apply Hf.
Qed.
Lemma typed_weaken {A} (m : M S A) (Q R : A -> Prop) :
  typed I m Q -> (forall a, Q a -> R a) -> typed I m R.
Proof.
  intros Hm Hi s Hs. eapply wp_mono; [by apply Hm| |done|done]. intros a s1 [Ha ?]. auto.
Qed.
Lemma typed_ret {A} (a : A) (Q : A -> Prop) : Q a -> typed I (mret a) Q.
Proof. intros Ha s Hs. by rewrite wp_ret. Qed.
Lemma typed_fail {A} e (Q : A -> Prop) : typed I (fail e) Q.
Proof. intros s Hs. by rewrite wp_fail. Qed.
Lemma typed_panic {A} (Q : A -> Prop) : typed I panic Q.
Proof. intros s Hs. by rewrite wp_panic. Qed.
Lemma typed_gets {T A} `{!Store S T} (f : T -> A) :
  typed I (gets f) (fun a => exists s, I s /\ a = f (sget s)).
Proof. intros s Hs. rewrite wp_gets. eauto. Qed.
Lemma typed_modify {T} `{!Store S T} (f : T -> T) :
  (forall s, I s -> I (sput (f (sget s)) s)) -> typed I (modify f) any.
Proof. intros Hf s Hs. rewrite wp_modify. auto. Qed.
Lemma typed_lift {A} (o : option A) : typed I (lift o) (fun a => o = Some a).
Proof. destruct o; [by apply typed_ret|apply typed_panic]. Qed.
Lemma typed_ensure b e : typed I (ensure b e) (fun _ => b = true).
Proof. destruct b; [by apply typed_ret|apply typed_fail]. Qed.
Lemma typed_ensure_root o : typed I (ensure_root o) (fun _ => o = Root).
Proof. destruct o; [by apply typed_ret|apply typed_fail|apply typed_fail]. Qed.
Lemma typed_ensure_signed o : typed I (ensure_signed o) (fun who => o = Signed who).
Proof. destruct o; [apply typed_fail|by apply typed_ret|apply typed_fail]. Qed.
Lemma typed_or_else {A} (m : M S A) h Q :
  typed I m Q -> (forall e, typed I (h e) Q) -> typed I (or_else m h) Q.
Proof.
  intros Hm Hh s Hs. rewrite wp_or_else. eapply wp_mono; [by apply Hm|done| |done].
  intros e s1 Hs1. by apply Hh.
Qed.
Lemma typed_ignore (m : M S unit) Q : typed I m Q -> typed I (ignore m) any.
Proof.
  intros Hm. apply typed_or_else; [by eapply typed_weaken|]. intros e. by apply typed_ret.
Qed.
Lemma typed_unwrap {A} (m : M S A) Q : typed I m Q -> typed I (unwrap m) Q.
Proof. intros Hm. apply typed_or_else; [done|]. intros e. apply typed_panic. Qed.
Lemma typed_for_each {A} (f : A -> M S unit) l :
  (forall a, typed I (f a) any) -> typed I (for_each f l) any.
Proof.
  intros Hf. induction l as [|a l IH]; cbn; [by apply typed_ret|].
  eapply typed_bind; [apply Hf|done].
Qed.
(** What an operation does not touch. *)
Lemma typed_preserves {A} (m : M S A) :
  preserves (fun s s' => I s -> I s') m -> typed I m any.
Proof. intros Hm s Hs. eapply wp_mono; [apply (Hm s)| | |done]; auto. Qed.
End typed.

(** The states that a computation leaves behind, with a result or an error. *)
Definition leads {S A} (m : M S A) (s s' : S) : Prop :=
  (exists a, m s = Ok a s') \/ exists e, m s = Err e s'.
Lemma leads_wp {S A} (m : M S A) (Q : S -> Prop) P s s' :
  leads m s s' -> wp m (fun _ => Q) (fun _ => Q) P s -> Q s'.
Proof. intros [[a Hr]|[e Hr]] Hm; [exact (wp_Ok _ _ _ _ _ _ _ Hm Hr)|exact (wp_Err _ _ _ _ _ _ _ Hm Hr)]. Qed.
Lemma preserves_leads {S A} (R : S -> S -> Prop) (m : M S A) s s' :
  preserves R m -> leads m s s' -> R s s'.
Proof. intros Hm Hr. exact (leads_wp m (R s) True s s' Hr (Hm s)). Qed.
Lemma typed_leads {S A} (I : S -> Prop) (m : M S A) Q s s' :
  typed I m Q -> I s -> leads m s s' -> I s'.
Proof.
  intros Hm Hs Hr. eapply leads_wp; [exact Hr|].
  eapply wp_mono; [exact (Hm s Hs)| |done|done]. by intros a s1 [_ ?].
Qed.

Create HintDb typed discriminated.
#[global] Hint Resolve typed_fail typed_panic typed_gets typed_lift typed_ensure typed_ensure_root
  typed_ensure_signed : typed.
#[global] Hint Extern 2 (typed _ (ignore _) _) => eapply typed_ignore : typed.
#[global] Hint Extern 2 (typed _ (unwrap _) _) => eapply typed_unwrap : typed.
(** Goes through a handler; leaves the writes, the results and the calls without a
    hint. *)
Ltac typed_step :=
  lazymatch goal with
  | |- typed _ (_ ≫= _) _ => eapply typed_bind; [solve [eauto with typed]|]
  | |- typed _ (mret _) _ => apply typed_ret
  | |- typed _ (fail _) _ => apply typed_fail
  | |- typed _ panic _ => apply typed_panic
  | |- typed _ (match ?b with _ => _ end) _ => destruct b eqn:?
  | |- typed _ _ (fun _ => True) => eapply typed_weaken; [solve [eauto with typed]|done]
  | |- typed _ _ _ => solve [eauto with typed]
  | |- forall _ : unit, _ -> typed _ _ _ => intros [] ?
  | |- forall _, (exists _, _ /\ _ = _) -> typed _ _ _ => intros ? (? & ? & ->)
  | |- forall _, _ -> typed _ _ _ => intros ? ?
  end; cbv beta.
Ltac typed_steps := repeat typed_step.

#[global] Opaque wp.

(** ** Automation *)
Ltac store :=
  repeat first [rewrite sget_sput | rewrite sget_sput_ne1 | rewrite sget_sput_ne2];
  cbv beta; fields.
Ltac store_in H :=
  repeat first [rewrite sget_sput in H | rewrite sget_sput_ne1 in H
               | rewrite sget_sput_ne2 in H];
  cbv beta in H; fields_in H.

(** One symbolic step of a straight-line handler. *)
Ltac wp_step :=
  lazymatch goal with
  | |- wp (_ ≫= _) _ _ _ _ => rewrite wp_bind
  | |- wp (mret _) _ _ _ _ => rewrite wp_ret
  | |- wp (fail _) _ _ _ _ => rewrite wp_fail
  | |- wp panic _ _ _ _ => rewrite wp_panic
  | |- wp (or_else _ _) _ _ _ _ => rewrite wp_or_else
  | |- wp (ignore _) _ _ _ _ => unfold ignore; rewrite wp_or_else
  | |- wp (unwrap _) _ _ _ _ => unfold unwrap; rewrite wp_or_else
  | |- wp (gets _) _ _ _ _ => rewrite wp_gets; store
  | |- wp (modify _) _ _ _ _ => rewrite wp_modify; store
  | |- wp (deposit_event _) _ _ _ _ => unfold deposit_event; rewrite wp_modify; store
  | |- wp (ensure _ _) _ _ _ _ => apply wp_ensure; split; intros ?
  | |- wp (ok_or _ _) _ _ _ _ => apply wp_ok_or; split; [intros ? ?|intros ?]
  | |- wp (ensure_root _) _ _ _ _ => apply wp_ensure_root; split; intros ?
  | |- wp (ensure_signed _) _ _ _ _ => apply wp_ensure_signed; split; [intros ? ?|intros ?]
  | |- wp (if ?b then _ else _) _ _ _ _ => destruct b eqn:?
  | |- wp (match ?b with _ => _ end) _ _ _ _ => destruct b eqn:?
  end; cbv beta.
Ltac wp_steps := repeat wp_step.
Tactic Notation "wp_apply" uconstr(H) := eapply wp_mono; [eapply H| | | ]; cbv beta.

(** One step of an exact computation; leaves what has to fit. *)
Ltac owp_step Hx :=
  lazymatch goal with
  | |- owp (_ ≫= _) _ _ => apply owp_bind
  | |- owp (mret _) _ _ => cbn [owp mret option_ret]
  | |- owp (udiv _ _) _ _ => apply owp_udiv; [intros ?|intros ?]
  | |- owp _ _ (~ ?fits) => apply (owp_arith fits); [exact Hx|intros ?|intros ?]
  end; cbv beta.

(** [support::traits::WithdrawReason] and sets of them. *)
Inductive WithdrawReason := TransactionPayment | Transfer | Reserve | Fee | Tip.
#[global] Instance WithdrawReason_eq_dec : EqDecision WithdrawReason.
Proof. solve_decision. Defined.
Definition WithdrawReasons : Type := list WithdrawReason.
Definition reasons_contains (rs : WithdrawReasons) (r : WithdrawReason) : bool :=
  bool_decide (r ∈ rs).

(** Unfolding of the monad, for equations between runs. *)
Ltac run :=
  unfold deposit_event, ignore, unwrap, ensure_root, ensure_signed, gets, modify, ensure, ok_or,
    lift, or_else, fail, panic, mbind, M_bind, mret, M_ret; cbv beta.
