(* ===== verification/Ledger.v ===== *)
(** * The interface of the asset ledger

    What [rio-assets] promises to the pallets built on it ([rio-bridge],
    [rio-loan]): the operations they call ([Ledger]) and the laws they rely on
    ([LedgerSpec]).  The client pallets are modelled and proved against this
    interface; [AssetsLedger.v] shows that [rio-assets] implements it. *)
From S2P Require Export Frame.
#[local] Open Scope Z_scope.

(** ** The operations *)
Class Ledger (S : Type) := {
  balance_of : AssetId -> AccountId -> S -> Balance;
  issuance_of : AssetId -> S -> Balance;
  make_transfer_with_event : AssetId -> AccountId -> AccountId -> Balance -> M S unit;
  mint : origin -> AssetId -> AccountId -> Balance -> M S unit;
  burn : origin -> AssetId -> AccountId -> Balance -> M S unit;

  (** Whether the asset can be transferred, minted by root, burnt by root. *)
  transferable : AssetId -> S -> bool;
  mintable : AssetId -> S -> bool;
  burnable : AssetId -> S -> bool;
  (** The error of a failing operation. *)
  transfer_err : AssetId -> AccountId -> Balance -> S -> option error;
  mint_err : AssetId -> Balance -> S -> option error;
  burn_err : AssetId -> AccountId -> Balance -> S -> option error;
  (** The well-formed ledgers, and the states that hold the same ledger. *)
  ledger_inv : S -> Prop;
  same_ledger : S -> S -> Prop;
  (** The storage that the ledger does not write. *)
  foreign : forall T, Store S T -> Prop;
}.

(** The events of the ledger, among those of the runtime. *)
Class LedgerEvents (E : Type) := ledger_event : E -> Prop.

(** [<rio_assets::Module<T>>::free_balance]. *)
Definition free_balance_of {S} `{!Ledger S} (a : AssetId) (who : AccountId) : M S Balance :=
  fun s => Ok (balance_of a who s) s.

Lemma free_balance_wp {S} `{!Ledger S} a w (Q : Balance -> S -> Prop) E P s :
  Q (balance_of a w s) s -> wp (free_balance_of a w) Q E P s.
Proof. intros HQ. by eapply wp_run_Ok. Qed.
Lemma preserves_free_balance {S} `{!Ledger S} R `{!PreOrder R} a w :
  preserves R (free_balance_of (S:=S) a w).
Proof. intros s. by apply free_balance_wp. Qed.
#[global] Hint Resolve preserves_free_balance : preserves.

(** ** The effect of an operation

    [ledger_change d i s s']: the balances changed by [d], the issuance by [i],
    events of the ledger were deposited, and nothing else changed. *)
Section effect.
Context {S E : Type} `{!Store S (Frame E), !Ledger S, !LedgerEvents E}.

Definition same_frame (s s' : S) : Prop :=
  let f := sget (T:=Frame E) s in let f' := sget (T:=Frame E) s' in
  block_number f' = block_number f /\ extrinsic_index f' = extrinsic_index f /\
  now f' = now f /\ sudo_key f' = sudo_key f.

(** What every run of an operation keeps. *)
Definition ledger_only (s s' : S) : Prop :=
  same_frame s s' /\ forall T `(Hst : !Store S T), foreign T Hst -> sget (T:=T) s' = sget s.
Definition keeps_others {A} (m : M S A) : Prop := preserves ledger_only m.

Record ledger_change (d : AssetId -> AccountId -> Z) (i : AssetId -> Z) (s s' : S) : Prop := {
  lc_balance a w : balance_of a w s' = balance_of a w s + d a w;
  lc_issuance a : issuance_of a s' = issuance_of a s + i a;
  lc_inv : ledger_inv s';
  lc_transferable a : transferable a s' = transferable a s;
  lc_mintable a : mintable a s' = mintable a s;
  lc_burnable a : burnable a s' = burnable a s;
  lc_frame : same_frame s s';
  lc_events : exists l, events (sget (T:=Frame E) s') = events (sget (T:=Frame E) s) ++ l /\
    Forall ledger_event l;
  lc_foreign T `(Hst : !Store S T) : foreign T Hst -> sget (T:=T) s' = sget s;
}.
End effect.

(** One account of one asset. *)
Definition at_account (a : AssetId) (w : AccountId) (x : Z) : AssetId -> AccountId -> Z :=
  fun b v => if decide (b = a /\ v = w) then x else 0.
Definition at_asset (a : AssetId) (x : Z) : AssetId -> Z :=
  fun b => if decide (b = a) then x else 0.

(** ** The laws *)
Class LedgerSpec (S E : Type) `{!Store S (Frame E), !Ledger S, !LedgerEvents E} : Prop := {
  same_ledger_equiv :: Equivalence (same_ledger (S:=S));
  balance_of_proper a w :: Proper (same_ledger ==> eq) (balance_of a w);
  issuance_of_proper a :: Proper (same_ledger ==> eq) (issuance_of a);
  ledger_inv_proper :: Proper (same_ledger ==> iff) ledger_inv;
  transferable_proper a :: Proper (same_ledger ==> eq) (transferable a);
  mintable_proper a :: Proper (same_ledger ==> eq) (mintable a);
  burnable_proper a :: Proper (same_ledger ==> eq) (burnable a);
  transfer_err_proper a w x :: Proper (same_ledger ==> eq) (transfer_err a w x);
  mint_err_proper a x :: Proper (same_ledger ==> eq) (mint_err a x);
  burn_err_proper a w x :: Proper (same_ledger ==> eq) (burn_err a w x);

  (** Writing another pallet's storage or an event keeps the ledger. *)
  same_ledger_foreign T `(Hst : !Store S T) x s : foreign T Hst -> same_ledger (sput x s) s;
  same_ledger_frame (f : Frame E) s :
    sudo_key f = sudo_key (sget (T:=Frame E) s) -> same_ledger (sput f s) s;

  balance_nonneg a w s : ledger_inv s -> 0 <= balance_of a w s;
  balance_le_issuance a w s : ledger_inv s -> balance_of a w s <= issuance_of a s;
  balance_pair_le_issuance a w w' s :
    ledger_inv s -> w <> w' -> balance_of a w s + balance_of a w' s <= issuance_of a s;
  balances_sum_le_issuance a l s :
    ledger_inv s -> NoDup l -> foldr (fun w sum => balance_of a w s + sum) 0 l <= issuance_of a s;
  issuance_width a s : ledger_inv s -> in_width balance_bits (issuance_of a s);

  transfer_keeps a from to x : keeps_others (E:=E) (make_transfer_with_event a from to x);
  mint_keeps a to x : keeps_others (E:=E) (mint Root a to x);
  burn_keeps a to x : keeps_others (E:=E) (burn Root a to x);
  transfer_err_None a w x s :
    transfer_err a w x s = None <-> transferable a s = true /\ x <= balance_of a w s;
  mint_err_None a x s :
    mint_err a x s = None <-> mintable a s = true /\ issuance_of a s + x < 2 ^ balance_bits;
  burn_err_None a w x s :
    ledger_inv s -> burn_err a w x s = None <-> burnable a s = true /\ x <= balance_of a w s;
  transfer_spec a from to x s :
    ledger_inv s -> 0 <= x ->
    wp (make_transfer_with_event a from to x)
      (fun _ s' => transfer_err a from x s = None /\
         ledger_change (fun b v => at_account a to x b v - at_account a from x b v) (fun _ => 0)
           s s')
      (fun e s' => transfer_err a from x s = Some e /\ s' = s) False s;
  mint_spec a to x s :
    ledger_inv s -> 0 <= x ->
    wp (mint Root a to x)
      (fun _ s' => mint_err a x s = None /\
         ledger_change (at_account a to x) (at_asset a x) s s')
      (fun e s' => mint_err a x s = Some e /\ s' = s) False s;
  burn_spec a to x s :
    ledger_inv s -> 0 <= x ->
    wp (burn Root a to x)
      (fun _ s' => burn_err a to x s = None /\
         ledger_change (at_account a to (- x)) (at_asset a (- x)) s s')
      (fun e s' => burn_err a to x s = Some e /\ s' = s) False s;
}.
