(* ===== verification/Client.v ===== *)
(** * Clients of the ledger: the effect of a call

    A pallet built on the ledger has a storage of its own and deposits events of
    its own; [effect] says what one of its calls did to the ledger, to that
    storage and to those events, and composes along the steps of the call. *)
From S2P Require Export Ledger.
#[local] Open Scope Z_scope.

(** Reading the client's events back from the runtime's. *)
Class EventLog (Ev E : Type) `{!Inject Ev E, !LedgerEvents E} := {
  event_of : E -> option Ev;
  event_of_inject e : event_of (inject e) = Some e;
  event_of_ledger e : ledger_event e -> event_of e = None;
}.

Section effects.
Context {S E T Ev : Type} `{!Store S (Frame E), !Store S T, !Inject Ev E}.
Context `{!Separate S (Frame E) T}.
Context `{!Ledger S, !LedgerEvents E, !LedgerSpec S E, !EventLog Ev E}.
Context (Hforeign : foreign T _).
Implicit Types (s : S) (st : T).
#[local] Abbreviation cst := (sget (T:=T)).
#[local] Abbreviation fr := (sget (T:=Frame E)).

Definition client_log s : list Ev := omap event_of (events (fr s)).

Lemma same_frame_refl s : same_frame (E:=E) s s.
Proof. done. Qed.
Lemma same_frame_trans s1 s2 s3 :
  same_frame (E:=E) s1 s2 -> same_frame (E:=E) s2 s3 -> same_frame (E:=E) s1 s3.
Proof. unfold same_frame. intros (? & ? & ? & ?) (? & ? & ? & ?). split_and!; congruence. Qed.

(** What a call did: the balances changed by [d], the issuance by [i], the
    client holds [st'] and deposited the events [l], in that order. *)
Record effect (d : AssetId -> AccountId -> Z) (i : AssetId -> Z) (st' : T)
    (l : list Ev) (s s' : S) : Prop := {
  be_balance a w : balance_of a w s' = balance_of a w s + d a w;
  be_issuance a : issuance_of a s' = issuance_of a s + i a;
  be_inv : ledger_inv s';
  be_transferable a : transferable a s' = transferable a s;
  be_mintable a : mintable a s' = mintable a s;
  be_burnable a : burnable a s' = burnable a s;
  be_frame : same_frame (E:=E) s s';
  be_store : cst s' = st';
  be_log : client_log s' = client_log s ++ l;
}.

Lemma be_same st' s s' :
  ledger_inv s -> same_ledger s' s -> same_frame (E:=E) s s' -> cst s' = st' ->
  client_log s' = client_log s ->
  effect (fun _ _ => 0) (fun _ => 0) st' [] s s'.
Proof.
  intros Hi Hs Hfr Hb Hl. split; intros; rewrite ?Hs, ?Z.add_0_r, ?app_nil_r; done.
Qed.

Lemma be_write st' s :
  ledger_inv s -> effect (fun _ _ => 0) (fun _ => 0) st' [] s (sput st' s).
Proof.
  intros Hi. apply be_same; [done|by apply same_ledger_foreign|unfold same_frame; by store|by store|].
  unfold client_log. by store.
Qed.

Lemma be_event (e : Ev) s :
  ledger_inv s ->
  effect (fun _ _ => 0) (fun _ => 0) (cst s) [e] s
    (sput ((fr s) <| events := events (fr s) ++ [inject e] |>) s).
Proof.
  intros Hi.
  assert (same_ledger (sput ((fr s) <| events := events (fr s) ++ [inject e] |>) s) s) as Hs
    by (by apply same_ledger_frame).
  split; intros; rewrite ?Hs, ?Z.add_0_r; try done; [unfold same_frame; by store|by store|].
  unfold client_log. store. rewrite omap_app. cbn. by rewrite event_of_inject.
Qed.

Lemma be_ledger d i s s' :
  ledger_change (E:=E) d i s s' -> effect d i (cst s) [] s s'.
Proof.
  intros []. split; try done; [by apply lc_foreign|]. unfold client_log.
  destruct lc_events as (l & -> & Hl). rewrite omap_app. f_equal.
  induction Hl as [|e l He _ IH]; [done|]. cbn. by rewrite event_of_ledger, IH.
Qed.

Lemma be_trans d1 i1 st1 l1 d2 i2 st2 l2 s s1 s2 :
  effect d1 i1 st1 l1 s s1 -> effect d2 i2 st2 l2 s1 s2 ->
  effect (fun a w => d1 a w + d2 a w) (fun a => i1 a + i2 a) st2 (l1 ++ l2) s s2.
Proof.
  intros [] []. split; intros; try congruence.
  - rewrite be_balance1, be_balance0. lia.
  - rewrite be_issuance1, be_issuance0. lia.
  - by eapply same_frame_trans.
  - by rewrite be_log1, be_log0, app_assoc.
Qed.

Lemma be_eq d i l d' i' l' st' s s' :
  effect d i st' l s s' -> (forall a w, d a w = d' a w) -> (forall a, i a = i' a) ->
  l = l' -> effect d' i' st' l' s s'.
Proof.
  intros [] Hd Hi <-. split; intros; rewrite <-?Hd, <-?Hi; done.
Qed.

(** The steps of a call, each extending an effect. *)
Definition no_change : AssetId -> AccountId -> Z := fun _ _ => 0.
Definition no_issue : AssetId -> Z := fun _ => 0.

Lemma be_refl s : ledger_inv s -> effect no_change no_issue (cst s) [] s s.
Proof. intros Hi. by apply be_same. Qed.

Lemma be_step_write st' d i st l s s1 :
  effect d i st l s s1 -> effect d i st' l s (sput st' s1).
Proof.
  intros H. pose proof (be_write st' s1 (be_inv _ _ _ _ _ _ H)) as H1.
  pose proof (be_trans _ _ _ _ _ _ _ _ _ _ _ H H1) as H2.
  eapply be_eq; [exact H2|intros; cbv beta; lia..|by rewrite app_nil_r].
Qed.

Lemma be_step_event d i st l s s1 f (e : Ev) :
  effect d i st l s s1 -> f = fr s1 ->
  effect d i st (l ++ [e]) s (sput (f <| events ::= fun l => l ++ [inject e] |>) s1).
Proof.
  intros H ->. pose proof (be_event e s1 (be_inv _ _ _ _ _ _ H)) as H1.
  pose proof (be_trans _ _ _ _ _ _ _ _ _ _ _ H H1) as H2.
  rewrite (be_store _ _ _ _ _ _ H) in *.
  eapply be_eq; [exact H2|intros; cbv beta; lia..|done].
Qed.

Lemma be_step_ledger d i d' i' st l s s1 s2 :
  effect d i st l s s1 -> ledger_change (E:=E) d' i' s1 s2 ->
  effect (fun a w => d a w + d' a w) (fun a => i a + i' a) st l s s2.
Proof.
  intros H Hc. apply be_ledger in Hc. rewrite (be_store _ _ _ _ _ _ H) in Hc.
  pose proof (be_trans _ _ _ _ _ _ _ _ _ _ _ H Hc) as H2. by rewrite app_nil_r in H2.
Qed.


(** *** The operations of the ledger, on top of an effect *)
Definition move (a : AssetId) (from to : AccountId) (x : Balance) : AssetId -> AccountId -> Z :=
  fun b v => at_account a to x b v - at_account a from x b v.
Definition plus (d d' : AssetId -> AccountId -> Z) : AssetId -> AccountId -> Z :=
  fun b v => d b v + d' b v.
Definition plus_issue (i i' : AssetId -> Z) : AssetId -> Z := fun b => i b + i' b.

Section steps.
Context (d : AssetId -> AccountId -> Z) (i : AssetId -> Z) (st : T) (l : list Ev) (s s1 : S).
Context (H : effect d i st l s s1).

Lemma eff_balance a w : balance_of a w s1 = balance_of a w s + d a w.
Proof. apply H. Qed.

Lemma eff_transfer a from to x :
  0 <= x ->
  wp (make_transfer_with_event a from to x)
    (fun _ s2 => transfer_err a from x s1 = None /\ effect (plus d (move a from to x)) i st l s s2)
    (fun e s2 => transfer_err a from x s1 = Some e /\ s2 = s1) False s1.
Proof.
  intros Hx. wp_apply (transfer_spec a from to x s1); [apply H|done| |done|done].
  intros [] s2 [He Hc]. split; [done|].
  eapply be_eq; [by eapply be_step_ledger|done|intros; cbv beta; lia|done].
Qed.
Lemma eff_mint a to x :
  0 <= x ->
  wp (mint Root a to x)
    (fun _ s2 => mint_err a x s1 = None /\
       effect (plus d (at_account a to x)) (plus_issue i (at_asset a x)) st l s s2)
    (fun e s2 => mint_err a x s1 = Some e /\ s2 = s1) False s1.
Proof.
  intros Hx. wp_apply (mint_spec a to x s1); [apply H|done| |done|done].
  intros [] s2 [He Hc]. split; [done|].
  eapply be_eq; [by eapply be_step_ledger|done|done|done].
Qed.
Lemma eff_burn a to x :
  0 <= x ->
  wp (burn Root a to x)
    (fun _ s2 => burn_err a to x s1 = None /\
       effect (plus d (at_account a to (- x))) (plus_issue i (at_asset a (- x))) st l s s2)
    (fun e s2 => burn_err a to x s1 = Some e /\ s2 = s1) False s1.
Proof.
  intros Hx. wp_apply (burn_spec a to x s1); [apply H|done| |done|done].
  intros [] s2 [He Hc]. split; [done|].
  eapply be_eq; [by eapply be_step_ledger|done|done|done].
Qed.

(** Where the funds are there, the operation succeeds. *)
Lemma eff_transfer_ok a from to x :
  0 <= x -> transferable a s = true -> x <= balance_of a from s + d a from ->
  wp (make_transfer_with_event a from to x)
    (fun _ s2 => effect (plus d (move a from to x)) i st l s s2) (fun _ _ => False) False s1.
Proof.
  intros Hx Ht Hb. wp_apply (eff_transfer a from to x); [done|by intros [] s2 [_ ?]| |done].
  intros e s2 [He _].
  assert (transfer_err a from x s1 = None) as Hn; [|congruence].
  apply (transfer_err_None (E:=E)). rewrite eff_balance, (be_transferable _ _ _ _ _ _ H). done.
Qed.
Lemma eff_burn_ok a to x :
  0 <= x -> burnable a s = true -> x <= balance_of a to s + d a to ->
  wp (burn Root a to x)
    (fun _ s2 => effect (plus d (at_account a to (- x))) (plus_issue i (at_asset a (- x))) st l s s2)
    (fun _ _ => False) False s1.
Proof.
  intros Hx Ht Hb. wp_apply (eff_burn a to x); [done|by intros [] s2 [_ ?]| |done].
  intros e s2 [He _].
  assert (burn_err a to x s1 = None) as Hn; [|congruence].
  apply (burn_err_None (E:=E)); [apply H|]. rewrite eff_balance, (be_burnable _ _ _ _ _ _ H). done.
Qed.

(** A successful transfer had the funds. *)
Lemma eff_transfer_None a from x :
  transfer_err a from x s1 = None ->
  transferable a s = true /\ x <= balance_of a from s + d a from.
Proof.
  intros [Ht Hb]%(transfer_err_None (E:=E)).
  by rewrite eff_balance in Hb; rewrite (be_transferable _ _ _ _ _ _ H) in Ht.
Qed.

(** A refused transfer was restricted or short of funds. *)
Lemma eff_transfer_Some a from x e :
  transfer_err a from x s1 = Some e ->
  transferable a s = false \/ balance_of a from s + d a from < x.
Proof.
  intros He. rewrite <-(be_transferable _ _ _ _ _ _ H), <-eff_balance.
  destruct (transferable a s1) eqn:Ht; [right|by left].
  apply Z.lt_nge. intros Hb.
  assert (transfer_err a from x s1 = None) as Hn by (by apply (transfer_err_None (E:=E))).
  congruence.
Qed.

Lemma eff_write st' : effect d i st' l s (sput st' s1).
Proof. by eapply be_step_write. Qed.
Lemma eff_event f (e : Ev) :
  f = fr s1 -> effect d i st (l ++ [e]) s (sput (f <| events ::= fun l => l ++ [inject e] |>) s1).
Proof. by apply be_step_event. Qed.
Lemma eff_store : cst s1 = st.
Proof. apply H. Qed.
Lemma eff_now : now (fr s1) = now (fr s).
Proof. apply H. Qed.
End steps.
End effects.

(** Balances that changed at given accounts. *)
Ltac account_cases :=
  unfold plus, move, at_account, no_change in *; repeat case_decide; destruct_and?; subst;
  first [lia | exfalso; tauto].
