(* ===== verification/Assets.v ===== *)
(** * The asset ledger: [modules/rio-assets/src/lib.rs], with its permissions,
    attributes, hooks and protocol constants

    The storage of the pallet is [AssetsStore]; each dispatchable and each
    internal routine is a definition of the same name.  Logging is left out. *)
From S2P Require Export Frame.
#[local] Open Scope Z_scope.

(** ** [protocol.rs] *)
Definition RFUEL : AssetId := 0.
Definition LOCKED_RFUEL : AssetId := 1.
Definition SBTC : AssetId := 10.
Definition SUSDT : AssetId := 11.
Definition SETH : AssetId := 12.

(** ** [attributes.rs] and [permissions.rs] *)
Inductive Owner :=
| OwnerNone
| OwnerAddress (a : AccountId).
#[global] Instance Owner_eq_dec : EqDecision Owner.
Proof. solve_decision. Defined.

Record PermissionsV1 := MkPermissionsV1 {
  perm_update : Owner;
  perm_mint : Owner;
  perm_burn : Owner;
}.
Abbreviation PermissionLatest := PermissionsV1.

Inductive PermissionVersions := V1 (p : PermissionsV1).

Inductive PermissionType := PermBurn | PermMint | PermUpdate.

Definition PermissionsV1_default : PermissionsV1 := MkPermissionsV1 OwnerNone OwnerNone OwnerNone.
Definition PermissionVersions_default : PermissionVersions := V1 PermissionsV1_default.

Definition into_latest (v : PermissionVersions) : PermissionLatest :=
  match v with V1 p => p end.
Definition into_versions (p : PermissionLatest) : PermissionVersions := V1 p.

Inductive Restriction := Transferable.
#[global] Instance Restriction_eq_dec : EqDecision Restriction.
Proof. solve_decision. Defined.
#[global] Program Instance Restriction_countable : Countable Restriction := {|
  encode _ := 1%positive; decode _ := Some Transferable |}.
Next Obligation. by intros []. Qed.

Record AssetOptions := MkAssetOptions {
  initial_issuance : Balance;
  permissions : PermissionLatest;
}.

(** ** Storage and events *)
Record AssetsStore := MkAssetsStore {
  TotalIssuance : gmap AssetId Balance;
  FreeBalance : gmap (AssetId * AccountId) Balance;
  ReservedBalance : gmap (AssetId * AccountId) Balance;
  Permissions : gmap AssetId PermissionVersions;
  Restrictions : gmap AssetId (gset Restriction);
  Symbols : gmap AssetId (list Byte.byte);
  FromId : option AssetId;
  ToId : option AssetId;
}.
#[global] Instance AssetsStore_settable : Settable AssetsStore := fun st =>
  MkAssetsStore (TotalIssuance st) (FreeBalance st) (ReservedBalance st) (Permissions st)
    (Restrictions st) (Symbols st) (FromId st) (ToId st).

Definition AssetsStore_empty : AssetsStore := MkAssetsStore ∅ ∅ ∅ ∅ ∅ ∅ None None.

Inductive AssetsEvent :=
| Created (a : AssetId) (who : AccountId) (o : AssetOptions)
| Transferred (a : AssetId) (from to : AccountId) (amount : Balance)
| PermissionUpdated (a : AssetId) (p : PermissionLatest)
| Minted (a : AssetId) (who : AccountId) (amount : Balance)
| Burned (a : AssetId) (who : AccountId) (amount : Balance).

(** The getters of the storage. *)
Definition total_issuance (a : AssetId) (st : AssetsStore) : Balance :=
  get_or 0 (TotalIssuance st) a.
Definition free_balance (a : AssetId) (who : AccountId) (st : AssetsStore) : Balance :=
  get_or 0 (FreeBalance st) (a, who).
Definition reserved_balance (a : AssetId) (who : AccountId) (st : AssetsStore) : Balance :=
  get_or 0 (ReservedBalance st) (a, who).
Definition total_balance (a : AssetId) (who : AccountId) (st : AssetsStore) : Balance :=
  free_balance a who st.
Definition get_permission (a : AssetId) (st : AssetsStore) : PermissionVersions :=
  get_or PermissionVersions_default (Permissions st) a.
Definition get_restrictions (a : AssetId) (st : AssetsStore) : gset Restriction :=
  get_or ∅ (Restrictions st) a.
Definition asset_exists (a : AssetId) (st : AssetsStore) : bool :=
  bool_decide (is_Some (Symbols st !! a)).

(** ** [traits.rs]: the event hooks of the configuration *)
Class BeforeAssetTransfer (S : Type) :=
  before_asset_transfer : AssetId -> AccountId -> AccountId -> Balance -> M S unit.
Class OnAssetTransfer (S : Type) :=
  on_asset_transfer : AssetId -> AccountId -> AccountId -> Balance -> M S unit.
Class BeforeAssetMint (S : Type) :=
  before_asset_mint : AssetId -> AccountId -> Balance -> M S unit.
Class OnAssetMint (S : Type) :=
  on_asset_mint : AssetId -> AccountId -> Balance -> M S unit.
Class BeforeAssetBurn (S : Type) :=
  before_asset_burn : AssetId -> AccountId -> Balance -> M S unit.
Class OnAssetBurn (S : Type) :=
  on_asset_burn : AssetId -> AccountId -> Balance -> M S unit.

(** The empty implementations for [()]. *)
Module NoHooks.
Definition before_transfer {S} : BeforeAssetTransfer S := fun _ _ _ _ => mret tt.
Definition on_transfer {S} : OnAssetTransfer S := fun _ _ _ _ => mret tt.
Definition before_mint {S} : BeforeAssetMint S := fun _ _ _ => mret tt.
Definition on_mint {S} : OnAssetMint S := fun _ _ _ => mret tt.
Definition before_burn {S} : BeforeAssetBurn S := fun _ _ _ => mret tt.
Definition on_burn {S} : OnAssetBurn S := fun _ _ _ => mret tt.
#[export] Existing Instances before_transfer on_transfer before_mint on_mint
  before_burn on_burn | 100.
End NoHooks.

(** ** Operations *)
Module RioAssets.
Section operations.
Context {S E : Type} `{!Overflow}.
Context `{!Store S (Frame E), !Store S AssetsStore, !Inject AssetsEvent E}.

Definition root_key : M S AccountId := gets (fun f : Frame E => sudo_key f).

Definition should_not_exist (a : AssetId) : M S unit :=
  b ← gets (asset_exists a); ensure (negb b) "AssetId is exist.".
Definition should_exist (a : AssetId) : M S unit :=
  b ← gets (asset_exists a); ensure b "AssetId is not exist.".

Definition set_free_balance (a : AssetId) (who : AccountId) (b : Balance) : M S unit :=
  modify (fun st => st <| FreeBalance ::= <[(a, who) := b]> |>).
Definition set_reserved_balance (a : AssetId) (who : AccountId) (b : Balance) : M S unit :=
  modify (fun st => st <| ReservedBalance ::= <[(a, who) := b]> |>).
Definition set_total_issuance (a : AssetId) (b : Balance) : M S unit :=
  modify (fun st => st <| TotalIssuance ::= <[a := b]> |>).

Definition create_asset (asset_id : AssetId) (symbol : list Byte.byte)
    (from_account : option AccountId) (options : AssetOptions) : M S unit :=
  should_not_exist asset_id ;;
  let account_id := default default_account from_account in
  let perms := into_versions (permissions options) in
  set_total_issuance asset_id (initial_issuance options) ;;
  set_free_balance asset_id account_id (initial_issuance options) ;;
  modify (fun st => st <| Permissions ::= <[asset_id := perms]> |>) ;;
  modify (fun st => st <| Symbols ::= <[asset_id := symbol]> |>) ;;
  deposit_event (Created asset_id account_id options).

Definition can_do (asset_id : AssetId) (r : Restriction) : M S unit :=
  rs ← gets (get_restrictions asset_id);
  if bool_decide (r ∈ rs) then fail (Msg "The asset is restricted for this action.")
  else mret tt.

Definition ensure_can_withdraw (asset_id : AssetId) (_who : AccountId) (_amount : Balance)
    (reasons : WithdrawReasons) (_new_balance : Balance) : M S unit :=
  (if reasons_contains reasons Transfer then can_do asset_id Transferable else mret tt) ;;
  mret tt.

Definition make_transfer (asset_id : AssetId) (from to : AccountId) (amount : Balance)
    : M S unit :=
  should_exist asset_id ;;
  free ← gets (free_balance asset_id from);
  new_balance ← ok_or (checked_sub balance_bits free amount)
                  "balance too low to send amount";
  ensure_can_withdraw asset_id from amount [Transfer] new_balance ;;
  if decide (from = to) then mret tt
  else
    b ← gets (free_balance asset_id from);
    b' ← lift (usub balance_bits b amount);
    set_free_balance asset_id from b' ;;
    c ← gets (free_balance asset_id to);
    c' ← lift (uadd balance_bits c amount);
    set_free_balance asset_id to c'.

Definition make_transfer_with_event (asset_id : AssetId) (from to : AccountId)
    (amount : Balance) : M S unit :=
  make_transfer asset_id from to amount ;;
  if decide (from = to) then mret tt
  else deposit_event (Transferred asset_id from to amount).

Definition check_permission (asset_id : AssetId) (who : AccountId) (what : PermissionType)
    : M S bool :=
  v ← gets (get_permission asset_id);
  let permission := into_latest v in
  mret match what, permission with
       | PermBurn, MkPermissionsV1 _ _ (OwnerAddress account) => bool_decide (account = who)
       | PermMint, MkPermissionsV1 _ (OwnerAddress account) _ => bool_decide (account = who)
       | PermUpdate, MkPermissionsV1 (OwnerAddress account) _ _ => bool_decide (account = who)
       | _, _ => false
       end.

Definition mint_free (asset_id : AssetId) (who to : AccountId) (amount : Balance) : M S unit :=
  should_exist asset_id ;;
  permitted ← check_permission asset_id who PermMint;
  if (permitted : bool) then
    original_free_balance ← gets (free_balance asset_id to);
    current_total_issuance ← gets (total_issuance asset_id);
    new_total_issuance ← ok_or (checked_add balance_bits current_total_issuance amount)
                           "total_issuance got overflow after minting.";
    value ← ok_or (checked_add balance_bits original_free_balance amount)
              "free balance got overflow after minting.";
    set_total_issuance asset_id new_total_issuance ;;
    set_free_balance asset_id to value
  else fail (Msg "The origin does not have permission to mint an asset.").

Definition burn_free (asset_id : AssetId) (who to : AccountId) (amount : Balance) : M S unit :=
  should_exist asset_id ;;
  permitted ← check_permission asset_id who PermBurn;
  if (permitted : bool) then
    original_free_balance ← gets (free_balance asset_id to);
    current_total_issuance ← gets (total_issuance asset_id);
    new_total_issuance ← ok_or (checked_sub balance_bits current_total_issuance amount)
                           "total_issuance got underflow after burning";
    value ← ok_or (checked_sub balance_bits original_free_balance amount)
              "free_balance got underflow after burning";
    set_total_issuance asset_id new_total_issuance ;;
    set_free_balance asset_id to value
  else fail (Msg "The origin does not have permission to burn an asset.").

Definition reserve (asset_id : AssetId) (who : AccountId) (amount : Balance) : M S unit :=
  original_reserve_balance ← gets (reserved_balance asset_id who);
  original_free_balance ← gets (free_balance asset_id who);
  if decide (original_free_balance < amount) then fail (Msg "not enough free funds")
  else
    new_reserve_balance ← lift (uadd balance_bits original_reserve_balance amount);
    set_reserved_balance asset_id who new_reserve_balance ;;
    new_free_balance ← lift (usub balance_bits original_free_balance amount);
    set_free_balance asset_id who new_free_balance.

Definition unreserve (asset_id : AssetId) (who : AccountId) (amount : Balance) : M S Balance :=
  b ← gets (reserved_balance asset_id who);
  let actual := Z.min b amount in
  original_free_balance ← gets (free_balance asset_id who);
  new_free_balance ← lift (uadd balance_bits original_free_balance actual);
  set_free_balance asset_id who new_free_balance ;;
  rest ← lift (usub balance_bits b actual);
  set_reserved_balance asset_id who rest ;;
  lift (usub balance_bits amount actual).

(** The dispatchables. *)
Definition create (o : origin) (initial_balance : Balance) (asset_id : AssetId)
    (symbol : list Byte.byte) : M S unit :=
  ensure_root o ;;
  root_account_id ← root_key;
  let options := MkAssetOptions initial_balance
                   (MkPermissionsV1 (OwnerAddress root_account_id)
                      (OwnerAddress root_account_id) (OwnerAddress root_account_id)) in
  create_asset asset_id symbol (Some root_account_id) options.

Definition transfer `{!BeforeAssetTransfer S, !OnAssetTransfer S} (o : origin)
    (asset_id : AssetId) (to : AccountId) (amount : Balance) : M S unit :=
  who ← ensure_signed o;
  before_asset_transfer asset_id who to amount ;;
  make_transfer_with_event asset_id who to amount ;;
  ignore (on_asset_transfer asset_id who to amount).

Definition update_permission (o : origin) (asset_id : AssetId)
    (new_permission : PermissionLatest) : M S unit :=
  ensure_root o ;;
  let perms := into_versions new_permission in
  root_account_id ← root_key;
  permitted ← check_permission asset_id root_account_id PermUpdate;
  if (permitted : bool) then
    modify (fun st => st <| Permissions ::= <[asset_id := perms]> |>) ;;
    deposit_event (PermissionUpdated asset_id (into_latest perms))
  else fail (Msg "Origin does not have enough permission to update permissions.").

Definition update_restriction (o : origin) (asset_id : AssetId) (restriction : Restriction)
    (not_allow : bool) : M S unit :=
  ensure_root o ;;
  modify (fun st =>
    let map := get_restrictions asset_id st in
    st <| Restrictions ::= <[asset_id :=
      if not_allow then {[restriction]} ∪ map else map ∖ {[restriction]}]> |>).

Definition mint `{!BeforeAssetMint S, !OnAssetMint S} (o : origin) (asset_id : AssetId)
    (to : AccountId) (amount : Balance) : M S unit :=
  ensure_root o ;;
  root_account_id ← root_key;
  before_asset_mint asset_id to amount ;;
  mint_free asset_id root_account_id to amount ;;
  deposit_event (Minted asset_id to amount) ;;
  ignore (on_asset_mint asset_id to amount).

Definition burn `{!BeforeAssetBurn S, !OnAssetBurn S} (o : origin) (asset_id : AssetId)
    (to : AccountId) (amount : Balance) : M S unit :=
  ensure_root o ;;
  root_account_id ← root_key;
  before_asset_burn asset_id to amount ;;
  burn_free asset_id root_account_id to amount ;;
  deposit_event (Burned asset_id to amount) ;;
  ignore (on_asset_burn asset_id to amount).

Definition set_reserve (o : origin) (asset_id : AssetId) (who : AccountId) (amount : Balance)
    : M S unit :=
  ensure_root o ;;
  reserve asset_id who amount.

Definition set_unreserve (o : origin) (asset_id : AssetId) (who : AccountId)
    (amount : Balance) : M S unit :=
  ensure_root o ;;
  unreserve asset_id who amount ;;
  mret tt.

(** The genesis build of [decl_storage!]. *)
Definition genesis_asset (root : AccountId)
    (c : AssetId * list Byte.byte * list Restriction * list (AccountId * Balance)) : M S unit :=
  let '(id, symbol, restrictions, endowed) := c in
  let options := MkAssetOptions 0
                   (MkPermissionsV1 (OwnerAddress root) (OwnerAddress root)
                      (OwnerAddress root)) in
  unwrap (create_asset id symbol None options) ;;
  for_each (fun r => unwrap (update_restriction Root id r true)) restrictions ;;
  for_each (fun e : AccountId * Balance => set_free_balance id e.1 e.2) endowed ;;
  sum ← lift (foldl (fun acc e => s ← acc; uadd balance_bits s e.2) (Some 0) endowed);
  set_total_issuance id sum.

Definition genesis_build
    (symbols : list (AssetId * list Byte.byte * list Restriction * list (AccountId * Balance)))
    (root : AccountId) : M S unit :=
  for_each (genesis_asset root) symbols.

(** [enum Call] and its dispatch. *)
Inductive Call :=
| CallCreate (initial_balance : Balance) (asset_id : AssetId) (symbol : list Byte.byte)
| CallTransfer (asset_id : AssetId) (to : AccountId) (amount : Balance)
| CallUpdatePermission (asset_id : AssetId) (new_permission : PermissionLatest)
| CallUpdateRestriction (asset_id : AssetId) (r : Restriction) (not_allow : bool)
| CallMint (asset_id : AssetId) (to : AccountId) (amount : Balance)
| CallBurn (asset_id : AssetId) (to : AccountId) (amount : Balance)
| CallSetReserve (asset_id : AssetId) (who : AccountId) (amount : Balance)
| CallSetUnreserve (asset_id : AssetId) (who : AccountId) (amount : Balance).

Context `{!BeforeAssetTransfer S, !OnAssetTransfer S, !BeforeAssetMint S, !OnAssetMint S}.
Context `{!BeforeAssetBurn S, !OnAssetBurn S}.

Definition dispatch (o : origin) (c : Call) : M S unit :=
  match c with
  | CallCreate i a sym => create o i a sym
  | CallTransfer a to x => transfer o a to x
  | CallUpdatePermission a p => update_permission o a p
  | CallUpdateRestriction a r b => update_restriction o a r b
  | CallMint a to x => mint o a to x
  | CallBurn a to x => burn o a to x
  | CallSetReserve a w x => set_reserve o a w x
  | CallSetUnreserve a w x => set_unreserve o a w x
  end.

(** The width of the balance argument of a call. *)
Definition call_amount (c : Call) : Balance :=
  match c with
  | CallCreate x _ _ | CallTransfer _ _ x | CallMint _ _ x | CallBurn _ _ x
  | CallSetReserve _ _ x | CallSetUnreserve _ _ x => x
  | _ => 0
  end.
End operations.
End RioAssets.
