(* ===== verification/AssetsFacts.v ===== *)
(** * The asset ledger: invariant, behaviour of every operation, conservation *)
From S2P Require Export Assets.
#[local] Open Scope Z_scope.

Create HintDb keeps.

(** ** Sums of balances *)
Definition asset_sum (a : AssetId) (m : gmap (AssetId * AccountId) Balance) : Z :=
  map_sum (fun k v => if decide (k.1 = a) then v else 0) m.

Lemma asset_sum_insert a b w v m :
  asset_sum a (<[(b, w) := v]> m) =
  asset_sum a m + (if decide (b = a) then v - get_or 0 m (b, w) else 0).
Proof.
  unfold asset_sum, get_or. rewrite map_sum_insert. cbn -[decide].
  destruct (m !! (b, w)); cbn -[decide]; case_decide; lia.
Qed.

Definition nonneg_map (m : gmap (AssetId * AccountId) Balance) : Prop :=
  forall k v, m !! k = Some v -> 0 <= v.

Lemma nonneg_map_get m k : nonneg_map m -> 0 <= get_or 0 m k.
Proof. intros Hm. unfold get_or. destruct (m !! k) eqn:Hk; cbn; [by eapply Hm|lia]. Qed.
Lemma nonneg_map_insert m k v : nonneg_map m -> 0 <= v -> nonneg_map (<[k := v]> m).
Proof. intros Hm Hv k' v' [[-> ->]|[_ ?]]%lookup_insert_Some; [done|by eapply Hm]. Qed.
Lemma asset_sum_nonneg a m : nonneg_map m -> 0 <= asset_sum a m.
Proof. intros Hm. apply map_sum_nonneg. intros k v Hk. apply Hm in Hk. case_decide; lia. Qed.
Lemma asset_sum_ge a w m : nonneg_map m -> get_or 0 m (a, w) <= asset_sum a m.
Proof.
  intros Hm. unfold get_or. destruct (m !! (a, w)) as [v|] eqn:Hk; cbn.
  - assert (H := map_sum_lookup_le (fun k v => if decide (k.1 = a) then v else 0) m (a, w) v).
    cbn in H. rewrite decide_True in H by done. apply H; [|done].
    intros k' v' Hk'. apply Hm in Hk'. case_decide; lia.
  - by apply asset_sum_nonneg.
Qed.
Lemma get_or_insert m (k k' : AssetId * AccountId) (v : Balance) :
  get_or 0 (<[k := v]> m) k' = if decide (k = k') then v else get_or 0 m k'.
Proof. unfold get_or. rewrite lookup_insert. by case_decide. Qed.
Lemma get_or_insert_Z (m : gmap AssetId Balance) (k k' : AssetId) (v : Balance) :
  get_or 0 (<[k := v]> m) k' = if decide (k = k') then v else get_or 0 m k'.
Proof. unfold get_or. rewrite lookup_insert. by case_decide. Qed.

Lemma sum_le_asset_sum a l m :
  nonneg_map m -> NoDup l -> foldr (fun w sum => get_or 0 m (a, w) + sum) 0 l <= asset_sum a m.
Proof.
  intros Hm Hl. revert m Hm. induction Hl as [|w l Hw _ IH]; intros m Hm; cbn.
  { by apply asset_sum_nonneg. }
  specialize (IH (<[(a, w) := 0]> m)). rewrite asset_sum_insert, decide_True in IH by done.
  assert (foldr (fun v sum => get_or 0 (<[(a, w):=0]> m) (a, v) + sum) 0 l =
          foldr (fun v sum => get_or 0 m (a, v) + sum) 0 l) as Heq.
  { clear IH. induction l as [|v l IH]; [done|]. cbn.
    apply not_elem_of_cons in Hw as [Hv Hw]. rewrite IH by done.
    rewrite get_or_insert, decide_False; [done|]. congruence. }
  rewrite Heq in IH. pose proof (nonneg_map_insert m (a, w) 0 Hm ltac:(lia)) as Hn.
  specialize (IH Hn). lia.
Qed.
Lemma total_issuance_set a b v st :
  total_issuance a (st <| TotalIssuance ::= <[b := v]> |>) =
  if decide (b = a) then v else total_issuance a st.
Proof. unfold total_issuance; fields. apply get_or_insert_Z. Qed.

(** ** The invariant of the ledger

    For each asset the total issuance is the sum of all free and reserved
    balances, it fits a [Balance], no balance is negative, and an asset that does
    not exist has none. *)
Record ledger_ok (st : AssetsStore) : Prop := {
  lo_issuance a :
    total_issuance a st = asset_sum a (FreeBalance st) + asset_sum a (ReservedBalance st);
  lo_free : nonneg_map (FreeBalance st);
  lo_reserved : nonneg_map (ReservedBalance st);
  lo_width a : in_width balance_bits (total_issuance a st);
  lo_absent a : asset_exists a st = false -> total_issuance a st = 0;
}.

Lemma ledger_ok_empty : ledger_ok AssetsStore_empty.
Proof.
  split; try done; intros k v; cbn; by rewrite lookup_empty.
Qed.

Section bounds.
Context (st : AssetsStore) (Hok : ledger_ok st).

Lemma free_balance_nonneg a w : 0 <= free_balance a w st.
Proof. apply nonneg_map_get, Hok. Qed.
Lemma reserved_balance_nonneg a w : 0 <= reserved_balance a w st.
Proof. apply nonneg_map_get, Hok. Qed.
Lemma total_issuance_bound a : 0 <= total_issuance a st < 2 ^ balance_bits.
Proof. apply (lo_width _ Hok). Qed.

Lemma balances_le_issuance a w :
  free_balance a w st + reserved_balance a w st <= total_issuance a st.
Proof.
  rewrite (lo_issuance _ Hok).
  pose proof (asset_sum_ge a w _ (lo_free _ Hok)).
  pose proof (asset_sum_ge a w _ (lo_reserved _ Hok)).
  unfold free_balance, reserved_balance. lia.
Qed.

(** Several accounts of the same asset. *)
Lemma balances_sum_le a l :
  NoDup l -> foldr (fun w sum => free_balance a w st + sum) 0 l <= total_issuance a st.
Proof.
  intros Hl. rewrite (lo_issuance _ Hok).
  pose proof (asset_sum_nonneg a _ (lo_reserved _ Hok)).
  pose proof (sum_le_asset_sum a l _ (lo_free _ Hok) Hl) as Hle. unfold free_balance. lia.
Qed.

(** Two accounts of the same asset. *)
Lemma two_balances_le_issuance a w1 w2 :
  w1 <> w2 -> free_balance a w1 st + free_balance a w2 st <= total_issuance a st.
Proof.
  intros Hne. rewrite (lo_issuance _ Hok).
  pose proof (asset_sum_nonneg a _ (lo_reserved _ Hok)).
  pose proof (asset_sum_insert a a w1 0 (FreeBalance st)) as Hs.
  rewrite decide_True in Hs by done.
  pose proof (asset_sum_ge a w2 (<[(a, w1) := 0]> (FreeBalance st))) as Hge.
  rewrite get_or_insert, decide_False in Hge by congruence.
  specialize (Hge ltac:(apply nonneg_map_insert; [apply Hok|lia])).
  unfold free_balance. lia.
Qed.

Lemma free_balance_width a w : in_width balance_bits (free_balance a w st).
Proof.
  pose proof (free_balance_nonneg a w). pose proof (reserved_balance_nonneg a w).
  pose proof (total_issuance_bound a). pose proof (balances_le_issuance a w).
  unfold in_width. lia.
Qed.
End bounds.

(** ** The ledger updates, as pure functions *)
Definition st_move (a : AssetId) (from to : AccountId) (x : Balance) (st : AssetsStore)
    : AssetsStore :=
  if decide (from = to) then st
  else st <| FreeBalance ::= fun m =>
         <[(a, to) := free_balance a to st + x]> (<[(a, from) := free_balance a from st - x]> m) |>.
Definition st_mint (a : AssetId) (to : AccountId) (x : Balance) (st : AssetsStore) : AssetsStore :=
  st <| TotalIssuance ::= <[a := total_issuance a st + x]> |>
     <| FreeBalance ::= <[(a, to) := free_balance a to st + x]> |>.
Definition st_reserve (a : AssetId) (who : AccountId) (x : Balance) (st : AssetsStore)
    : AssetsStore :=
  st <| ReservedBalance ::= <[(a, who) := reserved_balance a who st + x]> |>
     <| FreeBalance ::= <[(a, who) := free_balance a who st - x]> |>.

Ltac ledger_unfold :=
  unfold st_move, st_mint, st_reserve, total_issuance, free_balance, reserved_balance,
    asset_exists in *; fields.

Lemma st_move_ok a from to x st :
  ledger_ok st -> 0 <= x <= free_balance a from st -> ledger_ok (st_move a from to x st).
Proof.
  intros Hok Hx. unfold st_move. case_decide as Hne; [done|].
  pose proof (free_balance_nonneg st Hok a to).
  split; fields.
  - intros b. unfold total_issuance; fields. rewrite !asset_sum_insert, get_or_insert.
    rewrite (decide_False (P := (a, from) = (a, to))) by congruence. pose proof (lo_issuance _ Hok b) as Hi.
    unfold total_issuance, free_balance in *. case_decide; subst; lia.
  - repeat apply nonneg_map_insert; [apply Hok| |]; unfold free_balance in *; lia.
  - apply Hok.
  - intros b. apply (lo_width _ Hok).
  - intros b. apply (lo_absent _ Hok).
Qed.

Lemma st_mint_ok a to x st :
  ledger_ok st -> asset_exists a st = true -> 0 <= free_balance a to st + x ->
  in_width balance_bits (total_issuance a st + x) -> ledger_ok (st_mint a to x st).
Proof.
  intros Hok Hex Hx Hw. unfold st_mint. split; fields.
  - intros b. unfold total_issuance at 1; fields. rewrite asset_sum_insert, get_or_insert_Z.
    pose proof (lo_issuance _ Hok b) as Hi. unfold total_issuance, free_balance in *.
    case_decide; subst; lia.
  - apply nonneg_map_insert; [apply Hok|lia].
  - apply Hok.
  - intros b. unfold total_issuance at 1; fields. rewrite get_or_insert_Z.
    case_decide; [done|]. apply (lo_width _ Hok).
  - intros b Hb. unfold total_issuance; fields. rewrite get_or_insert_Z.
    assert (asset_exists b st = false) as Hb' by done.
    case_decide; subst; [congruence|]. apply (lo_absent _ Hok _ Hb').
Qed.

Lemma st_reserve_ok a who x st :
  ledger_ok st -> 0 <= free_balance a who st - x -> 0 <= reserved_balance a who st + x ->
  ledger_ok (st_reserve a who x st).
Proof.
  intros Hok Hf Hr. unfold st_reserve. split; fields.
  - intros b. unfold total_issuance; fields. rewrite !asset_sum_insert.
    pose proof (lo_issuance _ Hok b) as Hi.
    unfold total_issuance, free_balance, reserved_balance in *. case_decide; subst; lia.
  - apply nonneg_map_insert; [apply Hok|done].
  - apply nonneg_map_insert; [apply Hok|done].
  - intros b. apply (lo_width _ Hok).
  - intros b. apply (lo_absent _ Hok).
Qed.

(** ** What makes an operation fail, read off the storage *)
Definition transfer_error (a : AssetId) (from : AccountId) (x : Balance) (st : AssetsStore)
    : option error :=
  if negb (asset_exists a st) then Some (Msg "AssetId is not exist.")
  else if decide (free_balance a from st < x) then Some (Msg "balance too low to send amount")
  else if bool_decide (Transferable ∈ get_restrictions a st)
  then Some (Msg "The asset is restricted for this action.")
  else None.

Definition permitted (p : PermissionType) (a : AssetId) (who : AccountId) (st : AssetsStore)
    : bool :=
  let perms := into_latest (get_permission a st) in
  let owner := match p with
               | PermBurn => perm_burn perms
               | PermMint => perm_mint perms
               | PermUpdate => perm_update perms
               end in
  bool_decide (owner = OwnerAddress who).

Definition mint_error (a : AssetId) (who : AccountId) (x : Balance) (st : AssetsStore)
    : option error :=
  if negb (asset_exists a st) then Some (Msg "AssetId is not exist.")
  else if negb (permitted PermMint a who st)
  then Some (Msg "The origin does not have permission to mint an asset.")
  else if decide (2 ^ balance_bits <= total_issuance a st + x)
  then Some (Msg "total_issuance got overflow after minting.")
  else None.

Definition burn_error (a : AssetId) (who to : AccountId) (x : Balance) (st : AssetsStore)
    : option error :=
  if negb (asset_exists a st) then Some (Msg "AssetId is not exist.")
  else if negb (permitted PermBurn a who st)
  then Some (Msg "The origin does not have permission to burn an asset.")
  else if decide (total_issuance a st < x)
  then Some (Msg "total_issuance got underflow after burning")
  else if decide (free_balance a to st < x)
  then Some (Msg "free_balance got underflow after burning")
  else None.

Definition st_create (a : AssetId) (who : AccountId) (sym : list Byte.byte) (o : AssetOptions)
    (st : AssetsStore) : AssetsStore :=
  st <| TotalIssuance ::= <[a := initial_issuance o]> |>
     <| FreeBalance ::= <[(a, who) := initial_issuance o]> |>
     <| Permissions ::= <[a := into_versions (permissions o)]> |>
     <| Symbols ::= <[a := sym]> |>.

Lemma st_create_ok a who sym o st :
  ledger_ok st -> asset_exists a st = false -> in_width balance_bits (initial_issuance o) ->
  ledger_ok (st_create a who sym o st).
Proof.
  intros Hok Hno Hw.
  assert (total_issuance a st = 0) as Hz by (by apply (lo_absent _ Hok)).
  pose proof (balances_le_issuance _ Hok a who) as Hle. rewrite Hz in Hle.
  pose proof (free_balance_nonneg _ Hok a who). pose proof (reserved_balance_nonneg _ Hok a who).
  assert (get_or 0 (FreeBalance st) (a, who) = 0) as Hf by (unfold free_balance in *; lia).
  unfold st_create. split; fields.
  - intros b. unfold total_issuance; fields. rewrite asset_sum_insert, get_or_insert_Z, Hf.
    pose proof (lo_issuance _ Hok b) as Hi. unfold total_issuance in *.
    case_decide; subst; lia.
  - apply nonneg_map_insert; [apply Hok|apply Hw].
  - apply Hok.
  - intros b. unfold total_issuance; fields. rewrite get_or_insert_Z.
    case_decide; [done|]. apply (lo_width _ Hok).
  - intros b. unfold asset_exists, total_issuance; fields. rewrite get_or_insert_Z.
    case_decide; subst; [by rewrite lookup_insert_eq|].
    rewrite lookup_insert_ne by done. apply (lo_absent _ Hok).
Qed.

(** Updates that leave the balances, the issuance and the symbols alone. *)
Lemma ledger_ok_same st st' :
  TotalIssuance st' = TotalIssuance st -> FreeBalance st' = FreeBalance st ->
  ReservedBalance st' = ReservedBalance st -> Symbols st' = Symbols st ->
  ledger_ok st -> ledger_ok st'.
Proof.
  intros Ht Hf Hr Hs [? ? ? ? ?].
  split; unfold total_issuance, asset_exists in *; rewrite ?Ht, ?Hf, ?Hr, ?Hs; auto.
Qed.

Module RioAssetsFacts.
Import RioAssets.
Section equations.
Context {S E : Type} `{!Overflow}.
Context `{!Store S (Frame E), !Store S AssetsStore, !Inject AssetsEvent E}.
Context `{!Separate S (Frame E) AssetsStore}.
Implicit Types (s : S) (a : AssetId) (x : Balance) (who from to : AccountId).

Lemma should_exist_eq a s :
  should_exist a s =
  if asset_exists a (sget s) then Ok tt s else Err (Msg "AssetId is not exist.") s.
Proof. unfold should_exist. run. by destruct (asset_exists a (sget s)). Qed.

Lemma check_permission_eq a who p s :
  check_permission a who p s = Ok (permitted p a who (sget s)) s.
Proof.
  unfold check_permission, permitted. run. f_equal.
  destruct (into_latest (get_permission a (sget s))) as [[] [] []], p; cbn; try done;
    repeat case_bool_decide; try done; naive_solver.
Qed.

Lemma make_transfer_eq a from to x s :
  ledger_ok (sget s) -> 0 <= x ->
  make_transfer a from to x s =
  match transfer_error a from x (sget s) with
  | Some e => Err e s
  | None => Ok tt (sput (st_move a from to x (sget s)) s)
  end.
Proof.
  intros Hok Hx. unfold make_transfer, transfer_error.
  pose proof (free_balance_width _ Hok a from) as Hf.
  pose proof (free_balance_width _ Hok a to) as Ht.
  pose proof (total_issuance_bound _ Hok a) as Hi.
  run. rewrite should_exist_eq. destruct (asset_exists a (sget s)); cbn; [|done].
  unfold checked_sub, checked. unfold in_width in Hf, Ht.
  destruct (decide (free_balance a from (sget s) < x)) as [Hlow|Hlow];
    [rewrite decide_False by (unfold in_width; lia); done|].
  rewrite decide_True by (unfold in_width; lia). cbv beta iota.
  unfold ensure_can_withdraw, can_do. run. cbn [reasons_contains].
  replace (reasons_contains [Transfer] Transfer) with true by done.
  case_bool_decide; [done|]. cbv beta iota. unfold st_move.
  case_decide as Hne; [by rewrite sput_sget|].
  rewrite usub_ok by (unfold in_width; lia).
  unfold set_free_balance. run. store.
  pose proof (two_balances_le_issuance _ Hok a from to Hne).
  unfold free_balance at 1; fields. rewrite get_or_insert, decide_False by congruence.
  change (get_or 0 (FreeBalance (sget s)) (a, to)) with (free_balance a to (sget s)).
  rewrite uadd_ok by (unfold in_width; lia). cbv beta. store. by rewrite sput_sput.
Qed.

Lemma mint_free_eq a who to x s :
  ledger_ok (sget s) -> 0 <= x ->
  mint_free a who to x s =
  match mint_error a who x (sget s) with
  | Some e => Err e s
  | None => Ok tt (sput (st_mint a to x (sget s)) s)
  end.
Proof.
  intros Hok Hx. unfold mint_free, mint_error.
  pose proof (free_balance_width _ Hok a to) as Hf.
  pose proof (total_issuance_bound _ Hok a) as Hi.
  pose proof (balances_le_issuance _ Hok a to). pose proof (reserved_balance_nonneg _ Hok a to).
  run. rewrite should_exist_eq. destruct (asset_exists a (sget s)); cbn; [|done].
  rewrite check_permission_eq. destruct (permitted PermMint a who (sget s)); cbn; [|done].
  unfold checked_add, checked. unfold in_width in Hf.
  destruct (decide (2 ^ balance_bits <= total_issuance a (sget s) + x)) as [Hov|Hov]; [rewrite decide_False by (unfold in_width; lia); done|].
  rewrite !decide_True by (unfold in_width; lia).
  unfold set_total_issuance, set_free_balance. run. store. by rewrite sput_sput.
Qed.

Lemma burn_free_eq a who to x s :
  ledger_ok (sget s) -> 0 <= x ->
  burn_free a who to x s =
  match burn_error a who to x (sget s) with
  | Some e => Err e s
  | None => Ok tt (sput (st_mint a to (- x) (sget s)) s)
  end.
Proof.
  intros Hok Hx. unfold burn_free, burn_error.
  pose proof (free_balance_width _ Hok a to) as Hf.
  pose proof (total_issuance_bound _ Hok a) as Hi.
  run. rewrite should_exist_eq. destruct (asset_exists a (sget s)); cbn; [|done].
  rewrite check_permission_eq. destruct (permitted PermBurn a who (sget s)); cbn; [|done].
  unfold checked_sub, checked. unfold in_width in Hf.
  destruct (decide (total_issuance a (sget s) < x)) as [Hov|Hov];
    [rewrite decide_False by (unfold in_width; lia); done|].
  rewrite decide_True by (unfold in_width; lia).
  destruct (decide (free_balance a to (sget s) < x)) as [Hov2|Hov2]; [rewrite decide_False by (unfold in_width; lia); done|].
  rewrite decide_True by (unfold in_width; lia).
  unfold set_total_issuance, set_free_balance. run. store. by rewrite sput_sput.
Qed.

Lemma reserve_eq a who x s :
  ledger_ok (sget s) -> 0 <= x ->
  reserve a who x s =
  if decide (free_balance a who (sget s) < x) then Err (Msg "not enough free funds") s
  else Ok tt (sput (st_reserve a who x (sget s)) s).
Proof.
  intros Hok Hx. unfold reserve.
  pose proof (free_balance_nonneg _ Hok a who). pose proof (reserved_balance_nonneg _ Hok a who).
  pose proof (total_issuance_bound _ Hok a). pose proof (balances_le_issuance _ Hok a who).
  run. case_decide; [done|].
  rewrite uadd_ok by (unfold in_width; lia). rewrite usub_ok by (unfold in_width; lia).
  unfold set_reserved_balance, set_free_balance. run. store. by rewrite sput_sput.
Qed.

Lemma unreserve_eq a who x s :
  ledger_ok (sget s) -> in_width balance_bits x ->
  unreserve a who x s =
  let actual := Z.min (reserved_balance a who (sget s)) x in
  Ok (x - actual) (sput (st_reserve a who (- actual) (sget s)) s).
Proof.
  intros Hok Hx. unfold unreserve.
  pose proof (free_balance_nonneg _ Hok a who). pose proof (reserved_balance_nonneg _ Hok a who).
  pose proof (total_issuance_bound _ Hok a). pose proof (balances_le_issuance _ Hok a who).
  unfold in_width in Hx. run.
  rewrite uadd_ok by (unfold in_width; lia). rewrite usub_ok by (unfold in_width; lia).
  rewrite usub_ok by (unfold in_width; lia).
  unfold set_reserved_balance, set_free_balance. run. store. rewrite sput_sput.
  cbv zeta. unfold st_reserve. by rewrite Z.sub_opp_r, Z.add_opp_r.
Qed.

Lemma create_asset_eq a sym fromo o s :
  create_asset a sym fromo o s =
  if asset_exists a (sget s) then Err (Msg "AssetId is exist.") s
  else deposit_event (Created a (default default_account fromo) o)
         (sput (st_create a (default default_account fromo) sym o (sget s)) s).
Proof.
  unfold create_asset, should_not_exist. run. destruct (asset_exists a (sget s)); cbn; [done|].
  unfold set_total_issuance, set_free_balance. run. store. by rewrite !sput_sput.
Qed.
End equations.

(** *** Preservation of the invariant by every call *)
Section preservation.
Context {S E : Type} `{!Overflow}.
Context `{!Store S (Frame E), !Store S AssetsStore, !Inject AssetsEvent E}.
Context `{!Separate S (Frame E) AssetsStore}.
Context `{!BeforeAssetTransfer S, !OnAssetTransfer S, !BeforeAssetMint S, !OnAssetMint S}.
Context `{!BeforeAssetBurn S, !OnAssetBurn S}.
Implicit Types (s : S) (a : AssetId) (x : Balance) (who from to : AccountId).

Definition ok (s : S) : Prop := ledger_ok (sget s).

(** [m] keeps the ledger; [P] tells whether it may panic. *)
Definition keeps {A} (P : Prop) (m : M S A) : Prop :=
  forall s, ok s -> wp m (fun _ => ok) (fun _ => ok) P s.

(** The hooks of the configuration keep the ledger. *)
Record hooks_keep (P : Prop) : Prop := {
  hk_before_transfer a from to x : keeps P (before_asset_transfer a from to x);
  hk_on_transfer a from to x : keeps P (on_asset_transfer a from to x);
  hk_before_mint a to x : keeps P (before_asset_mint a to x);
  hk_on_mint a to x : keeps P (on_asset_mint a to x);
  hk_before_burn a to x : keeps P (before_asset_burn a to x);
  hk_on_burn a to x : keeps P (on_asset_burn a to x);
}.

Lemma keeps_bind {A B} P (m : M S A) (f : A -> M S B) :
  keeps P m -> (forall v, keeps P (f v)) -> keeps P (m ≫= f).
Proof.
  intros Hm Hf s Hs. rewrite wp_bind. wp_apply Hm; [done| |done|done].
  intros a s' Hs'. by apply Hf.
Qed.
Lemma keeps_ret {A} P (v : A) : keeps P (mret v).
Proof. by intros s Hs. Qed.
Lemma keeps_ignore P m : keeps P m -> keeps P (ignore m).
Proof.
  intros Hm s Hs. unfold ignore. rewrite wp_or_else. wp_apply Hm; [done|done| |done].
  intros e s' Hs'. by rewrite wp_ret.
Qed.
Lemma keeps_ensure_root P o : keeps P (ensure_root o).
Proof. intros s Hs. apply wp_ensure_root. by split. Qed.
Lemma keeps_ensure_signed P o : keeps P (ensure_signed o).
Proof. intros s Hs. apply wp_ensure_signed. by split. Qed.
Lemma keeps_gets {T A} `{!Store S T} P (f : T -> A) : keeps P (gets f).
Proof. intros s Hs. by rewrite wp_gets. Qed.
Lemma keeps_event P (e : AssetsEvent) : keeps P (deposit_event (E:=E) e).
Proof. intros s Hs. wp_steps. unfold ok in *. by store. Qed.

(** An operation whose run is known from an equation. *)
Lemma keeps_eq {A} P (m : M S A) :
  (forall s, ok s -> (exists e, m s = Err e s) \/ (exists v s', m s = Ok v s' /\ ok s')) ->
  keeps P m.
Proof.
  intros Hm s Hs. destruct (Hm s Hs) as [[e Heq]|(v & s' & Heq & Hs')];
    apply wp_intro; rewrite Heq; naive_solver.
Qed.

Lemma keeps_make_transfer P a from to x : 0 <= x -> keeps P (make_transfer a from to x).
Proof.
  intros Hx. apply keeps_eq. intros s Hs. rewrite make_transfer_eq by done.
  unfold transfer_error. destruct (asset_exists a (sget s)); cbn; [|by eauto].
  case_decide; [by eauto|]. case_bool_decide; [by eauto|].
  right. eexists _, _. split; [done|]. unfold ok. store. apply st_move_ok; [done|lia].
Qed.

Lemma keeps_mint_free P a who to x : 0 <= x -> keeps P (mint_free a who to x).
Proof.
  intros Hx. apply keeps_eq. intros s Hs. rewrite mint_free_eq by done.
  unfold mint_error. destruct (asset_exists a (sget s)) eqn:?; cbn; [|by eauto].
  destruct (permitted PermMint a who (sget s)); cbn; [|by eauto].
  case_decide; [by eauto|].
  right. eexists _, _. split; [done|]. unfold ok. store.
  pose proof (free_balance_nonneg _ Hs a to). pose proof (total_issuance_bound _ Hs a).
  apply st_mint_ok; [done|done|lia|unfold in_width; lia].
Qed.

Lemma keeps_burn_free P a who to x : 0 <= x -> keeps P (burn_free a who to x).
Proof.
  intros Hx. apply keeps_eq. intros s Hs. rewrite burn_free_eq by done.
  unfold burn_error. destruct (asset_exists a (sget s)) eqn:?; cbn; [|by eauto].
  destruct (permitted PermBurn a who (sget s)); cbn; [|by eauto].
  do 2 (case_decide; [by eauto|]).
  right. eexists _, _. split; [done|]. unfold ok. store.
  pose proof (total_issuance_bound _ Hs a).
  apply st_mint_ok; [done|done|lia|unfold in_width; lia].
Qed.

Lemma keeps_reserve P a who x : 0 <= x -> keeps P (reserve a who x).
Proof.
  intros Hx. apply keeps_eq. intros s Hs. rewrite reserve_eq by done.
  case_decide; [by eauto|]. right. eexists _, _. split; [done|]. unfold ok. store.
  pose proof (reserved_balance_nonneg _ Hs a who). apply st_reserve_ok; [done|lia|lia].
Qed.

Lemma keeps_unreserve P a who x :
  in_width balance_bits x -> keeps P (unreserve a who x).
Proof.
  intros Hx. apply keeps_eq. intros s Hs. rewrite unreserve_eq by done.
  right. eexists _, _. split; [done|]. unfold ok. store. unfold in_width in Hx.
  pose proof (reserved_balance_nonneg _ Hs a who). pose proof (free_balance_nonneg _ Hs a who).
  apply st_reserve_ok; [done|lia|lia].
Qed.

Lemma keeps_create_asset P a sym fromo o :
  in_width balance_bits (initial_issuance o) -> keeps P (create_asset a sym fromo o).
Proof.
  intros Hw s Hs. apply wp_intro; rewrite create_asset_eq;
    destruct (asset_exists a (sget s)) eqn:?; run; try naive_solver;
    intros; simplify_eq; unfold ok; store; by apply st_create_ok.
Qed.

Lemma keeps_make_transfer_with_event P a from to x :
  0 <= x -> keeps P (make_transfer_with_event a from to x).
Proof.
  intros Hx. apply keeps_bind; [by apply keeps_make_transfer|]. intros _.
  case_decide; [apply keeps_ret|apply keeps_event].
Qed.

Lemma keeps_modify_same P (f : AssetsStore -> AssetsStore) :
  (forall st, ledger_ok st -> ledger_ok (f st)) -> keeps P (modify f).
Proof. intros Hf s Hs. wp_steps. unfold ok. store. by apply Hf. Qed.

#[local] Hint Resolve keeps_ret keeps_ignore keeps_ensure_root keeps_ensure_signed
  keeps_gets keeps_event keeps_make_transfer_with_event keeps_mint_free keeps_burn_free
  keeps_reserve keeps_unreserve keeps_create_asset : keeps.

Lemma keeps_check_permission P a who p : keeps P (check_permission a who p).
Proof. unfold check_permission. simple apply keeps_bind; auto with keeps. Qed.
#[local] Hint Resolve keeps_check_permission : keeps.

(** Walk down a sequence of operations, closing each by the [keeps] hints. *)
Ltac keeps_seq :=
  repeat first [ progress auto with keeps | simple apply keeps_bind; [|intros ?] ].

Lemma keeps_update_restriction P o a r b : keeps P (update_restriction o a r b).
Proof.
  unfold update_restriction. keeps_seq.
  apply keeps_modify_same. intros st. by apply ledger_ok_same.
Qed.
Lemma keeps_update_permission P o a p : keeps P (update_permission o a p).
Proof.
  unfold update_permission, root_key. keeps_seq. case_match; [|by intros s Hs]. keeps_seq.
  apply keeps_modify_same. intros st. by apply ledger_ok_same.
Qed.
#[local] Hint Resolve keeps_update_restriction keeps_update_permission : keeps.

Lemma dispatch_keeps P o (c : Call) :
  hooks_keep P -> in_width balance_bits (call_amount c) -> keeps P (dispatch o c).
Proof.
  intros [] Hc. destruct Hc as [Hc1 Hc2] eqn:HcE. clear HcE.
  destruct c; cbn in *;
    unfold create, transfer, mint, burn, set_reserve, set_unreserve, root_key; keeps_seq.
Qed.
End preservation.
End RioAssetsFacts.
