(* ===== verification/AssetsLedger.v ===== *)
(** * [rio-assets] implements the ledger interface *)
From S2P Require Export Ledger AssetsFacts.
#[local] Open Scope Z_scope.
Import NoHooks.

Section implementation.
Context {S E : Type} `{!Overflow}.
Context `{!Store S (Frame E), !Store S AssetsStore, !Inject AssetsEvent E}.
Context `{!Separate S (Frame E) AssetsStore}.

Definition root_of (s : S) : AccountId := sudo_key (sget (T:=Frame E) s).

(** The configuration of the runtime: every hook is [()]. *)
#[export] Instance rio_assets_ledger : Ledger S := {|
  balance_of a w s := free_balance a w (sget s);
  issuance_of a s := total_issuance a (sget s);
  make_transfer_with_event := RioAssets.make_transfer_with_event;
  mint := RioAssets.mint (E:=E);
  burn := RioAssets.burn (E:=E);
  transferable a s := asset_exists a (sget s)
    && negb (bool_decide (Transferable ∈ get_restrictions a (sget s)));
  mintable a s := asset_exists a (sget s) && permitted PermMint a (root_of s) (sget s);
  burnable a s := asset_exists a (sget s) && permitted PermBurn a (root_of s) (sget s);
  transfer_err a w x s := transfer_error a w x (sget s);
  mint_err a x s := mint_error a (root_of s) x (sget s);
  burn_err a w x s := burn_error a (root_of s) w x (sget s);
  ledger_inv s := ledger_ok (sget s);
  same_ledger s s' :=
    sget (T:=AssetsStore) s = sget s' /\ root_of s = root_of s';
  foreign T _ := Separate S (Frame E) T /\ Separate S AssetsStore T;
|}.

#[export] Instance rio_assets_events : LedgerEvents E :=
  fun e => exists ev : AssetsEvent, e = inject ev.

Lemma change_of_store (st' : AssetsStore) (ev : AssetsEvent) d i s :
  ledger_ok st' ->
  (forall a w, free_balance a w st' = free_balance a w (sget s) + d a w) ->
  (forall a, total_issuance a st' = total_issuance a (sget s) + i a) ->
  Symbols st' = Symbols (sget s) -> Permissions st' = Permissions (sget s) ->
  Restrictions st' = Restrictions (sget s) ->
  ledger_change (E:=E) d i s
    (sput ((sget (T:=Frame E) s) <| events := events (sget s) ++ [inject ev] |>) (sput st' s)).
Proof.
  intros Hok Hb Hi Hsy Hp Hr.
  split; cbn; unfold root_of, asset_exists, permitted, get_permission, get_restrictions;
    intros; store; rewrite ?Hsy, ?Hp, ?Hr; auto.
  - unfold same_frame. store. auto.
  - exists [inject ev]. store. split; [done|]. repeat constructor. by exists ev.
  - match goal with H : _ /\ _ |- _ => destruct H end.
    by rewrite sget_sput_ne2, sget_sput_ne2.
Qed.

Lemma change_refl d i s :
  ledger_ok (sget s) -> (forall a w, d a w = 0) -> (forall a, i a = 0) ->
  ledger_change (E:=E) d i s s.
Proof.
  intros Hok Hd Hi. split; intros; rewrite ?Hd, ?Hi, ?Z.add_0_r; try done.
  exists []. by rewrite app_nil_r.
Qed.

Lemma at_account_decide a w x b v :
  at_account a w x b v = if decide ((a, w) = (b, v)) then x else 0.
Proof. unfold at_account. repeat case_decide; naive_solver. Qed.

Lemma st_mint_balance a to x st b w :
  free_balance b w (st_mint a to x st) = free_balance b w st + at_account a to x b w.
Proof.
  rewrite at_account_decide. unfold st_mint, free_balance; fields. rewrite get_or_insert.
  case_decide; naive_solver lia.
Qed.
Lemma st_mint_issuance a to x st b :
  total_issuance b (st_mint a to x st) = total_issuance b st + at_asset a x b.
Proof.
  unfold at_asset, st_mint, total_issuance; fields. rewrite get_or_insert_Z.
  repeat case_decide; naive_solver lia.
Qed.
Lemma st_move_balance a from to x st b w :
  free_balance b w (st_move a from to x st) =
  free_balance b w st + (at_account a to x b w - at_account a from x b w).
Proof.
  rewrite !at_account_decide. unfold st_move, free_balance.
  destruct (decide (from = to)) as [->|]; [lia|]. fields. rewrite !get_or_insert.
  repeat case_decide; naive_solver lia.
Qed.

Lemma mint_runs a to x s :
  ledger_ok (sget s) -> 0 <= x ->
  RioAssets.mint (E:=E) Root a to x s =
  match mint_error a (root_of s) x (sget s) with
  | Some e => Err e s
  | None => deposit_event (E:=E) (Minted a to x) (sput (st_mint a to x (sget s)) s)
  end.
Proof.
  intros Hok Hx. unfold RioAssets.mint, RioAssets.root_key, before_asset_mint, before_mint.
  run. rewrite RioAssetsFacts.mint_free_eq by done. fold (root_of s).
  by destruct (mint_error a (root_of s) x (sget s)).
Qed.

Lemma burn_runs a to x s :
  ledger_ok (sget s) -> 0 <= x ->
  RioAssets.burn (E:=E) Root a to x s =
  match burn_error a (root_of s) to x (sget s) with
  | Some e => Err e s
  | None => deposit_event (E:=E) (Burned a to x) (sput (st_mint a to (- x) (sget s)) s)
  end.
Proof.
  intros Hok Hx. unfold RioAssets.burn, RioAssets.root_key, before_asset_burn, before_burn.
  run. rewrite RioAssetsFacts.burn_free_eq by done. fold (root_of s).
  by destruct (burn_error a (root_of s) to x (sget s)).
Qed.

Lemma transfer_runs a from to x s :
  ledger_ok (sget s) -> 0 <= x ->
  RioAssets.make_transfer_with_event (E:=E) a from to x s =
  match transfer_error a from x (sget s) with
  | Some e => Err e s
  | None => if decide (from = to) then Ok tt s
            else deposit_event (E:=E) (Transferred a from to x)
                   (sput (st_move a from to x (sget s)) s)
  end.
Proof.
  intros Hok Hx. unfold RioAssets.make_transfer_with_event. run.
  rewrite RioAssetsFacts.make_transfer_eq by done.
  destruct (transfer_error a from x (sget s)); [done|]. unfold st_move.
  case_decide; [by rewrite sput_sget|done].
Qed.

Lemma transfer_error_None a w x st :
  transfer_error a w x st = None <->
  (asset_exists a st && negb (bool_decide (Transferable ∈ get_restrictions a st)) = true
   /\ x <= free_balance a w st).
Proof.
  unfold transfer_error. destruct (asset_exists a st); cbn; [|naive_solver].
  case_decide; [|case_bool_decide]; cbn; naive_solver lia.
Qed.
Lemma mint_error_None a who x st :
  mint_error a who x st = None <->
  (asset_exists a st && permitted PermMint a who st = true
   /\ total_issuance a st + x < 2 ^ balance_bits).
Proof.
  unfold mint_error. destruct (asset_exists a st); cbn; [|naive_solver].
  destruct (permitted PermMint a who st); cbn; [|naive_solver].
  case_decide; naive_solver lia.
Qed.
Lemma burn_error_None a who to x st :
  ledger_ok st ->
  burn_error a who to x st = None <->
  (asset_exists a st && permitted PermBurn a who st = true /\ x <= free_balance a to st).
Proof.
  intros Hok. unfold burn_error. destruct (asset_exists a st); cbn; [|naive_solver].
  destruct (permitted PermBurn a who st); cbn; [|naive_solver].
  pose proof (balances_le_issuance _ Hok a to). pose proof (reserved_balance_nonneg _ Hok a to).
  repeat case_decide; naive_solver lia.
Qed.

(** An operation that is one write of the ledger and one event. *)
Lemma wp_of_run (m : M S unit) (err : option error) (st' : AssetsStore) (ev : AssetsEvent)
    (d : AssetId -> AccountId -> Z) (i : AssetId -> Z) s :
  m s = match err with
        | Some e => Err e s
        | None => deposit_event (E:=E) ev (sput st' s)
        end ->
  (err = None -> ledger_change (E:=E) d i s
     (sput ((sget (T:=Frame E) s) <| events := events (sget s) ++ [inject ev] |>)
        (sput st' s))) ->
  wp m (fun _ s' => err = None /\ ledger_change (E:=E) d i s s')
    (fun e s' => err = Some e /\ s' = s) False s.
Proof.
  intros Hm Hd. apply wp_intro; rewrite Hm; destruct err; run; try naive_solver.
  intros [] s' [= <-]. split; [done|]. store. by apply Hd.
Qed.

Lemma transfer_runs_spec a from to x s :
  ledger_ok (sget s) -> 0 <= x ->
  wp (RioAssets.make_transfer_with_event (E:=E) a from to x)
    (fun _ s' => transfer_error a from x (sget s) = None /\
       ledger_change (E:=E) (fun b v => at_account a to x b v - at_account a from x b v)
         (fun _ => 0) s s')
    (fun e s' => transfer_error a from x (sget s) = Some e /\ s' = s) False s.
Proof.
  intros Hok Hx. destruct (decide (from = to)) as [->|Hne].
  - apply wp_intro; rewrite transfer_runs by done;
      destruct (transfer_error a to x (sget s)); rewrite ?decide_True by done; try naive_solver.
    intros [] s' [= <-]. split; [done|]. apply change_refl; [done| |done]. intros. lia.
  - eapply wp_of_run.
    + rewrite transfer_runs by done. by rewrite decide_False.
    + intros Herr. apply transfer_error_None in Herr as [_ Hle].
      apply change_of_store; cbn; intros.
      * by apply st_move_ok.
      * apply st_move_balance.
      * unfold st_move. case_decide; unfold total_issuance; fields; lia.
      * unfold st_move. by case_decide.
      * unfold st_move. by case_decide.
      * unfold st_move. by case_decide.
Qed.

Lemma st_mint_change a to x ev s :
  ledger_ok (sget s) -> asset_exists a (sget s) = true ->
  0 <= free_balance a to (sget s) + x ->
  in_width balance_bits (total_issuance a (sget s) + x) ->
  ledger_change (E:=E) (at_account a to x) (at_asset a x) s
    (sput ((sget (T:=Frame E) s) <| events := events (sget s) ++ [inject ev] |>)
       (sput (st_mint a to x (sget s)) s)).
Proof.
  intros. apply change_of_store; cbn; try done.
  - by apply st_mint_ok.
  - intros. apply st_mint_balance.
  - intros. apply st_mint_issuance.
Qed.

Lemma mint_runs_spec a to x s :
  ledger_ok (sget s) -> 0 <= x ->
  wp (RioAssets.mint (E:=E) Root a to x)
    (fun _ s' => mint_error a (root_of s) x (sget s) = None /\
       ledger_change (E:=E) (at_account a to x) (at_asset a x) s s')
    (fun e s' => mint_error a (root_of s) x (sget s) = Some e /\ s' = s) False s.
Proof.
  intros Hok Hx. eapply wp_of_run; [by apply mint_runs|].
  intros [[Hex _]%andb_true_iff Hw]%mint_error_None.
  pose proof (free_balance_nonneg _ Hok a to). pose proof (total_issuance_bound _ Hok a).
  apply st_mint_change; [done|done|lia|unfold in_width; lia].
Qed.

Lemma burn_runs_spec a to x s :
  ledger_ok (sget s) -> 0 <= x ->
  wp (RioAssets.burn (E:=E) Root a to x)
    (fun _ s' => burn_error a (root_of s) to x (sget s) = None /\
       ledger_change (E:=E) (at_account a to (- x)) (at_asset a (- x)) s s')
    (fun e s' => burn_error a (root_of s) to x (sget s) = Some e /\ s' = s) False s.
Proof.
  intros Hok Hx. eapply wp_of_run; [by apply burn_runs|].
  intros [[Hex _]%andb_true_iff Hw]%burn_error_None; [|done].
  pose proof (total_issuance_bound _ Hok a). pose proof (balances_le_issuance _ Hok a to).
  pose proof (reserved_balance_nonneg _ Hok a to).
  apply st_mint_change; [done|done|lia|unfold in_width; lia].
Qed.

(** *** What the operations keep *)
#[local] Instance only_preorder : PreOrder (ledger_only (S:=S) (E:=E)).
Proof.
  split; [by split|]. intros s1 s2 s3 [Hf1 H1] [Hf2 H2]. split.
  - unfold same_frame in *. destruct_and?. split_and!; congruence.
  - intros T Hst HT. by rewrite H2, H1.
Qed.
Lemma others_write (f : AssetsStore -> AssetsStore) :
  preserves (ledger_only (E:=E)) (modify (S:=S) f).
Proof.
  apply preserves_modify. intros s. split; [unfold same_frame; by store|].
  intros T Hst [? ?]. by store.
Qed.
Lemma others_event (ev : AssetsEvent) :
  preserves (ledger_only (E:=E)) (deposit_event (S:=S) (E:=E) ev).
Proof.
  apply preserves_modify. intros s. split; [unfold same_frame; by store|].
  intros T Hst [? ?]. by store.
Qed.
#[local] Hint Resolve others_write others_event : preserves.
Lemma transfer_others a from to x : keeps_others (E:=E) (RioAssets.make_transfer_with_event (E:=E) a from to x).
Proof.
  unfold RioAssets.make_transfer_with_event, RioAssets.make_transfer, RioAssets.should_exist,
    RioAssets.ensure_can_withdraw, RioAssets.can_do, RioAssets.set_free_balance. unfold keeps_others. preserves_steps.
Qed.
Lemma mint_others a to x : keeps_others (E:=E) (RioAssets.mint (E:=E) Root a to x).
Proof.
  unfold RioAssets.mint, RioAssets.mint_free, RioAssets.should_exist, RioAssets.check_permission,
    RioAssets.root_key, RioAssets.set_free_balance, RioAssets.set_total_issuance,
    before_asset_mint, on_asset_mint, before_asset_burn, on_asset_burn, before_mint, on_mint,
    before_burn, on_burn. cbn [ensure_root]. unfold keeps_others. preserves_steps.
Qed.
Lemma burn_others a to x : keeps_others (E:=E) (RioAssets.burn (E:=E) Root a to x).
Proof.
  unfold RioAssets.burn, RioAssets.burn_free, RioAssets.should_exist, RioAssets.check_permission,
    RioAssets.root_key, RioAssets.set_free_balance, RioAssets.set_total_issuance,
    before_asset_mint, on_asset_mint, before_asset_burn, on_asset_burn, before_mint, on_mint,
    before_burn, on_burn. cbn [ensure_root]. unfold keeps_others. preserves_steps.
Qed.

#[export] Instance rio_assets_ledger_spec : LedgerSpec S E.
Proof.
  split; cbn; unfold root_of.
  - split; [done| |]; intros s *; naive_solver congruence.
  - intros a w s s' [-> _]. done.
  - intros a s s' [-> _]. done.
  - intros s s' [-> _]. done.
  - intros a s s' [-> _]. done.
  - intros a s s' [-> ?]; unfold root_of in *; congruence.
  - intros a s s' [-> ?]; unfold root_of in *; congruence.
  - intros a w x s s' [-> _]. done.
  - intros a x s s' [-> ?]; unfold root_of in *; congruence.
  - intros a w x s s' [-> ?]; unfold root_of in *; congruence.
  - intros T Hst x s [? ?]. by rewrite !sget_sput_ne1.
  - intros f s Hf. by rewrite sget_sput_ne2, sget_sput.
  - intros; by apply free_balance_nonneg.
  - intros a w s Hok. pose proof (balances_le_issuance _ Hok a w).
    pose proof (reserved_balance_nonneg _ Hok a w). lia.
  - intros a w w' s Hok ?. by apply two_balances_le_issuance.
  - intros a l s Hok Hl. by apply balances_sum_le.
  - intros a s Hok. apply Hok.
  - intros. apply transfer_others.
  - intros. apply mint_others.
  - intros. apply burn_others.
  - intros. apply transfer_error_None.
  - intros. apply mint_error_None.
  - intros. by apply burn_error_None.
  - intros a from to x s Hok Hx. by apply transfer_runs_spec.
  - intros a to x s Hok Hx. by apply mint_runs_spec.
  - intros a to x s Hok Hx. by apply burn_runs_spec.
Qed.

(** C7: under the runtime's configuration, the ledger of [rio-assets] refines
    the interface the client pallets are proved against: transfer, mint and burn
    fail exactly as announced and without a write, and otherwise change the
    named balances and the issuance by the amount, keep the invariant and touch
    no other pallet's storage. *)
Theorem rio_assets_refines_ledger : LedgerSpec S E.
Proof. exact rio_assets_ledger_spec. Qed.
End implementation.
