(* ===== verification/Currency.v ===== *)
(** * Currencies over the ledger: [rio-assets/src/currency.rs],
    [imbalances.rs] and [make_transfer_between_assets] of [lib.rs]

    An imbalance is a linear token: creating one says that an account changed
    without the total issuance, dropping it squares the issuance up.  Drops are
    explicit calls, at the points where the scopes of the source end. *)
From S2P Require Export AssetsFacts.
#[local] Open Scope Z_scope.

(** ** [imbalances.rs] *)
Record PositiveImbalance := MkPositive { pos_amount : Balance }.
Record NegativeImbalance := MkNegative { neg_amount : Balance }.

Inductive SignedImbalance :=
| SPositive (p : PositiveImbalance)
| SNegative (n : NegativeImbalance).

Module Positive.
Definition new (amount : Balance) : PositiveImbalance := MkPositive amount.
Definition zero : PositiveImbalance := new 0.
Definition drop_zero (i : PositiveImbalance) : unit + PositiveImbalance :=
  if decide (pos_amount i = 0) then inl tt else inr i.
Definition try_drop (i : PositiveImbalance) : unit + PositiveImbalance := drop_zero i.
Definition split `{!Overflow} (i : PositiveImbalance) (amount : Balance)
    : option (PositiveImbalance * PositiveImbalance) :=
  let first := Z.min (pos_amount i) amount in
  second ← usub balance_bits (pos_amount i) first;
  mret (new first, new second).
Definition merge (i other : PositiveImbalance) : PositiveImbalance :=
  new (saturating_add balance_bits (pos_amount i) (pos_amount other)).
Definition subsume (i other : PositiveImbalance) : PositiveImbalance := merge i other.
Definition offset `{!Overflow} (i : PositiveImbalance) (other : NegativeImbalance)
    : option (PositiveImbalance + NegativeImbalance) :=
  let a := pos_amount i in
  let b := neg_amount other in
  if decide (b <= a) then d ← usub balance_bits a b; mret (inl (new d))
  else d ← usub balance_bits b a; mret (inr (MkNegative d)).
Definition peek (i : PositiveImbalance) : Balance := pos_amount i.
End Positive.

Module Negative.
Definition new (amount : Balance) : NegativeImbalance := MkNegative amount.
Definition zero : NegativeImbalance := new 0.
Definition drop_zero (i : NegativeImbalance) : unit + NegativeImbalance :=
  if decide (neg_amount i = 0) then inl tt else inr i.
Definition try_drop (i : NegativeImbalance) : unit + NegativeImbalance := drop_zero i.
Definition split `{!Overflow} (i : NegativeImbalance) (amount : Balance)
    : option (NegativeImbalance * NegativeImbalance) :=
  let first := Z.min (neg_amount i) amount in
  second ← usub balance_bits (neg_amount i) first;
  mret (new first, new second).
Definition merge (i other : NegativeImbalance) : NegativeImbalance :=
  new (saturating_add balance_bits (neg_amount i) (neg_amount other)).
Definition subsume (i other : NegativeImbalance) : NegativeImbalance := merge i other.
Definition offset `{!Overflow} (i : NegativeImbalance) (other : PositiveImbalance)
    : option (NegativeImbalance + PositiveImbalance) :=
  let a := neg_amount i in
  let b := pos_amount other in
  if decide (b <= a) then d ← usub balance_bits a b; mret (inl (new d))
  else d ← usub balance_bits b a; mret (inr (MkPositive d)).
Definition peek (i : NegativeImbalance) : Balance := neg_amount i.
End Negative.

(** ** [AssetCurrency<T, U>] of [currency.rs]; [U] is the asset id provider *)
Module AssetCurrency.
Section currency.
Context {S : Type} `{!Overflow, !Store S AssetsStore}.
Context (U : M S AssetId).

(** [impl Drop] of the imbalances. *)
Definition drop_positive (i : PositiveImbalance) : M S unit :=
  id ← U;
  modify (fun st => st <| TotalIssuance ::=
    <[id := saturating_add balance_bits (total_issuance id st) (pos_amount i)]> |>).
Definition drop_negative (i : NegativeImbalance) : M S unit :=
  id ← U;
  modify (fun st => st <| TotalIssuance ::=
    <[id := saturating_sub (total_issuance id st) (neg_amount i)]> |>).

Definition free_balance (who : AccountId) : M S Balance :=
  id ← U; gets (Assets.free_balance id who).
Definition total_balance (who : AccountId) : M S Balance := free_balance who.
Definition can_slash (who : AccountId) (value : Balance) : M S bool :=
  b ← free_balance who; mret (bool_decide (value <= b)).
Definition total_issuance : M S Balance :=
  id ← U; gets (Assets.total_issuance id).
Definition minimum_balance : Balance := 0.

(** The closure given to [mutate] returns the new issuance and assigns only
    [amount]: the stored value is written back as it was. *)
Definition burn (amount : Balance) : M S PositiveImbalance :=
  id ← U;
  issued ← gets (Assets.total_issuance id);
  let amount := match checked_sub balance_bits issued amount with
                | Some _ => amount
                | None => issued
                end in
  modify (fun st => st <| TotalIssuance ::= <[id := issued]> |>) ;;
  mret (Positive.new amount).

Definition issue (amount : Balance) : M S NegativeImbalance :=
  id ← U;
  issued ← gets (Assets.total_issuance id);
  match checked_add balance_bits issued amount with
  | Some issued' =>
      modify (fun st => st <| TotalIssuance ::= <[id := issued']> |>) ;;
      mret (Negative.new amount)
  | None =>
      amount ← lift (usub balance_bits (umax balance_bits) issued);
      modify (fun st => st <| TotalIssuance ::= <[id := umax balance_bits]> |>) ;;
      mret (Negative.new amount)
  end.

Definition ensure_can_withdraw (who : AccountId) (amount : Balance) (reasons : WithdrawReasons)
    (new_balance : Balance) : M S unit :=
  id ← U; RioAssets.ensure_can_withdraw id who amount reasons new_balance.

Definition transfer (transactor dest : AccountId) (value : Balance) : M S unit :=
  id ← U; RioAssets.make_transfer id transactor dest value.

(** [unimplemented!("")]. *)
Definition slash (_who : AccountId) (_value : Balance) : M S (NegativeImbalance * Balance) :=
  panic.

Definition make_free_balance_be (who : AccountId) (balance : Balance) : M S SignedImbalance :=
  id ← U;
  original ← gets (Assets.free_balance id who);
  imbalance ← (if decide (original <= balance)
               then d ← lift (usub balance_bits balance original);
                    mret (SPositive (Positive.new d))
               else d ← lift (usub balance_bits original balance);
                    mret (SNegative (Negative.new d)));
  id' ← U;
  RioAssets.set_free_balance id' who balance ;;
  mret imbalance.

Definition deposit_creating (who : AccountId) (value : Balance) : M S PositiveImbalance :=
  b ← free_balance who;
  b' ← lift (uadd balance_bits b value);
  imbalance ← make_free_balance_be who b';
  match imbalance with
  | SPositive p => mret p
  | SNegative n => drop_negative n ;; mret Positive.zero
  end.

Definition deposit_into_existing (who : AccountId) (value : Balance) : M S PositiveImbalance :=
  deposit_creating who value.

Definition withdraw (who : AccountId) (value : Balance) (reasons : WithdrawReasons)
    : M S NegativeImbalance :=
  b ← free_balance who;
  new_balance ← ok_or (checked_sub balance_bits b value) "account has too few funds";
  ensure_can_withdraw who value reasons new_balance ;;
  id ← U;
  RioAssets.set_free_balance id who new_balance ;;
  mret (Negative.new value).
End currency.

Section providers.
Context {S : Type} `{!Store S AssetsStore}.

(** The asset id providers. *)
Definition RFUELProvider : M S AssetId := mret RFUEL.
Definition LockedRFUELProvider : M S AssetId := mret LOCKED_RFUEL.
Definition FromAssetIdProvider : M S AssetId := id ← gets FromId; lift id.
Definition ToAssetIdProvider : M S AssetId := id ← gets ToId; lift id.

(** [FromToContext::new] returns [()], not a value of the type: no such value ever
    exists and the [Drop] of the type, which would clear the two ids, never runs. *)
Definition FromToContext_new (from to : AssetId) : M S unit :=
  modify (fun st => st <| FromId := Some from |>) ;;
  modify (fun st => st <| ToId := Some to |>).
End providers.
End AssetCurrency.

(** ** [make_transfer_between_assets] of [lib.rs]

    The imbalances are dropped at the end of the block in reverse order of
    declaration, [pos], then [nag]; the two ids stay in the storage. *)
Section between.
Context {S : Type} `{!Overflow, !Store S AssetsStore}.
Import AssetCurrency.

Definition exchange (from_asset_id : AssetId) (from : AccountId) (to_asset_id : AssetId)
    (to : AccountId) (reasons : WithdrawReasons) (amount : Balance) : M S unit :=
  FromToContext_new from_asset_id to_asset_id ;;
  nag ← withdraw FromAssetIdProvider from amount reasons;
  pos ← deposit_creating ToAssetIdProvider to amount;
  (if decide (Negative.peek nag = Positive.peek pos) then mret tt else panic) ;;
  drop_positive ToAssetIdProvider pos ;;
  drop_negative FromAssetIdProvider nag.

Definition make_transfer_between_assets (from_asset_id : AssetId) (from : AccountId)
    (to_asset_id : AssetId) (to : AccountId) (reasons : WithdrawReasons) (amount : Balance)
    : M S unit :=
  RioAssets.should_exist from_asset_id ;;
  RioAssets.should_exist to_asset_id ;;
  from_balance ← gets (Assets.free_balance from_asset_id from);
  new_balance ← ok_or (checked_sub balance_bits from_balance amount)
                  "balance too low to send amount";
  to_balance ← gets (Assets.free_balance to_asset_id to);
  ok_or (checked_add balance_bits to_balance amount)
    "balance too height to receive amount" ;;
  RioAssets.ensure_can_withdraw from_asset_id from amount reasons new_balance ;;
  if negb (bool_decide (from = to)) || negb (bool_decide (from_asset_id = to_asset_id))
  then exchange from_asset_id from to_asset_id to reasons amount
  else mret tt.
End between.
