(* ===== verification/Demo.v ===== *)
(** * A concrete ledger, on which the theorems are instantiated *)
From S2P Require Export AssetsFacts.
#[local] Open Scope Z_scope.

Module Demo.
(** The build with overflow checks. *)
Definition checks : Overflow := {| overflow_checks := true |}.
Definition self {E} : Inject E E := fun e => e.
#[export] Existing Instances checks self.

(** Root is account 1; account 7 holds 1000 units of the asset 10. *)
Definition root : AccountId := 1%N.
Definition alice : AccountId := 7%N.
Definition bob : AccountId := 8%N.

Definition options : AssetOptions :=
  MkAssetOptions 1000 (MkPermissionsV1 (OwnerAddress root) (OwnerAddress root)
                         (OwnerAddress root)).
Definition assets : AssetsStore := st_create SBTC alice [] options AssetsStore_empty.
Definition frame {E} : Frame E := MkFrame [] 5 None 0 root.

Definition state : Type := (Frame AssetsEvent * (AssetsStore * unit))%type.
Definition start : state := (frame, (assets, tt)).
(** A second asset whose owners were all renounced. *)
Definition frozen_assets : AssetsStore :=
  st_create RFUEL alice [] (MkAssetOptions 50 PermissionsV1_default) assets.
Definition frozen_start : state := (frame, (frozen_assets, tt)).

Lemma assets_ok : ledger_ok assets.
Proof. apply st_create_ok; [apply ledger_ok_empty|reflexivity|by vm_compute]. Defined.
Lemma frozen_assets_ok : ledger_ok frozen_assets.
Proof. apply st_create_ok; [apply assets_ok|reflexivity|by vm_compute]. Defined.
Lemma start_ok : ledger_ok (sget start).
Proof. exact assets_ok. Defined.
Lemma frozen_start_ok : ledger_ok (sget frozen_start).
Proof. exact frozen_assets_ok. Defined.
End Demo.
