(* ===== verification/CurrencyFacts.v ===== *)
(** * Currencies and imbalances: the accounting of tokens *)
From S2P Require Export Currency AssetsLedger Demo.
#[local] Open Scope Z_scope.
Module AC := AssetCurrency.

(** What the issuance of an asset is short of the balances: a positive imbalance
    of [x] stands for a gap of [x], a negative one for [- x]. *)
Definition gap (a : AssetId) (st : AssetsStore) : Z :=
  asset_sum a (FreeBalance st) + asset_sum a (ReservedBalance st) - total_issuance a st.

Lemma gap_set_free a b w v st :
  gap a (st <| FreeBalance ::= <[(b, w) := v]> |>) =
  gap a st + at_asset b (v - free_balance b w st) a.
Proof.
  unfold gap, total_issuance, free_balance, at_asset; fields. rewrite asset_sum_insert.
  repeat case_decide; try congruence; lia.
Qed.
Lemma free_balance_set a w v st :
  free_balance a w (st <| FreeBalance ::= <[(a, w) := v]> |>) = v.
Proof. unfold free_balance; fields. by rewrite get_or_insert, decide_True. Qed.
Lemma gap_set_issuance a b v st :
  gap a (st <| TotalIssuance ::= <[b := v]> |>) =
  gap a st - at_asset b (v - total_issuance b st) a.
Proof.
  unfold gap, total_issuance, at_asset; fields. rewrite get_or_insert_Z.
  repeat case_decide; subst; try congruence; lia.
Qed.

Section tokens.
Context {S : Type} `{!Overflow, !Store S AssetsStore}.
Implicit Types (s : S) (a : AssetId) (x : Balance) (who : AccountId) (U : M S AssetId).

(** [U] names the asset [a] in the state at hand. *)
Lemma deposit_creating_eq U a who x s :
  U s = Ok a s -> 0 <= free_balance a who (sget s) -> 0 <= x ->
  free_balance a who (sget s) + x < 2 ^ balance_bits ->
  AC.deposit_creating U who x s =
  Ok (MkPositive x)
    (sput ((sget s) <| FreeBalance ::= <[(a, who) := free_balance a who (sget s) + x]> |>) s).
Proof.
  intros HU Hf Hx Hw. unfold AC.deposit_creating, AC.free_balance, AC.make_free_balance_be. run.
  rewrite !HU, uadd_ok by (unfold in_width; lia). cbv beta iota. rewrite !HU.
  rewrite decide_True by lia. rewrite usub_ok by (unfold in_width; lia). cbv beta iota.
  rewrite HU. unfold RioAssets.set_free_balance. run. store. unfold Positive.new. do 2 f_equal. lia.
Qed.

Lemma withdraw_eq U a who x rs s :
  U s = Ok a s ->
  0 <= x <= free_balance a who (sget s) -> free_balance a who (sget s) < 2 ^ balance_bits ->
  (reasons_contains rs Transfer = true -> Transferable ∉ get_restrictions a (sget s)) ->
  AC.withdraw U who x rs s =
  Ok (MkNegative x)
    (sput ((sget s) <| FreeBalance ::= <[(a, who) := free_balance a who (sget s) - x]> |>) s).
Proof.
  intros HU Hx Hw Hrs.
  unfold AC.withdraw, AC.free_balance, AC.ensure_can_withdraw,
    RioAssets.ensure_can_withdraw, RioAssets.can_do, checked_sub, checked. run.
  rewrite !HU, decide_True by (unfold in_width; lia). cbv beta iota. rewrite !HU.
  destruct (reasons_contains rs Transfer); cbv beta iota;
    rewrite ?bool_decide_false by auto; rewrite HU.
  all: unfold RioAssets.set_free_balance; run; by store.
Qed.

Lemma withdraw_refused U a who x rs s :
  U s = Ok a s -> in_width balance_bits (free_balance a who (sget s)) -> 0 <= x ->
  ~ (x <= free_balance a who (sget s) /\
     (reasons_contains rs Transfer = true -> Transferable ∉ get_restrictions a (sget s))) ->
  exists e, AC.withdraw U who x rs s = Err e s.
Proof.
  intros HU [Hf0 Hf] Hx Hno.
  unfold AC.withdraw, AC.free_balance, AC.ensure_can_withdraw, RioAssets.ensure_can_withdraw,
    RioAssets.can_do, checked_sub, checked. run. rewrite HU.
  case_decide as Hw; unfold in_width in Hw; [|run; by eexists].
  run. rewrite HU. destruct (reasons_contains rs Transfer); run.
  - case_bool_decide; cbn; [by eexists|]. destruct Hno. split; [lia|done].
  - destruct Hno. split; [lia|done].
Qed.

Lemma drop_positive_eq U a p s :
  U s = Ok a s -> 0 <= total_issuance a (sget s) -> 0 <= pos_amount p ->
  total_issuance a (sget s) + pos_amount p < 2 ^ balance_bits ->
  AC.drop_positive U p s =
  Ok tt (sput ((sget s) <| TotalIssuance ::=
    <[a := total_issuance a (sget s) + pos_amount p]> |>) s).
Proof.
  intros HU ???. unfold AC.drop_positive, saturating_add, umax. run. rewrite HU. run.
  by rewrite Z.min_l by lia.
Qed.
Lemma drop_negative_eq U a n s :
  U s = Ok a s -> neg_amount n <= total_issuance a (sget s) ->
  AC.drop_negative U n s =
  Ok tt (sput ((sget s) <| TotalIssuance ::=
    <[a := total_issuance a (sget s) - neg_amount n]> |>) s).
Proof.
  intros HU ?. unfold AC.drop_negative, saturating_sub. run. rewrite HU. run.
  by rewrite Z.max_l by lia.
Qed.

Lemma issue_eq U a x s :
  U s = Ok a s -> 0 <= x -> in_width balance_bits (total_issuance a (sget s)) ->
  let y := Z.min x (umax balance_bits - total_issuance a (sget s)) in
  AC.issue U x s =
  Ok (MkNegative y)
    (sput ((sget s) <| TotalIssuance ::= <[a := total_issuance a (sget s) + y]> |>) s).
Proof.
  intros HU Hx [Ht0 Ht] y. unfold y, AC.issue, checked_add, checked, umax. run. rewrite HU.
  case_decide as Hw; unfold in_width in Hw; run.
  - unfold Negative.new. by rewrite Z.min_l by lia.
  - rewrite usub_ok by (unfold in_width; lia). run. unfold Negative.new. rewrite Z.min_r by lia.
    do 3 f_equal. by replace (total_issuance a (sget s) + (2 ^ balance_bits - 1 - total_issuance a (sget s)))
      with (2 ^ balance_bits - 1) by lia.
Qed.
Lemma burn_eq U a x s :
  U s = Ok a s -> 0 <= x -> in_width balance_bits (total_issuance a (sget s)) ->
  AC.burn U x s =
  Ok (MkPositive (Z.min x (total_issuance a (sget s))))
    (sput ((sget s) <| TotalIssuance ::= <[a := total_issuance a (sget s)]> |>) s).
Proof.
  intros HU Hx [Ht0 Ht]. unfold AC.burn, checked_sub, checked. run. rewrite HU.
  case_decide as Hw; unfold in_width in Hw; run; unfold Positive.new; do 2 f_equal; lia.
Qed.

(** C17: the tokens of a currency account for the ledger: crediting an account
    opens a gap of the positive token returned; debiting it, unless a restriction
    forbids it or the funds are short, which fails without a write, opens one of minus
    the negative token; issuing, up to what the issuance has room for, opens one of
    minus the negative token; dropping a token where the issuance has room, or covers
    it, closes its gap; and no other asset's gap moves.  Burning is the exception: it
    returns a positive token and opens no gap, the issuance is as it was. *)
Theorem currency_tokens_account a who x rs s :
  let st := sget (T:=AssetsStore) s in
  0 <= x -> in_width balance_bits (free_balance a who st) ->
  in_width balance_bits (total_issuance a st) ->
  (free_balance a who st + x < 2 ^ balance_bits ->
   exists s', AC.deposit_creating (mret a) who x s = Ok (MkPositive x) s' /\
     free_balance a who (sget s') = free_balance a who st + x /\
     forall b, gap b (sget s') = gap b st + at_asset a x b) /\
  (if decide (x <= free_balance a who st /\
       (reasons_contains rs Transfer = true -> Transferable ∉ get_restrictions a st))
   then exists s', AC.withdraw (mret a) who x rs s = Ok (MkNegative x) s' /\
     free_balance a who (sget s') = free_balance a who st - x /\
     forall b, gap b (sget s') = gap b st - at_asset a x b
   else exists e, AC.withdraw (mret a) who x rs s = Err e s) /\
  (let y := Z.min x (umax balance_bits - total_issuance a st) in
   exists s', AC.issue (mret a) x s = Ok (MkNegative y) s' /\
     total_issuance a (sget s') = total_issuance a st + y /\
     forall b, gap b (sget s') = gap b st - at_asset a y b) /\
  (total_issuance a st + x < 2 ^ balance_bits ->
   exists s', AC.drop_positive (mret a) (MkPositive x) s = Ok tt s' /\
     forall b, gap b (sget s') = gap b st - at_asset a x b) /\
  (x <= total_issuance a st ->
   exists s', AC.drop_negative (mret a) (MkNegative x) s = Ok tt s' /\
     forall b, gap b (sget s') = gap b st + at_asset a x b) /\
  (exists s', AC.burn (mret a) x s = Ok (MkPositive (Z.min x (total_issuance a st))) s' /\
     forall b, gap b (sget s') = gap b st).
Proof.
  intros st Hx [Hf0 Hf] [Ht0 Ht]. split_and!.
  - intros Hfx. rewrite (deposit_creating_eq _ a) by (done || lia). eexists; split; [done|]. store.
    split; [by rewrite free_balance_set|]. intros b. rewrite gap_set_free. do 2 f_equal. lia.
  - case_decide as Hd.
    + destruct Hd. rewrite (withdraw_eq _ a) by (done || lia). eexists; split; [done|]. store.
      split; [by rewrite free_balance_set|].
      intros b. rewrite gap_set_free. unfold at_asset. fold st. case_decide; lia.
    + apply (withdraw_refused _ a); [done|by split|done..].
  - intros y. rewrite (issue_eq _ a) by done. eexists; split; [done|]. store.
    split; [by rewrite total_issuance_set, decide_True|].
    intros b. rewrite gap_set_issuance. unfold at_asset. fold st y. case_decide; lia.
  - intros Hw. rewrite (drop_positive_eq _ a) by (done || cbn; lia). eexists; split; [done|]. intros b. store.
    rewrite gap_set_issuance. unfold at_asset. fold st. case_decide; cbn; lia.
  - intros Hle. rewrite (drop_negative_eq _ a) by (done || cbn; lia). eexists; split; [done|]. intros b. store.
    rewrite gap_set_issuance. unfold at_asset. fold st. case_decide; cbn; lia.
  - rewrite (burn_eq _ a) by done. eexists; split; [done|]. intros b. store.
    rewrite gap_set_issuance. unfold at_asset. fold st. case_decide; lia.
Qed.

(** [Currency::burn] returns a positive token but leaves the issuance as it
    was, so dropping the token leaves the asset with more issuance than its
    balances account for. *)
Theorem currency_burn_keeps_issuance a x s :
  0 <= x <= total_issuance a (sget s) -> total_issuance a (sget s) + x < 2 ^ balance_bits ->
  exists s1 s2, AC.burn (mret a) x s = Ok (MkPositive x) s1 /\
    (forall b, total_issuance b (sget s1) = total_issuance b (sget s)) /\
    AC.drop_positive (mret a) (MkPositive x) s1 = Ok tt s2 /\
    gap a (sget s2) = gap a (sget s) - x.
Proof.
  intros Hx Hw. eexists _, _. rewrite (burn_eq _ a), Z.min_l by (done || lia || split; lia).
  split; [done|]. split; [|split].
  - intros b. store. rewrite total_issuance_set. case_decide; by subst.
  - apply drop_positive_eq; [done|..]; store; rewrite ?total_issuance_set, ?decide_True by done; cbn; lia.
  - store. rewrite !gap_set_issuance, !total_issuance_set, !decide_True by done.
    unfold at_asset. rewrite !decide_True by done. cbn. lia.
Qed.

(** Splitting, merging and offsetting tokens conserves their value. *)
Theorem imbalance_algebra (p q : PositiveImbalance) (n : NegativeImbalance) x :
  in_width balance_bits (pos_amount p) -> in_width balance_bits (pos_amount q) ->
  in_width balance_bits (neg_amount n) -> 0 <= x ->
  (exists p1 p2, Positive.split p x = Some (p1, p2) /\
     pos_amount p1 = Z.min (pos_amount p) x /\ pos_amount p1 + pos_amount p2 = pos_amount p /\
     Positive.merge p1 p2 = p) /\
  (pos_amount p + pos_amount q < 2 ^ balance_bits ->
   pos_amount (Positive.merge p q) = pos_amount p + pos_amount q) /\
  (exists r, Positive.offset p n = Some r /\
     match r with inl p' => pos_amount p' | inr n' => - neg_amount n' end
     = pos_amount p - neg_amount n).
Proof.
  unfold in_width. intros Hp Hq Hn Hx. repeat split.
  - unfold Positive.split, Positive.new. rewrite usub_ok by (unfold in_width; lia). cbn.
    eexists _, _. split; [done|]. cbn. split; [lia|]. split; [lia|].
    unfold Positive.merge, Positive.new, saturating_add, umax. destruct p; cbn in *. f_equal. lia.
  - intros. unfold Positive.merge, Positive.new, saturating_add, umax; cbn. lia.
  - unfold Positive.offset, Positive.new. case_decide;
      rewrite usub_ok by (unfold in_width; lia); eexists; split; try done; cbn; lia.
Qed.
End tokens.

(** ** Exchange between two assets *)
Definition between_error (fa : AssetId) (from : AccountId) (ta : AssetId) (rs : WithdrawReasons)
    (x : Balance) (st : AssetsStore) : option error :=
  if negb (asset_exists fa st && asset_exists ta st) then Some (Msg "AssetId is not exist.")
  else if decide (free_balance fa from st < x) then Some (Msg "balance too low to send amount")
  else if reasons_contains rs Transfer && bool_decide (Transferable ∈ get_restrictions fa st)
  then Some (Msg "The asset is restricted for this action.")
  else None.

(** The ledger after an exchange: [x] burnt from one asset, [x] minted in the other. *)
Definition st_exchange (fa : AssetId) (from : AccountId) (ta : AssetId) (to : AccountId)
    (x : Balance) (st : AssetsStore) : AssetsStore :=
  st_mint ta to x (st_mint fa from (- x) st).

Lemma st_exchange_ok fa from ta to x st :
  ledger_ok st -> asset_exists fa st = true -> asset_exists ta st = true ->
  0 <= x <= free_balance fa from st -> total_issuance ta st + x < 2 ^ balance_bits ->
  ledger_ok (st_exchange fa from ta to x st).
Proof.
  intros Hok Hfa Hta Hx Hw. pose proof (total_issuance_bound _ Hok fa).
  pose proof (balances_le_issuance _ Hok fa from). pose proof (reserved_balance_nonneg _ Hok fa from).
  assert (ledger_ok (st_mint fa from (- x) st)) as Hok1.
  { apply st_mint_ok; [done|done|lia|unfold in_width; lia]. }
  pose proof (free_balance_nonneg _ Hok1 ta to). pose proof (total_issuance_bound _ Hok1 ta).
  apply st_mint_ok; [done|done|lia|]. unfold in_width.
  rewrite st_mint_issuance in *. unfold at_asset in *. case_decide; lia.
Qed.

Lemma between_error_None fa from ta rs x st :
  between_error fa from ta rs x st = None ->
  asset_exists fa st = true /\ asset_exists ta st = true /\ x <= free_balance fa from st /\
  (reasons_contains rs Transfer = true -> Transferable ∉ get_restrictions fa st).
Proof.
  unfold between_error. destruct (asset_exists fa st), (asset_exists ta st); cbn; try done.
  case_decide; [done|]. destruct (reasons_contains rs Transfer); cbn; [case_bool_decide; try done|];
    intros _; split_and!; try done; lia.
Qed.

Section between_facts.
Context {S : Type} `{!Overflow, !Store S AssetsStore}.
Implicit Types (s : S) (x : Balance).

(** The credit, then the debit, of the issuances, in the order of the specification. *)
Lemma exchange_issuance fa from ta x st :
  <[fa := total_issuance fa st + at_asset ta x fa - x]>
    (<[ta := total_issuance ta st + x]> (TotalIssuance st)) =
  <[ta := total_issuance ta (st_mint fa from (- x) st) + x]>
    (<[fa := total_issuance fa st + - x]> (TotalIssuance st)).
Proof.
  rewrite st_mint_issuance. unfold at_asset. destruct (decide (fa = ta)) as [<-|Hne].
  - rewrite !insert_insert_eq, decide_True by done. f_equal. lia.
  - rewrite decide_False by done. rewrite insert_insert_ne by done. by rewrite !Z.add_0_r.
Qed.
(** What the receiver holds once the sender was debited. *)
Lemma debited_bounds fa from ta to x st :
  ledger_ok st -> 0 <= x <= free_balance fa from st ->
  let st' := st <| FreeBalance ::= <[(fa, from) := free_balance fa from st - x]> |> in
  0 <= free_balance ta to st' <= free_balance ta to st.
Proof.
  intros Hok Hx st'. unfold st', free_balance at 1 3; fields. rewrite get_or_insert.
  pose proof (free_balance_width _ Hok ta to) as [??]. case_decide as He; [injection He as -> ->; lia|].
  unfold free_balance in *. lia.
Qed.

Lemma exchange_eq fa from ta to rs x s :
  let st := sget (T:=AssetsStore) s in
  ledger_ok st -> asset_exists fa st = true -> asset_exists ta st = true ->
  0 <= x <= free_balance fa from st -> total_issuance ta st + x < 2 ^ balance_bits ->
  (reasons_contains rs Transfer = true -> Transferable ∉ get_restrictions fa st) ->
  exists st', exchange fa from ta to rs x s = Ok tt (sput st' s) /\
    TotalIssuance st' = TotalIssuance (st_exchange fa from ta to x st) /\
    FreeBalance st' = FreeBalance (st_exchange fa from ta to x st) /\
    ReservedBalance st' = ReservedBalance st /\ Symbols st' = Symbols st /\
    FromId st' = Some fa /\ ToId st' = Some ta.
Proof.
  intros st Hok Hfa Hta Hx Hw Hrs.
  unfold exchange, AC.FromToContext_new. run. store. rewrite sput_sput.
  set (st1 := set_field ToId _ _). set (s1 := sput st1 s).
  assert (sget s1 = st1) as H1 by apply sget_sput.
  assert (free_balance fa from st1 = free_balance fa from st) as Hf1 by done.
  rewrite (withdraw_eq _ fa); rewrite ?H1, ?Hf1.
  2: { unfold AC.FromAssetIdProvider. run. by rewrite H1. }
  2: lia. 2: { pose proof (free_balance_width _ Hok fa from) as [??]. done. }
  2: done.
  cbv beta iota. unfold s1. rewrite sput_sput. clear s1 H1.
  set (st2 := set_field FreeBalance _ st1). set (s2 := sput st2 s).
  assert (sget s2 = st2) as H2 by apply sget_sput.
  assert (0 <= free_balance ta to st2 <= free_balance ta to st) as [H20 H21]
    by (by apply (debited_bounds fa from ta to x st)).
  pose proof (balances_le_issuance _ Hok ta to). pose proof (reserved_balance_nonneg _ Hok ta to).
  pose proof (total_issuance_bound _ Hok ta).
  rewrite (deposit_creating_eq _ ta); rewrite ?H2; [|..|lia|lia|lia].
  2: { unfold AC.ToAssetIdProvider. run. by rewrite H2. }
  cbv beta iota. rewrite decide_True by done. unfold s2. rewrite sput_sput. clear s2 H2.
  set (st3 := set_field FreeBalance _ st2). set (s3 := sput st3 s).
  assert (sget s3 = st3) as Hs3 by apply sget_sput.
  assert (total_issuance ta st3 = total_issuance ta st) as Hi3 by done.
  rewrite (drop_positive_eq _ ta); rewrite ?Hs3, ?Hi3; cbn [pos_amount]; [|..|lia|lia|lia].
  2: { unfold AC.ToAssetIdProvider. run. by rewrite Hs3. }
  cbv beta iota. unfold s3. rewrite sput_sput. clear s3 Hs3.
  set (st4 := set_field TotalIssuance _ st3). set (s4 := sput st4 s).
  assert (sget s4 = st4) as Hs4 by apply sget_sput.
  pose proof (total_issuance_bound _ Hok fa).
  pose proof (balances_le_issuance _ Hok fa from). pose proof (reserved_balance_nonneg _ Hok fa from).
  assert (total_issuance fa st4 = total_issuance fa st + at_asset ta x fa) as Hi4.
  { unfold st4. rewrite total_issuance_set. unfold at_asset.
    change (total_issuance fa st3) with (total_issuance fa st).
    case_decide as He1; case_decide; try congruence; rewrite ?He1; lia. }
  rewrite (drop_negative_eq _ fa); rewrite ?Hs4; cbn [neg_amount].
  2: { unfold AC.FromAssetIdProvider. run. by rewrite Hs4. }
  2: { rewrite Hi4. unfold at_asset. case_decide; lia. }
  cbv beta iota. unfold s4. store. rewrite !sput_sput. eexists; split; [done|].
  rewrite Hi4. split_and!; try done.
  apply exchange_issuance.
Qed.

(** The ids of the exchanged assets stay in the storage. *)
Definition ids_after fa (from : AccountId) ta (to : AccountId) (st : AssetsStore)
    : option AssetId * option AssetId :=
  if decide (from = to /\ fa = ta) then (FromId st, ToId st) else (Some fa, Some ta).

Lemma between_run fa from ta to rs x s :
  let st := sget (T:=AssetsStore) s in
  ledger_ok st -> 0 <= x -> total_issuance ta st + x < 2 ^ balance_bits ->
  match between_error fa from ta rs x st with
  | Some e => make_transfer_between_assets fa from ta to rs x s = Err e s
  | None => make_transfer_between_assets fa from ta to rs x s =
      if negb (bool_decide (from = to)) || negb (bool_decide (fa = ta))
      then exchange fa from ta to rs x s else Ok tt s
  end.
Proof.
  cbv zeta. intros Hok Hx Hw. unfold make_transfer_between_assets, between_error. run.
  rewrite !RioAssetsFacts.should_exist_eq.
  destruct (asset_exists fa (sget s)); cbn; [|done]. rewrite RioAssetsFacts.should_exist_eq.
  destruct (asset_exists ta (sget s)); cbn; [|done].
  pose proof (free_balance_width _ Hok fa from) as [??].
  pose proof (free_balance_width _ Hok ta to) as [??].
  pose proof (balances_le_issuance _ Hok ta to). pose proof (reserved_balance_nonneg _ Hok ta to).
  unfold checked_add, checked_sub, checked.
  destruct (decide (free_balance fa from (sget s) < x)).
  { by rewrite (decide_False (P := in_width _ (free_balance fa from (sget s) - x)))
      by (unfold in_width; lia). }
  rewrite !decide_True by (unfold in_width; pose proof (total_issuance_bound _ Hok ta); lia).
  unfold RioAssets.ensure_can_withdraw, RioAssets.can_do. run.
  destruct (reasons_contains rs Transfer); cbn.
  - case_bool_decide; cbn; [done|]. by destruct (_ || _).
  - by destruct (_ || _).
Qed.

Lemma between_wp fa from ta to rs x s :
  let st := sget (T:=AssetsStore) s in
  ledger_ok st -> 0 <= x -> total_issuance ta st + x < 2 ^ balance_bits ->
  wp (make_transfer_between_assets fa from ta to rs x)
    (fun _ s' => let st' := sget (T:=AssetsStore) s' in
       between_error fa from ta rs x st = None /\ ledger_ok st' /\
       (forall a w, free_balance a w st' =
          free_balance a w st + at_account ta to x a w - at_account fa from x a w) /\
       (forall a, total_issuance a st' =
          total_issuance a st + at_asset ta x a - at_asset fa x a) /\
       ReservedBalance st' = ReservedBalance st /\
       (FromId st', ToId st') = ids_after fa from ta to st /\ s' = sput st' s)
    (fun e s' => between_error fa from ta rs x st = Some e /\ s' = s) False s.
Proof.
  intros st Hok Hx Hw. pose proof (between_run fa from ta to rs x s Hok Hx Hw) as Hrun.
  fold st in Hrun. destruct (between_error fa from ta rs x st) eqn:Herr.
  { apply wp_intro; rewrite Hrun; naive_solver. }
  destruct (_ || _) eqn:Hsame.
  - apply between_error_None in Herr as (Hfa & Hta & Hle & Hrs).
    destruct (exchange_eq fa from ta to rs x s) as (st' & Hex & Ht & Hf & Hr & Hs & ? & ?);
      try done.
    apply wp_intro; rewrite Hrun, Hex; try done.
    intros [] s' [= <-]. store. split; [done|].
    assert ((FromId st', ToId st') = ids_after fa from ta to st) as Hids.
    { unfold ids_after. rewrite decide_False; [congruence|]. intros [-> ->].
      by rewrite !bool_decide_true in Hsame. }
    pose proof (st_exchange_ok fa from ta to x st Hok Hfa Hta ltac:(lia) Hw) as Hok'.
    split_and!; try done.
    + eapply ledger_ok_same; [..|exact Hok']; done.
    + intros a w. unfold free_balance at 1. rewrite Hf.
      change (get_or 0 _ (a, w)) with (free_balance a w (st_exchange fa from ta to x st)).
      unfold st_exchange. rewrite !st_mint_balance. unfold at_account. repeat case_decide; lia.
    + intros a. unfold total_issuance at 1. rewrite Ht.
      change (get_or 0 _ a) with (total_issuance a (st_exchange fa from ta to x st)).
      unfold st_exchange. rewrite !st_mint_issuance. unfold at_asset. repeat case_decide; lia.
  - apply orb_false_iff in Hsame as [H1%negb_false_iff%bool_decide_eq_true
      H2%negb_false_iff%bool_decide_eq_true]. subst.
    apply wp_intro; rewrite Hrun; try done. intros [] s' [= <-]. fold st.
    split_and!; try done; intros; try lia; unfold st; [|by rewrite sput_sget].
    unfold ids_after. by rewrite decide_True.
Qed.

(** C12: [make_transfer_between_assets] burns the amount from one asset and
    mints it in the other: it fails without a write exactly for a missing asset,
    a low balance or a restricted transfer, never panics, and otherwise moves the
    two balances and the two issuances by the amount, keeps the invariant of the
    ledger, writes nothing outside the ledger, and leaves the ids of the two assets in
    the storage.  The issuance of the receiving asset must have room, which the code
    does not check. *)
Theorem make_transfer_between_assets_spec fa from ta to rs x s :
  let st := sget (T:=AssetsStore) s in
  ledger_ok st -> 0 <= x -> total_issuance ta st + x < 2 ^ balance_bits ->
  wp (make_transfer_between_assets fa from ta to rs x)
    (fun _ s' => let st' := sget (T:=AssetsStore) s' in
       between_error fa from ta rs x st = None /\ ledger_ok st' /\
       (forall a w, free_balance a w st' =
          free_balance a w st + at_account ta to x a w - at_account fa from x a w) /\
       (forall a, total_issuance a st' =
          total_issuance a st + at_asset ta x a - at_asset fa x a) /\
       ReservedBalance st' = ReservedBalance st /\
       (FromId st', ToId st') = ids_after fa from ta to st /\ s' = sput st' s)
    (fun e s' => between_error fa from ta rs x st = Some e /\ s' = s) False s.
Proof.
  intros st Hok Hx Hw. by apply between_wp.
Qed.
End between_facts.

(** ** Instances on a concrete ledger *)
Section witnesses.
Import Demo.

Lemma currency_tokens_account_witness :
  (exists s', AC.deposit_creating (mret SBTC) bob 30 Demo.start = Ok (MkPositive 30) s' /\
     gap SBTC (sget s') = 30) /\
  exists s', AC.issue (mret SBTC) 30 Demo.start = Ok (MkNegative 30) s' /\ gap SBTC (sget s') = -30.
Proof.
  pose proof (currency_tokens_account SBTC bob 30 [TransactionPayment] Demo.start ltac:(lia)) as H.
  do 2 specialize (H ltac:(by vm_compute)). destruct H as (Hd & _ & (s2 & Hr2 & _ & Hg2) & _).
  destruct (Hd ltac:(by vm_compute)) as (s1 & Hr1 & _ & Hg1). split.
  - exists s1. split; [exact Hr1|]. by rewrite Hg1.
  - exists s2. split; [exact Hr2|]. by rewrite Hg2.
Defined.

Lemma currency_burn_keeps_issuance_witness :
  exists s1 s2, AC.burn (mret SBTC) 100 Demo.start = Ok (MkPositive 100) s1 /\
    total_issuance SBTC (sget s1) = 1000 /\
    AC.drop_positive (mret SBTC) (MkPositive 100) s1 = Ok tt s2 /\ gap SBTC (sget s2) = -100.
Proof.
  pose proof (currency_burn_keeps_issuance SBTC 100 Demo.start) as H.
  do 2 specialize (H ltac:(by vm_compute)). destruct H as (s1 & s2 & Hb & Ht & Hd & Hg).
  exists s1, s2. split_and!; [exact Hb|by rewrite Ht|exact Hd|by rewrite Hg].
Defined.

Lemma imbalance_algebra_witness :
  exists r, Positive.offset (MkPositive 3) (MkNegative 5) = Some r /\
    match r with inl p' => pos_amount p' | inr n' => - neg_amount n' end = -2.
Proof.
  destruct (imbalance_algebra (MkPositive 3) (MkPositive 4) (MkNegative 5) 2) as (_ & _ & H);
    [by vm_compute..|exact H].
Defined.

Lemma make_transfer_between_assets_spec_witness :
  exists s', make_transfer_between_assets SBTC alice RFUEL bob [TransactionPayment] 40
      Demo.frozen_start = Ok tt s' /\
    free_balance SBTC alice (sget s') = 960 /\ free_balance RFUEL bob (sget s') = 40 /\
    total_issuance RFUEL (sget s') = 90.
Proof.
  destruct (make_transfer_between_assets SBTC alice RFUEL bob [TransactionPayment] 40
              Demo.frozen_start) as [[] s'|e s'|] eqn:Hr;
    [|vm_compute in Hr; discriminate|vm_compute in Hr; discriminate].
  exists s'. split; [done|].
  pose proof (make_transfer_between_assets_spec SBTC alice RFUEL bob [TransactionPayment] 40
                Demo.frozen_start frozen_start_ok) as H.
  specialize (H ltac:(lia)). specialize (H ltac:(by vm_compute)).
  pose proof (wp_Ok _ _ _ _ _ _ _ H Hr) as (_ & _ & Hb & Hi & _).
  rewrite !Hb, Hi. by vm_compute.
Defined.
End witnesses.
