(* ===== verification/AssetsProps.v ===== *)
(** * The asset ledger: what the dispatchables guarantee

    Safety over all reachable states, the behaviour of each call in the
    configuration of the runtime, and the genesis. *)
From S2P Require Export AssetsFacts AssetsLedger Demo.
From stdpp Require Import relations.
#[local] Open Scope Z_scope.
Import RioAssets RioAssetsFacts.

(** ** The runs of the pallet *)
Section reachability.
Context {S E : Type} `{!Overflow}.
Context `{!Store S (Frame E), !Store S AssetsStore, !Inject AssetsEvent E}.
Context `{!Separate S (Frame E) AssetsStore}.
Context `{!BeforeAssetTransfer S, !OnAssetTransfer S, !BeforeAssetMint S, !OnAssetMint S}.
Context `{!BeforeAssetBurn S, !OnAssetBurn S}.

(** One extrinsic of the pallet, whatever its origin and outcome, or a step of
    another pallet, which does not write the ledger's storage. *)
Inductive chain_step (s : S) : S -> Prop :=
| step_ok o c v s' :
    in_width balance_bits (call_amount c) -> dispatch (E:=E) o c s = Ok v s' -> chain_step s s'
| step_err o c e s' :
    in_width balance_bits (call_amount c) -> dispatch (E:=E) o c s = Err e s' -> chain_step s s'
| step_other s' : sget (T:=AssetsStore) s' = sget s -> chain_step s s'.

Lemma chain_step_ok s s' : hooks_keep False -> ok s -> chain_step s s' -> ok s'.
Proof.
  intros Hh Hs [o c v s1 Hc Hr|o c e s1 Hc Hr|s1 Hr].
  - eapply (wp_Ok _ _ _ _ _ _ _ (dispatch_keeps _ o c Hh Hc s Hs) Hr).
  - eapply (wp_Err _ _ _ _ _ _ _ (dispatch_keeps _ o c Hh Hc s Hs) Hr).
  - unfold ok in *. by rewrite Hr.
Qed.

(** C3: in every state reachable from a well-formed ledger by extrinsics that
    succeed or fail, the issuance of each asset is the sum of its free and
    reserved balances and fits 128 bits, balances are not negative, and no
    extrinsic of the pallet panics. *)
Theorem assets_reachable_safe s0 s :
  hooks_keep False -> ledger_ok (sget s0) -> rtc chain_step s0 s ->
  ledger_ok (sget s) /\
  forall o c, in_width balance_bits (call_amount c) -> dispatch (E:=E) o c s <> Panic.
Proof.
  intros Hh Hs0 Hrun.
  assert (ok s) as Hs.
  { induction Hrun as [|s1 s2 s3 Hst _ IH]; [done|]. apply IH. exact (chain_step_ok _ _ Hh Hs0 Hst). }
  split; [exact Hs|]. intros o c Hc Hp.
  exact (wp_Panic _ _ _ _ _ (dispatch_keeps _ o c Hh Hc s Hs) Hp).
Qed.
End reachability.

Lemma st_reserve_free a who x st :
  free_balance a who (st_reserve a who x st) = free_balance a who st - x.
Proof. unfold st_reserve, free_balance; fields. by rewrite get_or_insert, decide_True. Qed.
Lemma st_reserve_reserved a who x st :
  reserved_balance a who (st_reserve a who x st) = reserved_balance a who st + x.
Proof. unfold st_reserve, reserved_balance; fields. by rewrite get_or_insert, decide_True. Qed.

(** ** The calls in the configuration of the runtime: no hooks *)
Section calls.
Context {S E : Type} `{!Overflow}.
Context `{!Store S (Frame E), !Store S AssetsStore, !Inject AssetsEvent E}.
Context `{!Separate S (Frame E) AssetsStore}.
Import NoHooks.
Implicit Types (s : S) (a : AssetId) (x : Balance) (who from to : AccountId).

(** [transfer] by its error or its only write and event. *)
Definition transfer_result (o : origin) a to x s : outcome S unit :=
  match o with
  | Signed who =>
      match transfer_error a who x (sget s) with
      | Some e => Err e s
      | None =>
          if decide (who = to) then Ok tt s
          else deposit_event (E:=E) (Transferred a who to x)
                 (sput (st_move a who to x (sget s)) s)
      end
  | _ => Err BadOrigin s
  end.

Lemma transfer_run o a to x s :
  ledger_ok (sget s) -> 0 <= x ->
  transfer (E:=E) o a to x s = transfer_result o a to x s.
Proof.
  intros Hok Hx. unfold transfer, before_asset_transfer, before_transfer, transfer_result.
  destruct o as [|who|]; try done. run. rewrite transfer_runs by done.
  destruct (transfer_error a who x (sget s)); [done|]. by case_decide.
Qed.

(** C13: the transfer call needs a signature, fails for a missing asset, a low
    balance or a restricted asset without any write, does nothing when an account
    pays itself, and otherwise debits the sender, credits the receiver, deposits
    the one event and changes nothing else of the ledger. *)
Theorem transfer_spec_run o a to x s :
  ledger_ok (sget s) -> 0 <= x ->
  match o with
  | Signed who =>
      match transfer_error a who x (sget s) with
      | Some e => transfer (E:=E) o a to x s = Err e s
      | None =>
          exists s', transfer (E:=E) o a to x s = Ok tt s' /\
            (forall b w, free_balance b w (sget s') = free_balance b w (sget s)
               + (if decide (who = to) then 0
                  else at_account a to x b w - at_account a who x b w)) /\
            TotalIssuance (sget s') = TotalIssuance (sget s) /\
            ReservedBalance (sget s') = ReservedBalance (sget s) /\
            events (sget (T:=Frame E) s') = events (sget (T:=Frame E) s)
              ++ (if decide (who = to) then [] else [inject (Transferred a who to x)])
      end
  | _ => transfer (E:=E) o a to x s = Err BadOrigin s
  end.
Proof.
  intros Hok Hx. destruct o as [|who|]; try done.
  rewrite transfer_run by done. unfold transfer_result.
  destruct (transfer_error a who x (sget s)); [done|]. case_decide as Hne.
  - eexists; split; [done|]. rewrite app_nil_r. split_and!; try done. intros; lia.
  - eexists; split; [unfold deposit_event, modify; done|]. store.
    split_and!; try (unfold st_move; by rewrite decide_False); [|done].
    intros b w. apply st_move_balance.
Qed.

(** A successful mint by root can be burnt from the same account whenever
    root has the permission to burn, and the burn gives back every balance and
    every issuance. *)
Theorem mint_burn_round_trip a to x s s1 :
  ledger_ok (sget s) -> 0 <= x ->
  RioAssets.mint (E:=E) Root a to x s = Ok tt s1 ->
  permitted PermBurn a (root_of s) (sget s) = true ->
  exists s2, RioAssets.burn (E:=E) Root a to x s1 = Ok tt s2 /\
    (forall b w, free_balance b w (sget s2) = free_balance b w (sget s)) /\
    (forall b, total_issuance b (sget s2) = total_issuance b (sget s)).
Proof.
  intros Hok Hx Hm Hp.
  pose proof (wp_Ok _ _ _ _ _ _ _ (mint_runs_spec (E:=E) a to x s Hok Hx) Hm) as [He Hc1].
  apply mint_error_None in He as [[Hex _]%andb_true_iff _].
  pose proof (lc_inv _ _ _ _ Hc1) as Hok1.
  pose proof (lc_burnable _ _ _ _ Hc1 a) as Hbu. cbn in Hbu. rewrite Hex, Hp in Hbu.
  pose proof (lc_balance _ _ _ _ Hc1) as Hb1. pose proof (lc_issuance _ _ _ _ Hc1) as Hi1.
  cbn in Hb1, Hi1.
  assert (burn_error a (root_of s1) to x (sget s1) = None) as Hb.
  { apply burn_error_None; [done|]. split; [done|]. rewrite Hb1. unfold at_account.
    rewrite decide_True by done. pose proof (free_balance_nonneg _ Hok a to). lia. }
  pose proof (burn_runs_spec (E:=E) a to x s1 Hok1 Hx) as Hburn.
  destruct (RioAssets.burn (E:=E) Root a to x s1) as [[] s2|e s2|] eqn:Hr.
  - eexists; split; [done|]. destruct (wp_Ok _ _ _ _ _ _ _ Hburn Hr) as [_ Hc2].
    pose proof (lc_balance _ _ _ _ Hc2) as Hb2. pose proof (lc_issuance _ _ _ _ Hc2) as Hi2.
    cbn in Hb2, Hi2. split; intros; rewrite ?Hb2, ?Hb1, ?Hi2, ?Hi1;
      unfold at_account, at_asset; case_decide; lia.
  - pose proof (wp_Err _ _ _ _ _ _ _ Hburn Hr). naive_solver.
  - by pose proof (wp_Panic _ _ _ _ _ Hburn Hr).
Qed.

(** Reserving moves funds from the free to the reserved balance of the
    account and unreserving moves them back, up to what is reserved, returning
    the rest; the sum of the two never changes and reserving more than the free
    balance fails. *)
Theorem reserve_unreserve_spec a who x s :
  ledger_ok (sget s) -> in_width balance_bits x ->
  (if decide (free_balance a who (sget s) < x)
   then reserve a who x s = Err (Msg "not enough free funds") s
   else exists s', reserve a who x s = Ok tt s' /\
     free_balance a who (sget s') = free_balance a who (sget s) - x /\
     reserved_balance a who (sget s') = reserved_balance a who (sget s) + x /\
     exists s'', unreserve a who x s' = Ok 0 s'' /\
       free_balance a who (sget s'') = free_balance a who (sget s) /\
       reserved_balance a who (sget s'') = reserved_balance a who (sget s)) /\
  (exists s', let moved := Z.min (reserved_balance a who (sget s)) x in
     unreserve a who x s = Ok (x - moved) s' /\
     free_balance a who (sget s') = free_balance a who (sget s) + moved /\
     reserved_balance a who (sget s') = reserved_balance a who (sget s) - moved).
Proof.
  intros Hok Hx. pose proof (reserved_balance_nonneg _ Hok a who).
  unfold in_width in Hx. split.
  - rewrite reserve_eq by (done || lia). case_decide; [done|].
    eexists; split; [done|]. store. rewrite st_reserve_free, st_reserve_reserved.
    split_and!; [done|done|]. rewrite unreserve_eq; store; [|apply st_reserve_ok; lia || done|done].
    cbv zeta. rewrite st_reserve_reserved, Z.min_r, Z.sub_diag by lia.
    eexists; split; [done|]. store. rewrite !st_reserve_free, !st_reserve_reserved. lia.
  - rewrite unreserve_eq by done. eexists; split; [done|]. store.
    rewrite st_reserve_free, st_reserve_reserved. lia.
Qed.

(** What a call of a signed account may do to the ledger. *)
Record signed_effect (who : AccountId) (st st' : AssetsStore) : Prop := {
  se_ok : ledger_ok st';
  se_others a w : w <> who -> free_balance a w st <= free_balance a w st';
  se_issuance : TotalIssuance st' = TotalIssuance st;
  se_reserved : ReservedBalance st' = ReservedBalance st;
  se_permissions : Permissions st' = Permissions st;
  se_restrictions : Restrictions st' = Restrictions st;
  se_symbols : Symbols st' = Symbols st;
}.

Lemma signed_effect_refl who st : ledger_ok st -> signed_effect who st st.
Proof. by split. Qed.

(** C6: no call of an account that is not root lowers the balance of another
    account, touches a reserve, an issuance, a permission, a restriction or the
    set of assets, or panics. *)
Theorem signed_call_safe who (c : Call) s :
  ledger_ok (sget s) -> in_width balance_bits (call_amount c) ->
  wp (dispatch (E:=E) (Signed who) c)
    (fun _ s' => signed_effect who (sget s) (sget s'))
    (fun _ s' => s' = s) False s.
Proof.
  intros Hok Hc. destruct c; unfold dispatch, call_amount in *;
    try (apply wp_intro; [discriminate|by intros e s' [= <- <-]|discriminate]).
  destruct Hc as [Hc _]. apply wp_intro; rewrite transfer_run by done; unfold transfer_result;
    destruct (transfer_error asset_id who amount (sget s)) eqn:He; try naive_solver;
    destruct (decide (who = to)) as [|Hne]; try naive_solver.
  - intros [] s' [= <-]. by apply signed_effect_refl.
  - intros [] s' [= <-]. store. apply transfer_error_None in He as [_ He].
    assert (ledger_ok (st_move asset_id who to amount (sget s))) by (apply st_move_ok; [done|lia]).
    split; [done| |unfold st_move; by rewrite decide_False..].
    intros b w Hw. rewrite st_move_balance. unfold at_account.
    repeat case_decide; naive_solver lia.
Qed.
End calls.

(** ** The genesis *)
Section genesis.
Context {S E : Type} `{!Overflow}.
Context `{!Store S (Frame E), !Store S AssetsStore, !Inject AssetsEvent E}.
Context `{!Separate S (Frame E) AssetsStore}.
Implicit Types (s : S) (a : AssetId) (l : list (AccountId * Balance)).

Definition endowment l : Z := foldr (fun e acc => e.2 + acc) 0 l.
#[local] Arguments endowment : simpl never.
Lemma endowment_cons e l : endowment (e :: l) = e.2 + endowment l.
Proof. done. Qed.

Definition st_endow a l (st : AssetsStore) : AssetsStore :=
  foldl (fun st e => st <| FreeBalance ::= <[(a, e.1) := e.2]> |>) st l.

Lemma endow_run a l s :
  for_each (fun e : AccountId * Balance => set_free_balance a e.1 e.2) l s =
  Ok tt (sput (st_endow a l (sget s)) s).
Proof.
  revert s. induction l as [|e l IH]; intros s; cbn; [unfold mret, M_ret; by rewrite sput_sget|].
  unfold mbind at 1, M_bind at 1, set_free_balance, modify. rewrite IH. store. by rewrite sput_sput.
Qed.

Lemma endow_fields a l st :
  TotalIssuance (st_endow a l st) = TotalIssuance st /\
  ReservedBalance (st_endow a l st) = ReservedBalance st /\
  Symbols (st_endow a l st) = Symbols st /\
  Permissions (st_endow a l st) = Permissions st /\
  Restrictions (st_endow a l st) = Restrictions st.
Proof. revert st. induction l as [|e l IH]; intros st; [done|].
  exact (IH (st <| FreeBalance ::= <[(a, e.1) := e.2]> |>)).
Qed.

Lemma endow_free a l st :
  NoDup l.*1 -> Forall (fun e => 0 <= e.2) l -> nonneg_map (FreeBalance st) ->
  (forall w, w ∈ l.*1 -> free_balance a w st = 0) ->
  nonneg_map (FreeBalance (st_endow a l st)) /\
  (forall b, asset_sum b (FreeBalance (st_endow a l st)) =
     asset_sum b (FreeBalance st) + at_asset a (endowment l) b) /\
  (forall w x, (w, x) ∈ l -> free_balance a w (st_endow a l st) = x) /\
  (forall b w, w ∉ l.*1 \/ b <> a -> free_balance b w (st_endow a l st) = free_balance b w st).
Proof.
  revert st. induction l as [|[v y] l IH]; intros st Hnd Hpos Hn Hz; cbn.
  - unfold at_asset. split_and!; [done| |set_solver|done]. intros b. change (endowment []) with 0. case_decide; lia.
  - cbn in Hnd. apply NoDup_cons in Hnd as [Hv Hnd]. apply Forall_cons in Hpos as [Hy Hpos].
    cbn in Hy.
    set (st1 := set_field FreeBalance _ st).
    assert (forall b w, free_balance b w st1 =
      if decide ((a, v) = (b, w)) then y else free_balance b w st) as Hst1.
    { intros b w. unfold st1, free_balance; fields. apply get_or_insert. }
    destruct (IH st1) as (Hn' & Hs & Hin & Hout); [done|done| | |].
    + by apply nonneg_map_insert.
    + intros w Hw. rewrite Hst1, decide_False by congruence. apply Hz. cbn. set_solver.
    + split_and!; [done| | |].
      * intros b. rewrite Hs. unfold st1; fields. rewrite asset_sum_insert.
        pose proof (Hz v ltac:(cbn; set_solver)) as Hzv. unfold free_balance in Hzv.
        unfold at_asset.
        rewrite endowment_cons. cbn [snd].
        clear Hst1. repeat case_decide; try congruence; lia.
      * intros w x [Heq|Hwx]%elem_of_cons; [|by apply Hin]. injection Heq as -> ->.
        rewrite Hout by auto. rewrite Hst1. by rewrite decide_True.
      * intros b w Hbw. rewrite Hout by (destruct Hbw; [left; set_solver|by right]).
        rewrite Hst1, decide_False; [done|]. intros [= <- <-]. destruct Hbw; set_solver.
Qed.

Lemma endowment_nonneg l : Forall (fun e => 0 <= e.2) l -> 0 <= endowment l.
Proof. induction 1; [done|]. rewrite endowment_cons. lia. Qed.

Lemma endowment_fold (l : list (AccountId * Balance)) (acc : Z) :
  Forall (fun e => 0 <= e.2) l -> 0 <= acc -> acc + endowment l < 2 ^ balance_bits ->
  foldl (fun acc e => s ← acc; uadd balance_bits s e.2) (Some acc) l = Some (acc + endowment l).
Proof.
  revert acc. induction l as [|e l IH]; intros acc Hpos Hacc Hw; [cbn; f_equal; change (endowment []) with 0; lia|cbn [foldl]].
  apply Forall_cons in Hpos as [He Hpos]. pose proof (endowment_nonneg l Hpos).
  rewrite endowment_cons in *.
  assert ((Some acc ≫= fun r : Z => uadd balance_bits r e.2) = Some (acc + e.2)) as ->
    by (apply (uadd_ok balance_bits acc e.2); unfold in_width; lia).
  rewrite IH by (done || lia). f_equal. lia.
Qed.

(** The restrictions of an asset, one by one. *)
Definition st_restrict a (rs : list Restriction) (st : AssetsStore) : AssetsStore :=
  foldl (fun st r => st <| Restrictions ::= <[a := {[r]} ∪ get_restrictions a st]> |>) st rs.
Lemma restrict_run a rs s :
  for_each (fun r => unwrap (update_restriction Root a r true)) rs s =
  Ok tt (sput (st_restrict a rs (sget s)) s).
Proof.
  revert s. induction rs as [|r rs IH]; intros s; cbn; [unfold mret, M_ret; by rewrite sput_sget|].
  unfold mbind at 1, M_bind at 1, unwrap, or_else, update_restriction. run.
  rewrite IH. store. by rewrite sput_sput.
Qed.
Lemma restrict_fields a rs st :
  TotalIssuance (st_restrict a rs st) = TotalIssuance st /\
  FreeBalance (st_restrict a rs st) = FreeBalance st /\
  ReservedBalance (st_restrict a rs st) = ReservedBalance st /\
  Symbols (st_restrict a rs st) = Symbols st /\
  Permissions (st_restrict a rs st) = Permissions st.
Proof.
  revert st. induction rs as [|r rs IH]; intros st; [done|].
  exact (IH (st <| Restrictions ::= <[a := {[r]} ∪ get_restrictions a st]> |>)).
Qed.
Lemma restrict_set a rs st b :
  get_restrictions b (st_restrict a rs st) =
  (if decide (b = a) then list_to_set rs else ∅) ∪ get_restrictions b st.
Proof.
  revert st. induction rs as [|r rs IH]; intros st; cbn [st_restrict foldl].
  { case_decide; set_solver. }
  etrans; [apply IH|]. unfold get_restrictions at 1. fields. unfold get_or. case_decide as Hb.
  - subst. rewrite lookup_insert_eq. cbn [default list_to_set]. set_solver.
  - by rewrite lookup_insert_ne.
Qed.

(** The configuration of one asset. *)
Definition genesis_config : Type :=
  (AssetId * list Byte.byte * list Restriction * list (AccountId * Balance))%type.
Definition genesis_id (c : genesis_config) : AssetId := c.1.1.1.
Definition genesis_valid (c : genesis_config) : Prop :=
  NoDup c.2.*1 /\ Forall (fun e => 0 <= e.2) c.2 /\ endowment c.2 < 2 ^ balance_bits.

(** An asset on the ledger as it was configured, owned by [root]. *)
Record configured (root : AccountId) (c : genesis_config) (st : AssetsStore) : Prop := {
  cf_symbol : Symbols st !! genesis_id c = Some c.1.1.2;
  cf_owners : Permissions st !! genesis_id c =
    Some (V1 (MkPermissionsV1 (OwnerAddress root) (OwnerAddress root) (OwnerAddress root)));
  cf_restrictions : get_restrictions (genesis_id c) st = list_to_set c.1.2;
  cf_issuance : total_issuance (genesis_id c) st = endowment c.2;
  cf_endowed w x : (w, x) ∈ c.2 -> free_balance (genesis_id c) w st = x;
  cf_others w : w ∉ c.2.*1 -> free_balance (genesis_id c) w st = 0;
}.
(** An asset that was left as it was. *)
Record same_asset (b : AssetId) (st st' : AssetsStore) : Prop := {
  sa_symbol : Symbols st' !! b = Symbols st !! b;
  sa_owners : Permissions st' !! b = Permissions st !! b;
  sa_restrictions : get_restrictions b st' = get_restrictions b st;
  sa_issuance : total_issuance b st' = total_issuance b st;
  sa_free w : free_balance b w st' = free_balance b w st;
}.
#[local] Instance same_asset_preorder b : PreOrder (same_asset b).
Proof.
  split; [done|]. intros st1 st2 st3 [? ? ? ? H1] [? ? ? ? H2].
  split; [congruence..|]. intros w. by rewrite H2.
Qed.
Lemma configured_same root c st st' :
  same_asset (genesis_id c) st st' -> configured root c st -> configured root c st'.
Proof.
  intros [H1 H2 H3 H4 H5] []. split; [congruence..| |]; intros; rewrite H5; auto.
Qed.

(** The endowments over a ledger that has none of the asset. *)
Lemma endow_ok a l (st : AssetsStore) :
  NoDup l.*1 -> Forall (fun e => 0 <= e.2) l -> endowment l < 2 ^ balance_bits ->
  ledger_ok st -> asset_exists a st = true -> total_issuance a st = 0 ->
  let st' := (st_endow a l st) <| TotalIssuance ::= <[a := endowment l]> |> in
  ledger_ok st' /\ total_issuance a st' = endowment l /\
  (forall w x, (w, x) ∈ l -> free_balance a w st' = x) /\
  (forall w, w ∉ l.*1 -> free_balance a w st' = 0) /\
  (forall b, b <> a -> same_asset b st st').
Proof.
  intros Hnd Hpos Hw Hok Hex Hz. destruct (endow_fields a l st) as (Ht & Hr & Hs & Hp & Hre).
  assert (forall w, free_balance a w st = 0) as Hzero.
  { intros w. pose proof (balances_le_issuance _ Hok a w).
    pose proof (free_balance_nonneg _ Hok a w). pose proof (reserved_balance_nonneg _ Hok a w). lia. }
  destruct (endow_free a l st) as (Hn & Hsum & Hin & Hout); [done|done|apply Hok|auto|].
  pose proof (endowment_nonneg l Hpos). intros st'.
  assert (forall b, total_issuance b st' = if decide (a = b) then endowment l else total_issuance b st)
    as Hti.
  { intros b. unfold st'. rewrite total_issuance_set. unfold total_issuance. by rewrite Ht. }
  assert (forall b, asset_exists b st' = asset_exists b st) as Hae.
  { intros b. unfold asset_exists, st'; fields. by rewrite Hs. }
  split_and!.
  - split; try (unfold st'; fields; rewrite ?Hr; done || apply Hok).
    + intros b. unfold st' at 2 3; fields. rewrite Hsum, Hr, Hti.
      pose proof (lo_issuance _ Hok b). unfold at_asset. repeat case_decide; subst; try congruence; lia.
    + intros b. rewrite Hti. case_decide; [unfold in_width; lia|apply (lo_width _ Hok)].
    + intros b. rewrite Hae, Hti. intros Hb. case_decide; [congruence|]. by apply (lo_absent _ Hok).
  - rewrite Hti. by rewrite decide_True.
  - exact Hin.
  - intros w Hwl. rewrite <- (Hzero w). apply Hout. by left.
  - intros b Hb. split; [unfold st'; fields; by rewrite ?Hs, ?Hp..| | |].
    + unfold get_restrictions, st'; fields. by rewrite Hre.
    + by rewrite Hti, decide_False by congruence.
    + intros w. apply Hout. by right.
Qed.

(** The created asset, before its endowments. *)
Lemma create_restrict id sym rs o (st : AssetsStore) :
  ledger_ok st -> asset_exists id st = false -> get_restrictions id st = ∅ ->
  initial_issuance o = 0 ->
  let st2 := st_restrict id rs (st_create id default_account sym o st) in
  ledger_ok st2 /\ asset_exists id st2 = true /\ total_issuance id st2 = 0 /\
  Symbols st2 !! id = Some sym /\ Permissions st2 !! id = Some (into_versions (permissions o)) /\
  get_restrictions id st2 = list_to_set rs /\ ReservedBalance st2 = ReservedBalance st /\
  (forall b, b <> id -> same_asset b st st2).
Proof.
  intros Hok Hex Hrs Ho. set (st1 := st_create id default_account sym o st). intros st2.
  assert (ledger_ok st1) as Hok1
    by (apply st_create_ok; [done|done|rewrite Ho; by vm_compute]).
  destruct (restrict_fields id rs st1) as (Ht & Hf & Hr & Hs & Hp). fold st2 in Ht, Hf, Hr, Hs, Hp.
  assert (forall b, get_restrictions b st1 = get_restrictions b st) as Hg by done.
  split_and!.
  - by apply (ledger_ok_same st1).
  - unfold asset_exists. rewrite Hs. unfold st1, st_create; fields. by rewrite lookup_insert_eq.
  - unfold total_issuance. rewrite Ht. unfold st1, st_create; fields.
    by rewrite get_or_insert_Z, decide_True.
  - rewrite Hs. unfold st1, st_create; fields. by rewrite lookup_insert_eq.
  - rewrite Hp. unfold st1, st_create; fields. by rewrite lookup_insert_eq.
  - unfold st2. rewrite restrict_set, decide_True, Hg, Hrs by done. set_solver.
  - done.
  - intros b Hb. split.
    + rewrite Hs. unfold st1, st_create; fields. by rewrite lookup_insert_ne.
    + rewrite Hp. unfold st1, st_create; fields. by rewrite lookup_insert_ne.
    + unfold st2. rewrite restrict_set, decide_False, Hg by done. set_solver.
    + unfold total_issuance. rewrite Ht. unfold st1, st_create; fields.
      by rewrite get_or_insert_Z, decide_False.
    + intros w. unfold free_balance. rewrite Hf. unfold st1, st_create; fields.
      by rewrite get_or_insert, decide_False by congruence.
Qed.

Lemma genesis_asset_wp root (c : genesis_config) s :
  genesis_valid c -> ledger_ok (sget s) -> asset_exists (genesis_id c) (sget s) = false ->
  get_restrictions (genesis_id c) (sget s) = ∅ ->
  wp (genesis_asset (E:=E) root c)
    (fun _ s' => let st := sget (T:=AssetsStore) s' in
       ledger_ok st /\ configured root c st /\ ReservedBalance st = ReservedBalance (sget s) /\
       (forall b, b <> genesis_id c -> same_asset b (sget s) st))
    (fun _ _ => False) False s.
Proof.
  destruct c as [[[id sym] rs] l]. unfold genesis_valid; cbn [genesis_id fst snd].
  intros (Hnd & Hpos & Hw) Hok Hex Hrs. cbn [snd] in *.
  unfold genesis_asset. set (o := MkAssetOptions 0 _).
  destruct (create_restrict id sym rs o (sget s) Hok Hex Hrs eq_refl)
    as (Hok2 & Hex2 & Hti2 & Hs2 & Hp2 & Hr2 & Hres2 & Hsame2).
  set (st2 := st_restrict _ _ _) in *.
  wp_step. unfold unwrap at 1. rewrite wp_or_else.
  eapply wp_run_Ok; [rewrite create_asset_eq, Hex; unfold deposit_event, modify; done|].
  cbn [default]. wp_step. eapply wp_run_Ok; [apply restrict_run|]. store.
  fold st2. wp_step. eapply wp_run_Ok; [apply endow_run|]. store. wp_step.
  eapply wp_lift_Some; [apply endowment_fold; [done|lia|lia]|]. unfold set_total_issuance.
  wp_step. cbn [Z.add]. store.
  destruct (endow_ok id l st2) as (Hok3 & Hti3 & Hin & Hout & Hsame3); try done.
  destruct (endow_fields id l st2) as (Ht & Hr & Hs & Hp & Hre).
  split_and!; [done| |fields; by rewrite Hr|].
  - split; [fields; by rewrite ?Hs, ?Hp..| |done|done|done].
    unfold get_restrictions; fields. by rewrite Hre.
  - intros b Hb. etrans; [by apply Hsame2|by apply Hsame3].
Qed.

Lemma genesis_loop root (cs : list genesis_config) s :
  ledger_ok (sget s) -> NoDup (genesis_id <$> cs) -> Forall genesis_valid cs ->
  (forall a, a ∈ genesis_id <$> cs ->
     asset_exists a (sget s) = false /\ get_restrictions a (sget s) = ∅) ->
  wp (for_each (genesis_asset (E:=E) root) cs)
    (fun _ s' => let st := sget (T:=AssetsStore) s' in
       ledger_ok st /\ (forall c, c ∈ cs -> configured root c st) /\
       ReservedBalance st = ReservedBalance (sget s) /\
       (forall b, b ∉ genesis_id <$> cs -> same_asset b (sget s) st))
    (fun _ _ => False) False s.
Proof.
  intros Hok Hnd Hv. revert s Hok.
  induction Hv as [|c cs Hc Hcs IH]; intros s Hok Hex.
  { cbn [for_each]; rewrite wp_ret. cbv zeta. split_and!; [done|set_solver|done|done]. }
  cbn in Hnd. apply NoDup_cons in Hnd as [Hfresh Hnd]. cbn [for_each]. wp_step.
  destruct (Hex (genesis_id c)) as [Hex1 Hrs1]; [cbn; left|].
  wp_apply (genesis_asset_wp root c s); [done|done|done|done| |done|done].
  intros [] s1 (Hok1 & Hcf & Hres & Hother).
  wp_apply (IH Hnd s1 Hok1); [| |done|done].
  { intros a Ha. destruct (Hother a) as [Hsy _ Hg _ _]; [by intros ->|]. unfold asset_exists.
    rewrite Hsy, Hg. apply Hex. cbn. by right. }
  intros [] s2 (Hok2 & Hin & Hres2 & Hout). cbv zeta. split_and!; [done| |congruence|].
  - intros c' [->|Hc']%elem_of_cons; [|by apply Hin].
    eapply configured_same; [by apply Hout|done].
  - intros b Hb. cbn in Hb. apply not_elem_of_cons in Hb as [Hne Hb].
    etrans; [by apply Hother|by apply Hout].
Qed.

(** C10: the genesis of the ledger, for distinct assets whose endowed accounts
    are distinct and whose endowments fit, succeeds from an empty ledger with a
    well-formed ledger in which each asset has its symbol, its restrictions and root
    for all three of its owners, each endowed account has its endowment and no other
    account has any, the issuance of each asset is the sum of its endowments, nothing
    is reserved, and no other asset has anything. *)
Theorem genesis_build_spec root (cs : list genesis_config) s :
  sget (T:=AssetsStore) s = AssetsStore_empty ->
  NoDup (genesis_id <$> cs) -> Forall genesis_valid cs ->
  wp (genesis_build (E:=E) cs root)
    (fun _ s' => let st := sget (T:=AssetsStore) s' in
       ledger_ok st /\ (forall c, c ∈ cs -> configured root c st) /\ ReservedBalance st = ∅ /\
       (forall b, b ∉ genesis_id <$> cs -> same_asset b AssetsStore_empty st))
    (fun _ _ => False) False s.
Proof.
  intros He Hnd Hv. unfold genesis_build.
  wp_apply (genesis_loop root cs s); try done.
  - rewrite He. apply ledger_ok_empty.
  - intros a _. by rewrite He.
  - intros [] s' (? & ? & Hq & Hb). cbv zeta. by rewrite He in Hq, Hb.
Qed.
End genesis.

(** ** Instances on a concrete ledger *)
Section witnesses.
Import Demo NoHooks.

Lemma no_hooks_keep P : hooks_keep (S:=Demo.state) P.
Proof. split; intros; by apply keeps_ret. Qed.

Lemma rio_assets_refines_ledger_witness : LedgerSpec Demo.state AssetsEvent.
Proof. apply rio_assets_refines_ledger. Defined.

Lemma assets_reachable_safe_witness :
  let c := CallTransfer SBTC bob 30 in
  exists s, rtc (chain_step (E:=AssetsEvent)) Demo.start s /\ ledger_ok (sget s) /\
    dispatch (E:=AssetsEvent) (Signed bob) c s <> Panic.
Proof.
  destruct (dispatch (E:=AssetsEvent) (Signed alice) (CallTransfer SBTC bob 30) Demo.start)
    as [[] s|e s|] eqn:Hr; [|vm_compute in Hr; discriminate|vm_compute in Hr; discriminate].
  assert (rtc (chain_step (E:=AssetsEvent)) Demo.start s) as Hs.
  { apply rtc_once. eapply step_ok; [|exact Hr]. by vm_compute. }
  exists s. split; [exact Hs|].
  destruct (assets_reachable_safe (E:=AssetsEvent) Demo.start s (no_hooks_keep False) start_ok Hs)
    as [Hok Hp].
  split; [exact Hok|]. apply Hp. by vm_compute.
Defined.

Lemma transfer_spec_run_witness :
  transfer_error SBTC alice 30 (sget Demo.start) = None /\
  exists s', transfer (E:=AssetsEvent) (Signed alice) SBTC bob 30 Demo.start = Ok tt s' /\
    free_balance SBTC bob (sget s') = 30.
Proof.
  split; [by vm_compute|].
  pose proof (transfer_spec_run (E:=AssetsEvent) (Signed alice) SBTC bob 30 Demo.start
                start_ok ltac:(lia)) as H.
  cbv beta iota in H. change (transfer_error SBTC alice 30 (sget Demo.start)) with (@None error) in H.
  destruct H as (s' & Hr & Hb & _). exists s'. split; [exact Hr|]. by rewrite Hb.
Defined.

Lemma mint_burn_round_trip_witness :
  exists s1 s2, RioAssets.mint (E:=AssetsEvent) Root SBTC bob 5 Demo.start = Ok tt s1 /\
    free_balance SBTC bob (sget s1) = 5 /\
    RioAssets.burn (E:=AssetsEvent) Root SBTC bob 5 s1 = Ok tt s2 /\
    free_balance SBTC bob (sget s2) = 0.
Proof.
  destruct (RioAssets.mint (E:=AssetsEvent) Root SBTC bob 5 Demo.start) as [[] s1|e s|] eqn:Hm;
    [|vm_compute in Hm; discriminate|vm_compute in Hm; discriminate].
  destruct (mint_burn_round_trip (E:=AssetsEvent) SBTC bob 5 Demo.start s1 start_ok
              ltac:(lia) Hm eq_refl) as (s2 & Hb & Hf & _).
  exists s1, s2. split_and!; [done| |done|by rewrite Hf].
  vm_compute in Hm. injection Hm as <-. by vm_compute.
Defined.

Lemma reserve_unreserve_spec_witness :
  exists s', reserve SBTC alice 400 Demo.start = Ok tt s' /\
    free_balance SBTC alice (sget s') = 600 /\ reserved_balance SBTC alice (sget s') = 400.
Proof.
  pose proof (reserve_unreserve_spec SBTC alice 400 Demo.start start_ok ltac:(by vm_compute))
    as [H _].
  rewrite decide_False in H by (intros Hlt; vm_compute in Hlt; discriminate).
  destruct H as (s' & Hr & Hf & Hv & _). exists s'. split; [exact Hr|]. by rewrite Hf, Hv.
Defined.

Lemma signed_call_safe_witness :
  wp (dispatch (E:=AssetsEvent) (Signed bob) (CallMint SBTC bob 1000000))
    (fun _ s' => signed_effect bob (sget Demo.start) (sget s'))
    (fun _ s' => s' = Demo.start) False Demo.start.
Proof. apply signed_call_safe; [apply start_ok|by vm_compute]. Defined.

Definition demo_genesis : list genesis_config :=
  [(SBTC, [], [Transferable], [(alice, 10); (bob, 20)]); (RFUEL, [], [], [])].

Lemma genesis_build_spec_witness :
  wp (genesis_build (E:=AssetsEvent) demo_genesis root)
    (fun _ s' => ledger_ok (sget s') /\ total_issuance SBTC (sget s') = 30 /\
       Transferable ∈ get_restrictions SBTC (sget s') /\
       Permissions (sget s') !! RFUEL =
         Some (V1 (MkPermissionsV1 (OwnerAddress root) (OwnerAddress root) (OwnerAddress root))))
    (fun _ _ => False) False ((Demo.frame, (AssetsStore_empty, tt)) : Demo.state).
Proof.
  wp_apply (genesis_build_spec (E:=AssetsEvent) root demo_genesis
              ((Demo.frame, (AssetsStore_empty, tt)) : Demo.state)); [done|..]; try done.
  - apply NoDup_cons. split; [set_solver|]. apply NoDup_singleton.
  - repeat constructor; try set_solver; by vm_compute.
  - intros [] s' (Hok & Hc & _). split; [exact Hok|].
    destruct (Hc (SBTC, [], [Transferable], [(alice, 10); (bob, 20)])) as [_ _ Hre Hti _ _]; [left|].
    destruct (Hc (RFUEL, [], [], [])) as [_ Hp _ _ _ _]; [right; left|].
    split; [exact Hti|]. split; [|exact Hp]. change (genesis_id _) with SBTC in Hre.
    rewrite Hre. cbn; set_solver.
Defined.
End witnesses.
