(* ===== verification/Bridge.v ===== *)
(** * The Bitcoin bridge: [modules/rio-bridge/src/lib.rs]

    Deposits mint the shadow asset, large ones wait for the KYC list; withdraws
    move the funds to a vault until they are finished or refunded.  The pallet is
    a client of the ledger interface. *)
From S2P Require Export Ledger.
#[local] Open Scope Z_scope.

Inductive BlackOrWhite := Black | White.
#[global] Instance BlackOrWhite_eq_dec : EqDecision BlackOrWhite.
Proof. solve_decision. Defined.
Definition BlackOrWhite_default : BlackOrWhite := Black.

Inductive Auth := AuthAll | AuthDeposit | AuthWithdraw | AuthRefund | AuthMark.
#[global] Instance Auth_eq_dec : EqDecision Auth.
Proof. solve_decision. Defined.
Definition Auth_default : Auth := AuthAll.

(** [H256]. *)
Abbreviation TxHash := N (only parsing).

Record Deposit := MkDeposit {
  dep_account_id : AccountId;
  dep_tx_hash : option TxHash;
  dep_amount : Balance;
}.

Record BridgeStore := MkBridgeStore {
  BridgeAssetId : AssetId;
  Paused : bool;
  List : gmap AccountId BlackOrWhite;
  Threshold : Balance;
  Admins : gmap AccountId Auth;
  PendingDepositList : gmap AccountId (list Deposit);
  DepositHistory : gmap TxHash Deposit;
  PendingWithdraws : gmap AccountId (list Balance);
  PendingWithdrawVault : AccountId;
}.
#[global] Instance BridgeStore_settable : Settable BridgeStore := fun st =>
  MkBridgeStore (BridgeAssetId st) (Paused st) (List st) (Threshold st) (Admins st)
    (PendingDepositList st) (DepositHistory st) (PendingWithdraws st) (PendingWithdrawVault st).

Inductive BridgeEvent :=
| AccountMarked (who : AccountId) (bow : BlackOrWhite)
| Deposited (who : AccountId) (amount : Balance) (h : TxHash)
| Pending (who : AccountId) (amount : Balance) (h : TxHash)
| PendingWithdraw (who : AccountId) (amount : Balance)
| Refunded (who : AccountId) (amount : Balance)
| Withdrawn (who : AccountId) (amount : Balance).

(** The getters. *)
Definition pending_deposit_list (who : AccountId) (st : BridgeStore) : list Deposit :=
  get_or [] (PendingDepositList st) who.
Definition pending_withdraws (who : AccountId) (st : BridgeStore) : list Balance :=
  get_or [] (PendingWithdraws st) who.
Definition is_tx_seen (h : TxHash) (st : BridgeStore) : bool :=
  bool_decide (is_Some (DepositHistory st !! h)).
Definition has_auth (who : AccountId) (auth : Auth) (st : BridgeStore) : bool :=
  match Admins st !! who with
  | None => false
  | Some account_auth => bool_decide (account_auth = AuthAll) || bool_decide (account_auth = auth)
  end.
Definition check_list (who : AccountId) (st : BridgeStore) : option BlackOrWhite := List st !! who.

(** The storage after the genesis. *)
Definition genesis (asset_id : AssetId) (threshold : Balance) (vault : AccountId)
    (admins : list (AccountId * Auth)) : BridgeStore :=
  MkBridgeStore asset_id false ∅ threshold
    (foldl (fun m e => <[e.1 := e.2]> m) ∅ admins) ∅ ∅ ∅ vault.

Module RioBridge.
Section operations.
Context {S E : Type} `{!Store S (Frame E), !Store S BridgeStore, !Inject BridgeEvent E}.
Context `{!Ledger S}.

Definition simple_deposit_with_event (account_id : AccountId) (amount : Balance)
    (tx_hash : TxHash) : M S unit :=
  let dep := MkDeposit account_id None amount in
  modify (fun st => st <| DepositHistory ::= <[tx_hash := dep]> |>) ;;
  asset_id ← gets BridgeAssetId;
  mint Root asset_id account_id amount ;;
  deposit_event (E:=E) (Deposited account_id amount tx_hash).

Definition hold_deposit_with_event (account_id : AccountId) (amount : Balance)
    (tx_hash : TxHash) : M S unit :=
  let dep := MkDeposit account_id None amount in
  modify (fun st => st <| DepositHistory ::= <[tx_hash := dep]> |>) ;;
  let dep := MkDeposit account_id (Some tx_hash) amount in
  modify (fun st => st <| PendingDepositList ::=
    <[account_id := pending_deposit_list account_id st ++ [dep]]> |>) ;;
  deposit_event (E:=E) (Pending account_id amount tx_hash).

(** The loop of [remove_from_pending_withdraws]. *)
Fixpoint remove_loop (amount : Balance) (found : bool) (pendings : list Balance)
    : list Balance :=
  match pendings with
  | [] => []
  | amt :: rest =>
      if found || negb (bool_decide (amt = amount)) then amt :: remove_loop amount found rest
      else remove_loop amount true rest
  end.

Definition remove_from_pending_withdraws (who : AccountId) (amount : Balance) : M S unit :=
  pendings ← gets (pending_withdraws who);
  modify (fun st => st <| PendingWithdraws ::= delete who |>) ;;
  if decide (1 < length pendings)%nat then
    modify (fun st => st <| PendingWithdraws ::= <[who := remove_loop amount false pendings]> |>)
  else mret tt.

Definition mark (account_id : AccountId) (bow : BlackOrWhite) : M S unit :=
  modify (fun st => st <| List ::= <[account_id := bow]> |>).

Definition mark_with_event (account_id : AccountId) (bow : BlackOrWhite) : M S unit :=
  mark account_id bow ;;
  deposit_event (E:=E) (AccountMarked account_id bow).

(** The dispatchables. *)
Definition pause (o : origin) : M S unit :=
  ensure_root o ;; modify (fun st => st <| Paused := true |>).
Definition resume (o : origin) : M S unit :=
  ensure_root o ;; modify (fun st => st <| Paused := false |>).
Definition delete_admin (o : origin) (who : AccountId) : M S unit :=
  ensure_root o ;; modify (fun st => st <| Admins ::= delete who |>).
Definition update_admin (o : origin) (who : AccountId) (auth : Auth) : M S unit :=
  ensure_root o ;; modify (fun st => st <| Admins ::= <[who := auth]> |>).

Definition deposit (o : origin) (account_id : AccountId) (amount : Balance) (tx_hash : TxHash)
    : M S unit :=
  seen ← gets (is_tx_seen tx_hash);
  ensure (negb seen) "repeated transaction" ;;
  who ← ensure_signed o;
  auth ← gets (has_auth who AuthDeposit);
  ensure auth "no deposit auth" ;;
  threshold ← gets Threshold;
  bow ← gets (check_list account_id);
  if bool_decide (threshold <= amount) &&
     (bool_decide (bow = None) || bool_decide (bow = Some Black))
  then hold_deposit_with_event account_id amount tx_hash
  else simple_deposit_with_event account_id amount tx_hash.

Definition refund (o : origin) (who : AccountId) (amount : Balance) : M S unit :=
  author ← ensure_signed o;
  asset_id ← gets BridgeAssetId;
  auth ← gets (has_auth author AuthRefund);
  ensure auth "no refund auth" ;;
  pendings ← gets (pending_withdraws who);
  ensure (bool_decide (amount ∈ pendings)) "pending withdraw not found" ;;
  vault ← gets PendingWithdrawVault;
  make_transfer_with_event asset_id vault who amount ;;
  remove_from_pending_withdraws who amount ;;
  deposit_event (E:=E) (Refunded who amount).

Definition withdraw_finish (o : origin) (who : AccountId) (amount : Balance) : M S unit :=
  author ← ensure_signed o;
  auth ← gets (has_auth author AuthWithdraw);
  ensure auth "no withdraw auth" ;;
  pendings ← gets (pending_withdraws who);
  ensure (bool_decide (amount ∈ pendings)) "pending withdraw not found" ;;
  remove_from_pending_withdraws who amount ;;
  deposit_event (E:=E) (Withdrawn who amount).

Definition withdraw (o : origin) (who : AccountId) (amount : Balance) : M S unit :=
  author ← ensure_signed o;
  asset_id ← gets BridgeAssetId;
  auth ← gets (has_auth author AuthWithdraw);
  ensure auth "no withdraw auth" ;;
  vault ← gets PendingWithdrawVault;
  make_transfer_with_event asset_id who vault amount ;;
  modify (fun st => st <| PendingWithdraws ::= <[who :=
    match PendingWithdraws st !! who with
    | Some v => v ++ [amount]
    | None => [amount]
    end]> |>) ;;
  deposit_event (E:=E) (PendingWithdraw who amount).

Definition mark_black (o : origin) (account_id : AccountId) : M S unit :=
  who ← ensure_signed o;
  auth ← gets (has_auth who AuthMark);
  ensure auth "no mark auth" ;;
  pendings ← gets (pending_deposit_list account_id);
  modify (fun st => st <| PendingDepositList ::= delete account_id |>) ;;
  for_each (fun v => h ← lift (dep_tx_hash v);
                     modify (fun st => st <| DepositHistory ::= delete h |>)) pendings ;;
  mark_with_event account_id Black.

(** The loop of [mark_white]: a failing deposit puts the rest back. *)
Fixpoint mark_white_loop (account_id : AccountId) (pendings : list Deposit) : M S unit :=
  match pendings with
  | [] => mret tt
  | v :: rest =>
      h ← lift (dep_tx_hash v);
      or_else (simple_deposit_with_event (dep_account_id v) (dep_amount v) h)
        (fun err =>
           modify (fun st => st <| PendingDepositList ::= <[account_id := pendings]> |>) ;;
           fail err) ;;
      mark_white_loop account_id rest
  end.

Definition mark_white (o : origin) (account_id : AccountId) : M S unit :=
  who ← ensure_signed o;
  auth ← gets (has_auth who AuthMark);
  ensure auth "no mark auth" ;;
  pendings ← gets (pending_deposit_list account_id);
  modify (fun st => st <| PendingDepositList ::= delete account_id |>) ;;
  mark_white_loop account_id pendings ;;
  mark_with_event account_id White.

Inductive Call :=
| CallPause
| CallResume
| CallDeleteAdmin (who : AccountId)
| CallUpdateAdmin (who : AccountId) (auth : Auth)
| CallDeposit (account_id : AccountId) (amount : Balance) (tx_hash : TxHash)
| CallRefund (who : AccountId) (amount : Balance)
| CallWithdrawFinish (who : AccountId) (amount : Balance)
| CallWithdraw (who : AccountId) (amount : Balance)
| CallMarkBlack (account_id : AccountId)
| CallMarkWhite (account_id : AccountId).

Definition dispatch (o : origin) (c : Call) : M S unit :=
  match c with
  | CallPause => pause o
  | CallResume => resume o
  | CallDeleteAdmin who => delete_admin o who
  | CallUpdateAdmin who auth => update_admin o who auth
  | CallDeposit who x h => deposit o who x h
  | CallRefund who x => refund o who x
  | CallWithdrawFinish who x => withdraw_finish o who x
  | CallWithdraw who x => withdraw o who x
  | CallMarkBlack who => mark_black o who
  | CallMarkWhite who => mark_white o who
  end.

Definition call_amount (c : Call) : Balance :=
  match c with
  | CallDeposit _ x _ | CallRefund _ x | CallWithdrawFinish _ x | CallWithdraw _ x => x
  | _ => 0
  end.
End operations.
End RioBridge.
