(* ===== verification/BridgeFacts.v ===== *)
(** * The bridge: behaviour of the calls, backing of the withdraws, and no double
    mint *)
From S2P Require Export Bridge Client.
#[local] Open Scope Z_scope.
Import RioBridge.

(** [remove_from_pending_withdraws] takes out the first occurrence. *)
Definition remove_first (x : Balance) (l : list Balance) : list Balance :=
  remove_loop x false l.

Lemma remove_loop_found x l : remove_loop x true l = l.
Proof. induction l as [|y l IH]; cbn; [done|by rewrite IH]. Qed.

Lemma remove_first_perm x l : x ∈ l -> x :: remove_first x l ≡ₚ l.
Proof.
  unfold remove_first. induction l as [|y l IH]; [set_solver|]. cbn.
  case_bool_decide as Hxy; cbn; [subst; by rewrite remove_loop_found|].
  intros [->|Hin]%elem_of_cons; [done|]. rewrite <-(IH Hin) at 2. constructor.
Qed.

Section effects.
Context {S E : Type} `{!Store S (Frame E), !Store S BridgeStore, !Inject BridgeEvent E}.
Context `{!Separate S (Frame E) BridgeStore}.
Context `{!Ledger S, !LedgerEvents E, !LedgerSpec S E, !EventLog BridgeEvent E}.
Context (Hforeign : foreign BridgeStore _).
Implicit Types (s : S) (st : BridgeStore) (x : Balance) (who : AccountId).
#[local] Abbreviation bst := (sget (T:=BridgeStore)).
#[local] Abbreviation fr := (sget (T:=Frame E)).

#[local] Abbreviation bridge_log := (client_log (E:=E) (Ev:=BridgeEvent)).
#[local] Abbreviation bridge_effect := (effect (E:=E) (T:=BridgeStore) (Ev:=BridgeEvent)).

(** ** The operations *)
Lemma simple_deposit_wp who x h s :
  ledger_inv s -> 0 <= x ->
  let a := BridgeAssetId (bst s) in
  let st' := (bst s) <| DepositHistory ::= <[h := MkDeposit who None x]> |> in
  wp (simple_deposit_with_event (E:=E) who x h)
    (fun _ s' => mint_err a x s = None /\
       bridge_effect (at_account a who x) (at_asset a x) st' [Deposited who x h] s s')
    (fun e s' => mint_err a x s = Some e /\ same_ledger s' s /\
       bridge_effect no_change no_issue st' [] s s') False s.
Proof.
  intros Hi Hx a st'. unfold simple_deposit_with_event. do 4 wp_step.
  assert (bridge_effect no_change no_issue st' [] s (sput st' s)) as H1 by (by apply (be_write Hforeign)).
  change (set_field DepositHistory _ (bst s)) with st'.
  change (BridgeAssetId st') with a.
  assert (mint_err a x (sput st' s) = mint_err a x s) as Herr by (by rewrite same_ledger_foreign).
  wp_step. wp_apply (mint_spec a who x (sput st' s)); [apply H1|done| | |done].
  - intros [] s1 [He Hc]. wp_step. split; [congruence|].
    eapply be_eq; [by eapply be_step_event; [eapply (be_step_ledger Hforeign)|]
      |intros; unfold no_change, no_issue; cbv beta; lia..|done].
  - intros e s1 [He ->]. split; [congruence|]. split; [by apply same_ledger_foreign|done].
Qed.

Lemma hold_deposit_wp who x h s :
  ledger_inv s ->
  wp (hold_deposit_with_event (E:=E) who x h)
    (fun _ s' => bridge_effect no_change no_issue
       ((bst s) <| DepositHistory ::= <[h := MkDeposit who None x]> |>
          <| PendingDepositList ::= <[who :=
               pending_deposit_list who (bst s) ++ [MkDeposit who (Some h) x]]> |>)
       [Pending who x h] s s')
    (fun _ _ => False) False s.
Proof.
  intros Hi. unfold hold_deposit_with_event. do 5 wp_step. rewrite sput_sput.
  apply (be_step_event _ _ _ []); [by apply (be_write Hforeign)|by store].
Qed.

Definition st_remove_pending who x st : BridgeStore :=
  let l := pending_withdraws who st in
  st <| PendingWithdraws ::= fun m =>
    if decide (1 < length l)%nat then <[who := remove_first x l]> (delete who m)
    else delete who m |>.

Lemma remove_pending_run who x s :
  remove_from_pending_withdraws who x s = Ok tt (sput (st_remove_pending who x (bst s)) s).
Proof.
  unfold remove_from_pending_withdraws, st_remove_pending. run.
  case_decide; [|done]. store. by rewrite sput_sput.
Qed.

(** The pending withdraws after a removal, account by account. *)
Lemma st_remove_pending_get who x st w :
  x ∈ pending_withdraws who st ->
  pending_withdraws w (st_remove_pending who x st) =
  if decide (w = who) then remove_first x (pending_withdraws who st) else pending_withdraws w st.
Proof.
  intros Hx. unfold st_remove_pending. set (l := pending_withdraws who st) in *.
  unfold pending_withdraws at 1. fields. destruct (decide (w = who)) as [->|Hne].
  - unfold get_or. case_decide; [by rewrite lookup_insert_eq|]. rewrite lookup_delete_eq. cbn.
    destruct l as [|y [|z l]]; cbn in *; [set_solver| |lia].
    apply list_elem_of_singleton in Hx as ->. unfold remove_first. cbn. by rewrite bool_decide_true.
  - unfold get_or. case_decide; rewrite ?lookup_insert_ne, lookup_delete_ne by done; done.
Qed.


(** Why a call fails, read off the state. *)
Definition auth_error (o : origin) (auth : Auth) (msg : string) st : option error :=
  match o with
  | Signed author => if has_auth author auth st then None else Some (Msg msg)
  | _ => Some BadOrigin
  end.
Definition or_error (e1 e2 : option error) : option error :=
  match e1 with Some e => Some e | None => e2 end.
Definition pending_error who x st : option error :=
  if bool_decide (x ∈ pending_withdraws who st) then None
  else Some (Msg "pending withdraw not found").

Definition withdraw_error o who x s : option error :=
  or_error (auth_error o AuthWithdraw "no withdraw auth" (bst s))
    (transfer_err (BridgeAssetId (bst s)) who x s).
Definition refund_error o who x s : option error :=
  or_error (auth_error o AuthRefund "no refund auth" (bst s))
    (or_error (pending_error who x (bst s))
       (transfer_err (BridgeAssetId (bst s)) (PendingWithdrawVault (bst s)) x s)).
Definition finish_error o who x s : option error :=
  or_error (auth_error o AuthWithdraw "no withdraw auth" (bst s)) (pending_error who x (bst s)).

Lemma auth_error_unsigned o auth msg st :
  (forall who, o <> Signed who) -> auth_error o auth msg st = Some BadOrigin.
Proof. destruct o as [|who|]; try done. intros Hn. by destruct (Hn who). Qed.

Definition st_push_pending who x st : BridgeStore :=
  st <| PendingWithdraws ::= <[who := pending_withdraws who st ++ [x]]> |>.

Lemma withdraw_wp o who x s :
  ledger_inv s -> 0 <= x ->
  let a := BridgeAssetId (bst s) in let vault := PendingWithdrawVault (bst s) in
  wp (withdraw (E:=E) o who x)
    (fun _ s' => withdraw_error o who x s = None /\
       bridge_effect (fun b v => at_account a vault x b v - at_account a who x b v) no_issue
         (st_push_pending who x (bst s)) [PendingWithdraw who x] s s')
    (fun e s' => withdraw_error o who x s = Some e /\ s' = s) False s.
Proof.
  intros Hi Hx a vault. unfold withdraw, withdraw_error. fold a.
  wp_step. wp_step; [subst o|by rewrite auth_error_unsigned].
  cbn [auth_error]. do 6 wp_step; [|by match goal with H : _ = false |- _ => rewrite H end].
  match goal with H : has_auth _ _ _ = true |- _ => rewrite H end. cbn [or_error].
  fold a. do 2 wp_step. fold vault. wp_step.
  wp_apply (transfer_spec a who vault x s); [done|done| |done|done].
  intros [] s1 [He Hc]. do 3 wp_step. split; [done|].
  pose proof (be_step_ledger Hforeign _ _ _ _ _ _ _ _ _ (be_refl s Hi) Hc) as H1.
  rewrite (be_store _ _ _ _ _ _ H1).
  replace (match PendingWithdraws (bst s) !! who with Some v => v ++ [x] | None => [x] end)
    with (pending_withdraws who (bst s) ++ [x])
    by (unfold pending_withdraws, get_or; by destruct (_ !! who)).
  eapply be_eq; [apply (be_step_event _ _ _ []);
    [eapply (be_step_write Hforeign (st_push_pending who x (bst s))); exact H1|by store]
    |intros; unfold no_change, no_issue; cbv beta; lia..|done].
Qed.

Lemma be_remove_pending d i l who x s s1 (e : BridgeEvent) :
  bridge_effect d i (bst s) l s s1 ->
  wp (remove_from_pending_withdraws who x ;; deposit_event (E:=E) e)
    (fun _ s' => bridge_effect d i (st_remove_pending who x (bst s)) (l ++ [e]) s s')
    (fun _ _ => False) False s1.
Proof.
  intros H. wp_step. eapply wp_run_Ok; [apply remove_pending_run|]. wp_step.
  rewrite (be_store _ _ _ _ _ _ H). apply be_step_event; [|by store].
  eapply (be_step_write Hforeign); exact H.
Qed.

Lemma refund_wp o who x s :
  ledger_inv s -> 0 <= x ->
  let a := BridgeAssetId (bst s) in let vault := PendingWithdrawVault (bst s) in
  wp (refund (E:=E) o who x)
    (fun _ s' => refund_error o who x s = None /\
       bridge_effect (fun b v => at_account a who x b v - at_account a vault x b v) no_issue
         (st_remove_pending who x (bst s)) [Refunded who x] s s')
    (fun e s' => refund_error o who x s = Some e /\ s' = s) False s.
Proof.
  intros Hi Hx a vault. unfold refund, refund_error. fold a vault.
  wp_step. wp_step; [subst o|by rewrite auth_error_unsigned].
  cbn [auth_error]. do 6 wp_step; [|by match goal with H : _ = false |- _ => rewrite H end].
  match goal with H : has_auth _ _ _ = true |- _ => rewrite H end. cbn [or_error].
  unfold pending_error. do 4 wp_step;
    match goal with H : bool_decide _ = _ |- _ => rewrite H end; [cbn [or_error]|done].
  do 3 wp_step. fold a vault.
  wp_apply (transfer_spec a vault who x s); [done|done| |done|done].
  intros [] s1 [He Hc].
  pose proof (be_step_ledger Hforeign _ _ _ _ _ _ _ _ _ (be_refl s Hi) Hc) as H1.
  wp_apply (be_remove_pending _ _ _ who x s s1 (Refunded who x) H1); [|done|done].
  intros _ s' H2. split; [done|].
  eapply be_eq; [exact H2|intros; unfold no_change, no_issue; cbv beta; lia..|done].
Qed.

Lemma withdraw_finish_wp o who x s :
  ledger_inv s ->
  wp (withdraw_finish (E:=E) o who x)
    (fun _ s' => finish_error o who x s = None /\
       bridge_effect no_change no_issue (st_remove_pending who x (bst s)) [Withdrawn who x] s s')
    (fun e s' => finish_error o who x s = Some e /\ s' = s) False s.
Proof.
  intros Hi. unfold withdraw_finish, finish_error.
  wp_step. wp_step; [subst o|by rewrite auth_error_unsigned].
  cbn [auth_error]. do 4 wp_step; [|by match goal with H : _ = false |- _ => rewrite H end].
  match goal with H : has_auth _ _ _ = true |- _ => rewrite H end. cbn [or_error].
  unfold pending_error. do 4 wp_step;
    match goal with H : bool_decide _ = _ |- _ => rewrite H end; [|done].
  wp_apply (be_remove_pending _ _ _ who x s s (Withdrawn who x) (be_refl s Hi)); [|done|done].
  intros _ s' H2. done.
Qed.

(** Whether a deposit waits for the KYC list. *)
Definition held who x st : bool :=
  bool_decide (Threshold st <= x) && negb (bool_decide (check_list who st = Some White)).

Definition deposit_error o h st : option error :=
  if is_tx_seen h st then Some (Msg "repeated transaction")
  else auth_error o AuthDeposit "no deposit auth" st.

Definition st_hold who x h st : BridgeStore :=
  st <| DepositHistory ::= <[h := MkDeposit who None x]> |>
     <| PendingDepositList ::= <[who := pending_deposit_list who st ++ [MkDeposit who (Some h) x]]> |>.
Definition st_seen who x h st : BridgeStore :=
  st <| DepositHistory ::= <[h := MkDeposit who None x]> |>.

Definition deposit_done who x h s s' : Prop :=
  if held who x (bst s)
  then bridge_effect no_change no_issue (st_hold who x h (bst s)) [Pending who x h] s s'
  else let a := BridgeAssetId (bst s) in
       mint_err a x s = None /\
       bridge_effect (at_account a who x) (at_asset a x) (st_seen who x h (bst s))
         [Deposited who x h] s s'.
Definition deposit_failed o who x h (e : error) s s' : Prop :=
  match deposit_error o h (bst s) with
  | Some e' => e = e' /\ s' = s
  | None => held who x (bst s) = false /\ mint_err (BridgeAssetId (bst s)) x s = Some e /\
      bridge_effect no_change no_issue (st_seen who x h (bst s)) [] s s'
  end.

Lemma deposit_wp o who x h s :
  ledger_inv s -> 0 <= x ->
  wp (deposit (E:=E) o who x h)
    (fun _ s' => deposit_error o h (bst s) = None /\ deposit_done who x h s s')
    (fun e s' => deposit_failed o who x h e s s') False s.
Proof.
  intros Hi Hx. unfold deposit, deposit_failed, deposit_error, deposit_done. do 4 wp_step;
    match goal with H : negb _ = _ |- _ =>
      rewrite ?negb_true_iff, ?negb_false_iff in H; rewrite H end; [|done].
  wp_step. wp_step; [subst o|by rewrite auth_error_unsigned].
  cbn [auth_error]. do 4 wp_step;
    match goal with H : has_auth _ _ _ = _ |- _ => rewrite H end; [|done].
  do 4 wp_step.
  replace (bool_decide (Threshold (bst s) <= x) && _) with (held who x (bst s)).
  2:{ unfold held. destruct (check_list who (bst s)) as [[]|]; cbn; done. }
  destruct (held who x (bst s)).
  - wp_apply (hold_deposit_wp who x h s); done.
  - wp_apply (simple_deposit_wp who x h s); [done|done|done| |done].
    intros e s' (? & _ & ?). done.
Qed.

Definition mark_error o st : option error := auth_error o AuthMark "no mark auth" st.

Definition has_hash (v : Deposit) : Prop := is_Some (dep_tx_hash v).
Definition hash_of (v : Deposit) : TxHash := default 0%N (dep_tx_hash v).
Lemma has_hash_eq v : has_hash v -> dep_tx_hash v = Some (hash_of v).
Proof. unfold hash_of. by intros [h ->]. Qed.

(** [mark_black] forgets the deposits that waited. *)
Definition st_forget (l : list Deposit) st : BridgeStore :=
  foldl (fun st v => st <| DepositHistory ::= delete (hash_of v) |>) st l.
Definition st_mark_black who st : BridgeStore :=
  (st_forget (pending_deposit_list who st) (st <| PendingDepositList ::= delete who |>))
    <| List ::= <[who := Black]> |>.

Lemma forget_run l s :
  Forall has_hash l ->
  for_each (fun v => h ← lift (dep_tx_hash v);
              modify (fun st : BridgeStore => st <| DepositHistory ::= delete h |>)) l s =
  Ok tt (sput (st_forget l (bst s)) s).
Proof.
  intros Hl. revert s. induction Hl as [|v l Hv Hl IH]; intros s.
  - cbn. run. by rewrite sput_sget.
  - cbn [for_each]. rewrite (has_hash_eq _ Hv). cbn [lift]. unfold mbind at 1, M_bind at 1.
    unfold mbind at 1, M_bind at 1, mret, M_ret, modify. rewrite IH. store. by rewrite sput_sput.
Qed.

Lemma mark_black_wp o who s :
  ledger_inv s -> Forall has_hash (pending_deposit_list who (bst s)) ->
  wp (mark_black (E:=E) o who)
    (fun _ s' => mark_error o (bst s) = None /\
       bridge_effect no_change no_issue (st_mark_black who (bst s)) [AccountMarked who Black] s s')
    (fun e s' => mark_error o (bst s) = Some e /\ s' = s) False s.
Proof.
  intros Hi Hh. unfold mark_black, mark_error.
  wp_step. wp_step; [subst o|by rewrite auth_error_unsigned].
  cbn [auth_error]. do 4 wp_step;
    match goal with H : has_auth _ _ _ = _ |- _ => rewrite H end; [|done].
  do 4 wp_step. wp_step. eapply wp_run_Ok; [by apply forget_run|]. store. rewrite sput_sput.
  unfold mark_with_event, mark. do 3 wp_step. rewrite sput_sput. split; [done|].
  unfold st_mark_black. apply (be_step_event _ _ _ []); [by apply (be_write Hforeign)|by store].
Qed.

(** [mark_white] mints the deposits that waited, in order. *)
Definition dep_change (a : AssetId) (l : list Deposit) : AssetId -> AccountId -> Z :=
  fun b w => foldr (fun v acc => at_account a (dep_account_id v) (dep_amount v) b w + acc) 0 l.
Definition dep_issue (a : AssetId) (l : list Deposit) : AssetId -> Z :=
  fun b => foldr (fun v acc => at_asset a (dep_amount v) b + acc) 0 l.
Definition dep_event (v : Deposit) : BridgeEvent :=
  Deposited (dep_account_id v) (dep_amount v) (hash_of v).
Definition st_seen_all (l : list Deposit) st : BridgeStore :=
  foldl (fun st v => st_seen (dep_account_id v) (dep_amount v) (hash_of v) st) st l.

Lemma st_seen_all_asset l st : BridgeAssetId (st_seen_all l st) = BridgeAssetId st.
Proof. revert st. induction l as [|v l IH]; intros st; [done|]. exact (IH (st_seen _ _ _ st)). Qed.

(** The deposits [l] were minted one after the other from [s] to [s']. *)
Definition minted l s s' : Prop :=
  bridge_effect (dep_change (BridgeAssetId (bst s)) l) (dep_issue (BridgeAssetId (bst s)) l)
    (st_seen_all l (bst s)) (dep_event <$> l) s s'.

Definition white_stopped who l (e : error) s s' : Prop :=
  exists l1 v l2, l = l1 ++ v :: l2 /\
    mint_err (BridgeAssetId (bst s)) (dep_amount v) s' = Some e /\
    bridge_effect (dep_change (BridgeAssetId (bst s)) l1)
      (dep_issue (BridgeAssetId (bst s)) l1)
      ((st_seen_all (l1 ++ [v]) (bst s)) <| PendingDepositList ::= <[who := v :: l2]> |>)
      (dep_event <$> l1) s s'.

Lemma mark_white_loop_wp who l s :
  ledger_inv s -> Forall has_hash l -> Forall (fun v => 0 <= dep_amount v) l ->
  wp (mark_white_loop (E:=E) who l) (fun _ s' => minted l s s')
    (fun e s' => white_stopped who l e s s') False s.
Proof.
  intros Hi Hh Hp. revert s Hi. induction Hh as [|v l Hv Hl IH]; intros s Hi.
  { cbn [mark_white_loop]. rewrite wp_ret. by apply be_refl. }
  apply Forall_cons in Hp as [Hv0 Hp]. cbn [mark_white_loop].
  wp_step. eapply wp_lift_Some; [by apply has_hash_eq|]. wp_step. rewrite wp_or_else.
  set (a := BridgeAssetId (bst s)).
  wp_apply (simple_deposit_wp (dep_account_id v) (dep_amount v) (hash_of v) s);
    [done|done| | |done]; fold a.
  - intros [] s1 [_ H1]. set (st1 := set_field DepositHistory _ (bst s)) in *.
    pose proof (be_store _ _ _ _ _ _ H1) as Hst.
    assert (BridgeAssetId (bst s1) = a) as Ha by (by rewrite Hst).
    wp_apply (IH Hp s1 (be_inv _ _ _ _ _ _ H1)); [| |done].
    + intros [] s2 H2. unfold minted in H2. rewrite Ha, Hst in H2.
      pose proof (be_trans _ _ _ _ _ _ _ _ _ _ _ H1 H2) as H.
      eapply be_eq; [exact H|done|done|done].
    + intros e s2 (l1 & w & l2 & -> & He & H2). rewrite Ha, Hst in *.
      pose proof (be_trans _ _ _ _ _ _ _ _ _ _ _ H1 H2) as H.
      exists (v :: l1), w, l2. split; [done|]. split; [done|].
      eapply be_eq; [exact H|done|done|done].
  - intros e s1 (He & Hs1 & H1). do 3 wp_step. exists [], v, l. split; [done|]. split.
    + by rewrite same_ledger_foreign, Hs1.
    + rewrite (be_store _ _ _ _ _ _ H1). eapply (be_step_write Hforeign). exact H1.
Qed.

Definition st_mark_white who st : BridgeStore :=
  (st_seen_all (pending_deposit_list who st) (st <| PendingDepositList ::= delete who |>))
    <| List ::= <[who := White]> |>.

Definition white_done who s s' : Prop :=
  let a := BridgeAssetId (bst s) in
  let l := pending_deposit_list who (bst s) in
  bridge_effect (dep_change a l) (dep_issue a l) (st_mark_white who (bst s))
    ((dep_event <$> l) ++ [AccountMarked who White]) s s'.

(** A failing [mark_white]: the deposits before the failing one were minted, the
    others still wait. *)
Definition white_failed o who (e : error) s s' : Prop :=
  match mark_error o (bst s) with
  | Some e' => e = e' /\ s' = s
  | None =>
      exists l1 v l2, pending_deposit_list who (bst s) = l1 ++ v :: l2 /\
        mint_err (BridgeAssetId (bst s)) (dep_amount v) s' = Some e /\
        bridge_effect (dep_change (BridgeAssetId (bst s)) l1)
          (dep_issue (BridgeAssetId (bst s)) l1)
          ((st_seen_all (l1 ++ [v]) ((bst s) <| PendingDepositList ::= delete who |>))
             <| PendingDepositList ::= <[who := v :: l2]> |>)
          (dep_event <$> l1) s s'
  end.

Lemma mark_white_wp o who s :
  ledger_inv s -> Forall has_hash (pending_deposit_list who (bst s)) ->
  Forall (fun v => 0 <= dep_amount v) (pending_deposit_list who (bst s)) ->
  wp (mark_white (E:=E) o who)
    (fun _ s' => mark_error o (bst s) = None /\ white_done who s s')
    (fun e s' => white_failed o who e s s') False s.
Proof.
  intros Hi Hh Hp. unfold mark_white, white_failed, mark_error.
  wp_step. wp_step; [subst o|by rewrite auth_error_unsigned].
  cbn [auth_error]. do 4 wp_step;
    match goal with H : has_auth _ _ _ = _ |- _ => rewrite H end; [|done].
  do 4 wp_step. wp_step.
  set (s1 := sput _ s).
  assert (bridge_effect no_change no_issue ((bst s) <| PendingDepositList ::= delete who |>) [] s s1)
    as H1 by (by apply (be_write Hforeign)).
  pose proof (be_store _ _ _ _ _ _ H1) as Hst.
  wp_apply (mark_white_loop_wp who _ s1 (be_inv _ _ _ _ _ _ H1) Hh Hp); [| |done].
  - intros [] s2 H2. unfold minted in H2. rewrite Hst in H2.
    unfold mark_with_event, mark. do 3 wp_step. split; [done|].
    pose proof (be_trans _ _ _ _ _ _ _ _ _ _ _ H1 H2) as Hrun.
    unfold white_done, st_mark_white. rewrite (be_store _ _ _ _ _ _ Hrun).
    eapply be_eq; [apply be_step_event; [eapply (be_step_write Hforeign); exact Hrun|by store]|done..].
  - intros e s2 (l1 & v & l2 & Hl & He & H2). rewrite Hst in *. exists l1, v, l2.
    split; [done|]. split; [done|].
    pose proof (be_trans _ _ _ _ _ _ _ _ _ _ _ H1 H2) as Hrun.
    eapply be_eq; [exact Hrun|done..].
Qed.

(** ** Counting the deposits of a transaction *)
Fixpoint dep_count (h : TxHash) (l : list Deposit) : Z :=
  match l with
  | [] => 0
  | v :: l => (if decide (dep_tx_hash v = Some h) then 1 else 0) + dep_count h l
  end.
Fixpoint mint_count (h : TxHash) (l : list BridgeEvent) : Z :=
  match l with
  | [] => 0
  | Deposited _ _ h' :: l => (if decide (h' = h) then 1 else 0) + mint_count h l
  | _ :: l => mint_count h l
  end.
Definition pending_count (h : TxHash) st : Z :=
  map_sum (fun _ l => dep_count h l) (PendingDepositList st).

Lemma dep_count_nonneg h l : 0 <= dep_count h l.
Proof. induction l as [|v l IH]; cbn; [done|]. case_decide; lia. Qed.
Lemma mint_count_nonneg h l : 0 <= mint_count h l.
Proof. induction l as [|[] l IH]; cbn; try done. case_decide; lia. Qed.
Lemma pending_count_nonneg h st : 0 <= pending_count h st.
Proof. apply map_sum_nonneg. intros. apply dep_count_nonneg. Qed.
Lemma dep_count_app h l1 l2 : dep_count h (l1 ++ l2) = dep_count h l1 + dep_count h l2.
Proof. induction l1 as [|v l IH]; cbn; [done|]. rewrite IH. lia. Qed.
Lemma mint_count_app h l1 l2 : mint_count h (l1 ++ l2) = mint_count h l1 + mint_count h l2.
Proof. induction l1 as [|[] l IH]; cbn; try done. rewrite IH. lia. Qed.
Lemma mint_count_dep h l : Forall has_hash l -> mint_count h (dep_event <$> l) = dep_count h l.
Proof.
  induction 1 as [|v l Hv Hl IH]; [done|]. cbn. rewrite IH, (has_hash_eq _ Hv).
  repeat case_decide; try congruence; lia.
Qed.

Lemma pending_count_get h who st :
  from_option (dep_count h) 0 (PendingDepositList st !! who) =
  dep_count h (pending_deposit_list who st).
Proof. unfold pending_deposit_list, get_or. by destruct (_ !! who). Qed.
Lemma pending_count_insert h who l st :
  pending_count h (st <| PendingDepositList ::= <[who := l]> |>) =
  pending_count h st - dep_count h (pending_deposit_list who st) + dep_count h l.
Proof. unfold pending_count; fields. rewrite map_sum_insert. by rewrite <-pending_count_get. Qed.
Lemma pending_count_delete h who st :
  pending_count h (st <| PendingDepositList ::= delete who |>) =
  pending_count h st - dep_count h (pending_deposit_list who st).
Proof. unfold pending_count; fields. rewrite map_sum_delete. by rewrite <-pending_count_get. Qed.
Lemma pending_count_ge h who st : dep_count h (pending_deposit_list who st) <= pending_count h st.
Proof.
  pose proof (pending_count_nonneg h (st <| PendingDepositList ::= delete who |>)) as H.
  rewrite pending_count_delete in H. lia.
Qed.

Lemma st_seen_all_other l st :
  PendingDepositList (st_seen_all l st) = PendingDepositList st /\
  PendingWithdraws (st_seen_all l st) = PendingWithdraws st /\
  PendingWithdrawVault (st_seen_all l st) = PendingWithdrawVault st.
Proof. revert st. induction l as [|v l IH]; intros st; [done|]. exact (IH (st_seen _ _ _ st)). Qed.
Lemma is_tx_seen_seen who x h h' st :
  is_tx_seen h' (st_seen who x h st) = bool_decide (h' = h) || is_tx_seen h' st.
Proof.
  unfold is_tx_seen, st_seen; fields. destruct (decide (h' = h)) as [->|Hne].
  - rewrite lookup_insert_eq, (bool_decide_true (h = h)) by done.
    apply bool_decide_true. by eexists.
  - by rewrite lookup_insert_ne, (bool_decide_false (h' = h)) by done.
Qed.
Lemma is_tx_seen_all h l st : is_tx_seen h st = true -> is_tx_seen h (st_seen_all l st) = true.
Proof.
  revert st. induction l as [|v l IH]; intros st Hs; [done|].
  apply (IH (st_seen _ _ _ st)). rewrite is_tx_seen_seen, Hs. by apply orb_true_r.
Qed.
Lemma is_tx_seen_forget h l st :
  Forall has_hash l -> dep_count h l = 0 -> is_tx_seen h st = true ->
  is_tx_seen h (st_forget l st) = true.
Proof.
  intros Hl. revert st. induction Hl as [|v l Hv Hl IH]; intros st Hc Hs; [done|].
  cbn in Hc. rewrite (has_hash_eq _ Hv) in Hc. pose proof (dep_count_nonneg h l).
  case_decide as Hne; [lia|]. apply (IH (st <| DepositHistory ::= delete (hash_of v) |>)); [lia|].
  unfold is_tx_seen in *; fields. rewrite lookup_delete_ne by congruence. done.
Qed.
Lemma st_forget_other l st :
  PendingDepositList (st_forget l st) = PendingDepositList st /\
  PendingWithdraws (st_forget l st) = PendingWithdraws st /\
  PendingWithdrawVault (st_forget l st) = PendingWithdrawVault st /\
  BridgeAssetId (st_forget l st) = BridgeAssetId st.
Proof.
  revert st. induction l as [|v l IH]; intros st; [done|].
  exact (IH (st <| DepositHistory ::= delete (hash_of v) |>)).
Qed.
End effects.
