(* ===== verification/BridgeProps.v ===== *)
(** * The bridge: invariants over all runs, and the contracts of the calls *)
From S2P Require Export BridgeFacts AssetsLedger Demo.
From stdpp Require Import relations.
#[local] Open Scope Z_scope.
Import RioBridge.

(** Every deposit that waits is filed under its account with its hash. *)
Definition deposits_ok (st : BridgeStore) : Prop :=
  forall w v, v ∈ pending_deposit_list w st ->
    has_hash v /\ 0 <= dep_amount v /\ dep_account_id v = w.

Lemma deposits_ok_hash st w : deposits_ok st -> Forall has_hash (pending_deposit_list w st).
Proof. intros Hd. apply Forall_forall. intros v Hv. by apply (Hd w). Qed.
Lemma deposits_ok_nonneg st w :
  deposits_ok st -> Forall (fun v => 0 <= dep_amount v) (pending_deposit_list w st).
Proof. intros Hd. apply Forall_forall. intros v Hv. by apply (Hd w). Qed.

Lemma pending_deposit_list_insert w who l st :
  pending_deposit_list w (st <| PendingDepositList ::= <[who := l]> |>) =
  if decide (w = who) then l else pending_deposit_list w st.
Proof.
  unfold pending_deposit_list, get_or; fields. rewrite lookup_insert.
  repeat case_decide; congruence || done.
Qed.
Lemma pending_deposit_list_delete w who st :
  pending_deposit_list w (st <| PendingDepositList ::= delete who |>) =
  if decide (w = who) then [] else pending_deposit_list w st.
Proof.
  unfold pending_deposit_list, get_or; fields. rewrite lookup_delete.
  repeat case_decide; congruence || done.
Qed.
Lemma deposits_ok_same st st' :
  PendingDepositList st' = PendingDepositList st -> deposits_ok st -> deposits_ok st'.
Proof. unfold deposits_ok, pending_deposit_list. by intros ->. Qed.
Lemma deposits_ok_delete who st :
  deposits_ok st -> deposits_ok (st <| PendingDepositList ::= delete who |>).
Proof. intros Hd w v. rewrite pending_deposit_list_delete. case_decide; [set_solver|apply Hd]. Qed.
Lemma deposits_ok_insert who l st :
  deposits_ok st ->
  (forall v, v ∈ l -> has_hash v /\ 0 <= dep_amount v /\ dep_account_id v = who) ->
  deposits_ok (st <| PendingDepositList ::= <[who := l]> |>).
Proof.
  intros Hd Hl w v. rewrite pending_deposit_list_insert. case_decide; subst; [apply Hl|apply Hd].
Qed.

Section invariant.
Context {S E : Type} `{!Store S (Frame E), !Store S BridgeStore, !Inject BridgeEvent E}.
Context `{!Separate S (Frame E) BridgeStore}.
Context `{!Ledger S, !LedgerEvents E, !LedgerSpec S E, !EventLog BridgeEvent E}.
Context (Hforeign : foreign BridgeStore _).
Implicit Types (s : S) (st : BridgeStore) (x : Balance) (who : AccountId).
#[local] Abbreviation bst := (sget (T:=BridgeStore)).
#[local] Abbreviation bridge_log := (client_log (E:=E) (Ev:=BridgeEvent)).
#[local] Abbreviation bridge_effect := (effect (E:=E) (T:=BridgeStore) (Ev:=BridgeEvent)).

(** Each transaction waits or was minted at most once, and is then seen. *)
Definition count_ok (n : Z) (h : TxHash) st : Prop :=
  n <= 1 /\ (1 <= n -> is_tx_seen h st = true).
Definition hashes_ok s : Prop :=
  forall h, count_ok (pending_count h (bst s) + mint_count h (bridge_log s)) h (bst s).

Record bridge_ok s : Prop := {
  bo_ledger : ledger_inv s;
  bo_deposits : deposits_ok (bst s);
  bo_hashes : hashes_ok s;
}.

Lemma bridge_ok_effect d i st' l s s' :
  bridge_effect d i st' l s s' -> deposits_ok st' ->
  (forall h, count_ok (pending_count h st' + mint_count h (bridge_log s) + mint_count h l) h st') ->
  bridge_ok s'.
Proof.
  intros H Hd Hc. split; [apply H|by rewrite (be_store _ _ _ _ _ _ H)|].
  intros h. rewrite (be_store _ _ _ _ _ _ H), (be_log _ _ _ _ _ _ H), mint_count_app, Z.add_assoc.
  apply Hc.
Qed.

(** Calls that leave the deposits alone. *)
Lemma bridge_ok_same d i st' l s s' :
  bridge_ok s -> bridge_effect d i st' l s s' ->
  PendingDepositList st' = PendingDepositList (bst s) ->
  DepositHistory st' = DepositHistory (bst s) ->
  (forall h, mint_count h l = 0) -> bridge_ok s'.
Proof.
  intros Hs H Hp Hh Hl. eapply bridge_ok_effect; [exact H|by eapply deposits_ok_same, Hs|].
  intros h. pose proof (bo_hashes _ Hs h) as Hc. unfold count_ok, pending_count, is_tx_seen in *.
  rewrite Hp, Hh, Hl, Z.add_0_r. exact Hc.
Qed.

Lemma deposit_keeps o who x h s :
  bridge_ok s -> 0 <= x ->
  wp (deposit (E:=E) o who x h) (fun _ => bridge_ok) (fun _ => bridge_ok) False s.
Proof.
  intros Hs Hx. wp_apply (deposit_wp Hforeign o who x h s); [apply Hs|done| | |done].
  - intros [] s' [He Hd]. unfold deposit_error in He.
    destruct (is_tx_seen h (bst s)) eqn:Hseen; [done|].
    assert (pending_count h (bst s) + mint_count h (bridge_log s) <= 0) as Hz.
    { destruct (bo_hashes _ Hs h) as [_ Hc].
      destruct (decide (1 <= pending_count h (bst s) + mint_count h (bridge_log s)));
        [|lia]. rewrite Hc in Hseen by done. done. }
    unfold deposit_done in Hd. destruct (held who x (bst s)).
    + eapply bridge_ok_effect; [exact Hd| |].
      * apply deposits_ok_insert; [by apply (deposits_ok_same (bst s)), Hs|].
        intros v [Hv|Hv]%elem_of_app; [by apply (bo_deposits _ Hs)|].
        apply list_elem_of_singleton in Hv as ->.
        split_and!; [by eexists|done|done].
      * intros h'. unfold st_hold. rewrite pending_count_insert, dep_count_app.
        change (pending_count h' _) with (pending_count h' (bst s)) at 1.
        change (pending_deposit_list who _) with (pending_deposit_list who (bst s)) at 1.
        unfold count_ok. change (is_tx_seen h' (set_field PendingDepositList _ _))
          with (is_tx_seen h' (st_seen who x h (bst s))).
        rewrite is_tx_seen_seen. cbn [dep_count dep_tx_hash mint_count].
        destruct (bo_hashes _ Hs h') as [Hc1 Hc2].
        destruct (decide (h' = h)) as [->|Hne].
        -- rewrite decide_True, bool_decide_true by done. split; [lia|done].
        -- rewrite decide_False, bool_decide_false by congruence. cbn.
           split; [lia|]. intros. apply Hc2. lia.
    + destruct Hd as [_ Hd]. eapply bridge_ok_effect; [exact Hd|by apply (deposits_ok_same (bst s)), Hs|].
      intros h'. change (pending_count h' (st_seen _ _ _ _)) with (pending_count h' (bst s)).
      unfold count_ok. rewrite is_tx_seen_seen. cbn [mint_count].
      destruct (bo_hashes _ Hs h') as [Hc1 Hc2]. destruct (decide (h' = h)) as [->|Hne].
      * rewrite decide_True, bool_decide_true by done. split; [lia|done].
      * rewrite decide_False, bool_decide_false by congruence. cbn.
        split; [lia|]. intros. apply Hc2. lia.
  - intros e s' Hf. unfold deposit_failed in Hf.
    destruct (deposit_error o h (bst s)); [destruct Hf as [_ ->]; exact Hs|].
    destruct Hf as (_ & _ & Hf).
    eapply bridge_ok_effect; [exact Hf|by apply (deposits_ok_same (bst s)), Hs|].
    intros h'. change (pending_count h' (st_seen _ _ _ _)) with (pending_count h' (bst s)).
    unfold count_ok. rewrite is_tx_seen_seen. cbn [mint_count].
    destruct (bo_hashes _ Hs h') as [Hc1 Hc2]. split; [lia|]. intros.
    rewrite Hc2 by lia. apply orb_true_r.
Qed.

Lemma refund_keeps o who x s :
  bridge_ok s -> 0 <= x ->
  wp (refund (E:=E) o who x) (fun _ => bridge_ok) (fun _ => bridge_ok) False s.
Proof.
  intros Hs Hx. wp_apply (refund_wp Hforeign o who x s); [apply Hs|done| | |done].
  - intros [] s' [_ H]. by eapply bridge_ok_same.
  - intros e s' [_ ->]. done.
Qed.
Lemma withdraw_keeps o who x s :
  bridge_ok s -> 0 <= x ->
  wp (withdraw (E:=E) o who x) (fun _ => bridge_ok) (fun _ => bridge_ok) False s.
Proof.
  intros Hs Hx. wp_apply (withdraw_wp Hforeign o who x s); [apply Hs|done| | |done].
  - intros [] s' [_ H]. by eapply bridge_ok_same.
  - intros e s' [_ ->]. done.
Qed.
Lemma withdraw_finish_keeps o who x s :
  bridge_ok s ->
  wp (withdraw_finish (E:=E) o who x) (fun _ => bridge_ok) (fun _ => bridge_ok) False s.
Proof.
  intros Hs. wp_apply (withdraw_finish_wp Hforeign o who x s); [apply Hs| | |done].
  - intros [] s' [_ H]. by eapply bridge_ok_same.
  - intros e s' [_ ->]. done.
Qed.

Lemma mark_black_keeps o who s :
  bridge_ok s ->
  wp (mark_black (E:=E) o who) (fun _ => bridge_ok) (fun _ => bridge_ok) False s.
Proof.
  intros Hs. pose proof (deposits_ok_hash _ who (bo_deposits _ Hs)) as Hh.
  wp_apply (mark_black_wp Hforeign o who s); [apply Hs|done| | |done].
  - intros [] s' [_ H]. set (l := pending_deposit_list who (bst s)) in *.
    set (st0 := (bst s) <| PendingDepositList ::= delete who |>).
    assert (PendingDepositList (st_mark_black who (bst s)) = PendingDepositList st0) as Hp
      by apply st_forget_other.
    eapply bridge_ok_effect; [exact H| |].
    + apply (deposits_ok_same st0); [done|]. apply deposits_ok_delete, Hs.
    + intros h. unfold pending_count. rewrite Hp. fold (pending_count h st0). unfold st0.
      rewrite pending_count_delete. destruct (bo_hashes _ Hs h) as [Hc1 Hc2].
      pose proof (dep_count_nonneg h l). pose proof (mint_count_nonneg h (bridge_log s)).
      pose proof (pending_count_ge h who (bst s)). fold l. fold l in H2.
      cbn [mint_count]. split; [lia|]. intros Hge.
      change (is_tx_seen h (st_forget l st0) = true).
      apply is_tx_seen_forget; [done|lia|]. apply Hc2. lia.
  - intros e s' [_ ->]. done.
Qed.

Lemma mark_white_keeps o who s :
  bridge_ok s ->
  wp (mark_white (E:=E) o who) (fun _ => bridge_ok) (fun _ => bridge_ok) False s.
Proof.
  intros Hs. pose proof (deposits_ok_hash _ who (bo_deposits _ Hs)) as Hh.
  pose proof (deposits_ok_nonneg _ who (bo_deposits _ Hs)) as Hn.
  wp_apply (mark_white_wp Hforeign o who s); [apply Hs|done|done| | |done].
  - intros [] s' [_ H]. unfold white_done in H. set (l := pending_deposit_list who (bst s)) in *.
    set (st0 := (bst s) <| PendingDepositList ::= delete who |>).
    assert (PendingDepositList (st_mark_white who (bst s)) = PendingDepositList st0) as Hp
      by apply st_seen_all_other.
    eapply bridge_ok_effect; [exact H| |].
    + apply (deposits_ok_same st0); [done|]. apply deposits_ok_delete, Hs.
    + intros h. unfold pending_count. rewrite Hp. fold (pending_count h st0). unfold st0.
      rewrite pending_count_delete, mint_count_app, mint_count_dep by done. cbn [mint_count].
      destruct (bo_hashes _ Hs h) as [Hc1 Hc2]. fold l. split; [lia|]. intros Hge.
      change (is_tx_seen h (st_seen_all l st0) = true). apply is_tx_seen_all. apply Hc2. lia.
  - intros e s' H. unfold white_failed in H.
    destruct (mark_error o (bst s)); [destruct H as [_ ->]; exact Hs|].
    destruct H as (l1 & v & l2 & Hl & _ & H).
    set (st0 := (bst s) <| PendingDepositList ::= delete who |>) in *.
    set (st1 := st_seen_all (l1 ++ [v]) st0) in *.
    assert (PendingDepositList st1 = PendingDepositList st0) as Hp by apply st_seen_all_other.
    rewrite Hl in Hh. apply Forall_app in Hh as [Hh1 Hh2].
    eapply bridge_ok_effect; [exact H| |].
    + apply deposits_ok_insert; [apply (deposits_ok_same st0); [done|]; apply deposits_ok_delete, Hs|].
      intros w Hw. apply (bo_deposits _ Hs). rewrite Hl. set_solver.
    + intros h. rewrite pending_count_insert.
      unfold pending_count, pending_deposit_list. rewrite Hp.
      fold (pending_count h st0). fold (pending_deposit_list who st0). unfold st0.
      rewrite pending_count_delete, pending_deposit_list_delete, decide_True by done.
      rewrite Hl, dep_count_app, mint_count_dep by done.
      destruct (bo_hashes _ Hs h) as [Hc1 Hc2]. cbn [dep_count]. split; [lia|]. intros Hge.
      change (is_tx_seen h st1 = true). apply is_tx_seen_all. apply Hc2. lia.
Qed.

Lemma admin_keeps o (f : BridgeStore -> BridgeStore) s :
  bridge_ok s -> PendingDepositList (f (bst s)) = PendingDepositList (bst s) ->
  DepositHistory (f (bst s)) = DepositHistory (bst s) ->
  wp (ensure_root o ;; modify f) (fun _ => bridge_ok) (fun _ => bridge_ok) False s.
Proof.
  intros Hs Hp Hd. wp_step. wp_step; [|done]. wp_step.
  eapply bridge_ok_same; [exact Hs|apply be_write; [done|apply Hs]|done..].
Qed.

Lemma bridge_dispatch_keeps o (c : Call) s :
  bridge_ok s -> 0 <= call_amount c ->
  wp (dispatch (E:=E) o c) (fun _ => bridge_ok) (fun _ => bridge_ok) False s.
Proof.
  intros Hs Hc. destruct c; cbn [dispatch call_amount] in *;
    try by apply admin_keeps.
  - by apply deposit_keeps.
  - by apply refund_keeps.
  - by apply withdraw_finish_keeps.
  - by apply withdraw_keeps.
  - by apply mark_black_keeps.
  - by apply mark_white_keeps.
Qed.

(** One extrinsic of the bridge, whatever its origin and outcome, or a step of
    the rest of the chain, which keeps the ledger well-formed and writes neither
    the bridge's storage nor its events. *)
Inductive bridge_step (s : S) : S -> Prop :=
| bstep_ok o c v s' :
    0 <= call_amount c -> dispatch (E:=E) o c s = Ok v s' -> bridge_step s s'
| bstep_err o c e s' :
    0 <= call_amount c -> dispatch (E:=E) o c s = Err e s' -> bridge_step s s'
| bstep_other s' :
    ledger_inv s' -> bst s' = bst s -> bridge_log s' = bridge_log s ->
    bridge_step s s'.

(** C4: no Bitcoin transaction is ever credited twice: in every state reachable
    from the genesis of the bridge each hash was minted or waits at most once,
    whatever admins approve, reject, retry or re-report, and no call of the
    bridge panics. *)
Theorem no_double_credit s0 s :
  ledger_inv s0 -> PendingDepositList (bst s0) = ∅ -> bridge_log s0 = [] ->
  rtc bridge_step s0 s ->
  (forall h, pending_count h (bst s) + mint_count h (bridge_log s) <= 1) /\
  forall o c, 0 <= call_amount c -> dispatch (E:=E) o c s <> Panic.
Proof.
  intros Hi Hp Hl Hrun. assert (bridge_ok s) as Hs.
  { assert (bridge_ok s0) as Hs0.
    { split; [done| |].
      - intros w v. unfold pending_deposit_list. rewrite Hp. unfold get_or.
        rewrite lookup_empty. set_solver.
      - intros h. unfold pending_count. rewrite Hp, Hl, map_sum_empty. split; cbn; lia. }
    clear Hi Hp Hl. induction Hrun as [|s1 s2 s3 Hst _ IH]; [done|]. apply IH.
    destruct Hst as [o c v s' Hc Hr|o c e s' Hc Hr|s' Hi Hb Hg].
    - exact (wp_Ok _ _ _ _ _ _ _ (bridge_dispatch_keeps o c _ Hs0 Hc) Hr).
    - exact (wp_Err _ _ _ _ _ _ _ (bridge_dispatch_keeps o c _ Hs0 Hc) Hr).
    - destruct Hs0. split; [done|by rewrite Hb|]. intros h. by rewrite Hb, Hg. }
  split; [intros h; apply (bo_hashes _ Hs h)|]. intros o c Hc Hpan.
  exact (wp_Panic _ _ _ _ _ (bridge_dispatch_keeps o c s Hs Hc) Hpan).
Qed.

(** ** The vault backs the pending withdraws *)
Definition pending_total st : Z := map_sum (fun _ => zsum) (PendingWithdraws st).
Definition vault_balance s : Z :=
  balance_of (BridgeAssetId (bst s)) (PendingWithdrawVault (bst s)) s.

Lemma zsum_remove_first x l : x ∈ l -> zsum (remove_first x l) = zsum l - x.
Proof. intros Hx. pose proof (zsum_perm _ _ (remove_first_perm x l Hx)) as H. unfold zsum in *. cbn in H. lia. Qed.

Lemma pending_withdraws_sum who st :
  from_option zsum 0 (PendingWithdraws st !! who) = zsum (pending_withdraws who st).
Proof. unfold pending_withdraws, get_or. by destruct (_ !! who). Qed.

Lemma pending_total_push who x st :
  pending_total (st_push_pending who x st) = pending_total st + x.
Proof.
  unfold pending_total, st_push_pending; fields. rewrite map_sum_insert.
  cbv beta. rewrite (pending_withdraws_sum who st), zsum_app. cbn. lia.
Qed.
Lemma pending_total_remove who x st :
  x ∈ pending_withdraws who st ->
  pending_total (st_remove_pending who x st) = pending_total st - x.
Proof.
  intros Hx. unfold pending_total, st_remove_pending; fields.
  destruct (decide (1 < length (pending_withdraws who st))%nat) as [Hl|Hl].
  - rewrite map_sum_insert, map_sum_delete, lookup_delete_eq.  cbv beta.
    rewrite (pending_withdraws_sum who st), zsum_remove_first by done. cbn. lia.
  - rewrite map_sum_delete. cbv beta. rewrite (pending_withdraws_sum who st).
    destruct (pending_withdraws who st) as [|y [|z l]]; cbn in *; [set_solver| |lia].
    apply list_elem_of_singleton in Hx as ->. lia.
Qed.

Record backed s : Prop := {
  bk_ok : bridge_ok s;
  bk_nonneg w x : x ∈ pending_withdraws w (bst s) -> 0 <= x;
  bk_vault : pending_total (bst s) <= vault_balance s;
}.

Lemma backed_effect d i st' l s s' :
  backed s -> bridge_ok s' -> bridge_effect d i st' l s s' ->
  BridgeAssetId st' = BridgeAssetId (bst s) ->
  PendingWithdrawVault st' = PendingWithdrawVault (bst s) ->
  (forall w x, x ∈ pending_withdraws w st' -> 0 <= x) ->
  pending_total st' <= pending_total (bst s)
    + d (BridgeAssetId (bst s)) (PendingWithdrawVault (bst s)) ->
  backed s'.
Proof.
  intros [? ? Hv] Hok H Ha Hw Hn Ht. split; [done|by rewrite (be_store _ _ _ _ _ _ H)|].
  unfold vault_balance in *. rewrite (be_store _ _ _ _ _ _ H), Ha, Hw.
  rewrite (be_balance _ _ _ _ _ _ H). lia.
Qed.

(** Calls that add to the balances and leave the withdraws alone. *)
Lemma backed_same d i st' l s s' :
  backed s -> bridge_ok s' -> bridge_effect d i st' l s s' ->
  BridgeAssetId st' = BridgeAssetId (bst s) ->
  PendingWithdrawVault st' = PendingWithdrawVault (bst s) ->
  PendingWithdraws st' = PendingWithdraws (bst s) ->
  (forall a w, 0 <= d a w) -> backed s'.
Proof.
  intros Hs Hok H Ha Hv Hp Hd. eapply backed_effect; [done|done|exact H|done|done| |].
  - intros w x. unfold pending_withdraws. rewrite Hp. apply (bk_nonneg _ Hs).
  - unfold pending_total. rewrite Hp. pose proof (Hd (BridgeAssetId (bst s))
      (PendingWithdrawVault (bst s))). lia.
Qed.

Lemma remove_first_in x y l : y ∈ remove_first x l -> x ∈ l -> y ∈ l.
Proof. intros Hy Hx. rewrite <-(remove_first_perm x l Hx). set_solver. Qed.

Lemma backed_remove who x s :
  backed s -> x ∈ pending_withdraws who (bst s) ->
  (forall w y, y ∈ pending_withdraws w (st_remove_pending who x (bst s)) -> 0 <= y).
Proof.
  intros Hs Hx w y. rewrite st_remove_pending_get by done. case_decide.
  - intros Hy. apply (bk_nonneg _ Hs who). by apply (remove_first_in x).
  - apply (bk_nonneg _ Hs).
Qed.

Lemma at_account_nonneg a w x b v : 0 <= x -> 0 <= at_account a w x b v.
Proof. unfold at_account. case_decide; lia. Qed.
Lemma dep_change_nonneg a l b w :
  Forall (fun v => 0 <= dep_amount v) l -> 0 <= dep_change a l b w.
Proof.
  unfold dep_change. induction 1 as [|v l Hv Hl IH]; cbn; [done|].
  pose proof (at_account_nonneg a (dep_account_id v) _ b w Hv). lia.
Qed.

(** A withdraw in the name of the vault itself would not be backed. *)
Definition vault_safe (c : Call) st : Prop :=
  match c with CallWithdraw who _ => who <> PendingWithdrawVault st | _ => True end.

(** A call known by an effect, on top of the deposits' invariant. *)
Lemma keeps_by_effect (P : S -> Prop) (m : M S unit) (Q : unit -> S -> Prop)
    (Er : error -> S -> Prop) s :
  wp m (fun _ => bridge_ok) (fun _ => bridge_ok) False s -> wp m Q Er False s ->
  (forall s', bridge_ok s' -> Q tt s' -> P s') ->
  (forall e s', bridge_ok s' -> Er e s' -> P s') ->
  wp m (fun _ => P) (fun _ => P) False s.
Proof.
  intros H1 H2 HQ HE. eapply wp_mono; [exact (wp_conj _ _ _ _ _ _ _ _ H1 H2)|..].
  - intros [] s' [? ?]. by apply HQ.
  - intros e s' [? ?]. by apply (HE e).
  - tauto.
Qed.

Lemma deposit_backed o who x h s :
  backed s -> 0 <= x ->
  wp (deposit (E:=E) o who x h) (fun _ => backed) (fun _ => backed) False s.
Proof.
  intros Hs Hx. pose proof (bk_ok _ Hs) as Hok.
  eapply keeps_by_effect; [by apply deposit_keeps|apply (deposit_wp Hforeign); [apply Hok|done]|..].
  - intros s' Hok' [_ Hd]. unfold deposit_done in Hd.
    destruct (held who x (bst s)); [by eapply backed_same|]. destruct Hd as [_ Hd].
    eapply backed_same; [done|done|exact Hd|done..|]. intros. by apply at_account_nonneg.
  - intros e s' Hok' Hf. unfold deposit_failed in Hf.
    destruct (deposit_error o h (bst s)); [by destruct Hf as [_ ->]|].
    destruct Hf as (_ & _ & Hf). by eapply backed_same.
Qed.

Lemma refund_backed o who x s :
  backed s -> 0 <= x ->
  wp (refund (E:=E) o who x) (fun _ => backed) (fun _ => backed) False s.
Proof.
  intros Hs Hx. pose proof (bk_ok _ Hs) as Hok.
  eapply keeps_by_effect; [by apply refund_keeps|apply (refund_wp Hforeign); [apply Hok|done]|..].
  - intros s' Hok' [He Hd]. unfold refund_error, pending_error in He.
    destruct (auth_error o _ _ _); [done|]. cbn in He.
    case_bool_decide as Hin; [|done].
    eapply backed_effect; [done|done|exact Hd|done|done|by apply backed_remove|].
    rewrite pending_total_remove by done. unfold at_account. repeat case_decide; naive_solver lia.
  - by intros e s' Hok' [_ ->].
Qed.

Lemma withdraw_backed o who x s :
  backed s -> 0 <= x -> who <> PendingWithdrawVault (bst s) ->
  wp (withdraw (E:=E) o who x) (fun _ => backed) (fun _ => backed) False s.
Proof.
  intros Hs Hx Hv. pose proof (bk_ok _ Hs) as Hok.
  eapply keeps_by_effect; [by apply withdraw_keeps|apply (withdraw_wp Hforeign); [apply Hok|done]|..].
  - intros s' Hok' [He Hd].
    eapply backed_effect; [done|done|exact Hd|done|done| |].
    + intros w y. unfold pending_withdraws, st_push_pending, get_or; fields.
      rewrite lookup_insert. case_decide as Hw; [|apply (bk_nonneg _ Hs w)].
      cbn. intros [Hy|Hy]%elem_of_app; [by apply (bk_nonneg _ Hs who)|].
      by apply list_elem_of_singleton in Hy as ->.
    + rewrite pending_total_push. unfold at_account. repeat case_decide; naive_solver lia.
  - by intros e s' Hok' [_ ->].
Qed.

Lemma withdraw_finish_backed o who x s :
  backed s -> 0 <= x ->
  wp (withdraw_finish (E:=E) o who x) (fun _ => backed) (fun _ => backed) False s.
Proof.
  intros Hs Hx. pose proof (bk_ok _ Hs) as Hok.
  eapply keeps_by_effect; [by apply withdraw_finish_keeps|apply (withdraw_finish_wp Hforeign), Hok|..].
  - intros s' Hok' [He Hd]. unfold finish_error, pending_error in He.
    destruct (auth_error o _ _ _); [done|]. cbn in He.
    case_bool_decide as Hin; [|done].
    eapply backed_effect; [done|done|exact Hd|done|done|by apply backed_remove|].
    rewrite pending_total_remove by done. unfold no_change. lia.
  - by intros e s' Hok' [_ ->].
Qed.

Lemma mark_black_backed o who s :
  backed s -> wp (mark_black (E:=E) o who) (fun _ => backed) (fun _ => backed) False s.
Proof.
  intros Hs. pose proof (bk_ok _ Hs) as Hok.
  eapply keeps_by_effect; [by apply mark_black_keeps
    |apply (mark_black_wp Hforeign); [apply Hok|apply deposits_ok_hash, Hok]|..].
  - intros s' Hok' [_ Hd].
    pose proof (st_forget_other (pending_deposit_list who (bst s))
      ((bst s) <| PendingDepositList ::= delete who |>)) as (_ & ? & ? & ?).
    by eapply backed_same.
  - by intros e s' Hok' [_ ->].
Qed.

Lemma mark_white_backed o who s :
  backed s -> wp (mark_white (E:=E) o who) (fun _ => backed) (fun _ => backed) False s.
Proof.
  intros Hs. pose proof (bk_ok _ Hs) as Hok. pose proof (bo_deposits _ Hok) as Hd.
  pose proof (deposits_ok_nonneg _ who Hd) as Hn.
  eapply keeps_by_effect; [by apply mark_white_keeps|apply (mark_white_wp Hforeign);
    [apply Hok|by apply deposits_ok_hash|done]|..].
  - intros s' Hok' [_ Hw]. unfold white_done in Hw.
    set (l := pending_deposit_list who (bst s)) in *.
    set (st0 := (bst s) <| PendingDepositList ::= delete who |>).
    pose proof (st_seen_all_other l st0) as (_ & ? & ?).
    pose proof (st_seen_all_asset l st0).
    eapply backed_same; [done|done|exact Hw|done..|]. intros. by apply dep_change_nonneg.
  - intros e s' Hok' Hf. unfold white_failed in Hf.
    destruct (mark_error o (bst s)); [by destruct Hf as [_ ->]|].
    destruct Hf as (l1 & v & l2 & Hl & _ & Hf).
    set (st0 := (bst s) <| PendingDepositList ::= delete who |>) in *.
    pose proof (st_seen_all_other (l1 ++ [v]) st0) as (_ & ? & ?).
    pose proof (st_seen_all_asset (l1 ++ [v]) st0).
    eapply backed_same; [done|done|exact Hf|done..|]. intros. apply dep_change_nonneg.
    rewrite Hl in Hn. by apply Forall_app in Hn as [? _].
Qed.

Lemma admin_backed o (f : BridgeStore -> BridgeStore) s :
  backed s ->
  (forall st, PendingDepositList (f st) = PendingDepositList st /\
     DepositHistory (f st) = DepositHistory st /\ PendingWithdraws (f st) = PendingWithdraws st /\
     BridgeAssetId (f st) = BridgeAssetId st /\
     PendingWithdrawVault (f st) = PendingWithdrawVault st) ->
  wp (ensure_root o ;; modify f) (fun _ => backed) (fun _ => backed) False s.
Proof.
  intros Hs Hf. destruct (Hf (bst s)) as (? & ? & ? & ? & ?). pose proof (bk_ok _ Hs) as Hok.
  wp_step. wp_step; [|done]. wp_step.
  pose proof (be_write Hforeign (f (bst s)) s (bo_ledger _ Hok)) as He.
  eapply backed_same; [done| |exact He|done..].
  by eapply bridge_ok_same.
Qed.

Lemma backed_dispatch o (c : Call) s :
  backed s -> 0 <= call_amount c -> vault_safe c (bst s) ->
  wp (dispatch (E:=E) o c) (fun _ => backed) (fun _ => backed) False s.
Proof.
  intros Hs Hc Hv. destruct c; cbn [dispatch call_amount vault_safe] in *;
    try by apply admin_backed.
  - by apply deposit_backed.
  - by apply refund_backed.
  - by apply withdraw_finish_backed.
  - by apply withdraw_backed.
  - by apply mark_black_backed.
  - by apply mark_white_backed.
Qed.

(** Steps under which the vault stays backed: no withdraw names the vault, and
    the rest of the chain does not spend from it. *)
Inductive vault_step (s : S) : S -> Prop :=
| vstep_ok o c v s' :
    0 <= call_amount c -> vault_safe c (bst s) -> dispatch (E:=E) o c s = Ok v s' ->
    vault_step s s'
| vstep_err o c e s' :
    0 <= call_amount c -> vault_safe c (bst s) -> dispatch (E:=E) o c s = Err e s' ->
    vault_step s s'
| vstep_other s' :
    ledger_inv s' -> bst s' = bst s -> bridge_log s' = bridge_log s ->
    vault_balance s <= vault_balance s' -> vault_step s s'.

Lemma vault_steps_backed s0 s : backed s0 -> rtc vault_step s0 s -> backed s.
Proof.
  intros Hs0 Hrun. induction Hrun as [|s1 s2 s3 Hst _ IH]; [done|]. apply IH.
  destruct Hst as [o c v s' Hc Hv Hr|o c e s' Hc Hv Hr|s' Hi Hb Hg Hv].
  - exact (wp_Ok _ _ _ _ _ _ _ (backed_dispatch o c _ Hs0 Hc Hv) Hr).
  - exact (wp_Err _ _ _ _ _ _ _ (backed_dispatch o c _ Hs0 Hc Hv) Hr).
  - destruct Hs0 as [[? ? Hh] ? ?]. split; [split; [done|by rewrite Hb|]|by rewrite Hb|].
    + intros h. by rewrite Hb, Hg.
    + rewrite Hb. lia.
Qed.

Lemma backed_genesis s :
  ledger_inv s -> PendingDepositList (bst s) = ∅ -> PendingWithdraws (bst s) = ∅ ->
  bridge_log s = [] -> backed s.
Proof.
  intros Hi Hp Hw Hl. split; [split; [done| |]| |].
  - intros w v. unfold pending_deposit_list. rewrite Hp. unfold get_or.
    rewrite lookup_empty. set_solver.
  - intros h. unfold pending_count. rewrite Hp, Hl, map_sum_empty. split; cbn; lia.
  - intros w x. unfold pending_withdraws. rewrite Hw. unfold get_or.
    rewrite lookup_empty. set_solver.
  - unfold pending_total. rewrite Hw, map_sum_empty. by apply (balance_nonneg (E:=E)).
Qed.

Lemma pending_le_total who x st :
  (forall w x, x ∈ pending_withdraws w st -> 0 <= x) ->
  x ∈ pending_withdraws who st -> x <= pending_total st.
Proof.
  intros Hn Hx. pose proof (map_sum_nonneg (fun _ => zsum) (delete who (PendingWithdraws st))) as H1.
  rewrite map_sum_delete in H1. cbv beta in H1. rewrite (pending_withdraws_sum who st) in H1.
  pose proof (zsum_remove_first x _ Hx) as H2.
  assert (0 <= zsum (remove_first x (pending_withdraws who st))) as H3.
  { apply zsum_nonneg, Forall_forall. intros y Hy. apply (Hn who). by apply (remove_first_in x). }
  fold (pending_total st) in H1. cut (0 <= pending_total st - zsum (pending_withdraws who st)); [lia|].
  apply H1. intros k l Hk. apply zsum_nonneg, Forall_forall. intros y Hy.
  apply lookup_delete_Some in Hk as [_ Hk]. apply (Hn k). unfold pending_withdraws, get_or.
  by rewrite Hk.
Qed.

(** C5: the vault holds what it owes: in every state reachable from the genesis by
    calls of the bridge that do not withdraw in the name of the vault, where the rest
    of the chain does not lower the vault's balance, that balance covers the sum of all
    pending withdraws, so a refund of any pending withdraw succeeds, for an author with
    the authority to refund while the asset is transferable. *)
Theorem vault_backs_pending s0 s :
  ledger_inv s0 -> PendingDepositList (bst s0) = ∅ -> PendingWithdraws (bst s0) = ∅ ->
  bridge_log s0 = [] -> rtc vault_step s0 s ->
  pending_total (bst s) <= vault_balance s /\
  forall author who x, has_auth author AuthRefund (bst s) = true ->
    x ∈ pending_withdraws who (bst s) -> transferable (BridgeAssetId (bst s)) s = true ->
    exists s', refund (E:=E) (Signed author) who x s = Ok tt s' /\
      pending_total (bst s') = pending_total (bst s) - x.
Proof.
  intros Hi Hp Hw Hl Hrun.
  pose proof (vault_steps_backed _ _ (backed_genesis _ Hi Hp Hw Hl) Hrun) as Hs.
  split; [apply Hs|]. intros author who x Ha Hx Ht.
  pose proof (bk_nonneg _ Hs _ _ Hx) as Hx0.
  pose proof (pending_le_total who x _ (bk_nonneg _ Hs) Hx) as Hle.
  pose proof (bk_vault _ Hs) as Hv.
  assert (refund_error (Signed author) who x s = None) as He.
  { unfold refund_error, pending_error, auth_error. rewrite Ha, bool_decide_true by done. cbn.
    apply (transfer_err_None (E:=E)). split; [done|]. unfold vault_balance in Hv. lia. }
  pose proof (refund_wp Hforeign (Signed author) who x s (bo_ledger _ (bk_ok _ Hs)) Hx0) as Hr.
  destruct (refund (E:=E) (Signed author) who x s) as [[] s'|e s'|] eqn:Hrefund.
  - exists s'. split; [done|]. destruct (wp_Ok _ _ _ _ _ _ _ Hr Hrefund) as [_ H].
    rewrite (be_store _ _ _ _ _ _ H). by apply pending_total_remove.
  - destruct (wp_Err _ _ _ _ _ _ _ Hr Hrefund) as [? _]. congruence.
  - by destruct (wp_Panic _ _ _ _ _ Hr Hrefund).
Qed.

(** ** The contracts of the calls *)

(** C15: a deposit is refused without a write when its transaction was seen or
    its reporter may not deposit; an amount of at least the threshold for an
    account that is not white-listed only waits, and every other one is minted at
    once.  When the ledger refuses the mint the transaction stays marked as seen. *)
Theorem deposit_contract o who x h s :
  ledger_inv s -> 0 <= x ->
  wp (deposit (E:=E) o who x h)
    (fun _ s' => deposit_error o h (bst s) = None /\ is_tx_seen h (bst s') = true /\
       (if held who x (bst s)
        then (forall a w, balance_of a w s' = balance_of a w s) /\
             pending_deposit_list who (bst s') =
               pending_deposit_list who (bst s) ++ [MkDeposit who (Some h) x]
        else (forall a w, balance_of a w s' =
                balance_of a w s + at_account (BridgeAssetId (bst s)) who x a w) /\
             pending_deposit_list who (bst s') = pending_deposit_list who (bst s)))
    (fun e s' => (forall a w, balance_of a w s' = balance_of a w s) /\
       match deposit_error o h (bst s) with
       | Some e' => e = e' /\ s' = s
       | None => held who x (bst s) = false /\
           mint_err (BridgeAssetId (bst s)) x s = Some e /\ is_tx_seen h (bst s') = true
       end) False s.
Proof.
  intros Hi Hx. wp_apply (deposit_wp Hforeign o who x h s); [done|done| | |done].
  - intros [] s' [He Hd]. split; [done|]. unfold deposit_done in Hd.
    destruct (held who x (bst s)); [|destruct Hd as [_ Hd]];
      rewrite (be_store _ _ _ _ _ _ Hd); (split; [|split]).
    + change (is_tx_seen h (st_seen who x h (bst s)) = true).
      rewrite is_tx_seen_seen. by rewrite bool_decide_true.
    + intros a w. rewrite (be_balance _ _ _ _ _ _ Hd). unfold no_change. lia.
    + unfold st_hold. by rewrite pending_deposit_list_insert, decide_True.
    + rewrite is_tx_seen_seen. by rewrite bool_decide_true.
    + intros a w. by rewrite (be_balance _ _ _ _ _ _ Hd).
    + done.
  - intros e s' Hf. unfold deposit_failed in Hf.
    destruct (deposit_error o h (bst s)); [by destruct Hf as [-> ->]|].
    destruct Hf as (Hh & Hm & Hf). split.
    + intros a w. rewrite (be_balance _ _ _ _ _ _ Hf). unfold no_change. lia.
    + rewrite (be_store _ _ _ _ _ _ Hf), is_tx_seen_seen. by rewrite bool_decide_true.
Qed.

(** C16: a withdraw moves the amount from the account to the vault and refunding
    it gives every balance back and leaves the pending withdraws of every account
    as they were, up to their order. *)
Theorem withdraw_refund_round_trip o o' who x s s1 s2 :
  ledger_inv s -> 0 <= x ->
  withdraw (E:=E) o who x s = Ok tt s1 -> refund (E:=E) o' who x s1 = Ok tt s2 ->
  (forall a w, balance_of a w s2 = balance_of a w s) /\
  (forall w, pending_withdraws w (bst s2) ≡ₚ pending_withdraws w (bst s)) /\
  bridge_log s2 = bridge_log s ++ [PendingWithdraw who x; Refunded who x].
Proof.
  intros Hi Hx H1 H2.
  destruct (wp_Ok _ _ _ _ _ _ _ (withdraw_wp Hforeign o who x s Hi Hx) H1) as [_ E1].
  pose proof (be_inv _ _ _ _ _ _ E1) as Hi1. pose proof (be_store _ _ _ _ _ _ E1) as Hst.
  destruct (wp_Ok _ _ _ _ _ _ _ (refund_wp Hforeign o' who x s1 Hi1 Hx) H2) as [_ E2].
  rewrite Hst in E2. split_and!.
  - intros a w. rewrite (be_balance _ _ _ _ _ _ E2), (be_balance _ _ _ _ _ _ E1). cbv beta.
    change (BridgeAssetId (st_push_pending who x (bst s))) with (BridgeAssetId (bst s)).
    change (PendingWithdrawVault (st_push_pending who x (bst s))) with (PendingWithdrawVault (bst s)). lia.
  - intros w. rewrite (be_store _ _ _ _ _ _ E2).
    assert (forall v, pending_withdraws v (st_push_pending who x (bst s)) =
      if decide (v = who) then pending_withdraws who (bst s) ++ [x]
      else pending_withdraws v (bst s)) as Hpush.
    { intros v. unfold pending_withdraws, st_push_pending, get_or; fields.
      rewrite lookup_insert. repeat case_decide; congruence || done. }
    assert (x ∈ pending_withdraws who (st_push_pending who x (bst s))) as Hin.
    { rewrite Hpush, decide_True by done. set_solver. }
    rewrite st_remove_pending_get by done. case_decide as Hw; [subst w|by rewrite Hpush, decide_False].
    apply (inj (cons x)). rewrite remove_first_perm by done. rewrite Hpush, decide_True by done.
    by rewrite (comm (++)).
  - by rewrite (be_log _ _ _ _ _ _ E2), (be_log _ _ _ _ _ _ E1), <-app_assoc.
Qed.

(** What the deposits of an account add to the ledger. *)
Definition deposits_total (l : list Deposit) : Z := foldr (fun v acc => dep_amount v + acc) 0 l.
Lemma dep_issue_total a l b : dep_issue a l b = at_asset a (deposits_total l) b.
Proof.
  unfold dep_issue, deposits_total, at_asset. induction l as [|v l IH]; cbn; [by case_decide|].
  rewrite IH. case_decide; lia.
Qed.
Lemma dep_change_total a who l b w :
  Forall (fun v => dep_account_id v = who) l ->
  dep_change a l b w = at_account a who (deposits_total l) b w.
Proof.
  unfold dep_change, deposits_total, at_account.
  induction 1 as [|v l Hv Hl IH]; cbn; [by case_decide|]. rewrite IH, Hv. case_decide; lia.
Qed.
Lemma st_seen_all_list l st : List (st_seen_all l st) = List st.
Proof. revert st. induction l as [|v l IH]; intros st; [done|]. exact (IH (st_seen _ _ _ st)). Qed.
Lemma deposits_ok_owner st w :
  deposits_ok st -> Forall (fun v => dep_account_id v = w) (pending_deposit_list w st).
Proof. intros Hd. apply Forall_forall. intros v Hv. by apply (Hd w). Qed.

(** C11: approving an account mints all the deposits it waits for to that account, in
    the order they were reported, empties its list and white-lists it; when the ledger
    refuses to mint one of them, the error is the ledger's, those before it are minted,
    it and the others still wait and the account is not white-listed, so that no deposit
    is lost.  No other balance, issuance or waiting list changes. *)
Theorem mark_white_conserves o who s :
  ledger_inv s -> deposits_ok (bst s) ->
  let l := pending_deposit_list who (bst s) in
  let a := BridgeAssetId (bst s) in
  let minted l s' :=
    (forall b w, balance_of b w s' =
       balance_of b w s + at_account a who (deposits_total l) b w) /\
    (forall b, issuance_of b s' = issuance_of b s + at_asset a (deposits_total l) b) /\
    (forall w, w <> who ->
       pending_deposit_list w (bst s') = pending_deposit_list w (bst s)) in
  wp (mark_white (E:=E) o who)
    (fun _ s' => mark_error o (bst s) = None /\ minted l s' /\
       pending_deposit_list who (bst s') = [] /\ check_list who (bst s') = Some White /\
       bridge_log s' = bridge_log s ++ (dep_event <$> l) ++ [AccountMarked who White])
    (fun e s' =>
       match mark_error o (bst s) with
       | Some e' => e = e' /\ s' = s
       | None => exists before v after, l = before ++ v :: after /\
           mint_err a (dep_amount v) s' = Some e /\ minted before s' /\
           pending_deposit_list who (bst s') = v :: after /\
           check_list who (bst s') = check_list who (bst s) /\
           bridge_log s' = bridge_log s ++ (dep_event <$> before)
       end) False s.
Proof.
  intros Hi Hd l a minted. pose proof (deposits_ok_owner _ who Hd) as Hown. fold l in Hown.
  set (st0 := (bst s) <| PendingDepositList ::= delete who |>).
  assert (forall w, pending_deposit_list w st0 =
    if decide (w = who) then [] else pending_deposit_list w (bst s)) as H0
    by (intros w; apply pending_deposit_list_delete).
  wp_apply (mark_white_wp Hforeign o who s);
    [done|by apply deposits_ok_hash|by apply deposits_ok_nonneg| | |done].
  - intros [] s' [He H]. unfold white_done in H. fold l a in H. split; [done|]. unfold minted.
    assert (PendingDepositList (st_mark_white who (bst s)) = PendingDepositList st0) as Hp
      by apply st_seen_all_other.
    assert (forall w, pending_deposit_list w (st_mark_white who (bst s)) = pending_deposit_list w st0)
      as Hw by (intros w; unfold pending_deposit_list; by rewrite Hp).
    rewrite (be_store _ _ _ _ _ _ H), (be_log _ _ _ _ _ _ H). split_and!; try done.
    + intros b w. by rewrite (be_balance _ _ _ _ _ _ H), (dep_change_total a who).
    + intros b. by rewrite (be_issuance _ _ _ _ _ _ H), dep_issue_total.
    + intros w Hne. by rewrite Hw, H0, decide_False.
    + by rewrite Hw, H0, decide_True.
    + apply lookup_insert_eq.
  - intros e s' H. unfold white_failed in H. destruct (mark_error o (bst s)); [done|].
    destruct H as (l1 & v & l2 & Hl & Hm & H). fold a l st0 in H, Hl, Hm.
    rewrite Hl in Hown. apply Forall_app in Hown as [Hown _]. exists l1, v, l2. unfold minted.
    destruct (st_seen_all_other (l1 ++ [v]) st0) as [Hp _].
    pose proof (st_seen_all_list (l1 ++ [v]) st0) as Hli.
    rewrite (be_store _ _ _ _ _ _ H), (be_log _ _ _ _ _ _ H). split_and!; try done.
    + intros b w. by rewrite (be_balance _ _ _ _ _ _ H), (dep_change_total a who).
    + intros b. by rewrite (be_issuance _ _ _ _ _ _ H), dep_issue_total.
    + intros w Hne. rewrite pending_deposit_list_insert, decide_False by done.
      unfold pending_deposit_list. rewrite Hp. fold (pending_deposit_list w st0).
      by rewrite H0, decide_False.
    + by rewrite pending_deposit_list_insert, decide_True.
    + unfold check_list; fields. by rewrite Hli.
Qed.

(** What root configures. *)
Definition settings_kept (st st' : BridgeStore) : Prop :=
  Admins st' = Admins st /\ Threshold st' = Threshold st /\
  BridgeAssetId st' = BridgeAssetId st /\ PendingWithdrawVault st' = PendingWithdrawVault st /\
  Paused st' = Paused st.
Lemma seen_all_keeps_settings l st : settings_kept st (st_seen_all l st).
Proof. revert st. induction l as [|v l IH]; intros st; [done|exact (IH (st_seen _ _ _ st))]. Qed.
Lemma forget_keeps_settings l st : settings_kept st (st_forget l st).
Proof.
  revert st. induction l as [|v l IH]; intros st; [done|].
  set (st1 := st <| DepositHistory ::= delete (hash_of v) |>). exact (IH st1).
Qed.

(** Only root changes the admins, the threshold, the asset and the vault of
    the bridge: a signed or unsigned call leaves them as they were, whatever its
    outcome. *)
Theorem only_root_configures o (c : Call) s :
  ledger_inv s -> deposits_ok (bst s) -> 0 <= call_amount c -> o <> Root ->
  let same s' := Admins (bst s') = Admins (bst s) /\ Threshold (bst s') = Threshold (bst s) /\
    BridgeAssetId (bst s') = BridgeAssetId (bst s) /\
    PendingWithdrawVault (bst s') = PendingWithdrawVault (bst s) /\
    Paused (bst s') = Paused (bst s) in
  wp (dispatch (E:=E) o c) (fun _ => same) (fun _ => same) False s.
Proof.
  intros Hi Hd Hc Ho same.
  destruct c; cbn [dispatch call_amount] in *;
    try (destruct o; [done|by apply wp_intro; [discriminate|intros e s' [= <- <-]|discriminate]..]).
  - wp_apply (deposit_wp Hforeign o account_id amount tx_hash s); [done|done| | |done].
    + intros [] s' [_ H]. unfold deposit_done in H. unfold same.
      destruct (held _ _ _); [|destruct H as [_ H]]; by rewrite (be_store _ _ _ _ _ _ H).
    + intros e s' H. unfold deposit_failed in H.
      destruct (deposit_error _ _ _); [by destruct H as [_ ->]|].
      destruct H as (_ & _ & H). unfold same. by rewrite (be_store _ _ _ _ _ _ H).
  - wp_apply (refund_wp Hforeign o who amount s); [done|done| |by intros e s' [_ ->]|done].
    intros [] s' [_ H]. unfold same. by rewrite (be_store _ _ _ _ _ _ H).
  - wp_apply (withdraw_finish_wp Hforeign o who amount s); [done| |by intros e s' [_ ->]|done].
    intros [] s' [_ H]. unfold same. by rewrite (be_store _ _ _ _ _ _ H).
  - wp_apply (withdraw_wp Hforeign o who amount s); [done|done| |by intros e s' [_ ->]|done].
    intros [] s' [_ H]. unfold same. by rewrite (be_store _ _ _ _ _ _ H).
  - wp_apply (mark_black_wp Hforeign o account_id s);
      [done|by apply deposits_ok_hash| |by intros e s' [_ ->]|done].
    intros [] s' [_ H]. unfold same. rewrite (be_store _ _ _ _ _ _ H).
    exact (forget_keeps_settings (pending_deposit_list account_id (bst s))
             ((bst s) <| PendingDepositList ::= delete account_id |>)).
  - wp_apply (mark_white_wp Hforeign o account_id s);
      [done|by apply deposits_ok_hash|by apply deposits_ok_nonneg| | |done].
    + intros [] s' [_ H]. unfold same. rewrite (be_store _ _ _ _ _ _ H).
      exact (seen_all_keeps_settings (pending_deposit_list account_id (bst s))
               ((bst s) <| PendingDepositList ::= delete account_id |>)).
    + intros e s' H. unfold white_failed in H. destruct (mark_error _ _); [by destruct H as [_ ->]|].
      destruct H as (l1 & v & l2 & _ & _ & H). unfold same.
      rewrite (be_store _ _ _ _ _ _ H).
      exact (seen_all_keeps_settings (l1 ++ [v]) ((bst s) <| PendingDepositList ::= delete account_id |>)).
Qed.
End invariant.

(** ** Instances on a concrete chain: [rio-assets] and the bridge *)
Module BridgeDemo.
Export Demo.
Definition event : Type := (AssetsEvent + BridgeEvent)%type.
Definition inject_assets : Inject AssetsEvent event := inl.
Definition inject_bridge : Inject BridgeEvent event := inr.
#[export] Existing Instances inject_assets inject_bridge | 0.

#[export, program] Instance log : EventLog BridgeEvent event := {|
  event_of e := match e with inl _ => None | inr b => Some b end |}.
Next Obligation. done. Qed.
Next Obligation. by intros e [ev ->]. Qed.

Definition vault : AccountId := 20%N.
Definition admin : AccountId := 21%N.
Definition chain : Type := (Frame event * (AssetsStore * (BridgeStore * unit)))%type.
(** Deposits from 100 on need the KYC list. *)
Definition bridge : BridgeStore := genesis SBTC 100 vault [(admin, AuthAll)].
Definition start : chain := (frame, (assets, (bridge, tt))).

Lemma separate : foreign (S:=chain) BridgeStore _.
Proof. split; apply _. Defined.
Lemma bridge_start_ok : ledger_inv (S:=chain) start.
Proof. exact assets_ok. Defined.
End BridgeDemo.

Section witnesses.
Import BridgeDemo.
#[local] Abbreviation run_ok m s := (match m s with Ok _ s' => s' | _ => BridgeDemo.start end).

(** A deposit that waits, then is approved; a withdraw. *)
Definition held_state : chain :=
  run_ok (deposit (E:=event) (Signed admin) bob 150 77%N) BridgeDemo.start.
Definition white_state : chain := run_ok (mark_white (E:=event) (Signed admin) bob) held_state.
Definition withdrawn_state : chain :=
  run_ok (withdraw (E:=event) (Signed admin) bob 40) white_state.

Lemma no_double_credit_witness :
  pending_count 77%N (sget (T:=BridgeStore) white_state)
    + mint_count 77%N (client_log (Ev:=BridgeEvent) (E:=event) white_state) <= 1 /\
  mint_count 77%N (client_log (Ev:=BridgeEvent) (E:=event) white_state) = 1.
Proof.
  split; [|by vm_compute].
  assert (rtc (bridge_step (E:=event)) BridgeDemo.start white_state) as Hrun.
  { eapply rtc_l; [|eapply rtc_once].
    - eapply (bstep_ok BridgeDemo.start (Signed admin) (CallDeposit bob 150 77%N) tt held_state);
        [by vm_compute|by vm_compute].
    - eapply (bstep_ok held_state (Signed admin) (CallMarkWhite bob) tt white_state);
        [by vm_compute|by vm_compute]. }
  exact (proj1 (no_double_credit BridgeDemo.separate BridgeDemo.start white_state
                  BridgeDemo.bridge_start_ok eq_refl eq_refl Hrun) 77%N).
Defined.

Lemma vault_backs_pending_witness :
  pending_total (sget (T:=BridgeStore) withdrawn_state) = 40 /\
  exists s', refund (E:=event) (Signed admin) bob 40 withdrawn_state = Ok tt s' /\
    pending_total (sget (T:=BridgeStore) s') = 0.
Proof.
  split; [by vm_compute|].
  assert (rtc (vault_step (E:=event)) BridgeDemo.start withdrawn_state) as Hrun.
  { eapply rtc_l; [|eapply rtc_l; [|eapply rtc_once]].
    - eapply (vstep_ok BridgeDemo.start (Signed admin) (CallDeposit bob 150 77%N) tt held_state);
        by vm_compute.
    - eapply (vstep_ok held_state (Signed admin) (CallMarkWhite bob) tt white_state);
        by vm_compute.
    - eapply (vstep_ok white_state (Signed admin) (CallWithdraw bob 40) tt withdrawn_state);
        by vm_compute. }
  assert (client_log (Ev:=BridgeEvent) (E:=event) BridgeDemo.start = []) as Hlog by done.
  destruct (vault_backs_pending BridgeDemo.separate BridgeDemo.start withdrawn_state
              BridgeDemo.bridge_start_ok eq_refl eq_refl Hlog Hrun) as [_ Hr].
  destruct (Hr admin bob 40) as (s' & Hs' & Ht); [by vm_compute| |by vm_compute|].
  - assert (pending_withdraws bob (sget (T:=BridgeStore) withdrawn_state) = [40]) as ->
      by (by vm_compute). constructor.
  - exists s'. split; [exact Hs'|]. by rewrite Ht.
Defined.

Lemma deposit_contract_witness :
  deposit_error (Signed admin) 78%N bridge = None /\
  wp (deposit (E:=event) (Signed admin) alice 30 78%N)
    (fun _ s' => balance_of SBTC alice s' = 1030) (fun _ _ => True) False BridgeDemo.start.
Proof.
  split; [by vm_compute|].
  wp_apply (deposit_contract BridgeDemo.separate (Signed admin) alice 30 78%N BridgeDemo.start);
    [exact BridgeDemo.bridge_start_ok|lia| |done|done].
  intros [] s' (_ & _ & H).
  change (held alice 30 (sget (T:=BridgeStore) BridgeDemo.start)) with false in H.
  cbv iota in H. by rewrite (proj1 H).
Defined.

Lemma withdraw_refund_round_trip_witness :
  exists s1 s2, withdraw (E:=event) (Signed admin) alice 30 BridgeDemo.start = Ok tt s1 /\
    refund (E:=event) (Signed admin) alice 30 s1 = Ok tt s2 /\
    balance_of SBTC alice s1 = 970 /\ balance_of SBTC alice s2 = 1000.
Proof.
  set (s1 := run_ok (withdraw (E:=event) (Signed admin) alice 30) BridgeDemo.start).
  set (s2 := run_ok (refund (E:=event) (Signed admin) alice 30) s1).
  assert (withdraw (E:=event) (Signed admin) alice 30 BridgeDemo.start = Ok tt s1) as H1
    by (by vm_compute).
  assert (refund (E:=event) (Signed admin) alice 30 s1 = Ok tt s2) as H2 by (by vm_compute).
  exists s1, s2. split_and!; [done|done|by vm_compute|].
  destruct (withdraw_refund_round_trip BridgeDemo.separate (Signed admin) (Signed admin) alice 30
              BridgeDemo.start s1 s2 BridgeDemo.bridge_start_ok ltac:(lia) H1 H2) as [Hb _].
  by rewrite Hb.
Defined.

Lemma bridge_deposits_ok : deposits_ok bridge.
Proof.
  intros w v. unfold pending_deposit_list, bridge, genesis, get_or. cbn.
  rewrite lookup_empty. set_solver.
Defined.

Lemma held_state_ok :
  ledger_inv (S:=chain) held_state /\ deposits_ok (sget (T:=BridgeStore) held_state).
Proof.
  split; [exact assets_ok|]. intros w v. unfold pending_deposit_list.
  assert (PendingDepositList (sget (T:=BridgeStore) held_state) =
    {[bob := [MkDeposit bob (Some 77%N) 150]]}) as -> by (by vm_compute).
  unfold get_or. destruct (decide (w = bob)) as [->|Hw].
  - rewrite lookup_singleton_eq. intros ->%list_elem_of_singleton. split_and!; [by eexists|done|done].
  - rewrite lookup_singleton_ne by done. set_solver.
Defined.
Lemma mark_white_conserves_witness :
  wp (mark_white (E:=event) (Signed admin) bob)
    (fun _ s' => check_list bob (sget (T:=BridgeStore) s') = Some White /\
       balance_of SBTC bob s' = 150)
    (fun _ _ => True) False held_state.
Proof.
  destruct held_state_ok as [Hi Hd].
  wp_apply (mark_white_conserves BridgeDemo.separate (Signed admin) bob held_state);
    [exact Hi|exact Hd| |done|done].
  intros [] s' (_ & (Hb & _) & _ & Hl & _). split; [exact Hl|].
  assert (pending_deposit_list bob (sget (T:=BridgeStore) held_state) =
    [MkDeposit bob (Some 77%N) 150]) as Hp by (by vm_compute). rewrite Hb, Hp. by vm_compute.
Defined.

Lemma only_root_configures_witness :
  wp (dispatch (E:=event) (Signed bob) (CallUpdateAdmin bob AuthAll))
    (fun _ s' => Admins (sget (T:=BridgeStore) s') = Admins bridge)
    (fun _ s' => Admins (sget (T:=BridgeStore) s') = Admins bridge) False BridgeDemo.start.
Proof.
  wp_apply (only_root_configures BridgeDemo.separate (Signed bob) (CallUpdateAdmin bob AuthAll)
    BridgeDemo.start); [exact BridgeDemo.bridge_start_ok|exact bridge_deposits_ok|done|done| | |done].
  - intros [] s' H. exact (proj1 H).
  - intros e s' H. exact (proj1 H).
Defined.
End witnesses.
