(* ===== verification/BridgeSupply.v ===== *)
(** * The bridge and the supply of its asset

    Every change of the issuance that a call of the bridge makes is a deposit it
    logged: the pallet mints for a deposit and for nothing else, and it never
    burns. *)
From S2P Require Export BridgeProps.
#[local] Open Scope Z_scope.
Import RioBridge.

(** The amount that the logged deposits credited. *)
Fixpoint credited (l : list BridgeEvent) : Z :=
  match l with
  | [] => 0
  | Deposited _ x _ :: l => x + credited l
  | _ :: l => credited l
  end.

Lemma credited_app l1 l2 : credited (l1 ++ l2) = credited l1 + credited l2.
Proof. induction l1 as [|[] l1 IH]; cbn; lia. Qed.
Lemma credited_deposits a l : credited (dep_event <$> l) = dep_issue a l a.
Proof.
  induction l as [|v l IH]; [done|]. cbn. rewrite IH. unfold at_asset. by rewrite decide_True.
Qed.

Section supply.
Context {S E : Type} `{!Store S (Frame E), !Store S BridgeStore, !Inject BridgeEvent E}.
Context `{!Separate S (Frame E) BridgeStore}.
Context `{!Ledger S, !LedgerEvents E, !LedgerSpec S E, !EventLog BridgeEvent E}.
Context (Hforeign : foreign BridgeStore _).
Context (a : AssetId) (n : Balance).
Implicit Types (s : S) (st : BridgeStore) (x : Balance) (who : AccountId).
#[local] Abbreviation bst := (sget (T:=BridgeStore)).
#[local] Abbreviation bridge_log := (client_log (E:=E) (Ev:=BridgeEvent)).
#[local] Abbreviation bridge_effect := (effect (E:=E) (T:=BridgeStore) (Ev:=BridgeEvent)).

(** The asset of the bridge is [a], and its issuance is [n] and what the deposits
    credited. *)
Record supplied s : Prop := {
  su_ok : bridge_ok (E:=E) s;
  su_asset : BridgeAssetId (bst s) = a;
  su_issuance : issuance_of a s = n + credited (bridge_log s);
}.

Lemma supplied_effect d i st' l s s' :
  supplied s -> bridge_ok (E:=E) s' -> bridge_effect d i st' l s s' ->
  BridgeAssetId st' = a -> i a = credited l -> supplied s'.
Proof.
  intros Hs Hok He Ha Hi. split; [done|by rewrite (be_store _ _ _ _ _ _ He)|].
  rewrite (be_issuance _ _ _ _ _ _ He), (be_log _ _ _ _ _ _ He), credited_app, Hi.
  rewrite (su_issuance _ Hs). lia.
Qed.

Lemma forget_asset l st : BridgeAssetId (st_forget l st) = BridgeAssetId st.
Proof. by destruct (forget_keeps_settings l st) as (_ & _ & ? & _). Qed.

(** *** The calls *)
#[local] Ltac by_effect Hs :=
  eapply supplied_effect; [exact Hs|done|eassumption|apply (su_asset _ Hs)|done].

Lemma deposit_supplied o who x h s :
  supplied s -> 0 <= x ->
  wp (deposit (E:=E) o who x h) (fun _ => supplied) (fun _ => supplied) False s.
Proof.
  intros Hs Hx. pose proof (su_ok _ Hs) as Hok. pose proof (su_asset _ Hs) as Ha.
  eapply keeps_by_effect; [by apply deposit_keeps|apply (deposit_wp Hforeign); [apply Hok|done]|..].
  - intros s' Hok' [_ Hd]. unfold deposit_done in Hd.
    destruct (held who x (bst s)); [by_effect Hs|]. destruct Hd as [_ Hd].
    eapply supplied_effect; [exact Hs|done|exact Hd|done|].
    unfold at_asset. rewrite decide_True by done. cbn. lia.
  - intros e s' Hok' Hf. unfold deposit_failed in Hf.
    destruct (deposit_error o h (bst s)); [by destruct Hf as [_ ->]|].
    destruct Hf as (_ & _ & Hf). by_effect Hs.
Qed.

Lemma mark_white_supplied o who s :
  supplied s -> wp (mark_white (E:=E) o who) (fun _ => supplied) (fun _ => supplied) False s.
Proof.
  intros Hs. pose proof (su_ok _ Hs) as Hok. pose proof (su_asset _ Hs) as Ha.
  eapply keeps_by_effect; [by apply mark_white_keeps|apply (mark_white_wp Hforeign)|..].
  - apply Hok.
  - apply deposits_ok_hash, Hok.
  - apply deposits_ok_nonneg, Hok.
  - intros s' Hok' [_ Hd]. unfold white_done in Hd.
    eapply supplied_effect; [exact Hs|done|exact Hd| |].
    + unfold st_mark_white. fields. by rewrite st_seen_all_asset.
    + rewrite Ha, credited_app, (credited_deposits a). cbn. lia.
  - intros e s' Hok' Hf. unfold white_failed in Hf.
    destruct (mark_error o (bst s)); [by destruct Hf as [_ ->]|].
    destruct Hf as (l1 & v & l2 & _ & _ & Hf).
    eapply supplied_effect; [exact Hs|done|exact Hf| |].
    + fields. by rewrite st_seen_all_asset.
    + by rewrite Ha, (credited_deposits a).
Qed.

(** Where an error writes nothing, and a success credits nothing. *)
Lemma plain_supplied (m : M S unit) (Q : unit -> S -> Prop) (Er : error -> S -> Prop) s :
  supplied s ->
  wp m (fun _ => bridge_ok (E:=E)) (fun _ => bridge_ok (E:=E)) False s -> wp m Q Er False s ->
  (forall s', Q tt s' -> exists d st' l, bridge_effect d no_issue st' l s s' /\
     BridgeAssetId st' = BridgeAssetId (bst s) /\ credited l = 0) ->
  (forall e s', Er e s' -> s' = s) ->
  wp m (fun _ => supplied) (fun _ => supplied) False s.
Proof.
  intros Hs Hok Hm HQ HE. eapply keeps_by_effect; [exact Hok|exact Hm|..].
  - intros s' Hok' (d & st' & l & He & Ha & Hl)%HQ.
    eapply supplied_effect; [exact Hs|done|exact He|by rewrite Ha, (su_asset _ Hs)|done].
  - by intros e s' _ ->%HE.
Qed.

(** A call of the bridge keeps the supply accounted for. *)
Lemma dispatch_supplied o (c : Call) s :
  supplied s -> 0 <= call_amount c ->
  wp (dispatch (E:=E) o c) (fun _ => supplied) (fun _ => supplied) False s.
Proof.
  intros Hs Hc. pose proof (su_ok _ Hs) as Hok. pose proof (bo_ledger _ Hok) as Hi.
  pose proof (bridge_dispatch_keeps Hforeign o c s Hok Hc) as Hk.
  assert (forall f : BridgeStore -> BridgeStore, dispatch (E:=E) o c = (ensure_root o ;; modify f) ->
    BridgeAssetId (f (bst s)) = BridgeAssetId (bst s) ->
    wp (dispatch (E:=E) o c) (fun _ => supplied) (fun _ => supplied) False s) as Hroot.
  { intros f Hf Ha. eapply (plain_supplied _ (fun _ s' => s' = sput (f (bst s)) s)
      (fun _ s' => s' = s)); [done|exact Hk| | |done].
    - rewrite Hf. do 2 wp_step; by wp_steps.
    - intros s' ->. eexists _, _, []. split; [by apply (be_write Hforeign)|done]. }
  destruct c; cbn [call_amount] in *; try (by eapply Hroot; [reflexivity|]).
  - by apply deposit_supplied.
  - eapply plain_supplied; [done|exact Hk|by apply (refund_wp Hforeign)| |by intros e s' [_ ?]].
    intros s' [_ He]. by eexists _, _, _.
  - eapply plain_supplied; [done|exact Hk|by apply (withdraw_finish_wp Hforeign)| |by intros e s' [_ ?]].
    intros s' [_ He]. by eexists _, _, _.
  - eapply plain_supplied; [done|exact Hk|by apply (withdraw_wp Hforeign)| |by intros e s' [_ ?]].
    intros s' [_ He]. by eexists _, _, _.
  - eapply plain_supplied; [done|exact Hk|apply (mark_black_wp Hforeign); [done|]| |by intros e s' [_ ?]].
    + apply deposits_ok_hash, Hok.
    + intros s' [_ He]. eexists _, _, _. split; [exact He|]. split; [|done].
      unfold st_mark_black. fields. by rewrite forget_asset.
  - by apply mark_white_supplied.
Qed.
End supply.
