(* ===== verification/MockChain.v ===== *)
(** * The unit tests of the pallets: the mock chain

    The constants and the genesis that the [mock.rs] files of [rio-saving], [rio-loan]
    and [rio-bridge] share, and the assertions of the test harness as operations of the
    monad: an assertion that fails panics, as the macros do. *)
From S2P Require Export Demo.
From Stdlib Require Import String.
#[local] Open Scope Z_scope.

(** [mod constants]. *)
Module constants.
Definition DECIMALS : Balance := 100000000.
Definition ROOT : AccountId := 1%N.
Definition ALICE : AccountId := 2%N.
Definition BOB : AccountId := 3%N.
Definition CHRIS : AccountId := 4%N.
Definition DAVE : AccountId := 5%N.
Definition TEAM : AccountId := 6%N.
Definition PROFIT_POOL : AccountId := 7%N.
Definition COLLECTION_ACCOUNT_ID : AccountId := 999%N.

Definition NUM_OF_PHASE : Z := 5.
Definition PHASE1 : Z := 1.
Definition PHASE2 : Z := 2.
Definition PHASE3 : Z := 3.
Definition PHASE4 : Z := 4.
Definition PHASE5 : Z := 5.
Definition PHASE1_QUOTA : Balance := 10000000000.
Definition PHASE2_QUOTA : Balance := 40000000000.
Definition PHASE3_QUOTA : Balance := 100000000000.
Definition PHASE4_QUOTA : Balance := 500000000000.
Definition PHASE5_QUOTA : Balance := 10000000000000.
Definition PHASE1_EXCHANGE : Balance := 10000.
Definition PHASE2_EXCHANGE : Balance := 8000.
Definition PHASE3_EXCHANGE : Balance := 5000.
Definition PHASE4_EXCHANGE : Balance := 2000.
Definition PHASE5_EXCHANGE : Balance := 1000.

Definition RBTC_ASSET_ID : AssetId := 1.
Definition RSC1_ASSET_ID : AssetId := 2.
Definition RSC2_ASSET_ID : AssetId := 3.
Definition RSC3_ASSET_ID : AssetId := 4.
Definition RSC4_ASSET_ID : AssetId := 5.
Definition RSC5_ASSET_ID : AssetId := 6.
Definition SBTC_ASSET_ID : AssetId := 7.
Definition RIO_ASSET_ID : AssetId := 8.
End constants.
(** The tests run with overflow checks. *)
Import Demo constants.

(** The assets of [new_test_ext].  The mocks name a symbol per asset only; an asset has
    no restriction and no endowed account, the older format having neither. *)
Definition symbols : list (AssetId * string) :=
  [ (SBTC_ASSET_ID, "SBTC"); (RBTC_ASSET_ID, "RBTC"); (RSC1_ASSET_ID, "RSC1");
    (RSC2_ASSET_ID, "RSC2"); (RSC3_ASSET_ID, "RSC3"); (RSC4_ASSET_ID, "RSC4");
    (RSC5_ASSET_ID, "RSC5"); (RIO_ASSET_ID, "RIO") ]%string.
(** [sudo::GenesisConfig { key: ROOT }], no extrinsic being executed. *)
Definition mock_frame {E} : Frame E := MkFrame [] 0 None 0 ROOT.
Definition mock_assets : AssetsStore :=
  let start : Frame AssetsEvent * (AssetsStore * unit) := (mock_frame, (AssetsStore_empty, tt)) in
  match RioAssets.genesis_build (E:=AssetsEvent)
          (map (fun '(a, symbol) => (a, list_byte_of_string symbol, [], [])) symbols) ROOT start with
  | Ok _ s => s.2.1
  | _ => AssetsStore_empty
  end.

(** ** The assertions *)
Section assertions.
Context {E R : Type}.
#[local] Abbreviation S := (Frame E * R)%type.

(** [assert!] and [assert_eq!]. *)
Definition assert (b : bool) : M S unit := if b then mret tt else panic.
Definition assert_eq {A} `{!EqDecision A} (left : M S A) (right : A) : M S unit :=
  v ← left; assert (bool_decide (v = right)).
(** [assert_ok!]. *)
Definition assert_ok {A} (m : M S A) : M S unit := unwrap m ;; mret tt.
(** [assert_noop!]: the error, and no change of the storage.  The events, which are
    [()] in the mocks, are left aside. *)
Definition assert_noop {A} `{!EqDecision R} (m : M S A) (e : string) : M S unit := fun s =>
  match m s with
  | Err e' s' => assert (bool_decide (e' = Msg e) && bool_decide (s'.2 = s.2)) s
  | _ => Panic
  end.
(** A test passes when it returns. *)
Definition passes (new_test_ext : S) (test : M S unit) : bool :=
  match test new_test_ext with Ok _ _ => true | _ => false end.
End assertions.

#[global] Instance PermissionsV1_eq_dec : EqDecision PermissionsV1.
Proof. solve_decision. Defined.
#[global] Instance PermissionVersions_eq_dec : EqDecision PermissionVersions.
Proof. solve_decision. Defined.
#[global] Instance byte_eq_dec : EqDecision Byte.byte := Byte.byte_eq_dec.
#[global] Instance AssetsStore_eq_dec : EqDecision AssetsStore.
Proof. solve_decision. Defined.
