(* ===== verification/BridgeReplay.v ===== *)
(** * The unit tests of [rio-bridge], replayed

    The tests of [rio-bridge/src/tests.rs] as runs of the model on the genesis of
    [mock.rs].  Those that withdraw call [withdraw] with one argument, which the source
    no longer accepts: they are run as the admin who withdraws for the user. *)
From S2P Require Export MockChain BridgeProps.
#[local] Open Scope Z_scope.

#[global] Instance Deposit_eq_dec : EqDecision Deposit.
Proof. solve_decision. Defined.
#[global] Instance BridgeStore_eq_dec : EqDecision BridgeStore.
Proof. solve_decision. Defined.

Module BridgeReplay.
Import BridgeDemo constants NoHooks.

Definition new_test_ext : chain :=
  (mock_frame, (mock_assets,
    (genesis SBTC_ASSET_ID 3000000000 DAVE [(ROOT, AuthAll)], tt))).

#[local] Abbreviation test := (M chain unit).
#[local] Abbreviation bridge f := (gets (S:=chain) (T:=BridgeStore) f).
#[local] Abbreviation mint := (RioAssets.mint (S:=chain) (E:=event) Root).
#[local] Abbreviation deposit := (RioBridge.deposit (S:=chain) (E:=event)).
#[local] Abbreviation mark_black := (RioBridge.mark_black (S:=chain) (E:=event)).
#[local] Abbreviation mark_white := (RioBridge.mark_white (S:=chain) (E:=event)).
#[local] Abbreviation withdraw := (RioBridge.withdraw (S:=chain) (E:=event)).
#[local] Abbreviation refund := (RioBridge.refund (S:=chain) (E:=event)).
#[local] Abbreviation withdraw_finish := (RioBridge.withdraw_finish (S:=chain) (E:=event)).
Definition free_balance (a : AssetId) (who : AccountId) : M chain Balance := free_balance_of a who.
(** [TxHash::default()]. *)
Definition tx_hash : TxHash := 0%N.
(** The hashes of the deposits that wait. *)
Definition pending_hashes (who : AccountId) (st : BridgeStore) : list (option TxHash) :=
  map dep_tx_hash (pending_deposit_list who st).

Definition pause_works : test :=
  assert_ok (RioBridge.pause Root) ;;
  assert_eq (bridge Paused) true.
Definition resume_works : test :=
  assert_ok (RioBridge.pause Root) ;;
  assert_eq (bridge Paused) true ;;
  assert_ok (RioBridge.resume Root) ;;
  assert_eq (bridge Paused) false.
Definition deposit_auth_works : test :=
  assert_noop (deposit (Signed ALICE) DAVE 100000000 tx_hash) "no deposit auth".
Definition deposit_works : test :=
  assert_ok (deposit (Signed ROOT) DAVE 100000000 tx_hash) ;;
  assert_eq (free_balance SBTC_ASSET_ID DAVE) 100000000.
Definition deposit_repeated_tx_hash_works : test :=
  assert_ok (deposit (Signed ROOT) DAVE 100000000 tx_hash) ;;
  assert_noop (deposit (Signed ROOT) DAVE 200000000 tx_hash) "repeated transaction".
Definition deposit_over_threshold_works : test :=
  assert_ok (deposit (Signed ROOT) DAVE 3000000000 tx_hash) ;;
  assert_eq (bridge (pending_hashes DAVE)) [Some tx_hash].
Definition mark_black_works : test :=
  assert_ok (deposit (Signed ROOT) DAVE 3000000000 tx_hash) ;;
  assert_ok (mark_black (Signed ROOT) DAVE) ;;
  assert_eq (bridge (check_list DAVE)) (Some Black) ;;
  assert_eq (bridge (pending_hashes DAVE)) [] ;;
  assert_eq (free_balance SBTC_ASSET_ID DAVE) 0.
Definition mark_white_works : test :=
  assert_ok (deposit (Signed ROOT) DAVE 3000000000 tx_hash) ;;
  assert_ok (mark_white (Signed ROOT) DAVE) ;;
  assert_eq (bridge (check_list DAVE)) (Some White) ;;
  assert_eq (bridge (pending_hashes DAVE)) [] ;;
  assert_eq (free_balance SBTC_ASSET_ID DAVE) 3000000000.
Definition black_blocks_works : test :=
  assert_ok (mark_black (Signed ROOT) DAVE) ;;
  assert_ok (deposit (Signed ROOT) DAVE 3000000000 tx_hash) ;;
  assert_eq (bridge (pending_hashes DAVE)) [Some tx_hash].
Definition white_passes_works : test :=
  assert_ok (mark_white (Signed ROOT) DAVE) ;;
  assert_ok (deposit (Signed ROOT) DAVE 3000000000 tx_hash) ;;
  assert_eq (bridge (pending_hashes DAVE)) [] ;;
  assert_eq (free_balance SBTC_ASSET_ID DAVE) 3000000000.
Definition withdraw_works : test :=
  assert_ok (mint SBTC_ASSET_ID CHRIS 100000000) ;;
  assert_ok (withdraw (Signed ROOT) CHRIS 100000000) ;;
  assert_eq (free_balance SBTC_ASSET_ID CHRIS) 0 ;;
  assert_eq (bridge (pending_withdraws CHRIS)) [100000000].
Definition refund_works : test :=
  assert_ok (mint SBTC_ASSET_ID CHRIS 100000000) ;;
  assert_ok (withdraw (Signed ROOT) CHRIS 100000000) ;;
  assert_ok (refund (Signed ROOT) CHRIS 100000000) ;;
  assert_eq (bridge (pending_withdraws CHRIS)) [] ;;
  assert_eq (free_balance SBTC_ASSET_ID CHRIS) 100000000.
Definition withdraw_finish_works : test :=
  assert_ok (mint SBTC_ASSET_ID CHRIS 100000000) ;;
  assert_ok (withdraw (Signed ROOT) CHRIS 100000000) ;;
  assert_ok (withdraw_finish (Signed ROOT) CHRIS 100000000) ;;
  assert_eq (bridge (pending_withdraws CHRIS)) [] ;;
  assert_eq (free_balance SBTC_ASSET_ID CHRIS) 0.
Definition two_withdraw_of_same_amount_works : test :=
  assert_ok (mint SBTC_ASSET_ID CHRIS 200000000) ;;
  assert_ok (withdraw (Signed ROOT) CHRIS 100000000) ;;
  assert_ok (withdraw (Signed ROOT) CHRIS 100000000) ;;
  assert_eq (free_balance SBTC_ASSET_ID CHRIS) 0 ;;
  assert_eq (bridge (fun st => length (pending_withdraws CHRIS st))) 2%nat ;;
  assert_ok (withdraw_finish (Signed ROOT) CHRIS 100000000) ;;
  assert_eq (bridge (fun st => length (pending_withdraws CHRIS st))) 1%nat ;;
  assert_eq (free_balance SBTC_ASSET_ID CHRIS) 0.
Definition two_withdraw_of_same_amount_refund_works : test :=
  assert_ok (mint SBTC_ASSET_ID CHRIS 200000000) ;;
  assert_ok (withdraw (Signed ROOT) CHRIS 100000000) ;;
  assert_ok (withdraw (Signed ROOT) CHRIS 100000000) ;;
  assert_eq (free_balance SBTC_ASSET_ID CHRIS) 0 ;;
  assert_eq (bridge (fun st => length (pending_withdraws CHRIS st))) 2%nat ;;
  assert_ok (refund (Signed ROOT) CHRIS 100000000) ;;
  assert_eq (bridge (fun st => length (pending_withdraws CHRIS st))) 1%nat ;;
  assert_eq (free_balance SBTC_ASSET_ID CHRIS) 100000000.

Definition tests : list test :=
  [ pause_works; resume_works; deposit_auth_works; deposit_works; deposit_repeated_tx_hash_works;
    deposit_over_threshold_works; mark_black_works; mark_white_works; black_blocks_works;
    white_passes_works; withdraw_works; refund_works; withdraw_finish_works;
    two_withdraw_of_same_amount_works; two_withdraw_of_same_amount_refund_works ].
Lemma tests_all_pass : forallb (passes new_test_ext) tests = true.
Proof. vm_compute. reflexivity. Qed.
(** The calls as the tests make them: the user has no authority to withdraw. *)
Lemma users_cannot_withdraw :
  passes new_test_ext
    (assert_ok (mint SBTC_ASSET_ID CHRIS 100000000) ;;
     assert_noop (withdraw (Signed CHRIS) CHRIS 100000000) "no withdraw auth") = true.
Proof. vm_compute. reflexivity. Qed.
End BridgeReplay.
