(* ===== verification/Fee.v ===== *)
(** * Fees: [modules/rio-fee/src/lib.rs],
    [modules/rio-transaction-payment/src/lib.rs] and [primitives/src/types.rs]

    The native asset pays the fee; the locked native asset is exchanged first.
    The collected fee goes to the account of [rio-fee]. *)
From S2P Require Export CurrencyFacts.
#[local] Open Scope Z_scope.

(** ** [primitives/src/types.rs] *)
Record FeeExchangeV1 := MkFeeExchangeV1 { v1_max_payment : Balance }.
Inductive FeeExchange := FeeV1 (v : FeeExchangeV1).
Definition new_v1 (balance : Balance) : FeeExchange := FeeV1 (MkFeeExchangeV1 balance).
Definition max_payment (f : FeeExchange) : Balance := match f with FeeV1 x => v1_max_payment x end.

(** ** [rio-fee] *)
Record FeeStore := MkFeeStore { FeeAccountId : AccountId }.
#[global] Instance FeeStore_settable : Settable FeeStore := fun st => MkFeeStore (FeeAccountId st).

Inductive FeeEvent :=
| AccountChanged (who : AccountId)
| FeeDeposit (amount : Balance).

Module RioFee.
Section operations.
Context {S E : Type} `{!Overflow}.
Context `{!Store S (Frame E), !Store S AssetsStore, !Store S FeeStore, !Inject FeeEvent E}.
(** [T::Currency], by its asset id provider. *)
Context (U : M S AssetId).

Definition set_account (o : origin) (who : AccountId) : M S unit :=
  ensure_root o ;;
  modify (fun st => st <| FeeAccountId := who |>) ;;
  deposit_event (E:=E) (AccountChanged who).

(** The positive imbalance is dropped where it is created, the negative one at
    the end of the function. *)
Definition on_nonzero_unbalanced (amount : NegativeImbalance) : M S unit :=
  let numeric_amount := Negative.peek amount in
  account ← gets FeeAccountId;
  pos ← AC.deposit_creating U account numeric_amount;
  AC.drop_positive U pos ;;
  deposit_event (E:=E) (FeeDeposit numeric_amount) ;;
  AC.drop_negative U amount.

(** [OnUnbalanced::on_unbalanced], by [Imbalance::try_drop]. *)
Definition on_unbalanced (amount : NegativeImbalance) : M S unit :=
  match Negative.try_drop amount with
  | inl _ => AC.drop_negative U amount
  | inr amount => on_nonzero_unbalanced amount
  end.

Definition buy_fee_asset (who : AccountId) (amount : Balance) (exchange_op : FeeExchange)
    : M S Balance :=
  let locked_id := LOCKED_RFUEL in
  let to_id := RFUEL in
  balance ← gets (free_balance locked_id who);
  let amount := Z.min amount balance in
  let amount := Z.min amount (max_payment exchange_op) in
  make_transfer_between_assets locked_id who to_id who [TransactionPayment] amount ;;
  mret amount.
End operations.
End RioFee.

(** ** [rio-transaction-payment] *)

(** [Fixed64] by its parts. *)
Abbreviation Multiplier := Z (only parsing).
Abbreviation Weight := Z (only parsing).

Inductive DispatchClass := Normal | Operational.
Record DispatchInfo := MkDispatchInfo {
  info_weight : Weight;
  info_class : DispatchClass;
  pays_fee : bool;
}.
Record RuntimeDispatchInfo := MkRuntimeDispatchInfo {
  rdi_weight : Weight;
  rdi_class : DispatchClass;
  partial_fee : Balance;
}.

Record PaymentStore := MkPaymentStore { NextFeeMultiplier : Multiplier }.
#[global] Instance PaymentStore_settable : Settable PaymentStore := fun st =>
  MkPaymentStore (NextFeeMultiplier st).

(** The configuration trait: the constants, the conversions, and the arithmetic of
    [Fixed64]. *)
Class PaymentConfig := {
  TransactionBaseFee : Balance;
  TransactionByteFee : Balance;
  MaximumBlockWeight : Weight;
  WeightToFee : Weight -> Balance;
  FeeMultiplierUpdate : Weight * Multiplier -> Multiplier;
  saturated_multiply_accumulate : Multiplier -> Balance -> Balance;
}.

(** The error codes of [constants.rs]. *)
Module ErrorCode.
Definition CORE_TO_ASSET_PRICE_NOT_ABOVE_ZERO : Z := 190.
Definition CORE_TO_ASSET_PRICE_ABOVE_MAX_LIMIT : Z := 191.
Definition INSUFFICIENT_BUYER_CORE_ASSET_BALANCE : Z := 192.
Definition ASSET_TO_CORE_PRICE_NOT_ABOVE_ZERO : Z := 193.
Definition ASSET_TO_CORE_PRICE_ABOVE_MAX_LIMIT : Z := 194.
Definition INSUFFICIENT_BUYER_TRADE_ASSET_BALANCE : Z := 195.
Definition ASSET_SALE_VALUE_NOT_ABOVE_ZERO : Z := 196.
Definition SALE_VALUE_BELOW_REQUIRED_MINIMUM : Z := 197.
Definition INSUFFICIENT_SELLER_CORE_ASSET_BALANCE : Z := 198.
Definition BUY_AMOUNT_NOT_POSITIVE : Z := 199.
Definition INSUFFICIENT_FEE_ASSET_BALANCE : Z := 200.
Definition INVALID_ASSET_ID : Z := 201.
Definition UNKNOWN_BUY_FEE_ASSET : Z := 202.
Definition LIQUIDITY_TOO_LOW : Z := 203.
Definition ASSET_CANNOT_SWAP_FOR_ITSELF : Z := 204.
Definition INSUFFICIENT_ASSET_RESERVE : Z := 205.

Definition table : list (string * Z) := [
  ("InsufficientBuyerTradeAssetBalance"%string, INSUFFICIENT_BUYER_TRADE_ASSET_BALANCE);
  ("InsufficientBuyerCoreAssetBalance"%string, INSUFFICIENT_BUYER_CORE_ASSET_BALANCE);
  ("InsufficientSellerCoreAssetBalance"%string, INSUFFICIENT_SELLER_CORE_ASSET_BALANCE);
  ("InsufficientAssetReserve"%string, INSUFFICIENT_ASSET_RESERVE);
  ("BuyAmountNotPositive"%string, BUY_AMOUNT_NOT_POSITIVE);
  ("SaleValueBelowRequiredMinimum"%string, SALE_VALUE_BELOW_REQUIRED_MINIMUM);
  ("AssetCannotSwapForItself"%string, ASSET_CANNOT_SWAP_FOR_ITSELF);
  ("AssetSaleValueNotAboveZero"%string, ASSET_SALE_VALUE_NOT_ABOVE_ZERO);
  ("AssetToCorePriceNotAboveZero"%string, ASSET_TO_CORE_PRICE_NOT_ABOVE_ZERO);
  ("AssetToCorePriceAboveMaxLimit"%string, ASSET_TO_CORE_PRICE_ABOVE_MAX_LIMIT);
  ("CoreToAssetPriceNotAboveZero"%string, CORE_TO_ASSET_PRICE_NOT_ABOVE_ZERO);
  ("CoreToAssetPriceAboveMaxLimit"%string, CORE_TO_ASSET_PRICE_ABOVE_MAX_LIMIT);
  ("InvalidAssetId"%string, INVALID_ASSET_ID);
  ("LiquidityTooLow"%string, LIQUIDITY_TOO_LOW)].

(** The arms of the match, first match first; the last one is the default. *)
Fixpoint first_match (message : string) (arms : list (string * Z)) : Z :=
  match arms with
  | [] => UNKNOWN_BUY_FEE_ASSET
  | (m, code) :: arms => if bool_decide (message = m) then code else first_match message arms
  end.
Definition buy_fee_asset_error_msg_to_code (message : string) : Z := first_match message table.
End ErrorCode.

Module RioTransactionPayment.
Section operations.
Context {S : Type} `{!PaymentConfig, !Store S AssetsStore, !Store S PaymentStore, !Overflow}.
(** [T::Currency], [T::OnTransactionPayment] and [T::BuyFeeAsset]. *)
Context (U : M S AssetId).
Context (on_transaction_payment : NegativeImbalance -> M S unit).
Context (buy_fee_asset : AccountId -> Balance -> FeeExchange -> M S Balance).

Definition on_finalize (all_extrinsics_weight : Weight) : M S unit :=
  modify (fun st => st <| NextFeeMultiplier ::= fun fm =>
    FeeMultiplierUpdate (all_extrinsics_weight, fm) |>).

Definition compute_fee (len : Z) (info : DispatchInfo) (tip : Balance) : M S Balance :=
  if pays_fee info then
    let len_fee := saturating_mul balance_bits TransactionByteFee len in
    let weight_fee := WeightToFee (Z.min (info_weight info) MaximumBlockWeight) in
    let adjustable_fee := saturating_add balance_bits len_fee weight_fee in
    targeted_fee_adjustment ← gets NextFeeMultiplier;
    let adjusted_fee := saturated_multiply_accumulate targeted_fee_adjustment adjustable_fee in
    mret (saturating_add balance_bits
            (saturating_add balance_bits TransactionBaseFee adjusted_fee) tip)
  else mret tip.

Definition query_info (dispatch_info : DispatchInfo) (len : Z) : M S RuntimeDispatchInfo :=
  fee ← compute_fee len dispatch_info 0;
  mret (MkRuntimeDispatchInfo (info_weight dispatch_info) (info_class dispatch_info) fee).

(** The result is the priority of the transaction; [len as u32] truncates. *)
Definition validate (tip : Balance) (who : AccountId) (info : DispatchInfo) (len : Z) : M S Z :=
  fee ← compute_fee (len mod 2 ^ 32) info tip;
  (if decide (fee = 0) then mret tt
   else
     let exchange := new_v1 (umax balance_bits) in
     or_else (buy_fee_asset who fee exchange) (fun _ => fail (InvalidCustom 100)) ;;
     imbalance ← or_else
       (AC.withdraw U who fee
          (if decide (tip = 0) then [TransactionPayment] else [TransactionPayment; Tip]))
       (fun _ => fail InvalidPayment);
     on_transaction_payment imbalance) ;;
  mret (Z.min fee (umax 64)).
End operations.
End RioTransactionPayment.

(** ** The constants of [runtime/src/constants.rs] and the fee configuration of
    [runtime/src/lib.rs]; [()] converts everything to the default value. *)
Module Runtime.
Definition MILLICENTS : Balance := 1000.
Definition CENTS : Balance := 1000 * MILLICENTS.
Definition DOLLARS : Balance := 100 * CENTS.

Definition MILLISECS_PER_BLOCK : Moment := 2000.
Definition SECS_PER_BLOCK : Moment := MILLISECS_PER_BLOCK / 1000.
Definition SLOT_DURATION : Moment := MILLISECS_PER_BLOCK.
Definition PRIMARY_PROBABILITY : Z * Z := (1, 4).
Definition MINUTES : BlockNumber := 60 / (SECS_PER_BLOCK mod 2 ^ block_number_bits).
Definition HOURS : BlockNumber := MINUTES * 60.
Definition DAYS : BlockNumber := HOURS * 24.
Definition EPOCH_DURATION_IN_BLOCKS : BlockNumber := 10 * MINUTES.
(** The slot fill rate, a quotient of two equal numbers, is 1. *)
Definition EPOCH_DURATION_IN_SLOTS : Z :=
  EPOCH_DURATION_IN_BLOCKS * MILLISECS_PER_BLOCK / SLOT_DURATION.

Definition payment_config (max_weight : Weight) (accumulate : Multiplier -> Balance -> Balance)
    : PaymentConfig := {|
  TransactionBaseFee := 10 * CENTS;
  TransactionByteFee := 0;
  MaximumBlockWeight := max_weight;
  WeightToFee _ := 0;
  FeeMultiplierUpdate _ := 0;
  saturated_multiply_accumulate := accumulate;
|}.
End Runtime.
