(* ===== verification/FeeFacts.v ===== *)
(** * Fees: the payment of a transaction *)
From S2P Require Export Fee AssetsLedger Demo.
#[local] Open Scope Z_scope.

Section fees.
Context {S E : Type} `{!Overflow, !PaymentConfig}.
Context `{!Store S (Frame E), !Store S AssetsStore, !Store S FeeStore, !Store S PaymentStore}.
Context `{!Inject FeeEvent E, !Separate S (Frame E) AssetsStore, !Separate S AssetsStore FeeStore}.
Context `{!Separate S AssetsStore PaymentStore}.
Implicit Types (s : S) (x : Balance) (who : AccountId).
#[local] Abbreviation ast := (sget (T:=AssetsStore)).

(** Collecting a fee: the payer is debited, the fee account credited, and the
    two tokens leave the issuance as it was. *)
Lemma collect_eq a who x s :
  let st := ast s in let acct := FeeAccountId (sget s) in
  ledger_ok st -> asset_exists a st = true -> 0 < x <= free_balance a who st ->
  total_issuance a st + x < 2 ^ balance_bits ->
  exists st' s1 s2,
    (forall rs, reasons_contains rs Transfer = false -> AC.withdraw (mret a) who x rs s = Ok (MkNegative x) s1) /\
    RioFee.on_unbalanced (E:=E) (mret a) (MkNegative x) s1 =
      Ok tt s2 /\
    ast s2 = st' /\
    events (sget (T:=Frame E) s2) = events (sget (T:=Frame E) s) ++ [inject (FeeDeposit x)] /\
    TotalIssuance st' = TotalIssuance (st_exchange a who a acct x st) /\
    FreeBalance st' = FreeBalance (st_exchange a who a acct x st) /\
    ReservedBalance st' = ReservedBalance st /\ Symbols st' = Symbols st.
Proof.
  intros st acct Hok Hex Hx Hw.
  pose proof (free_balance_width _ Hok a who) as [? ?].
  set (st1 := st <| FreeBalance ::= <[(a, who) := free_balance a who st - x]> |>).
  exists (st1 <| FreeBalance ::= <[(a, acct) := free_balance a acct st1 + x]> |>
              <| TotalIssuance ::= <[a := total_issuance a st + x]> |>
              <| TotalIssuance ::= <[a := total_issuance a st + x - x]> |>), (sput st1 s).
  eexists.
  pose proof (free_balance_width _ Hok a acct) as [? ?].
  pose proof (balances_le_issuance _ Hok a acct). pose proof (reserved_balance_nonneg _ Hok a acct).
  pose proof (total_issuance_bound _ Hok a).
  assert (free_balance a acct st1 =
    if decide ((a, who) = (a, acct)) then free_balance a acct st - x else free_balance a acct st)
    as Hf2.
  { unfold st1, free_balance at 1; fields. rewrite get_or_insert. case_decide as He; [|done].
    assert (who = acct) as <- by congruence. done. }
  assert (0 <= free_balance a acct st1 <= free_balance a acct st) as Hf3.
  { rewrite Hf2. clear Hf2. case_decide as He; [|lia]. assert (who = acct) as <- by congruence. lia. }
  split_and!.
  - intros rs Hrs. unfold st1, st in *. apply (withdraw_eq _ a); [done|lia|done|congruence].
  - unfold RioFee.on_unbalanced, Negative.try_drop, Negative.drop_zero. cbn [neg_amount].
    rewrite decide_False by lia. unfold RioFee.on_nonzero_unbalanced, Negative.peek.
    cbn [neg_amount]. run. store. fold acct.
    rewrite (deposit_creating_eq _ a); store; [|done|lia|lia|lia]. cbv beta iota. rewrite sput_sput.
    rewrite (drop_positive_eq _ a); store; cbn [pos_amount];
      [|done|change (0 <= total_issuance a st); lia|lia|exact Hw].
    cbv beta iota. rewrite sput_sput. store.
    rewrite (drop_negative_eq _ a); store; cbn [neg_amount]; [|done|].
    + done.
    + rewrite total_issuance_set, decide_True by done.
      change (total_issuance a _) with (total_issuance a st). lia.
  - store. rewrite total_issuance_set, decide_True by done. done.
  - by store.
  - unfold st_exchange. unfold st_mint at 1. fields. rewrite st_mint_issuance.
    unfold at_asset. rewrite decide_True by done. unfold st_mint; fields.
    rewrite !insert_insert_eq. f_equal. lia.
  - done.
  - done.
  - done.
Qed.

Lemma collect_ok a who acct x st :
  ledger_ok st -> asset_exists a st = true -> 0 <= x <= free_balance a who st ->
  total_issuance a st + x < 2 ^ balance_bits ->
  ledger_ok (st_exchange a who a acct x st) /\
  (forall b w, free_balance b w (st_exchange a who a acct x st) =
     free_balance b w st + at_account a acct x b w - at_account a who x b w) /\
  (forall b, total_issuance b (st_exchange a who a acct x st) = total_issuance b st).
Proof.
  intros Hok Hex Hx Hw. split_and!; [by apply st_exchange_ok| |].
  - intros b w. unfold st_exchange. rewrite !st_mint_balance. unfold at_account.
    repeat case_decide; lia.
  - intros b. unfold st_exchange. rewrite !st_mint_issuance. unfold at_asset.
    repeat case_decide; lia.
Qed.

(** Both together, on the ledger. *)
Lemma collect_moves a who x s :
  let acct := FeeAccountId (sget s) in
  ledger_ok (ast s) -> asset_exists a (ast s) = true -> 0 < x <= free_balance a who (ast s) ->
  total_issuance a (ast s) + x < 2 ^ balance_bits ->
  exists s1 s2,
    (forall rs, reasons_contains rs Transfer = false ->
       AC.withdraw (mret a) who x rs s = Ok (MkNegative x) s1) /\
    RioFee.on_unbalanced (E:=E) (mret a) (MkNegative x) s1 = Ok tt s2 /\
    ledger_ok (ast s2) /\
    events (sget (T:=Frame E) s2) = events (sget (T:=Frame E) s) ++ [inject (FeeDeposit x)] /\
    (forall b w, free_balance b w (ast s2) =
       free_balance b w (ast s) + at_account a acct x b w - at_account a who x b w) /\
    (forall b, total_issuance b (ast s2) = total_issuance b (ast s)).
Proof.
  intros acct Hok Hex Hx Hw.
  destruct (collect_eq a who x s Hok Hex Hx Hw)
    as (st' & s1 & s2 & Hwd & Hpay & Hst' & Hev & Ht & Hfb & Hr & Hsy).
  destruct (collect_ok a who acct x (ast s) Hok Hex ltac:(lia) Hw) as (Hok2 & Hb2 & Hi2).
  exists s1, s2. rewrite Hst'. split_and!; [done|done| |done| |].
  - by apply (ledger_ok_same (st_exchange a who a acct x (ast s))).
  - intros b w. rewrite <-Hb2. unfold free_balance. by rewrite Hfb.
  - intros b. rewrite <-Hi2. unfold total_issuance. by rewrite Ht.
Qed.

Lemma withdraw_low U a who x rs s :
  U s = Ok a s -> 0 <= free_balance a who (ast s) -> free_balance a who (ast s) < x ->
  AC.withdraw U who x rs s = Err (Msg "account has too few funds") s.
Proof.
  intros HU Hf Hx. unfold AC.withdraw, AC.free_balance, checked_sub, checked. run.
  rewrite HU, decide_False by (unfold in_width; lia). done.
Qed.

(** [compute_fee] as a function of the multiplier. *)
Definition fee_of (m : Multiplier) (len : Z) (info : DispatchInfo) (tip : Balance) : Balance :=
  if pays_fee info then
    saturating_add balance_bits
      (saturating_add balance_bits TransactionBaseFee
         (saturated_multiply_accumulate m
            (saturating_add balance_bits (saturating_mul balance_bits TransactionByteFee len)
               (WeightToFee (Z.min (info_weight info) MaximumBlockWeight))))) tip
  else tip.

Lemma compute_fee_run len info tip s :
  RioTransactionPayment.compute_fee len info tip s =
  Ok (fee_of (NextFeeMultiplier (sget s)) len info tip) s.
Proof. unfold RioTransactionPayment.compute_fee, fee_of. run. by destruct (pays_fee info). Qed.

#[local] Abbreviation validate :=
  (RioTransactionPayment.validate (mret RFUEL) (RioFee.on_unbalanced (E:=E) (mret RFUEL))
     RioFee.buy_fee_asset).

(** The exchange before the payment. *)
Definition bought (fee : Balance) who st : Balance :=
  Z.min (Z.min fee (free_balance LOCKED_RFUEL who st)) (umax balance_bits).

(** What a validated transaction with the fee [fee] did, after the exchange of [b]. *)
Definition charged (fee b : Balance) who s s' : Prop :=
  let st := ast s in let acct := FeeAccountId (sget s) in
  if decide (fee = 0) then s' = s
  else fee <= free_balance RFUEL who st + b /\
    events (sget (T:=Frame E) s') = events (sget (T:=Frame E) s) ++ [inject (FeeDeposit fee)] /\
    (forall a w, free_balance a w (ast s') = free_balance a w st
       + at_account RFUEL who (b - fee) a w + at_account RFUEL acct fee a w
       - at_account LOCKED_RFUEL who b a w) /\
    (forall a, total_issuance a (ast s') =
       total_issuance a st + at_asset RFUEL b a - at_asset LOCKED_RFUEL b a).
Definition refused (fee b : Balance) who (e : error) s s' : Prop :=
  let st := ast s in
  fee <> 0 /\
  ((e = InvalidCustom 100 /\ s' = s /\
    asset_exists LOCKED_RFUEL st && asset_exists RFUEL st = false) \/
   (e = InvalidPayment /\ free_balance RFUEL who st + b < fee /\
    forall a, total_issuance a (ast s') =
      total_issuance a st + at_asset RFUEL b a - at_asset LOCKED_RFUEL b a)).

Lemma bought_bounds fee who st :
  ledger_ok st -> 0 <= fee -> 0 <= bought fee who st <= free_balance LOCKED_RFUEL who st.
Proof.
  intros Hok Hfee. pose proof (free_balance_nonneg _ Hok LOCKED_RFUEL who).
  unfold bought, umax. change (2 ^ balance_bits) with (2 ^ 127 * 2). lia.
Qed.

(** The exchange of the locked asset before the payment. *)
Lemma buy_fee_wp who fee s :
  let st := ast s in let b := bought fee who st in
  ledger_ok st -> 0 <= fee -> total_issuance RFUEL st + b < 2 ^ balance_bits ->
  wp (RioFee.buy_fee_asset who fee (new_v1 (umax balance_bits)))
    (fun _ s' => ledger_ok (ast s') /\ s' = sput (ast s') s /\
       (forall a w, free_balance a w (ast s') =
          free_balance a w st + at_account RFUEL who b a w - at_account LOCKED_RFUEL who b a w) /\
       (forall a, total_issuance a (ast s') =
          total_issuance a st + at_asset RFUEL b a - at_asset LOCKED_RFUEL b a))
    (fun _ s' => s' = s /\ asset_exists LOCKED_RFUEL st && asset_exists RFUEL st = false) False s.
Proof.
  intros st b Hok Hfee Hw. pose proof (bought_bounds fee who st Hok Hfee).
  unfold RioFee.buy_fee_asset, max_payment, new_v1. cbn [v1_max_payment]. wp_step. wp_step.
  fold st. fold (bought fee who st). fold b. wp_step.
  wp_apply (between_wp LOCKED_RFUEL who RFUEL who [TransactionPayment] b s);
    [done|unfold b; lia|done| | |done].
  - intros [] s1 (_ & ? & ? & ? & _ & _ & ?). wp_step. done.
  - intros e s1 [Herr ->]. split; [done|]. revert Herr. unfold between_error. fold st.
    destruct (asset_exists LOCKED_RFUEL st && asset_exists RFUEL st); [|done]. cbn [negb].
    by rewrite decide_False by (unfold b; lia).
Qed.

Lemma validate_wp tip who info len s :
  let st := ast s in
  let fee := fee_of (NextFeeMultiplier (sget s)) (len mod 2 ^ 32) info tip in
  let b := bought fee who st in
  ledger_ok st -> in_width balance_bits fee ->
  total_issuance RFUEL st + b < 2 ^ balance_bits ->
  (fee <= free_balance RFUEL who st + b -> total_issuance RFUEL st + b + fee < 2 ^ balance_bits) ->
  wp (validate tip who info len)
    (fun priority s' => priority = Z.min fee (umax 64) /\ ledger_ok (ast s') /\
       charged fee b who s s')
    (fun e s' => ledger_ok (ast s') /\ refused fee b who e s s') False s.
Proof.
  intros st fee b Hok Hfee Hw Hw'. unfold charged, refused. cbv zeta. fold st.
  unfold RioTransactionPayment.validate. wp_step.
  eapply wp_run_Ok; [apply compute_fee_run|]. cbv beta. fold fee. wp_step.
  case_decide as Hz.
  { do 2 wp_step. rewrite Hz in *. done. }
  cbv zeta. wp_step. rewrite wp_or_else.
  pose proof (bought_bounds fee who st Hok ltac:(apply Hfee)) as Hb. fold b in Hb.
  wp_apply (buy_fee_wp who fee s Hok); [apply Hfee|exact Hw| | |done]; fold st b.
  - intros _ s1 (Hok1 & Hs1 & Hb1 & Hi1).
    assert (FeeAccountId (sget s1) = FeeAccountId (sget s)) as Hacct by (rewrite Hs1; by store).
    assert (events (sget (T:=Frame E) s1) = events (sget (T:=Frame E) s)) as Hev
      by (rewrite Hs1; by store).
    assert (free_balance RFUEL who (ast s1) = free_balance RFUEL who st + b) as Hf1.
    { rewrite Hb1. unfold at_account. rewrite decide_True by done.
      rewrite decide_False by (by intros [? _]). lia. }
    pose proof (balances_le_issuance _ Hok1 RFUEL who).
    pose proof (reserved_balance_nonneg _ Hok1 RFUEL who). unfold in_width in Hfee.
    do 2 wp_step. destruct (decide (fee <= free_balance RFUEL who (ast s1))) as [Hle|Hlow].
    + assert (asset_exists RFUEL (ast s1) = true) as Hex1.
      { destruct (asset_exists RFUEL (ast s1)) eqn:He; [done|].
        pose proof (lo_absent _ Hok1 _ He). lia. }
      assert (total_issuance RFUEL (ast s1) + fee < 2 ^ balance_bits) as Hw1.
      { rewrite Hi1. unfold at_asset. rewrite decide_True by done.
        rewrite decide_False by done. lia. }
      destruct (collect_moves RFUEL who fee s1 Hok1 Hex1 ltac:(lia) Hw1)
        as (s1' & s2 & Hwd & Hpay & Hok2 & Hev2 & Hb2 & Hi2).
      rewrite Hacct in Hb2.
      eapply wp_run_Ok; [apply Hwd; by case_decide|]. cbv beta.
      eapply wp_run_Ok; [exact Hpay|]. cbv beta. rewrite wp_ret.
      split_and!; [done|done|lia|by rewrite Hev2, Hev| |].
      * intros a w. rewrite Hb2, Hb1. unfold at_account. repeat case_decide; lia.
      * intros a. by rewrite Hi2, Hi1.
    + eapply wp_run_Err; [apply (withdraw_low _ RFUEL); [done|apply free_balance_nonneg; done|lia]|].
      cbv beta. rewrite wp_fail. split; [done|]. split; [done|].
      right. split; [done|]. split; [lia|done].
  - intros e s1 [-> Hex]. rewrite wp_fail. split; [done|]. split; [done|].
    left. done.
Qed.

(** C8: validating a transaction charges exactly its fee: a zero fee touches
    nothing; otherwise the payer's locked fuel is exchanged first, up to the fee,
    which moves the issuances of the two fuels by the amount exchanged, and then the
    whole fee moves from the payer to the fee account with one event and no change of
    issuance, and the ledger stays well-formed.  It is refused with code 100 only
    when an asset is missing, without a write, and as a payment error exactly when
    fuel and locked fuel together do not reach the fee; the exchange is then kept.
    The issuance of RFUEL must have room for the amount exchanged and the fee. *)
Theorem validate_charges_fee tip who info len s :
  let st := ast s in
  let fee := fee_of (NextFeeMultiplier (sget s)) (len mod 2 ^ 32) info tip in
  let b := bought fee who st in
  let acct := FeeAccountId (sget s) in
  ledger_ok st -> in_width balance_bits fee ->
  total_issuance RFUEL st + b + fee < 2 ^ balance_bits ->
  wp (validate tip who info len)
    (fun priority s' =>
       priority = Z.min fee (umax 64) /\ ledger_ok (ast s') /\
       (if decide (fee = 0) then s' = s
        else fee <= free_balance RFUEL who st + b /\
          events (sget (T:=Frame E) s') = events (sget (T:=Frame E) s) ++ [inject (FeeDeposit fee)] /\
          (forall a w, free_balance a w (ast s') = free_balance a w st
             + at_account RFUEL who (b - fee) a w + at_account RFUEL acct fee a w
             - at_account LOCKED_RFUEL who b a w) /\
          (forall a, total_issuance a (ast s') =
             total_issuance a st + at_asset RFUEL b a - at_asset LOCKED_RFUEL b a)))
    (fun e s' => fee <> 0 /\ ledger_ok (ast s') /\
       ((e = InvalidCustom 100 /\ s' = s /\
         asset_exists LOCKED_RFUEL st && asset_exists RFUEL st = false) \/
        (e = InvalidPayment /\ free_balance RFUEL who st + b < fee /\
         forall a, total_issuance a (ast s') =
           total_issuance a st + at_asset RFUEL b a - at_asset LOCKED_RFUEL b a))) False s.
Proof.
  intros st fee b acct Hok Hfee Hw.
  assert (0 <= fee) as Hpos by apply Hfee.
  wp_apply (validate_wp tip who info len s); [done|done| | | | |done]; fold st fee b.
  - lia.
  - done.
  - intros p s' (Hp & Hok' & Hc). done.
  - intros e s' (Hok' & Hz & Hr). split; [exact Hz|]. split; [exact Hok'|].
    exact Hr.
Qed.

(** C19: the fee of a paying call never overflows a balance, is at least its tip
    and its base fee up to saturation, grows with the tip, and a weight above the
    maximal block weight costs what the maximal block weight costs; a call that
    does not pay is charged its tip. *)
Theorem compute_fee_bounds m len info tip tip' s :
  NextFeeMultiplier (sget s) = m ->
  0 <= TransactionBaseFee -> in_width balance_bits tip -> in_width balance_bits tip' ->
  (forall x, 0 <= saturated_multiply_accumulate m x) ->
  exists fee fee', RioTransactionPayment.compute_fee len info tip s = Ok fee s /\
    RioTransactionPayment.compute_fee len info tip' s = Ok fee' s /\
    in_width balance_bits fee /\ tip <= fee /\ (tip <= tip' -> fee <= fee') /\
    (if pays_fee info then
       Z.min TransactionBaseFee (umax balance_bits) <= fee /\
       (MaximumBlockWeight <= info_weight info ->
        RioTransactionPayment.compute_fee len
          (MkDispatchInfo MaximumBlockWeight (info_class info) true) tip s = Ok fee s)
     else fee = tip).
Proof.
  intros Hm Hb [Ht0 Ht1] [Ht0' Ht1'] Hacc. eexists _, _.
  split; [apply compute_fee_run|]. split; [apply compute_fee_run|]. rewrite Hm.
  unfold fee_of, saturating_add, umax, in_width.
  destruct (pays_fee info); [|split_and!; lia].
  match goal with |- context [saturated_multiply_accumulate m ?y] =>
    pose proof (Hacc y) end.
  split_and!; try lia. intros Hw. rewrite compute_fee_run, Hm. unfold fee_of. cbn [pays_fee info_weight].
  rewrite Z.min_id, (Z.min_r (info_weight info)) by lia. done.
Qed.
End fees.

(** In the runtime's configuration every paying call costs ten cents plus its
    tip, whatever its length and weight, in every block after the first: the
    multiplier is zero and the conversions ignore the weight. *)
Theorem runtime_fee {S} `{!Overflow, !Store S PaymentStore} max_weight accumulate
    (w : Weight) len info tip (s : S) :
  let cfg := Runtime.payment_config max_weight accumulate in
  accumulate 0 0 = 0 -> 0 <= len -> pays_fee info = true -> 0 <= tip < 2 ^ 127 ->
  exists s1, RioTransactionPayment.on_finalize w s = Ok tt s1 /\
    RioTransactionPayment.compute_fee len info tip s1 = Ok (10000000 + tip) s1.
Proof.
  intros cfg Hacc Hlen Hp Ht. eexists. split; [unfold RioTransactionPayment.on_finalize; run; done|].
  unfold RioTransactionPayment.compute_fee, cfg, Runtime.payment_config. rewrite Hp. run. store.
  cbn -[balance_bits].
  assert (saturating_add balance_bits (saturating_mul balance_bits 0 len) 0 = 0) as ->.
  { unfold saturating_mul, saturating_add. rewrite Z.mul_0_l. by vm_compute. }
  rewrite Hacc. f_equal. unfold saturating_add, umax.
  change (10 * Runtime.CENTS) with 10000000. change (2 ^ balance_bits) with (2 ^ 127 * 2). lia.
Qed.

(** ** Instances on a concrete chain *)
Section witnesses.
Import Demo.
Definition fee_event : Type := (AssetsEvent + FeeEvent)%type.
#[local] Instance inject_fee : Inject FeeEvent fee_event := inr.
Definition fee_config : PaymentConfig := Runtime.payment_config 1000000 (fun m x => x + x * m).
#[local] Existing Instance fee_config.
Definition fee_chain : Type :=
  (Frame fee_event * (AssetsStore * (FeeStore * (PaymentStore * unit))))%type.
(** Alice holds locked fuel, and account 9 collects the fees. *)
Definition fuel_options : AssetOptions := MkAssetOptions 20000000 PermissionsV1_default.
Definition fuel : AssetsStore :=
  st_create LOCKED_RFUEL alice [] fuel_options
    (st_create RFUEL bob [] fuel_options AssetsStore_empty).
Lemma fuel_ok : ledger_ok fuel.
Proof.
  apply st_create_ok; [apply st_create_ok; [apply ledger_ok_empty|..]|..]; by vm_compute.
Defined.
Definition fee_start : fee_chain :=
  (frame, (fuel, (MkFeeStore 9%N, (MkPaymentStore 0, tt)))).

Lemma validate_charges_fee_witness :
  let v := RioTransactionPayment.validate (mret RFUEL)
    (RioFee.on_unbalanced (E:=fee_event) (mret RFUEL)) RioFee.buy_fee_asset in
  exists s', v 5 alice (MkDispatchInfo 10 Normal true) 100 fee_start = Ok 10000005 s' /\
    free_balance LOCKED_RFUEL alice (sget s') = 9999995 /\
    free_balance RFUEL 9%N (sget s') = 10000005.
Proof.
  intros v. destruct (v 5 alice (MkDispatchInfo 10 Normal true) 100 fee_start) as [p s'|e s'|] eqn:Hr;
    [|vm_compute in Hr; discriminate|vm_compute in Hr; discriminate].
  assert (p = 10000005) as -> by (vm_compute in Hr; by injection Hr).
  exists s'. split; [done|].
  pose proof (validate_charges_fee (E:=fee_event) 5 alice (MkDispatchInfo 10 Normal true) 100
    fee_start fuel_ok) as H.
  specialize (H ltac:(clear; by vm_compute)). specialize (H ltac:(clear; by vm_compute)).
  destruct (wp_Ok _ _ _ _ _ _ _ H Hr) as (_ & _ & Hd).
  rewrite decide_False in Hd by (intros Hz; vm_compute in Hz; discriminate).
  destruct Hd as (_ & _ & Hb & _). rewrite !Hb. clear. by vm_compute.
Defined.

Lemma compute_fee_bounds_witness :
  exists fee, RioTransactionPayment.compute_fee 100 (MkDispatchInfo 10 Normal true) 5 fee_start
    = Ok fee fee_start /\ 5 <= fee.
Proof.
  set (cfg := Runtime.payment_config 1000000 (fun m x => Z.max 0 (x + x * m))).
  destruct (@compute_fee_bounds fee_chain cfg _
    0 100 (MkDispatchInfo 10 Normal true) 5 6 fee_start) as (fee & _ & Hr & _ & _ & Ht & _);
    [done|done|by vm_compute|by vm_compute|intros x; cbn; lia|].
  exists fee. split; [exact Hr|exact Ht].
Defined.

Lemma runtime_fee_witness :
  exists s1, RioTransactionPayment.on_finalize 77 fee_start = Ok tt s1 /\
    RioTransactionPayment.compute_fee 100 (MkDispatchInfo 10 Normal true) 5 s1 = Ok 10000005 s1.
Proof.
  exact (runtime_fee 1000000 (fun m x => x + x * m) 77 100 (MkDispatchInfo 10 Normal true) 5
           fee_start eq_refl ltac:(lia) eq_refl ltac:(lia)).
Defined.
End witnesses.
