(* ===== verification/ChainSpec.v ===== *)
(** * The shipped chains: [src/chain_spec.rs] and the loading of a chain
    specification in [src/cli.rs]

    An alternative names a chain; its specification carries the genesis of every
    pallet.  Key derivation from a seed, the decoding of authority keys and the
    compiled runtime are parameters. *)
From S2P Require Export Assets Bridge Fee.
From Stdlib Require Import String.
#[local] Open Scope Z_scope.

(** ** The genesis configuration *)
Record SystemConfig (Code : Type) := MkSystemConfig { system_code : Code }.
Record IndicesConfig := MkIndicesConfig { indices_ids : list AccountId }.
Record SudoConfig := MkSudoConfig { sudo_config_key : AccountId }.
Record AuraConfig (AuraId : Type) := MkAuraConfig { aura_authorities : list AuraId }.
Record GrandpaConfig (GrandpaId : Type) := MkGrandpaConfig { grandpa_authorities : list (GrandpaId * Z) }.
(** An asset with its symbol, its restrictions and the endowed accounts. *)
Abbreviation AssetConfig :=
  (AssetId * list Byte.byte * list Restriction * list (AccountId * Balance))%type (only parsing).
Record RioAssetsConfig := MkRioAssetsConfig {
  assets_root : AccountId;
  assets_symbols : list AssetConfig;
}.
Record RioBridgeConfig := MkRioBridgeConfig {
  bridge_asset_id : AssetId;
  bridge_threshold : Balance;
  bridge_admins : list (AccountId * Auth);
  bridge_vault : AccountId;
}.
Record RioFeeConfig := MkRioFeeConfig { fee_account_id : AccountId }.
Record GenesisConfig (Code AuraId GrandpaId : Type) := MkGenesisConfig {
  system : option (SystemConfig Code);
  indices : option IndicesConfig;
  sudo : option SudoConfig;
  aura : option (AuraConfig AuraId);
  grandpa : option (GrandpaConfig GrandpaId);
  rio_assets : option RioAssetsConfig;
  rio_bridge : option RioBridgeConfig;
  rio_fee : option RioFeeConfig;
}.
Arguments MkSystemConfig {Code}.
Arguments MkAuraConfig {AuraId}.
Arguments MkGrandpaConfig {GrandpaId}.
Arguments MkGenesisConfig {Code AuraId GrandpaId}.
Arguments indices {Code AuraId GrandpaId}.
Arguments sudo {Code AuraId GrandpaId}.
Arguments rio_assets {Code AuraId GrandpaId}.
Arguments rio_bridge {Code AuraId GrandpaId}.
Arguments rio_fee {Code AuraId GrandpaId}.

(** ** The alternatives *)
Inductive Alternative := Development | LocalTestnet | Testnet | Beta.
#[global] Instance Alternative_eq_dec : EqDecision Alternative.
Proof. solve_decision. Defined.

(** The name and the id of each. *)
Definition CHAIN_TYPE : list (Alternative * (string * string)) := [
  (Development, ("Development", "dev"));
  (LocalTestnet, ("Local Testnet", "local_testnet"));
  (Testnet, ("Rio Defi Testnet", "moniker"));
  (Beta, ("Rio Beta", "beta"))]%string.
Definition chain_type (a : Alternative) : option (string * string) :=
  snd <$> List.find (fun e => bool_decide (e.1 = a)) CHAIN_TYPE.

(** The loop over the table, which is a hash map: [table] lists its entries in the
    order of the iteration. *)
Fixpoint get_alternative_from_id (table : list (Alternative * (string * string))) (id : string)
    : string + Alternative :=
  match table with
  | [] => inl (String.append "no support id in current `Alternative`:" id)
  | (k, v) :: table => if bool_decide (v.2 = id) then inr k else get_alternative_from_id table id
  end.

Definition alternative_from (s : string) : option Alternative :=
  if bool_decide (s = "dev"%string) then Some Development
  else if bool_decide (s = "local"%string) then Some LocalTestnet
  else if bool_decide (s = "test"%string) then Some Testnet
  else if bool_decide (s = "beta"%string) then Some Beta
  else None.

Record Properties := MkProperties { tokenSymbol : string; tokenDecimals : Z; ss58Format : Z }.
Definition DEFAULT_PROPERTIES_MAINNET : Properties := MkProperties "RFUEL" 8 42.
Definition DEFAULT_PROPERTIES_TESTNET : Properties := MkProperties "RFUEL" 8 42.

Record ChainSpec (G : Type) := MkChainSpec {
  spec_name : string;
  spec_id : string;
  spec_genesis : G;
  boot_nodes : list string;
  telemetry_endpoints : option (list (string * Z));
  protocol_id : option string;
  spec_properties : option Properties;
}.
Arguments MkChainSpec {G}.
Arguments spec_name {G}.
Arguments spec_id {G}.
Arguments spec_genesis {G}.

Section genesis.
Context {Code AuraId GrandpaId : Type} (WASM_BINARY : Code).
(** [get_account_id_from_seed], [get_authority_keys_from_seed], and the decoding of
    the authority keys. *)
Context (get_account_id_from_seed : string -> AccountId).
Context (get_authority_keys_from_seed : string -> AuraId * GrandpaId).
Context (aura_of_key : N -> AuraId) (grandpa_of_key : N -> GrandpaId).
#[local] Abbreviation Config := (GenesisConfig Code AuraId GrandpaId).

(** The assets of the protocol, the same in both geneses. *)
Definition asset_symbol (a : AssetId) (s : string) (rs : list Restriction) : AssetConfig :=
  (a, list_byte_of_string s, rs, []).
Definition genesis_symbols : list AssetConfig := [
  asset_symbol RFUEL "RFUEL" [];
  asset_symbol LOCKED_RFUEL "Locked RFUEL" [Transferable];
  asset_symbol SBTC "SBTC" [];
  asset_symbol SUSDT "S-USDT" [];
  asset_symbol 101 "RBTC" []; asset_symbol 102 "RSC1" []; asset_symbol 103 "RSC2" [];
  asset_symbol 104 "RSC3" []; asset_symbol 105 "RSC4" []; asset_symbol 106 "RSC5" []].

Definition testnet_genesis (initial_authorities : list (AuraId * GrandpaId)) (root_key : AccountId)
    (endowed_accounts : list AccountId) (_enable_println : bool) : Config :=
  MkGenesisConfig
    (Some (MkSystemConfig WASM_BINARY))
    (Some (MkIndicesConfig endowed_accounts))
    (Some (MkSudoConfig root_key))
    (Some (MkAuraConfig (map fst initial_authorities)))
    (Some (MkGrandpaConfig (map (fun x => (x.2, 1)) initial_authorities)))
    (Some (MkRioAssetsConfig root_key genesis_symbols))
    (Some (MkRioBridgeConfig SBTC 3000000000
             [(get_account_id_from_seed "Alice", AuthAll)]
             (get_account_id_from_seed "withdraw vault")))
    (Some (MkRioFeeConfig (get_account_id_from_seed "Eve"))).

Definition beta_genesis (initial_authorities : list (AuraId * GrandpaId)) (root_key : AccountId)
    (endowed_accounts : list AccountId) (_enable_println : bool) : Config :=
  MkGenesisConfig
    (Some (MkSystemConfig WASM_BINARY))
    (Some (MkIndicesConfig endowed_accounts))
    (Some (MkSudoConfig root_key))
    (Some (MkAuraConfig (map fst initial_authorities)))
    (Some (MkGrandpaConfig (map (fun x => (x.2, 1)) initial_authorities)))
    (Some (MkRioAssetsConfig root_key genesis_symbols))
    (Some (MkRioBridgeConfig SBTC 3000000000
             [(0x8ee3e606982e20e495b622d091a99d4cdbc669afd8c08efb1acfb375b2e9f61a%N, AuthAll)]
             0x5e1379e6dbd99ec5914c127f7eada6a6a6c773ed47cadf4f023577b0deb3ab09%N))
    (Some (MkRioFeeConfig 0x16bb3aef8cfefcf218ffa6d8722baa4ae808acb0de521e71ccbdeb3bf9cb2d1e%N)).

(** The accounts of the local testnet and of the testnet. *)
Definition testnet_accounts : list AccountId := map get_account_id_from_seed
  ["Alice"; "Bob"; "Charlie"; "Dave"; "Eve"; "Ferdie"; "Alice//stash"; "Bob//stash";
   "Charlie//stash"; "Dave//stash"; "Eve//stash"; "Ferdie//stash"]%string.

Definition load (a : Alternative) : string + ChainSpec Config :=
  match chain_type a with
  | None => inl "not support for this Alternative"%string
  | Some (name, id) => inr
      match a with
      | Development => MkChainSpec name id
          (testnet_genesis [get_authority_keys_from_seed "Alice"] (get_account_id_from_seed "Alice")
             (map get_account_id_from_seed ["Alice"; "Bob"; "Alice//stash"; "Bob//stash"]%string) true)
          [] None None (Some DEFAULT_PROPERTIES_TESTNET)
      | LocalTestnet => MkChainSpec name id
          (testnet_genesis (map get_authority_keys_from_seed ["Alice"; "Bob"]%string)
             (get_account_id_from_seed "Alice") testnet_accounts true)
          [] None None (Some DEFAULT_PROPERTIES_TESTNET)
      | Testnet => MkChainSpec name id
          (testnet_genesis (map get_authority_keys_from_seed ["Alice"; "Bob"]%string)
             (get_account_id_from_seed "Alice") testnet_accounts true)
          ["/ip4/47.52.149.251/tcp/30101/p2p/QmRpheLN4JWdAnY7HGJfWFNbfkQCb6tFf4vvA6hgjMZKrR"%string]
          (Some [("https://stats.staging.riodefi.com"%string, 0)]) (Some "alpha"%string)
          (Some DEFAULT_PROPERTIES_TESTNET)
      | Beta => MkChainSpec name id
          (beta_genesis
             [(aura_of_key 0x3c748c52c521a8ccb85a0c5ee8f9479d45cb0348b5022ce97f35363689f3a84e%N,
               grandpa_of_key 0xb3cd4432d77141225c98502e2a2a461486e3b01c25a61ee54e6761c7c31570a8%N);
              (aura_of_key 0x328f2204c644361866c92996fc5acffc67e86e6da1af358b38a3de3241bfa276%N,
               grandpa_of_key 0xa47355db185f4de899055d90f0b6889fb080dd4e5c310a62390d760bc3602c9a%N);
              (aura_of_key 0x78f7655aa22a8f6b54fb7fea4e62f11f365dd67703bf0b5b3ed8338a10373b19%N,
               grandpa_of_key 0x60e004988514b9075192585ea8acb70652df7928d4f04a1175067b294510d8eb%N)]
             0x20cd1afa4f95b59b7f61a97360e8bc74a26a6fc13712e6f2eef3a1e020bbcd68%N
             [0x167056fa07ae7bc1d36da5520dd8c4c06cb5a5db557986f0c6ae2af0030d4c44%N;
              0xb4f179ee3e5e2498eb6d59d1d899bcb0157a917f9cfd8523101e4f78c8a52050%N] true)
          ["/ip4/47.244.206.150/tcp/30333/p2p/QmNh3WxHeGATKcEjRSv97HTT6UpmjFdzYSFpn2UeR2DFok"%string]
          (Some [("https://stats.riochain.io"%string, 0)]) (Some "beta"%string)
          (Some DEFAULT_PROPERTIES_MAINNET)
      end
  end.

(** *** [src/cli.rs]: [from_json_file] gives the id of a specification in a file. *)
Context (table : list (Alternative * (string * string))).
Context (from_json_file : string -> string + string).

(** The format of addresses it sets as the default: 42 for every alternative. *)
Definition set_address_type (chain_key : string) : string + Z :=
  match alternative_from chain_key with
  | Some spec => inr 42
  | None =>
      match from_json_file chain_key with
      | inl e => inl e
      | inr id => match get_alternative_from_id table id with inl e => inl e | inr _ => inr 42 end
      end
  end.
Definition load_spec (id : string) : string + option (ChainSpec Config) :=
  match set_address_type id with
  | inl e => inl e
  | inr _ =>
      match alternative_from id with
      | Some spec => match load spec with inl e => inl e | inr s => inr (Some s) end
      | None => inr None
      end
  end.

(** ** Facts *)
Lemma chain_type_entry a e : chain_type a = Some e <-> (a, e) ∈ CHAIN_TYPE.
Proof.
  unfold chain_type, CHAIN_TYPE. set_unfold. destruct a; cbn; naive_solver.
Qed.

(** The loop finds an entry with the id, or there is none. *)
Lemma get_alternative_from_id_spec i :
  match get_alternative_from_id table i with
  | inr a => exists n, (a, (n, i)) ∈ table
  | inl e => e = String.append "no support id in current `Alternative`:" i /\
      forall a n, (a, (n, i)) ∉ table
  end.
Proof.
  induction table as [|[k [n v]] t IH]; cbn.
  { split; [done|]. intros ? ?. apply not_elem_of_nil. }
  case_bool_decide as Hv; [subst v; exists n; left|].
  destruct (get_alternative_from_id t i).
  - destruct IH as [-> IH]. split; [done|]. intros a m [?|?]%elem_of_cons; [|naive_solver].
    simplify_eq.
  - destruct IH as [m IH]. exists m. by right.
Qed.

(** No two alternatives share an id. *)
Lemma ids_distinct a b n m i : (a, (n, i)) ∈ CHAIN_TYPE -> (b, (m, i)) ∈ CHAIN_TYPE -> a = b.
Proof. unfold CHAIN_TYPE. set_unfold. naive_solver. Qed.

(** The specification of an alternative carries the name and the id of the table. *)
Lemma load_entry a : exists s, load a = inr s /\ (a, (spec_name s, spec_id s)) ∈ CHAIN_TYPE.
Proof.
  destruct a; cbn; eexists; (split; [reflexivity|]); apply chain_type_entry; reflexivity.
Qed.

(** C40: Every alternative has a specification, and the id of that specification names
    the alternative again, in whatever order the hash map is iterated: the file of an
    exported specification is accepted and leads to no built-in chain.  A file whose
    id is of no alternative is refused with the message that shows it. *)
Theorem chain_spec_round_trip : table ≡ₚ CHAIN_TYPE ->
  (forall a, exists s, load a = inr s /\ get_alternative_from_id table (spec_id s) = inr a /\
     forall path, alternative_from path = None -> from_json_file path = inr (spec_id s) ->
       load_spec path = inr None) /\
  (forall path i, alternative_from path = None -> from_json_file path = inr i ->
     (forall a s, load a = inr s -> spec_id s <> i) ->
     load_spec path = inl (String.append "no support id in current `Alternative`:" i)).
Proof.
  intros Ht. split.
  - intros a. destruct (load_entry a) as [s [Hs Ha]]. exists s. split; [done|].
    assert (Hg : get_alternative_from_id table (spec_id s) = inr a).
    { pose proof (get_alternative_from_id_spec (spec_id s)) as Hg.
      destruct (get_alternative_from_id table (spec_id s)) as [e|b].
      - destruct Hg as [_ Hg]. destruct (Hg a (spec_name s)). by rewrite Ht.
      - destruct Hg as [n Hg]. f_equal. rewrite Ht in Hg. by eapply ids_distinct. }
    split; [done|]. intros path Hp Hf. unfold load_spec, set_address_type. by rewrite Hp, Hf, Hg.
  - intros path i Hp Hf Hi. unfold load_spec, set_address_type. rewrite Hp, Hf.
    pose proof (get_alternative_from_id_spec i) as Hg.
    destruct (get_alternative_from_id table i) as [e|b]; [by destruct Hg as [-> _]|].
    destruct Hg as [n Hg]. destruct (load_entry b) as [s [Hs Hb]].
    destruct (Hi b s Hs). rewrite Ht in Hg.
    apply chain_type_entry in Hg, Hb. congruence.
Qed.
End genesis.

(** The table in another order, and a specification exported from the beta chain. *)
Lemma chain_spec_round_trip_witness :
  get_alternative_from_id (rev CHAIN_TYPE) "beta" = inr Beta /\
  load_spec (Code := unit) tt (fun _ => 1%N) (fun _ => (tt, tt)) (fun _ => tt) (fun _ => tt)
    (rev CHAIN_TYPE) (fun _ => inr "beta"%string) "beta.json" = inr None.
Proof.
  pose proof (chain_spec_round_trip (Code := unit) tt (fun _ => 1%N) (fun _ => (tt, tt))
    (fun _ => tt) (fun _ => tt) (rev CHAIN_TYPE) (fun _ => inr "beta"%string)) as H.
  destruct H as [H _]; [symmetry; apply Permutation_rev|].
  destruct (H Beta) as [s [Hs [Hg Hl]]]. cbn in Hs. injection Hs as <-. cbn in Hg, Hl.
  split; [exact Hg|]. apply Hl; reflexivity.
Defined.
