(* ===== verification/Price.v ===== *)
(** * Oracles and prices: [modules/rio-oracle/src/lib.rs] and
    [modules/rio-price/src/lib.rs]

    The price pallet is a client of the interface [OracleMixedIn], which the
    oracle pallet implements. *)
From S2P Require Export Frame.
#[local] Open Scope Z_scope.

Abbreviation Price := Z (only parsing).
Definition price_bits : Z := 128.
Definition PRICE_PRECISION : Z := 10000.

(** ** [trait OracleMixedIn] *)
Class OracleMixedIn (S : Type) := {
  on_witnessed : AccountId -> M S unit;
  is_valid : AccountId -> M S bool;
}.

(** ** [rio-oracle] *)
Record OracleStore := MkOracleStore {
  Oracles : list AccountId;
  WitnessReport : gmap AccountId BlockNumber;
}.
#[global] Instance OracleStore_settable : Settable OracleStore := fun st =>
  MkOracleStore (Oracles st) (WitnessReport st).

Module RioOracle.
Section operations.
Context {S E : Type} `{!Overflow, !Store S (Frame E), !Store S OracleStore}.
(** [T::ReportInteval]. *)
Context (ReportInteval : BlockNumber).

Definition on_witnessed (who : AccountId) : M S unit :=
  current_height ← gets (fun f : Frame E => block_number f);
  modify (fun st => st <| WitnessReport ::= <[who := current_height]> |>).

Definition is_valid (who : AccountId) : M S bool :=
  report_height ← gets (fun st => get_or 0 (WitnessReport st) who);
  deadline ← lift (uadd block_number_bits report_height ReportInteval);
  current ← gets (fun f : Frame E => block_number f);
  mret (bool_decide (current <= deadline)).

Definition rio_oracle : OracleMixedIn S := {|
  Price.on_witnessed := on_witnessed;
  Price.is_valid := is_valid |}.
End operations.
End RioOracle.

(** ** [rio-price] *)
Record PriceReport := MkPriceReport { reporter : AccountId; price : Price }.
#[global] Instance PriceReport_settable : Settable PriceReport := fun r =>
  MkPriceReport (reporter r) (price r).

Record PriceStore := MkPriceStore {
  CurrentPrice : Price;
  PriceReports : list PriceReport;
}.
#[global] Instance PriceStore_settable : Settable PriceStore := fun st =>
  MkPriceStore (CurrentPrice st) (PriceReports st).

Inductive PriceEvent :=
| PriceReported (who : AccountId) (p : Price)
| PriceChanged (p : Price).

Section statistics.
Context `{!Overflow}.

(** [numbers.iter().sum()] adds with the overflow behaviour of [+]. *)
Definition sum (numbers : list Price) : option Price :=
  foldl (fun acc x => s ← acc; uadd price_bits s x) (Some 0) numbers.

Definition mean (numbers : list Price) : option Price :=
  s ← sum numbers; udiv s (Z.of_nat (length numbers)).

(** [numbers.sort()]; an index out of bounds panics. *)
Definition median (numbers : list Price) : option Price :=
  let numbers := merge_sort Z.le numbers in
  if decide (length numbers = 1%nat) then numbers !! 0%nat
  else
    let mid := (length numbers / 2)%nat in
    if decide (length numbers mod 2 = 0)%nat then
      a ← numbers !! (mid - 1)%nat;
      b ← numbers !! mid;
      mean [a; b]
    else numbers !! mid.
End statistics.

Module RioPrice.
Section operations.
Context {S E : Type} `{!Overflow, !Store S (Frame E), !Store S PriceStore, !Inject PriceEvent E}.
Context `{!OracleMixedIn S}.
(** [T::ReportOrigin::ensure_origin] and [T::OnChange]. *)
Context (report_origin : origin -> M S AccountId) (on_change : Price -> M S unit).

(** The map and push of [add_price]. *)
Definition replace_price (who : AccountId) (p : Price) (l : list PriceReport)
    : list PriceReport :=
  map (fun x => if bool_decide (reporter x = who) then x <| price := p |> else x) l.
Definition found (who : AccountId) (l : list PriceReport) : bool :=
  existsb (fun x => bool_decide (reporter x = who)) l.

Definition add_price (who : AccountId) (p : Price) : M S unit :=
  price_reports ← gets PriceReports;
  let updated := replace_price who p price_reports in
  let updated := if found who price_reports then updated else updated ++ [MkPriceReport who p] in
  modify (fun st => st <| PriceReports := updated |>) ;;
  on_witnessed who ;;
  deposit_event (E:=E) (PriceReported who p).

Definition report (o : origin) (p : Price) : M S unit :=
  who ← report_origin o;
  ignore (add_price who p).

Fixpoint filter_valid (l : list PriceReport) : M S (list PriceReport) :=
  match l with
  | [] => mret []
  | x :: l =>
      b ← is_valid (reporter x);
      rest ← filter_valid l;
      mret (if (b : bool) then x :: rest else rest)
  end.

Definition on_finalize : M S unit :=
  old_price ← gets CurrentPrice;
  prices ← gets (fun st => price <$> PriceReports st);
  (if decide (0 < length prices)%nat then
     median_price ← lift (median prices);
     if decide (old_price = median_price) then mret tt
     else
       modify (fun st => st <| CurrentPrice := median_price |>) ;;
       on_change median_price ;;
       deposit_event (E:=E) (PriceChanged median_price)
   else mret tt) ;;
  all ← gets PriceReports;
  reports ← filter_valid all;
  modify (fun st => st <| PriceReports := reports |>).
End operations.
End RioPrice.
