(* ===== verification/PriceFacts.v ===== *)
(** * Oracles and prices: the reports, the median and the end of a block *)
From S2P Require Export Price Demo.
#[local] Open Scope Z_scope.
Import RioPrice.

(** ** The interface of the oracle pallet

    [valid who s]: the oracle's last report is recent enough. *)
Class OracleSpec (S E : Type) `{!Store S (Frame E), !Store S PriceStore, !OracleMixedIn S} := {
  oracle_inv : S -> Prop;
  valid : AccountId -> S -> bool;
  is_valid_run who s : oracle_inv s -> is_valid who s = Ok (valid who s) s;
  on_witnessed_run who s : oracle_inv s -> exists s', on_witnessed who s = Ok tt s' /\
    oracle_inv s' /\ valid who s' = true /\ (forall w, w <> who -> valid w s' = valid w s) /\
    sget (T:=PriceStore) s' = sget s /\ sget (T:=Frame E) s' = sget s;
  valid_price who (st : PriceStore) s : valid who (sput st s) = valid who s;
  valid_frame who (f : Frame E) s :
    block_number f = block_number (sget (T:=Frame E) s) -> valid who (sput f s) = valid who s;
  oracle_inv_price (st : PriceStore) s : oracle_inv s -> oracle_inv (sput st s);
  oracle_inv_frame (f : Frame E) s :
    block_number f = block_number (sget (T:=Frame E) s) -> oracle_inv s -> oracle_inv (sput f s);
}.

(** ** [rio-oracle] implements it *)
Section oracle.
Context {S E : Type} `{!Overflow, !Store S (Frame E), !Store S OracleStore, !Store S PriceStore}.
Context `{!Separate S (Frame E) OracleStore, !Separate S (Frame E) PriceStore}.
Context `{!Separate S OracleStore PriceStore}.
Context (interval : BlockNumber) (Hinterval : 0 <= interval).
#[local] Abbreviation height s := (block_number (sget (T:=Frame E) s)).

(** No report is from the future, and no deadline overflows. *)
Definition reports_past (s : S) : Prop :=
  0 <= height s /\ height s + interval < 2 ^ block_number_bits /\
  forall who h, WitnessReport (sget s) !! who = Some h -> 0 <= h <= height s.

Lemma report_height_past s who :
  reports_past s -> 0 <= get_or 0 (WitnessReport (sget s)) who <= height s.
Proof.
  intros (? & _ & Hr). unfold get_or. destruct (_ !! who) eqn:He; cbn; [by eapply Hr|lia].
Qed.

Definition rio_oracle_spec :
  @OracleSpec S E _ _ (RioOracle.rio_oracle (E:=E) interval).
Proof.
  refine (@Build_OracleSpec S E _ _ (RioOracle.rio_oracle (E:=E) interval) reports_past
    (fun who s => bool_decide (height s <= get_or 0 (WitnessReport (sget s)) who + interval))
    _ _ _ _ _ _).
  - intros who s Hs. pose proof (report_height_past s who Hs). destruct Hs as (? & ? & _).
    cbn [is_valid RioOracle.rio_oracle]. unfold RioOracle.is_valid. run.
    by rewrite uadd_ok by (unfold in_width; lia).
  - intros who s (? & ? & Hr). cbn [on_witnessed RioOracle.rio_oracle].
    unfold RioOracle.on_witnessed. run. eexists; split; [done|]. unfold reports_past. store.
    split_and!; try done.
    + intros w h [[<- <-]|[_ ?]]%lookup_insert_Some; [lia|by eapply Hr].
    + unfold get_or. rewrite lookup_insert_eq. cbn. apply bool_decide_true. lia.
    + intros w Hw. unfold get_or. by rewrite lookup_insert_ne.
  - intros. by store.
  - intros who f s Hf. store. by rewrite Hf.
  - intros st s Hs. unfold reports_past in *. by store.
  - intros f s Hf Hs. unfold reports_past in *. store. by rewrite Hf.
Defined.
End oracle.

(** ** The median *)
Section median.
Context `{!Overflow}.
Implicit Types (l : list Price) (x lo hi : Price).

Definition count (P : Z -> Prop) `{!forall x, Decision (P x)} l : nat := length (filter P l).

Lemma count_Forall P `{!forall x, Decision (P x)} l : Forall P l -> count P l = length l.
Proof. unfold count. induction 1 as [|x l Hx _ IH]; [done|]. rewrite filter_cons_True by done. cbn. lia. Qed.
Lemma count_app P `{!forall x, Decision (P x)} l1 l2 :
  count P (l1 ++ l2) = (count P l1 + count P l2)%nat.
Proof. unfold count. by rewrite filter_app, length_app. Qed.
Lemma count_perm P `{!forall x, Decision (P x)} l1 l2 : l1 ≡ₚ l2 -> count P l1 = count P l2.
Proof. unfold count. by intros ->. Qed.

(** Three disjoint ranges cover a list. *)
Lemma count_ranges lo hi l :
  lo <= hi ->
  (count (fun x => (x < lo)%Z) l + count (fun x => (lo <= x <= hi)%Z) l
   + count (fun x => (hi < x)%Z) l = length l)%nat.
Proof.
  intros Hle. unfold count. induction l as [|x l IH]; [done|]. rewrite !filter_cons.
  repeat case_decide; cbn; lia.
Qed.

Lemma merge_sort_sorted l : StronglySorted Z.le (merge_sort Z.le l).
Proof. apply StronglySorted_merge_sort; apply _. Qed.
Lemma merge_sort_length l : length (merge_sort Z.le l) = length l.
Proof. by rewrite (merge_sort_Permutation Z.le l). Qed.

(** In a sorted list, an element bounds those before it from above and those
    after it from below. *)
Lemma sorted_below s i x lo :
  StronglySorted Z.le s -> s !! i = Some x -> x < lo -> (i < count (fun y => (y < lo)%Z) s)%nat.
Proof.
  intros Hs Hi Hx. pose proof (take_drop_middle s i x Hi) as Heq.
  rewrite <-Heq in Hs |- *. rewrite count_app.
  assert (Forall (fun y => y < lo) (take i s)) as Hf.
  { apply Forall_forall. intros y Hy.
    pose proof (StronglySorted_app_1_elem_of Z.le _ _ y x Hs Hy). cut (y <= x); [lia|].
    apply H0. constructor. }
  rewrite count_Forall by done. rewrite length_take.
  assert (i < length s)%nat by (by eapply lookup_lt_Some).
  unfold count at 1. rewrite filter_cons_True by done. cbn. lia.
Qed.
Lemma sorted_above s i x hi :
  StronglySorted Z.le s -> s !! i = Some x -> hi < x ->
  (length s - i <= count (fun y => (hi < y)%Z) s)%nat.
Proof.
  intros Hs Hi Hx. pose proof (take_drop_middle s i x Hi) as Heq.
  assert (i < length s)%nat by (by eapply lookup_lt_Some).
  rewrite <-Heq in Hs. pose proof (StronglySorted_app_1_r Z.le _ _ Hs) as Htail.
  apply StronglySorted_inv in Htail as [_ Htail].
  assert (Forall (fun y => hi < y) (x :: drop (Datatypes.S i) s)) as Hf.
  { constructor; [done|]. eapply Forall_impl; [exact Htail|]. cbn. lia. }
  rewrite <-Heq at 2. rewrite count_app, (count_Forall _ (x :: _)) by done. cbn [length].
  rewrite length_drop. lia.
Qed.

Lemma mean_pair a b :
  0 <= a -> 0 <= b -> a + b < 2 ^ price_bits -> mean [a; b] = Some ((a + b) / 2).
Proof.
  intros. unfold mean, sum. cbn [foldl mbind option_bind].
  rewrite uadd_ok by (unfold in_width; lia). cbn [mbind option_bind].
  rewrite uadd_ok by (unfold in_width; lia). cbn [mbind option_bind].
  rewrite udiv_ok by done. done.
Qed.

(** The middle elements of a sorted list lie in any range that holds a strict
    majority of its elements. *)
Lemma sorted_middle s lo hi i x :
  StronglySorted Z.le s -> lo <= hi ->
  (length s < 2 * count (fun x => (lo <= x <= hi)%Z) s)%nat ->
  (length s - 1 <= 2 * i + 1 <= length s + 1)%nat -> s !! i = Some x -> lo <= x <= hi.
Proof.
  intros Hs Hle Hmaj Hi Hx. pose proof (count_ranges lo hi s Hle) as Hcount. split.
  - destruct (decide (lo <= x)) as [|Hlt]; [done|].
    pose proof (sorted_below s i x lo Hs Hx ltac:(lia)). lia.
  - destruct (decide (x <= hi)) as [|Hlt]; [done|].
    pose proof (sorted_above s i x hi Hs Hx ltac:(lia)). lia.
Qed.

(** C9: a minority of the oracles cannot move the price out of the range of the
    others: when more than half of the reports lie between two bounds, the median
    exists and lies between them. *)
Theorem median_majority l lo hi :
  0 <= lo <= hi -> hi < 2 ^ 127 ->
  (length l < 2 * count (fun x => (lo <= x <= hi)%Z) l)%nat ->
  exists m, median l = Some m /\ lo <= m <= hi.
Proof.
  intros Hlo Hhi Hmaj. unfold median. set (s := merge_sort Z.le l).
  assert (s ≡ₚ l) as Hperm by apply merge_sort_Permutation.
  pose proof (merge_sort_sorted l) as Hs. fold s in Hs.
  rewrite <-(count_perm _ _ _ Hperm), <-(Permutation_length Hperm) in Hmaj.
  assert (0 < length s)%nat as Hpos.
  { destruct s as [|y s']; [cbn in Hmaj; lia|cbn; lia]. }
  assert (forall i x, (length s - 1 <= 2 * i + 1 <= length s + 1)%nat -> s !! i = Some x ->
    lo <= x <= hi) as Hmid by (intros i x; apply sorted_middle; [done|lia|done]).
  case_decide as Hone.
  { destruct (lookup_lt_is_Some_2 s 0) as [x Hx]; [lia|]. exists x. split; [done|].
    apply (Hmid 0%nat); [lia|done]. }
  pose proof (Nat.div_mod_eq (length s) 2). pose proof (Nat.mod_upper_bound (length s) 2).
  case_decide as Heven.
  - destruct (lookup_lt_is_Some_2 s (length s / 2 - 1)) as [a Ha]; [lia|].
    destruct (lookup_lt_is_Some_2 s (length s / 2)) as [b Hb]; [lia|].
    pose proof (Hmid (length s / 2 - 1)%nat a ltac:(lia) Ha).
    pose proof (Hmid (length s / 2)%nat b ltac:(lia) Hb).
    rewrite Ha, Hb. cbn [mbind option_bind]. unfold price_bits.
    rewrite mean_pair by (unfold price_bits; lia). eexists; split; [done|].
    pose proof (Z.div_mod (a + b) 2 ltac:(lia)). pose proof (Z.mod_pos_bound (a + b) 2 ltac:(lia)). lia.
  - destruct (lookup_lt_is_Some_2 s (length s / 2)) as [b Hb]; [lia|].
    exists b. split; [done|]. apply (Hmid (length s / 2)%nat); [lia|done].
Qed.
End median.

(** ** The list of reports *)
Lemma found_spec who l : found who l = true <-> who ∈ reporter <$> l.
Proof.
  unfold found. induction l as [|x l IH]; cbn; [set_solver|].
  rewrite orb_true_iff, bool_decide_eq_true, IH. set_solver.
Qed.

Lemma replace_reporters who p l : reporter <$> replace_price who p l = reporter <$> l.
Proof.
  unfold replace_price. induction l as [|x l IH]; [done|]. cbn. rewrite IH. f_equal.
  by case_bool_decide.
Qed.

Lemma replace_price_in who p l w q :
  MkPriceReport w q ∈ replace_price who p l <->
  (if decide (w = who) then q = p /\ who ∈ reporter <$> l else MkPriceReport w q ∈ l).
Proof.
  unfold replace_price. induction l as [|[v r] l IH]; cbn; [case_decide; set_solver|].
  rewrite elem_of_cons, IH. case_bool_decide as Hv; cbn in Hv; subst; unfold set_field; cbn.
  - case_decide; subst; rewrite !elem_of_cons; naive_solver.
  - case_decide; subst; rewrite !elem_of_cons; naive_solver.
Qed.

Definition updated_reports who p l : list PriceReport :=
  if found who l then replace_price who p l else replace_price who p l ++ [MkPriceReport who p].

Lemma updated_reports_spec who p l :
  NoDup (reporter <$> l) ->
  NoDup (reporter <$> updated_reports who p l) /\
  forall w q, MkPriceReport w q ∈ updated_reports who p l <->
    (if decide (w = who) then q = p else MkPriceReport w q ∈ l).
Proof.
  intros Hnd. unfold updated_reports. destruct (found who l) eqn:Hf.
  - apply found_spec in Hf. split; [by rewrite replace_reporters|].
    intros w q. rewrite replace_price_in. case_decide; naive_solver.
  - assert (who ∉ reporter <$> l) as Hn by (rewrite <-found_spec; congruence). split.
    + rewrite fmap_app, replace_reporters. apply NoDup_app. split_and!; [done| |apply NoDup_singleton].
      set_solver.
    + intros w q. rewrite elem_of_app, replace_price_in, list_elem_of_singleton.
      case_decide; naive_solver.
Qed.

(** ** The price pallet, against the interface of the oracles *)
Section price.
Context {S E : Type} `{!Overflow, !Store S (Frame E), !Store S PriceStore, !Inject PriceEvent E}.
Context `{!Separate S (Frame E) PriceStore, !OracleMixedIn S, !OracleSpec S E}.
Context (report_origin : origin -> M S AccountId).
Implicit Types (s : S) (l : list PriceReport).
#[local] Abbreviation pst := (sget (T:=PriceStore)).

(** C20: a report of an authorised oracle always succeeds: it replaces the oracle's
    earlier report or adds one, keeps one report per oracle, leaves the others'
    reports and the current price alone, and makes the oracle valid; a refused
    origin changes nothing. *)
Theorem report_spec o p s :
  oracle_inv s -> NoDup (reporter <$> PriceReports (pst s)) ->
  (forall who, report_origin o s = Ok who s ->
   exists s', report (E:=E) report_origin o p s = Ok tt s' /\ oracle_inv s' /\
     NoDup (reporter <$> PriceReports (pst s')) /\
     (forall w q, MkPriceReport w q ∈ PriceReports (pst s') <->
        (if decide (w = who) then q = p else MkPriceReport w q ∈ PriceReports (pst s))) /\
     valid who s' = true /\ CurrentPrice (pst s') = CurrentPrice (pst s) /\
     events (sget (T:=Frame E) s') =
       events (sget (T:=Frame E) s) ++ [inject (PriceReported who p)]) /\
  (forall e, report_origin o s = Err e s -> report (E:=E) report_origin o p s = Err e s).
Proof.
  intros Hi Hnd. unfold report. split.
  - intros who Ho. run. rewrite Ho. unfold add_price. run.
    change (if found who (PriceReports (pst s)) then _ else _)
      with (updated_reports who p (PriceReports (pst s))).
    set (st := set_field PriceReports _ (pst s)).
    destruct (on_witnessed_run who (sput st s)) as (s' & Hr & Hi' & Hv & _ & Hp & Hf).
    { by apply oracle_inv_price. }
    rewrite Hr. eexists; split; [done|]. store. rewrite Hp, Hf. store.
    destruct (updated_reports_spec who p (PriceReports (pst s)) Hnd) as [Hnd' Hin].
    split_and!; try done; [apply oracle_inv_frame; [rewrite Hf; by store|done]|].
    rewrite valid_frame; [done|]. rewrite Hf. by store.
  - intros e Ho. run. by rewrite Ho.
Qed.

Lemma filter_valid_run l s :
  oracle_inv s -> filter_valid l s = Ok (filter (fun x => valid (reporter x) s = true) l) s.
Proof.
  intros Hi. induction l as [|x l IH]; [done|]. cbn [filter_valid]. run.
  rewrite is_valid_run by done. rewrite IH. rewrite filter_cons.
  destruct (valid (reporter x) s) eqn:Hv; [by rewrite decide_True|by rewrite decide_False].
Qed.

(** A hook on a change of the price that returns and leaves the prices and the oracles
    alone; what it does to the rest of the storage is its own. *)
Definition hook_fits (on_change : Price -> M S unit) : Prop :=
  forall p s, oracle_inv s -> exists s', on_change p s = Ok tt s' /\ oracle_inv s' /\
    pst s' = pst s /\ forall w, valid w s' = valid w s.

(** The run up to the last step: without reports, or when the median is the current
    price, nothing happens; otherwise the price is set, the hook runs once with it, and
    the change is announced. *)
Definition priced (on_change : Price -> M S unit) (s s1 : S) : Prop :=
  let l := PriceReports (pst s) in
  let m := default 0 (median (price <$> l)) in
  if decide (l = [] \/ m = CurrentPrice (pst s)) then s1 = s
  else exists s2, on_change m (sput ((pst s) <| CurrentPrice := m |>) s) = Ok tt s2 /\
    deposit_event (E:=E) (PriceChanged m) s2 = Ok tt s1.

(** C14: at the end of a block the price becomes the median of all the reports; when it
    changes, and only then, the hook on a change runs, once, with the new price, which is
    stored by then, and the change is announced; then the reports of the oracles that
    are no longer valid are dropped and nothing else is written; without reports the
    price stays.  It holds for every hook that returns and leaves the prices and the
    oracles alone.  It panics only if the median does, which two middle prices below
    [2^127] exclude. *)
Theorem on_finalize_spec on_change s :
  hook_fits on_change -> oracle_inv s ->
  let l := PriceReports (pst s) in
  let kept := filter (fun x => valid (reporter x) s = true) l in
  let now := if decide (l = []) then CurrentPrice (pst s) else default 0 (median (price <$> l)) in
  wp (on_finalize (E:=E) on_change)
    (fun _ s' =>
       PriceReports (pst s') = kept /\
       CurrentPrice (pst s') = now /\
       exists s1, priced on_change s s1 /\ s' = sput ((pst s1) <| PriceReports := kept |>) s1)
    (fun _ _ => False) (median (price <$> l) = None) s.
Proof.
  intros Hhook Hi l kept now.
  assert (forall s1, oracle_inv s1 -> (forall w, valid w s1 = valid w s) ->
    PriceReports (pst s1) = l -> priced on_change s s1 ->
    CurrentPrice (pst s1) = now ->
    wp (all ← gets PriceReports; reports ← filter_valid all;
        modify (fun st : PriceStore => st <| PriceReports := reports |>))
      (fun _ s' => PriceReports (pst s') = kept /\
         CurrentPrice (pst s') = now /\
         exists s1, priced on_change s s1 /\ s' = sput ((pst s1) <| PriceReports := kept |>) s1)
      (fun _ _ => False) (median (price <$> l) = None) s1) as Htail.
  { intros s1 Hi1 Hv1 Hl1 Hp1 Hc1. do 3 wp_step. rewrite Hl1.
    eapply wp_run_Ok; [by apply filter_valid_run|]. wp_step.
    assert (filter (fun x => valid (reporter x) s1 = true) l = kept) as ->
      by (apply list_filter_iff; intros x; by rewrite Hv1).
    store. split; [done|]. split; [exact Hc1|]. by exists s1. }
  unfold on_finalize. do 5 wp_step.
  fold l. destruct (decide (0 < length (price <$> l))%nat) as [Hpos|Hz].
  - assert (l <> []) as Hne by (intros ->; cbn in Hpos; lia).
    wp_step. apply wp_lift. split; [intros m Hm|done].
    case_decide as Hsame.
    + rewrite wp_ret. wp_apply (Htail s); [done|done|done| | |done|done|done].
      * unfold priced. fold l. rewrite Hm. cbn. by rewrite decide_True by (by right).
      * unfold now. by rewrite decide_False, Hm.
    + wp_step. wp_step. set (s1 := sput _ s). wp_step.
      destruct (Hhook m s1) as (s2 & Hr & Hi2 & Hp2 & Hv2); [by apply oracle_inv_price|].
      eapply wp_run_Ok; [exact Hr|]. wp_step. set (s3 := sput _ s2).
      assert (pst s3 = pst s1) as Hp3 by (unfold s3; store; exact Hp2).
      assert (pst s1 = (pst s) <| CurrentPrice := m |>) as Hp1 by (unfold s1; by store).
      wp_apply (Htail s3); [| | | | |done|done|done].
      * unfold s3. by apply oracle_inv_frame.
      * intros w. unfold s3. rewrite valid_frame by (by store). rewrite Hv2. apply valid_price.
      * by rewrite Hp3, Hp1.
      * unfold priced. fold l. rewrite Hm. cbn [default]. rewrite decide_False by naive_solver.
        exists s2. split; [exact Hr|done].
      * unfold now. by rewrite Hp3, Hp1, decide_False, Hm.
  - assert (l = []) as Hnil by (destruct l; [done|cbn in Hz; lia]).
    wp_step. wp_apply (Htail s); [done|done|done| | |done|done|done].
    + unfold priced. fold l. by rewrite decide_True by (by left).
    + unfold now. by rewrite decide_True.
Qed.
End price.

(** ** Instances on a concrete chain: the price pallet over [rio-oracle] *)
Section witnesses.
Import Demo.
Definition price_chain : Type := (Frame PriceEvent * (OracleStore * (PriceStore * unit)))%type.
Definition demo_oracle : OracleMixedIn price_chain := RioOracle.rio_oracle (E:=PriceEvent) 100.
#[local] Existing Instance demo_oracle.
Definition demo_oracle_spec : OracleSpec price_chain PriceEvent :=
  rio_oracle_spec 100 ltac:(lia).
#[local] Existing Instance demo_oracle_spec.
Definition demo_reports : list PriceReport :=
  [MkPriceReport 1%N 10; MkPriceReport 2%N 900; MkPriceReport 3%N 12].
Definition price_start : price_chain :=
  (frame, (MkOracleStore [] ∅, (MkPriceStore 7 demo_reports, tt))).
Definition anyone (o : origin) : M price_chain AccountId := ensure_signed o.

Lemma price_start_inv : oracle_inv price_start.
Proof.
  split; [by vm_compute|]. split; [by vm_compute|]. intros who h. cbn. by rewrite lookup_empty.
Defined.

Lemma median_majority_witness :
  median [10; 900; 12] = Some 12 /\ exists m, median [10; 900; 12] = Some m /\ 10 <= m <= 12.
Proof.
  split; [by vm_compute|]. apply (median_majority [10; 900; 12] 10 12); [lia|lia|].
  apply Nat.ltb_lt. by vm_compute.
Defined.

Lemma report_spec_witness :
  exists s', report (E:=PriceEvent) anyone (Signed 2%N) 11 price_start = Ok tt s' /\
    MkPriceReport 2%N 11 ∈ PriceReports (sget (T:=PriceStore) s').
Proof.
  destruct (report_spec anyone (Signed 2%N) 11 price_start price_start_inv) as [H _].
  - apply NoDup_cons. split; [set_solver|]. apply NoDup_cons. split; [set_solver|].
    apply NoDup_singleton.
  - destruct (H 2%N eq_refl) as (s' & Hr & _ & _ & Hin & _). exists s'. split; [exact Hr|].
    apply Hin. by rewrite decide_True.
Defined.

(** A listener that keeps the prices it hears of. *)
Definition listening_chain : Type :=
  (Frame PriceEvent * (OracleStore * (PriceStore * (list Price * unit))))%type.
Definition listening_oracle : OracleMixedIn listening_chain := RioOracle.rio_oracle (E:=PriceEvent) 100.
#[local] Existing Instance listening_oracle.
Definition listening_oracle_spec : OracleSpec listening_chain PriceEvent :=
  rio_oracle_spec 100 ltac:(lia).
#[local] Existing Instance listening_oracle_spec.
Definition listen (p : Price) : M listening_chain unit := modify (fun l : list Price => l ++ [p]).
Definition listening_start : listening_chain :=
  (frame, (MkOracleStore [] ∅, (MkPriceStore 7 demo_reports, ([], tt)))).

Lemma on_finalize_spec_witness :
  wp (on_finalize (E:=PriceEvent) listen)
    (fun _ s' => CurrentPrice (sget (T:=PriceStore) s') = 12 /\ sget (T:=list Price) s' = [12])
    (fun _ _ => False) False listening_start.
Proof.
  wp_apply (on_finalize_spec listen listening_start); [| | |done|].
  - intros p s Hi. eexists. split; [reflexivity|]. split; [exact Hi|]. by split.
  - split; [by vm_compute|]. split; [by vm_compute|]. intros who h. cbn. by rewrite lookup_empty.
  - intros [] s' (_ & H & s1 & Hp & ->). split; [rewrite H; by vm_compute|].
    change (sget (T:=list Price) s1 = [12]). unfold priced in Hp.
    rewrite decide_False in Hp by (intros [H1|H1]; vm_compute in H1; discriminate).
    destruct Hp as (s2 & H1 & H2). injection H1 as <-. injection H2 as <-. by vm_compute.
  - intros H. vm_compute in H. discriminate.
Defined.
End witnesses.
