(* ===== verification/RioRuntime.v ===== *)
(** * The runtime: [runtime/src/lib.rs]

    The pallets of [construct_runtime!] over one storage and one event type, their
    calls, the payment of a transaction, and the genesis from a configuration.
    [rio-saving] and [rio-loan] are commented out of the runtime. *)
From S2P Require Export Fee Price ChainSpec Bridge AssetsLedger.
#[local] Open Scope Z_scope.
Import NoHooks.

(** ** [enum Event]: the pallets' events and those of the Substrate pallets *)
Inductive Event (Other : Type) :=
| EvRioAssets (e : AssetsEvent)
| EvRioFee (e : FeeEvent)
| EvRioPrice (e : PriceEvent)
| EvRioBridge (e : BridgeEvent)
| EvSubstrate (e : Other).
Arguments EvRioAssets {Other}.
Arguments EvRioFee {Other}.
Arguments EvRioPrice {Other}.
Arguments EvRioBridge {Other}.
Arguments EvSubstrate {Other}.

(** The storage of the runtime's own pallets, next to the frame. *)
Definition State (Other : Type) : Type :=
  (Frame (Event Other) * (AssetsStore * (FeeStore * (PaymentStore * (OracleStore *
    (PriceStore * (BridgeStore * unit)))))))%type.

(** [enum Call]: the Substrate pallets dispatch these, they have no call of their
    own on this storage. *)
Inductive Call :=
| CallRioAssets (c : RioAssets.Call)
| CallRioFee (who : AccountId)
| CallRioPrice (p : Price)
| CallRioBridge (c : RioBridge.Call).

(** [parameter_types!]. *)
Definition MaximumBlockWeight : Weight := 1000000000.
Definition ReportInteval : BlockNumber := 10.

Section runtime.
Context {Other : Type} `{!Overflow}.
#[export] Instance inject_assets : Inject AssetsEvent (Event Other) | 0 := EvRioAssets.
#[export] Instance inject_fee : Inject FeeEvent (Event Other) | 0 := EvRioFee.
#[export] Instance inject_price : Inject PriceEvent (Event Other) | 0 := EvRioPrice.
#[export] Instance inject_bridge : Inject BridgeEvent (Event Other) | 0 := EvRioBridge.

(** [enum Origin] with what the checks of the pallets see of it: the origins that
    are not of system pass for none, and [EnsureMember] of the collective of the
    oracles is a function of the origin. *)
Context {Origin : Type} (system_origin : Origin -> origin).
Context (ensure_member : Origin -> option AccountId).
(** [Fixed64::saturated_multiply_accumulate]. *)
Context (accumulate : Multiplier -> Balance -> Balance).

#[local] Abbreviation E := (Event Other).
#[local] Abbreviation S := (State Other).

#[export] Instance payment : PaymentConfig := Runtime.payment_config MaximumBlockWeight accumulate.
#[export] Instance oracle : OracleMixedIn S := RioOracle.rio_oracle (E:=E) ReportInteval.

(** [NativeAsset<Runtime>] is the currency of RFUEL. *)
Definition NativeAsset : M S AssetId := AC.RFUELProvider.
Definition report_origin (o : Origin) : M S AccountId :=
  match ensure_member o with Some who => mret who | None => fail BadOrigin end.

Definition dispatch (o : Origin) (c : Call) : M S unit :=
  match c with
  | CallRioAssets c => RioAssets.dispatch (E:=E) (system_origin o) c
  | CallRioFee who => RioFee.set_account (E:=E) (system_origin o) who
  | CallRioPrice p => RioPrice.report (E:=E) (fun _ => report_origin o) (system_origin o) p
  | CallRioBridge c => RioBridge.dispatch (E:=E) (system_origin o) c
  end.

(** [ChargeTransactionPayment]: the payment goes to [rio-fee], which also exchanges
    the locked asset. *)
Definition charge (tip : Balance) (who : AccountId) (info : DispatchInfo) (len : Z) : M S Z :=
  RioTransactionPayment.validate NativeAsset (RioFee.on_unbalanced (E:=E) NativeAsset)
    RioFee.buy_fee_asset tip who info len.

(** The hooks at the end of a block; nothing listens to a change of the price. *)
Definition on_finalize (all_extrinsics_weight : Weight) : M S unit :=
  RioTransactionPayment.on_finalize all_extrinsics_weight ;;
  RioPrice.on_finalize (E:=E) (fun _ => mret tt).

(** ** The genesis: [GenesisConfig] builds the storage, from the defaults *)
Section genesis.
Context {Code AuraId GrandpaId : Type}.
#[local] Abbreviation Config := (GenesisConfig Code AuraId GrandpaId).

Definition genesis_storage (g : Config) : S :=
  (MkFrame [] 0 None 0 (default default_account (sudo_config_key <$> sudo g)),
   (AssetsStore_empty,
    (MkFeeStore (default default_account (fee_account_id <$> rio_fee g)),
     (MkPaymentStore 0,
      (MkOracleStore [] ∅,
       (MkPriceStore 0 [],
        (match rio_bridge g with
         | Some b => genesis (bridge_asset_id b) (bridge_threshold b) (bridge_vault b) (bridge_admins b)
         | None => genesis 0 0 default_account []
         end, tt))))))).
Definition build_storage (g : Config) : M S unit :=
  match rio_assets g with
  | Some c => RioAssets.genesis_build (E:=E) (assets_symbols c) (assets_root c)
  | None => mret tt
  end.
End genesis.

(** ** The runs of the runtime

    A step dispatches a call of one of its pallets, whatever its origin and
    outcome (in a transaction of its own, in a batch, by sudo or by a motion),
    charges a transaction, ends a block, or is a step of the Substrate pallets,
    which write the frame and deposit events of their own.  The log of the events
    runs over all blocks. *)
Definition well_sized (c : Call) : Prop :=
  match c with
  | CallRioAssets c => in_width balance_bits (RioAssets.call_amount c)
  | CallRioFee _ => True
  | CallRioPrice p => in_width price_bits p
  | CallRioBridge c => in_width balance_bits (RioBridge.call_amount c)
  end.
(** Twice the fuel fits a balance: a payment creates the fee before it destroys
    it. *)
Definition fuel_fits (s : S) : Prop :=
  2 * (total_issuance RFUEL (sget s) + total_issuance LOCKED_RFUEL (sget s)) < 2 ^ balance_bits.

(** [permitted] restricts the calls that are dispatched. *)
Inductive runtime_step (permitted : Origin -> Call -> Prop) (s : S) : S -> Prop :=
| step_dispatch o c s' : permitted o c -> well_sized c -> leads (dispatch o c) s s' ->
    runtime_step permitted s s'
| step_charge tip who info len s' : in_width balance_bits tip -> fuel_fits s ->
    leads (charge tip who info len) s s' -> runtime_step permitted s s'
| step_finalize w s' : leads (on_finalize w) s s' -> runtime_step permitted s s'
| step_frame (f : Frame E) (l : list Other) :
    events f = events (sget (T:=Frame E) s) ++ (EvSubstrate <$> l) ->
    runtime_step permitted s (sput f s).
End runtime.
