(* ===== verification/RioRuntimeFacts.v ===== *)
(** * The runtime: what each part writes, and the invariants of the composition *)
From S2P Require Export RioRuntime BridgeSupply FeeFacts PriceFacts AssetsProps.
#[local] Open Scope Z_scope.
Import NoHooks.

Section footprints.
Context {Other : Type} `{!Overflow}.
Context {Origin : Type} (system_origin : Origin -> origin).
Context (ensure_member : Origin -> option AccountId).
Context (accumulate : Multiplier -> Balance -> Balance).
#[local] Abbreviation E := (Event Other).
#[local] Abbreviation S := (State Other).
#[local] Existing Instance payment.
Implicit Types (s : S).

(** The events of the bridge, among those of the runtime. *)
Definition bridge_event (e : E) : option BridgeEvent :=
  match e with EvRioBridge b => Some b | _ => None end.
#[export, program] Instance bridge_events : EventLog BridgeEvent E := {|
  event_of := bridge_event |}.
Next Obligation. done. Qed.
Next Obligation. by intros e [ev ->]. Qed.
Lemma bridge_foreign : foreign (S:=S) BridgeStore _.
Proof. split; apply _. Qed.
#[local] Abbreviation bridge_log := (client_log (E:=E) (Ev:=BridgeEvent) (S:=S)).

(** ** What a part leaves alone *)
Definition off_bridge s s' : Prop :=
  sget (T:=BridgeStore) s' = sget s /\ bridge_log s' = bridge_log s.
Definition off_price s s' : Prop := sget (T:=PriceStore) s' = sget s.
Definition off_ledger s s' : Prop := sget (T:=AssetsStore) s' = sget s.
(** The symbols and the permissions of the ledger. *)
Definition off_symbols s s' : Prop :=
  Symbols (sget (T:=AssetsStore) s') = Symbols (sget s).
Definition off_permissions s s' : Prop :=
  Permissions (sget (T:=AssetsStore) s') = Permissions (sget s).

#[export] Instance off_bridge_preorder : PreOrder off_bridge.
Proof. split; [done|]. intros s1 s2 s3 [? ?] [? ?]. split; congruence. Qed.
#[export] Instance off_price_preorder : PreOrder off_price.
Proof. split; [done|]. intros s1 s2 s3 ? ?. unfold off_price in *. congruence. Qed.
#[export] Instance off_ledger_preorder : PreOrder off_ledger.
Proof. split; [done|]. intros s1 s2 s3 ? ?. unfold off_ledger in *. congruence. Qed.
#[export] Instance off_symbols_preorder : PreOrder off_symbols.
Proof. split; [done|]. intros s1 s2 s3 ? ?. unfold off_symbols in *. congruence. Qed.
#[export] Instance off_permissions_preorder : PreOrder off_permissions.
Proof. split; [done|]. intros s1 s2 s3 ? ?. unfold off_permissions in *. congruence. Qed.

(** A write of one store, seen from the others. *)
Ltac off_write :=
  apply preserves_modify; intros ?;
  first [done
        | split; [done|]; unfold client_log; cbn [sget sput store_fst store_snd fst snd];
          try (unfold set_field; cbn [events]); rewrite ?omap_app; cbn; by rewrite ?app_nil_r].
#[local] Hint Extern 2 (preserves _ (modify _)) => off_write : preserves.
#[local] Hint Extern 2 (preserves _ (deposit_event _)) => unfold deposit_event; off_write : preserves.
#[local] Ltac off_assets :=
  unfold RioAssets.genesis_asset, RioAssets.dispatch, RioAssets.create, RioAssets.transfer, RioAssets.update_permission,
    RioAssets.update_restriction, RioAssets.mint, RioAssets.burn, RioAssets.set_reserve,
    RioAssets.set_unreserve, RioAssets.create_asset,
    RioAssets.make_transfer_with_event, RioAssets.make_transfer, RioAssets.mint_free,
    RioAssets.burn_free, RioAssets.reserve, RioAssets.unreserve, RioAssets.should_exist,
    RioAssets.should_not_exist, RioAssets.check_permission, RioAssets.ensure_can_withdraw,
    RioAssets.can_do, RioAssets.set_free_balance, RioAssets.set_reserved_balance,
    RioAssets.set_total_issuance, RioAssets.root_key, before_asset_transfer, on_asset_transfer,
    before_asset_mint, on_asset_mint, before_asset_burn, on_asset_burn, before_transfer,
    on_transfer, before_mint, on_mint, before_burn, on_burn;
  cbv zeta; preserves_steps.

(** *** The ledger *)
Lemma assets_off_bridge o c : preserves off_bridge (RioAssets.dispatch (S:=S) (E:=E) o c).
Proof. destruct c; off_assets. Qed.
Lemma assets_off_price o c : preserves off_price (RioAssets.dispatch (S:=S) (E:=E) o c).
Proof. destruct c; off_assets. Qed.
Lemma genesis_preserves (R : S -> S -> Prop) `{!PreOrder R} l root :
  (forall c, preserves R (RioAssets.genesis_asset (E:=E) root c)) ->
  preserves R (RioAssets.genesis_build (S:=S) (E:=E) l root).
Proof. intros Hc. unfold RioAssets.genesis_build. preserves_steps. Qed.
Lemma genesis_off_bridge l root : preserves off_bridge (RioAssets.genesis_build (S:=S) (E:=E) l root).
Proof. apply genesis_preserves; [apply _|]. intros [[[id sym] rs] en]. off_assets. Qed.
Lemma genesis_off_price l root : preserves off_price (RioAssets.genesis_build (S:=S) (E:=E) l root).
Proof. apply genesis_preserves; [apply _|]. intros [[[id sym] rs] en]. off_assets. Qed.

(** *** The payment *)
#[local] Ltac off_fees :=
  unfold charge, RioTransactionPayment.validate, RioTransactionPayment.compute_fee,
    RioFee.on_unbalanced, RioFee.on_nonzero_unbalanced, RioFee.buy_fee_asset,
    make_transfer_between_assets, exchange, AC.FromToContext_new,
    AC.FromAssetIdProvider, AC.ToAssetIdProvider, NativeAsset, AC.RFUELProvider, AC.withdraw,
    AC.deposit_creating, AC.make_free_balance_be, AC.drop_positive, AC.drop_negative,
    AC.free_balance, AC.ensure_can_withdraw; off_assets.
Lemma charge_off_bridge tip who info len :
  preserves off_bridge (charge (Other:=Other) accumulate tip who info len).
Proof. off_fees. Qed.
Lemma charge_off_price tip who info len :
  preserves off_price (charge (Other:=Other) accumulate tip who info len).
Proof. off_fees. Qed.
Lemma charge_off_symbols tip who info len :
  preserves off_symbols (charge (Other:=Other) accumulate tip who info len).
Proof. off_fees. Qed.
Lemma charge_off_permissions tip who info len :
  preserves off_permissions (charge (Other:=Other) accumulate tip who info len).
Proof. off_fees. Qed.

(** *** The fee account, the reports and the end of a block *)
Lemma set_account_off_ledger o who : preserves off_ledger (RioFee.set_account (S:=S) (E:=E) o who).
Proof. unfold RioFee.set_account. preserves_steps. Qed.
Lemma set_account_off_bridge o who : preserves off_bridge (RioFee.set_account (S:=S) (E:=E) o who).
Proof. unfold RioFee.set_account. preserves_steps. Qed.
Lemma set_account_off_price o who : preserves off_price (RioFee.set_account (S:=S) (E:=E) o who).
Proof. unfold RioFee.set_account. preserves_steps. Qed.

#[local] Ltac off_prices :=
  unfold RioPrice.report, RioPrice.add_price, report_origin, on_finalize, RioPrice.on_finalize,
    RioTransactionPayment.on_finalize; cbn [on_witnessed is_valid oracle RioOracle.rio_oracle];
    unfold RioOracle.on_witnessed, RioOracle.is_valid; preserves_steps.
Lemma filter_valid_preserves (R : S -> S -> Prop) `{!PreOrder R} l :
  preserves R (RioPrice.filter_valid (S:=S) l).
Proof.
  induction l as [|r l IH]; cbn [RioPrice.filter_valid]; off_prices.
Qed.
#[local] Hint Resolve filter_valid_preserves : preserves.
Lemma report_off_ledger o o' p :
  preserves off_ledger
    (RioPrice.report (S:=S) (E:=E) (fun _ => report_origin ensure_member o) o' p).
Proof. off_prices. Qed.
Lemma report_off_bridge o o' p :
  preserves off_bridge
    (RioPrice.report (S:=S) (E:=E) (fun _ => report_origin ensure_member o) o' p).
Proof. off_prices. Qed.
Lemma finalize_off_ledger w : preserves off_ledger (on_finalize (Other:=Other) accumulate w).
Proof. off_prices. Qed.
Lemma finalize_off_bridge w : preserves off_bridge (on_finalize (Other:=Other) accumulate w).
Proof. off_prices. Qed.

(** *** The bridge *)
#[local] Ltac off_bridge_calls :=
  unfold RioBridge.dispatch, RioBridge.pause, RioBridge.resume, RioBridge.delete_admin,
    RioBridge.update_admin, RioBridge.deposit, RioBridge.refund, RioBridge.withdraw_finish,
    RioBridge.withdraw, RioBridge.mark_black, RioBridge.mark_white,
    RioBridge.simple_deposit_with_event, RioBridge.hold_deposit_with_event,
    RioBridge.remove_from_pending_withdraws, RioBridge.mark_with_event, RioBridge.mark;
  cbn [make_transfer_with_event mint burn rio_assets_ledger]; off_assets.
Lemma mark_white_loop_preserves (R : S -> S -> Prop) `{!PreOrder R} who l :
  (forall f : BridgeStore -> BridgeStore, preserves R (modify (S:=S) f)) ->
  (forall e : BridgeEvent, preserves R (deposit_event (S:=S) (E:=E) e)) ->
  (forall a w x, preserves R (mint (S:=S) Root a w x)) ->
  preserves R (RioBridge.mark_white_loop (S:=S) (E:=E) who l).
Proof.
  intros Hw He Hm. induction l as [|v l IH]; cbn [RioBridge.mark_white_loop];
    unfold RioBridge.simple_deposit_with_event; preserves_steps.
Qed.
#[local] Ltac off_marks :=
  off_bridge_calls;
  try (apply mark_white_loop_preserves; [typeclasses eauto|intros; preserves_steps..|intros];
       cbn [mint rio_assets_ledger]; off_assets).
Lemma bridge_off_price o c : preserves off_price (RioBridge.dispatch (S:=S) (E:=E) o c).
Proof. destruct c; off_marks. Qed.
Lemma bridge_off_symbols o c : preserves off_symbols (RioBridge.dispatch (S:=S) (E:=E) o c).
Proof. destruct c; off_marks. Qed.
End footprints.
