(* ===== verification/RioRuntimeProps.v ===== *)
(** * The runtime: safety over all runs, and the backing of SBTC *)
From S2P Require Export RioRuntimeFacts.
From stdpp Require Import relations.
#[local] Open Scope Z_scope.
Import NoHooks.

(** ** Calls that do not change an issuance *)
Section supply.
Context {S E : Type} `{!Overflow}.
Context `{!Store S (Frame E), !Store S AssetsStore, !Inject AssetsEvent E}.
Context `{!Separate S (Frame E) AssetsStore}.
Context (a : AssetId) (n : Balance).
#[local] Abbreviation any := (fun _ => True).

(** The asset exists with the issuance [n]. *)
Definition supply (s : S) : Prop :=
  asset_exists a (sget s) = true /\ total_issuance a (sget s) = n.
Definition keeps_supply (s s' : S) : Prop := supply s -> supply s'.
#[local] Instance keeps_supply_preorder : PreOrder keeps_supply.
Proof. split; [by intros s Hs|]. intros s1 s2 s3 H1 H2 Hs. by apply H2, H1. Qed.

Lemma supply_write (f : AssetsStore -> AssetsStore) :
  (forall st, asset_exists a st = true -> asset_exists a (f st) = true) ->
  (forall st, total_issuance a (f st) = total_issuance a st) ->
  preserves keeps_supply (modify f).
Proof.
  intros He Ht. apply preserves_modify. intros s [Hs1 Hs2]. unfold supply. store.
  rewrite Ht. split; [by apply He|done].
Qed.
Lemma supply_event (e : AssetsEvent) : preserves keeps_supply (deposit_event (E:=E) e).
Proof. apply preserves_modify. intros s Hs. unfold supply in *. by store. Qed.
Lemma supply_set_issuance b x : b <> a -> preserves keeps_supply (RioAssets.set_total_issuance b x).
Proof.
  intros Hb. apply supply_write; [done|]. intros st. rewrite total_issuance_set.
  by rewrite decide_False.
Qed.
Lemma supply_symbol b sym :
  preserves keeps_supply (modify (fun st : AssetsStore => st <| Symbols ::= <[b := sym]> |>)).
Proof.
  apply supply_write; [|done]. unfold asset_exists. intros st He. fields.
  destruct (decide (b = a)) as [->|Hb]; [by rewrite lookup_insert_eq|by rewrite lookup_insert_ne].
Qed.
#[local] Hint Resolve supply_event supply_symbol supply_set_issuance : preserves.
#[local] Hint Extern 2 (preserves _ (modify _)) => apply supply_write; done : preserves.

(** Where the asset exists, no other one of that id is created. *)
Lemma supply_create b sym who opts :
  preserves keeps_supply (RioAssets.create_asset (E:=E) b sym who opts).
Proof.
  destruct (decide (b = a)) as [->|Hb]; [|unfold RioAssets.create_asset, RioAssets.should_not_exist,
    RioAssets.set_free_balance; cbv zeta; preserves_steps].
  intros s. apply wp_intro; rewrite RioAssetsFacts.create_asset_eq;
    destruct (asset_exists a (sget s)) eqn:He; try done.
  - intros ? s' _ [Hs _]. congruence.
  - by intros ? s' [= _ <-].
Qed.
#[local] Hint Resolve supply_create : preserves.

(** Minting and burning [a] is left to root. *)
Definition spares (o : origin) (c : RioAssets.Call) : Prop :=
  match c with
  | RioAssets.CallMint b _ _ | RioAssets.CallBurn b _ _ => o = Root -> b <> a
  | _ => True
  end.
Lemma assets_keep_supply o c :
  spares o c -> preserves keeps_supply (RioAssets.dispatch (E:=E) o c).
Proof.
  destruct c; cbn [spares RioAssets.dispatch]; intros Hc;
    unfold RioAssets.create, RioAssets.transfer, RioAssets.update_permission,
      RioAssets.update_restriction, RioAssets.mint, RioAssets.burn, RioAssets.set_reserve,
      RioAssets.set_unreserve, RioAssets.make_transfer_with_event, RioAssets.make_transfer,
      RioAssets.mint_free, RioAssets.burn_free, RioAssets.reserve, RioAssets.unreserve,
      RioAssets.should_exist, RioAssets.check_permission, RioAssets.ensure_can_withdraw,
      RioAssets.can_do, RioAssets.set_free_balance, RioAssets.set_reserved_balance,
      RioAssets.root_key, before_asset_transfer, on_asset_transfer, before_asset_mint,
      on_asset_mint, before_asset_burn, on_asset_burn, before_transfer, on_transfer, before_mint,
      on_mint, before_burn, on_burn;
    try (destruct o; [specialize (Hc eq_refl)|..]); cbn [ensure_root]; cbv zeta;
    first [solve [intros s; rewrite wp_bind, wp_fail; reflexivity]|preserves_steps].
Qed.
End supply.

Section runtime.
Context {Other : Type} `{!Overflow}.
Context {Origin : Type} (system_origin : Origin -> origin).
Context (ensure_member : Origin -> option AccountId).
Context (accumulate : Multiplier -> Balance -> Balance).
(** A balance is not negative. *)
Context (Haccumulate : forall m x, 0 <= accumulate m x).
#[local] Abbreviation E := (Event Other).
#[local] Abbreviation S := (State Other).
Implicit Types (s : S).
#[local] Abbreviation bridge_log := (client_log (E:=E) (Ev:=BridgeEvent) (S:=S)).
#[local] Abbreviation ast := (sget (S:=S) (T:=AssetsStore)).
#[local] Abbreviation dispatch := (dispatch system_origin ensure_member (Other:=Other)).
#[local] Abbreviation charge := (charge (Other:=Other) accumulate).
#[local] Abbreviation on_finalize := (on_finalize (Other:=Other) accumulate).
#[local] Abbreviation runtime_step := (runtime_step (Other:=Other) system_origin ensure_member accumulate).

(** ** The payment *)
Lemma fee_width m len info tip :
  in_width balance_bits tip -> in_width balance_bits (fee_of (H0:=payment accumulate) m len info tip).
Proof.
  intros [Ht0 Ht1]. unfold fee_of, saturating_add, umax, in_width.
  destruct (pays_fee info); [|lia]. cbn [saturated_multiply_accumulate payment Runtime.payment_config].
  match goal with |- context [accumulate ?m ?y] => pose proof (Haccumulate m y) end.
  change TransactionBaseFee with 10000000.
  change (2 ^ balance_bits) with (2 ^ 127 * 2) in *. lia.
Qed.

Lemma charge_wp tip who info len s :
  ledger_ok (ast s) -> in_width balance_bits tip -> fuel_fits s ->
  let I s' := ledger_ok (ast s') /\
    forall a, a <> RFUEL -> a <> LOCKED_RFUEL ->
      total_issuance a (ast s') = total_issuance a (ast s) in
  wp (charge tip who info len) (fun _ => I) (fun _ => I) False s.
Proof.
  intros Hok Htip Hfits I.
  pose proof (fee_width (NextFeeMultiplier (sget s)) (len mod 2 ^ 32) info tip Htip) as Hfee.
  set (b := bought (fee_of (H0:=payment accumulate) (NextFeeMultiplier (sget s)) (len mod 2 ^ 32) info tip)
    who (ast s)).
  assert (0 <= b <= free_balance LOCKED_RFUEL who (ast s)) as Hb
    by (apply bought_bounds; [done|apply Hfee]).
  pose proof (balances_le_issuance _ Hok LOCKED_RFUEL who).
  pose proof (reserved_balance_nonneg _ Hok LOCKED_RFUEL who).
  pose proof (balances_le_issuance _ Hok RFUEL who).
  pose proof (reserved_balance_nonneg _ Hok RFUEL who).
  pose proof (total_issuance_bound _ Hok RFUEL). unfold fuel_fits in Hfits.
  unfold RioRuntime.charge, NativeAsset, AC.RFUELProvider.
  wp_apply (validate_wp tip who info len s); [done|done|fold b; lia|fold b; lia| | |done].
  - intros p s' (_ & Hok' & Hc). split; [done|]. intros a Ha Hl.
    unfold charged in Hc. case_decide; [by subst|]. destruct Hc as (_ & _ & _ & ->).
    unfold at_asset. rewrite !decide_False by congruence. lia.
  - intros e s' (Hok' & _ & Hr). split; [done|]. intros a Ha Hl.
    destruct Hr as [(_ & -> & _)|(_ & _ & ->)]; [done|].
    unfold at_asset. rewrite !decide_False by congruence. lia.
Qed.

(** ** The invariant of the composition *)
Record runtime_ok s : Prop := {
  ro_bridge : bridge_ok (E:=E) s;
  ro_reports : NoDup (reporter <$> PriceReports (sget (T:=PriceStore) s));
}.
Lemma ro_ledger s : runtime_ok s -> ledger_ok (ast s).
Proof. intros Hs. exact (bo_ledger _ (ro_bridge _ Hs)). Qed.

Lemma bridge_ok_off s s' :
  bridge_ok (E:=E) s -> off_bridge s s' -> ledger_ok (ast s') -> bridge_ok (E:=E) s'.
Proof. intros [] [Hb Hl] Hok. split; [done|by rewrite Hb|]. intros h. by rewrite Hb, Hl. Qed.

(** A part that neither writes the bridge nor the reports. *)
Lemma runtime_ok_off {A} (m : M S A) s s' :
  runtime_ok s -> leads m s s' -> preserves off_bridge m -> preserves off_price m ->
  ledger_ok (ast s') -> runtime_ok s'.
Proof.
  intros [Hb Hr] Hl H1 H2 Hok. pose proof (preserves_leads _ _ _ _ H1 Hl) as Ho.
  pose proof (preserves_leads _ _ _ _ H2 Hl) as Hp. split; [|by rewrite Hp].
  by eapply bridge_ok_off.
Qed.
(** A part that writes only the reports. *)
Lemma runtime_ok_reports {A} (m : M S A) s s' :
  runtime_ok s -> leads m s s' -> preserves off_ledger m -> preserves off_bridge m ->
  NoDup (reporter <$> PriceReports (sget (T:=PriceStore) s')) -> runtime_ok s'.
Proof.
  intros [Hb Hr] Hl H1 H2 Hnd. pose proof (preserves_leads _ _ _ _ H1 Hl) as Ho.
  pose proof (preserves_leads _ _ _ _ H2 Hl) as Hof. split; [|done].
  eapply bridge_ok_off; [done..|]. rewrite Ho. apply Hb.
Qed.

(** *** The reports *)
Definition reports_ok s : Prop := NoDup (reporter <$> PriceReports (sget (T:=PriceStore) s)).
#[local] Abbreviation any := (fun _ => True).
Lemma typed_reports_put l :
  NoDup (reporter <$> l) ->
  typed reports_ok (modify (S:=S) (fun st : PriceStore => st <| PriceReports := l |>)) any.
Proof. intros Hl. by apply typed_modify. Qed.
Lemma typed_reports_off {A} (m : M S A) : preserves off_price m -> typed reports_ok m any.
Proof.
  intros Hm. apply typed_preserves. intros s. eapply wp_mono; [apply (Hm s)| | |done];
    intros ? s' Hp; unfold reports_ok; by rewrite Hp.
Qed.
Lemma typed_reports_price (x : Price) :
  typed reports_ok (modify (S:=S) (fun st : PriceStore => st <| CurrentPrice := x |>)) any.
Proof. by apply typed_modify. Qed.
Lemma typed_reports_all :
  typed reports_ok (gets (S:=S) PriceReports) (fun l => NoDup (reporter <$> l)).
Proof. intros s Hs. by rewrite wp_gets. Qed.
#[local] Hint Resolve typed_reports_put typed_reports_price : typed.

Lemma typed_filter_valid l :
  typed reports_ok (RioPrice.filter_valid (S:=S) l) (fun l' => l' `sublist_of` l).
Proof.
  induction l as [|r l IH]; cbn [RioPrice.filter_valid]; [by apply typed_ret|].
  eapply typed_bind; [apply typed_reports_off|].
  { cbn [is_valid oracle RioOracle.rio_oracle]. unfold RioOracle.is_valid. preserves_steps. }
  intros b _. eapply typed_bind; [exact IH|]. intros rest Hrest. apply typed_ret.
  destruct b; [by apply sublist_skip|by apply sublist_cons].
Qed.

Lemma typed_report o o' p :
  typed reports_ok
    (RioPrice.report (S:=S) (E:=E) (fun _ => report_origin ensure_member o) o' p) any.
Proof.
  unfold RioPrice.report. eapply typed_bind; [apply typed_reports_off|].
  { unfold report_origin. preserves_steps. }
  intros who _. apply (typed_ignore _ _ any). unfold RioPrice.add_price.
  eapply typed_bind; [apply typed_reports_all|]. intros l Hl.
  eapply typed_bind; [apply typed_reports_put, (updated_reports_spec who p l Hl)|]. intros [] _.
  eapply typed_bind; [apply typed_reports_off|intros [] _; apply typed_reports_off].
  - cbn [on_witnessed oracle RioOracle.rio_oracle]. unfold RioOracle.on_witnessed. preserves_steps;
      by apply preserves_modify.
  - by apply preserves_modify.
Qed.

Lemma typed_finalize w : typed reports_ok (on_finalize w) any.
Proof.
  unfold RioRuntime.on_finalize, RioTransactionPayment.on_finalize.
  eapply typed_bind; [by apply typed_modify|]. intros [] _. unfold RioPrice.on_finalize.
  do 4 typed_step. cbv zeta. eapply (typed_bind _ _ _ any).
  - case_decide; [|by apply typed_ret]. typed_step. intros m _.
    case_decide; [by apply typed_ret|]. typed_steps. apply typed_reports_off. by apply preserves_modify.
  - intros [] _. eapply typed_bind; [apply typed_reports_all|]. intros l Hl.
    eapply typed_bind; [apply typed_filter_valid|]. intros l' Hsub. apply typed_reports_put.
    eapply sublist_NoDup; [exact Hl|by apply fmap_sublist].
Qed.

(** ** The steps keep it *)
Lemma no_hooks P : RioAssetsFacts.hooks_keep (S:=S) P.
Proof. split; intros; by apply RioAssetsFacts.keeps_ret. Qed.

Lemma assets_wp o c s :
  ledger_ok (ast s) -> in_width balance_bits (RioAssets.call_amount c) ->
  wp (RioAssets.dispatch (S:=S) (E:=E) o c) (fun _ s' => ledger_ok (ast s'))
    (fun _ s' => ledger_ok (ast s')) False s.
Proof. intros Hok Hc. exact (RioAssetsFacts.dispatch_keeps _ o c (no_hooks _) Hc s Hok). Qed.

Lemma dispatch_step o c s s' :
  runtime_ok s -> well_sized c -> leads (dispatch o c) s s' -> runtime_ok s'.
Proof.
  intros Hs Hc Hl. destruct c as [c|who|p|c]; cbn [RioRuntime.dispatch well_sized] in *.
  - eapply runtime_ok_off; [exact Hs|exact Hl|apply assets_off_bridge|apply assets_off_price|].
    exact (leads_wp _ _ _ _ _ Hl (assets_wp _ c s (ro_ledger _ Hs) Hc)).
  - eapply runtime_ok_reports; [exact Hs|exact Hl|apply set_account_off_ledger|
      apply set_account_off_bridge|].
    pose proof (preserves_leads _ _ _ _ (set_account_off_price _ _) Hl) as Hp. rewrite Hp. apply Hs.
  - eapply runtime_ok_reports; [exact Hs|exact Hl|apply report_off_ledger|apply report_off_bridge|].
    exact (typed_leads _ _ _ _ _ (typed_report o _ p) (ro_reports _ Hs) Hl).
  - pose proof (leads_wp _ _ _ _ _ Hl (bridge_dispatch_keeps bridge_foreign _ c s (ro_bridge _ Hs)
      (proj1 Hc))) as Hb.
    split; [exact Hb|].
    pose proof (preserves_leads _ _ _ _ (bridge_off_price _ _) Hl) as Hp. rewrite Hp. apply Hs.
Qed.

Lemma dispatch_no_panic o c s : runtime_ok s -> well_sized c -> dispatch o c s <> Panic.
Proof.
  intros Hs Hc Hp. destruct c as [c|who|p|c]; cbn [RioRuntime.dispatch well_sized] in *.
  - exact (wp_Panic _ _ _ _ _ (assets_wp _ c s (ro_ledger _ Hs) Hc) Hp).
  - revert Hp. unfold RioFee.set_account. by destruct (system_origin o).
  - revert Hp. unfold RioPrice.report, report_origin. run. by destruct (ensure_member o).
  - exact (wp_Panic _ _ _ _ _ (bridge_dispatch_keeps bridge_foreign _ c s (ro_bridge _ Hs)
      (proj1 Hc)) Hp).
Qed.

Lemma charge_step tip who info len s s' :
  runtime_ok s -> in_width balance_bits tip -> fuel_fits s -> leads (charge tip who info len) s s' ->
  runtime_ok s'.
Proof.
  intros Hs Ht Hf Hl. pose proof (leads_wp _ _ _ _ _ Hl
    (charge_wp tip who info len s (ro_ledger _ Hs) Ht Hf)) as (? & _).
  eapply runtime_ok_off; [exact Hs|exact Hl|apply charge_off_bridge|apply charge_off_price|done].
Qed.
Lemma finalize_step w s s' : runtime_ok s -> leads (on_finalize w) s s' -> runtime_ok s'.
Proof.
  intros Hs Hl. eapply runtime_ok_reports; [exact Hs|exact Hl|apply finalize_off_ledger|
    apply finalize_off_bridge|].
  exact (typed_leads _ _ _ _ _ (typed_finalize w) (ro_reports _ Hs) Hl).
Qed.

(** The Substrate pallets write the frame and deposit their own events. *)
Lemma frame_off_bridge s (f : Frame E) l :
  events f = events (sget (T:=Frame E) s) ++ (EvSubstrate <$> l) -> off_bridge s (sput f s).
Proof.
  intros Hf. split; [by store|]. unfold client_log. store. rewrite Hf, omap_app.
  assert (omap event_of (EvSubstrate (Other:=Other) <$> l) = []) as ->; [|by rewrite app_nil_r].
  clear Hf. induction l as [|e l IH]; [done|exact IH].
Qed.

Lemma runtime_step_ok P s s' : runtime_ok s -> runtime_step P s s' -> runtime_ok s'.
Proof.
  intros Hs [o c s1 _ Hc Hl|tip who info len s1 Ht Hf Hl|w s1 Hl|f l Hf].
  - by eapply dispatch_step.
  - by eapply charge_step.
  - by eapply finalize_step.
  - split; [|apply Hs].
    eapply bridge_ok_off; [apply Hs|by eapply frame_off_bridge|]. store. by apply ro_ledger.
Qed.

(** ** The backing of SBTC *)
Record sbtc_ok s : Prop := {
  so_runtime : runtime_ok s;
  so_exists : asset_exists SBTC (ast s) = true;
  so_supply : supplied (E:=E) SBTC 0 s;
}.
(** Nobody mints or burns SBTC as root. *)
Definition spares_sbtc (o : Origin) (c : Call) : Prop :=
  match c with CallRioAssets c => spares SBTC (system_origin o) c | _ => True end.

Lemma supplied_off s s' :
  supplied (E:=E) SBTC 0 s -> bridge_ok (E:=E) s' -> off_bridge s s' ->
  total_issuance SBTC (ast s') = total_issuance SBTC (ast s) -> supplied (E:=E) SBTC 0 s'.
Proof.
  intros [_ Ha Hi] Hok [Hb Hl] Ht. split; [done|by rewrite Hb|].
  rewrite Hl. change (total_issuance SBTC (ast s') = 0 + credited (bridge_log s)).
  rewrite Ht. exact Hi.
Qed.
(** A part that writes neither the bridge nor the supply. *)
Lemma sbtc_ok_off s s' :
  sbtc_ok s -> runtime_ok s' -> off_bridge s s' ->
  supply SBTC (total_issuance SBTC (ast s)) s' -> sbtc_ok s'.
Proof.
  intros [_ _ Hs] Hr Ho [He Ht]. split; [done|exact He|].
  eapply supplied_off; [exact Hs|apply Hr|exact Ho|exact Ht].
Qed.
Lemma sbtc_supply s : sbtc_ok s -> supply SBTC (total_issuance SBTC (ast s)) s.
Proof. intros Hs. split; [apply Hs|done]. Qed.
Lemma sbtc_off_ledger s s' :
  sbtc_ok s -> off_ledger s s' -> supply SBTC (total_issuance SBTC (ast s)) s'.
Proof. intros Hs Ho. unfold supply. rewrite Ho. by apply sbtc_supply. Qed.

Lemma sbtc_dispatch o c s s' :
  sbtc_ok s -> well_sized c -> spares_sbtc o c -> leads (dispatch o c) s s' -> sbtc_ok s'.
Proof.
  intros Hs Hc Hsp Hl. pose proof (so_runtime _ Hs) as Hr.
  pose proof (dispatch_step _ _ _ _ Hr Hc Hl) as Hr'.
  destruct c as [c|who|p|c]; cbn [RioRuntime.dispatch well_sized spares_sbtc] in *.
  - eapply sbtc_ok_off; [exact Hs|exact Hr'|exact (preserves_leads _ _ _ _ (assets_off_bridge _ _) Hl)|].
    exact (preserves_leads _ _ _ _ (assets_keep_supply SBTC _ _ _ Hsp) Hl (sbtc_supply _ Hs)).
  - eapply sbtc_ok_off; [exact Hs|exact Hr'|exact (preserves_leads _ _ _ _ (set_account_off_bridge _ _) Hl)|].
    apply sbtc_off_ledger; [done|]. exact (preserves_leads _ _ _ _ (set_account_off_ledger _ _) Hl).
  - eapply sbtc_ok_off; [exact Hs|exact Hr'|exact (preserves_leads _ _ _ _ (report_off_bridge _ _ _ _) Hl)|].
    apply sbtc_off_ledger; [done|]. exact (preserves_leads _ _ _ _ (report_off_ledger _ _ _ _) Hl).
  - pose proof (preserves_leads _ _ _ _ (bridge_off_symbols _ _) Hl) as Hsym.
    split; [exact Hr'| |].
    + unfold asset_exists. rewrite Hsym. apply Hs.
    + exact (leads_wp _ _ _ _ _ Hl (dispatch_supplied bridge_foreign SBTC 0 _ c s (so_supply _ Hs)
        (proj1 Hc))).
Qed.

Lemma sbtc_step s s' : sbtc_ok s -> runtime_step spares_sbtc s s' -> sbtc_ok s'.
Proof.
  intros Hs Hst. pose proof (so_runtime _ Hs) as Hr.
  pose proof (runtime_step_ok _ _ _ Hr Hst) as Hr'.
  destruct Hst as [o c s1 Hsp Hc Hl|tip who info len s1 Ht Hf Hl|w s1 Hl|f l Hf].
  - by eapply sbtc_dispatch.
  - pose proof (leads_wp _ _ _ _ _ Hl
      (charge_wp tip who info len s (ro_ledger _ Hr) Ht Hf)) as (_ & Hi).
    pose proof (preserves_leads _ _ _ _ (charge_off_symbols _ _ _ _ _) Hl) as Hsym.
    eapply sbtc_ok_off; [exact Hs|exact Hr'|exact (preserves_leads _ _ _ _ (charge_off_bridge _ _ _ _ _) Hl)|].
    split; [|by apply Hi]. unfold asset_exists. rewrite Hsym. apply Hs.
  - eapply sbtc_ok_off; [exact Hs|exact Hr'|exact (preserves_leads _ _ _ _ (finalize_off_bridge _ _) Hl)|].
    apply sbtc_off_ledger; [done|]. exact (preserves_leads _ _ _ _ (finalize_off_ledger _ _) Hl).
  - eapply sbtc_ok_off; [exact Hs|exact Hr'|by eapply frame_off_bridge|].
    apply sbtc_off_ledger; [done|]. unfold off_ledger. by store.
Qed.

(** ** The genesis *)
Section genesis.
Context {Code AuraId GrandpaId : Type}.
#[local] Abbreviation Config := (GenesisConfig Code AuraId GrandpaId).

Lemma symbols_valid : NoDup (genesis_id <$> genesis_symbols) /\ Forall genesis_valid genesis_symbols.
Proof.
  split; [by apply (bool_decide_unpack _); vm_compute|].
  repeat constructor; try (by vm_compute); cbn; try set_solver.
Qed.

Lemma storage_bridge_ok (g : Config) s :
  off_bridge (genesis_storage g) s -> ledger_ok (ast s) -> bridge_ok (E:=E) s.
Proof.
  intros Ho Hok. refine (bridge_ok_off _ _ _ Ho Hok). split; [apply ledger_ok_empty|..].
  - intros w v. unfold pending_deposit_list, get_or. cbn. destruct (rio_bridge g); cbn;
      rewrite lookup_empty; set_solver.
  - intros h. unfold pending_count. split; cbn; destruct (rio_bridge g); cbn;
      rewrite map_sum_empty; lia.
Qed.

(** The genesis of the shipped assets and bridge. *)
Definition standard (g : Config) : Prop :=
  (exists root, rio_assets g = Some (MkRioAssetsConfig root genesis_symbols)) /\
  exists b, rio_bridge g = Some b /\ bridge_asset_id b = SBTC.

Lemma genesis_ok (g : Config) :
  standard g ->
  wp (build_storage g) (fun _ => sbtc_ok) (fun _ _ => False) False (genesis_storage (Other:=Other) g).
Proof.
  intros [[root Ha] [b [Hb Hbtc]]]. unfold build_storage. rewrite Ha. cbn [assets_symbols assets_root].
  destruct symbols_valid as [Hnd Hv]. set (s0 := genesis_storage g).
  pose proof (genesis_loop (E:=E) root genesis_symbols s0 (ledger_ok_empty) Hnd Hv
    (fun _ _ => conj eq_refl eq_refl)) as H1.
  pose proof (wp_conj _ _ _ _ _ _ _ _ H1 (wp_conj _ _ _ _ _ _ _ _
    (genesis_off_bridge genesis_symbols root s0) (genesis_off_price genesis_symbols root s0))) as Hrun.
  eapply wp_mono; [exact Hrun| |by intros e s' [? _]|by intros [? _]]. clear Hrun H1.
  intros [] s ((Hok & Hin & _) & Ho & Hp).
  destruct (Hin (asset_symbol SBTC "SBTC" []) ltac:(unfold genesis_symbols; set_solver))
    as [Hsy _ _ Ht _ _].
  assert (asset_exists SBTC (ast s) = true) as He
    by (unfold asset_exists; apply bool_decide_eq_true_2; by eexists).
  assert (bridge_ok (E:=E) s) as Hbr by (by eapply storage_bridge_ok).
  split; [split; [done|]|exact He|split; [done| |]].
  - rewrite Hp. apply NoDup_nil_2.
  - rewrite (proj1 Ho). unfold s0. cbn. by rewrite Hb.
  - rewrite (proj2 Ho). exact Ht.
Qed.

(** Every alternative is a standard chain. *)
Context (WASM_BINARY : Code).
Context (get_account_id_from_seed : string -> AccountId).
Context (get_authority_keys_from_seed : string -> AuraId * GrandpaId).
Context (aura_of_key : N -> AuraId) (grandpa_of_key : N -> GrandpaId).
#[local] Abbreviation load := (load WASM_BINARY get_account_id_from_seed
  get_authority_keys_from_seed aura_of_key grandpa_of_key).
Lemma load_standard alt spec : load alt = inr spec -> standard (spec_genesis spec).
Proof.
  destruct alt; cbn; intros [= <-]; (split; [by eexists|by eexists]).
Qed.
Lemma load_genesis alt spec : load alt = inr spec ->
  exists s0, build_storage (spec_genesis spec) (genesis_storage (spec_genesis spec)) = Ok tt s0 /\
    sbtc_ok s0.
Proof.
  intros Hl. pose proof (genesis_ok _ (load_standard _ _ Hl)) as Hgen.
  destruct (build_storage _ _) as [[] s0|e s0|] eqn:Hr.
  - exists s0. split; [done|]. exact (wp_Ok _ _ _ _ _ _ _ Hgen Hr).
  - destruct (wp_Err _ _ _ _ _ _ _ Hgen Hr).
  - destruct (wp_Panic _ _ _ _ _ Hgen Hr).
Qed.

(** C2: the genesis of every shipped chain builds, and in every state that the
    runtime reaches from it by calls of its pallets of any origin and outcome,
    payments, ends of blocks and steps of the Substrate pallets, the ledger is well
    formed, no Bitcoin transaction was credited twice, every oracle has at most one
    report, and neither a call nor a payment panics. *)
Theorem runtime_reachable_safe alt spec :
  load alt = inr spec ->
  exists s0, build_storage (spec_genesis spec) (genesis_storage (spec_genesis spec)) = Ok tt s0 /\
    forall s, rtc (runtime_step (fun _ _ => True)) s0 s ->
      ledger_ok (ast s) /\ (forall h, mint_count h (bridge_log s) <= 1) /\
      NoDup (reporter <$> PriceReports (sget (T:=PriceStore) s)) /\
      (forall o c, well_sized c -> dispatch o c s <> Panic) /\
      (forall tip who info len, in_width balance_bits tip -> fuel_fits s ->
         charge tip who info len s <> Panic).
Proof.
  intros Hl. destruct (load_genesis _ _ Hl) as (s0 & Hg & Hs0). exists s0. split; [done|].
  intros s Hrun. assert (runtime_ok s) as Hs.
  { apply so_runtime in Hs0. clear Hg. induction Hrun as [|s1 s2 s3 Hst _ IH]; [done|].
    apply IH. by eapply runtime_step_ok. }
  split_and!; [by apply ro_ledger| |apply Hs|intros; by apply dispatch_no_panic|].
  - intros h. destruct (bo_hashes _ (ro_bridge _ Hs) h) as [Hh _].
    pose proof (pending_count_nonneg h (sget s)). lia.
  - intros tip who info len Ht Hf Hp.
    exact (wp_Panic _ _ _ _ _ (charge_wp tip who info len s (ro_ledger _ Hs) Ht Hf) Hp).
Qed.

(** C1: on every shipped chain the whole issuance of SBTC is backed: as long as
    nobody mints or burns SBTC as root, it is the sum of the deposits that the
    bridge logged, each for a Bitcoin transaction of its own, whatever transfers,
    reserves, payments, withdraws, refunds and other calls ran in between. *)
Theorem sbtc_backed_by_deposits alt spec s0 s :
  load alt = inr spec ->
  build_storage (spec_genesis spec) (genesis_storage (spec_genesis spec)) = Ok tt s0 ->
  rtc (runtime_step spares_sbtc) s0 s ->
  total_issuance SBTC (ast s) = credited (bridge_log s) /\
  (forall h, mint_count h (bridge_log s) <= 1) /\
  forall w, free_balance SBTC w (ast s) + reserved_balance SBTC w (ast s) <= credited (bridge_log s).
Proof.
  intros Hl Hg Hrun. assert (sbtc_ok s) as Hs.
  { destruct (load_genesis _ _ Hl) as (s1 & Hg1 & Hs0). rewrite Hg in Hg1. injection Hg1 as <-.
    clear Hg. induction Hrun as [|s1 s2 s3 Hst _ IH]; [done|]. apply IH. by eapply sbtc_step. }
  pose proof (so_runtime _ Hs) as Hr. pose proof (su_issuance _ _ _ (so_supply _ Hs)) as Hi.
  change (total_issuance SBTC (ast s) = 0 + credited (bridge_log s)) in Hi.
  split_and!; [lia| |].
  - intros h. destruct (bo_hashes _ (ro_bridge _ Hr) h) as [Hh _].
    pose proof (pending_count_nonneg h (sget s)). lia.
  - intros w. pose proof (balances_le_issuance _ (ro_ledger _ Hr) SBTC w). lia.
Qed.
End genesis.
End runtime.
