(* ===== verification/RioRuntimeWitness.v ===== *)
(** * The runtime: a run of the beta chain

    The theorems on the runtime, at the genesis of the beta chain and a run of it. *)
From S2P Require Export RioRuntimeProps.
From stdpp Require Import relations.
#[local] Open Scope Z_scope.

Module RuntimeDemo.
(** The build without overflow checks; no event of a Substrate pallet. *)
#[export] Instance no_checks : Overflow := {| overflow_checks := false |}.
(** An origin of system, or a member of the collective. *)
Definition Origin : Type := (origin + AccountId)%type.
Definition system_origin (o : Origin) : origin := match o with inl o => o | inr _ => NoOrigin end.
Definition ensure_member (o : Origin) : option AccountId :=
  match o with inl _ => None | inr who => Some who end.
Definition accumulate (m : Multiplier) (x : Balance) : Balance := Z.max 0 (x + x * m).
Lemma accumulate_nonneg m x : 0 <= accumulate m x.
Proof. apply Z.le_max_l. Qed.

Definition load_beta : string + ChainSpec (GenesisConfig unit unit unit) :=
  load (Code := unit) tt (fun _ => 1%N) (fun _ => (tt, tt)) (fun _ => tt) (fun _ => tt) Beta.
Definition spec : ChainSpec (GenesisConfig unit unit unit) :=
  match load_beta with
  | inr s => s
  | inl _ => MkChainSpec "" "" (MkGenesisConfig None None None None None None None None) [] None None None
  end.
Definition S : Type := State Empty_set.
Definition after {A} (m : M S A) (s : S) : S :=
  match m s with Ok _ s' | Err _ s' => s' | Panic => s end.

#[local] Abbreviation dispatch := (dispatch (Other := Empty_set) system_origin ensure_member).
Definition admin : AccountId := 0x8ee3e606982e20e495b622d091a99d4cdbc669afd8c08efb1acfb375b2e9f61a%N.
Definition root : AccountId := 0x20cd1afa4f95b59b7f61a97360e8bc74a26a6fc13712e6f2eef3a1e020bbcd68%N.
Definition alice : AccountId := 7%N.
Definition bob : AccountId := 8%N.

(** Root mints locked fuel; the admin reports a deposit for bob; bob sends a part to
    alice and pays for it; an oracle reports a price; the block ends. *)
Definition start : S := after (build_storage (spec_genesis spec)) (genesis_storage (spec_genesis spec)).
Definition c1 : Call := CallRioAssets (RioAssets.CallMint LOCKED_RFUEL bob 50000000).
Definition s1 : S := after (dispatch (inl Root) c1) start.
Definition c2 : Call := CallRioBridge (RioBridge.CallDeposit bob 500 77%N).
Definition s2 : S := after (dispatch (inl (Signed admin)) c2) s1.
Definition info : DispatchInfo := MkDispatchInfo 10 Normal true.
Definition s3 : S := after (charge accumulate 5 bob info 100) s2.
Definition c4 : Call := CallRioAssets (RioAssets.CallTransfer SBTC alice 200).
Definition s4 : S := after (dispatch (inl (Signed bob)) c4) s3.
Definition c5 : Call := CallRioPrice 9000.
Definition s5 : S := after (dispatch (inr bob) c5) s4.
Definition s6 : S := after (on_finalize accumulate 10) s5.

Lemma after_leads {A} (m : M S A) s :
  match m s with Panic => false | _ => true end = true -> leads m s (after m s).
Proof. unfold leads, after. destruct (m s); [left|right|]; by eauto. Qed.

Definition runs {A} (m : M S A) (s : S) : bool := match m s with Panic => false | _ => true end.
Section steps.
Context (P : Origin -> Call -> Prop).
#[local] Abbreviation step := (runtime_step system_origin ensure_member accumulate P).
Lemma dispatch_after o c s :
  P o c -> well_sized c -> runs (dispatch o c) s = true -> step s (after (dispatch o c) s).
Proof. intros Ho Hc Hr. by apply (step_dispatch _ _ _ _ _ o c); [..|apply after_leads]. Qed.
Lemma charge_after tip who info len s :
  in_width balance_bits tip -> fuel_fits s -> runs (charge accumulate tip who info len) s = true ->
  step s (after (charge accumulate tip who info len) s).
Proof. intros Ht Hf Hr. by apply (step_charge _ _ _ _ _ tip who info len); [..|apply after_leads]. Qed.
Lemma finalize_after w s :
  runs (on_finalize accumulate w) s = true -> step s (after (on_finalize accumulate w) s).
Proof. intros Hr. by apply (step_finalize _ _ _ _ _ w), after_leads. Qed.

(** The run is one of the runtime under every restriction that its calls pass. *)
Lemma beta_run :
  P (inl Root) c1 -> P (inl (Signed admin)) c2 -> P (inl (Signed bob)) c4 -> P (inr bob) c5 ->
  rtc step start s6.
Proof.
  intros H1 H2 H4 H5.
  apply (rtc_l _ _ s1); [exact (dispatch_after _ c1 start H1 ltac:(by vm_compute) ltac:(by vm_compute))|].
  apply (rtc_l _ _ s2); [exact (dispatch_after _ c2 s1 H2 ltac:(by vm_compute) ltac:(by vm_compute))|].
  apply (rtc_l _ _ s3);
    [exact (charge_after 5 bob info 100 s2 ltac:(by vm_compute) ltac:(by vm_compute) ltac:(by vm_compute))|].
  apply (rtc_l _ _ s4); [exact (dispatch_after _ c4 s3 H4 ltac:(by vm_compute) ltac:(by vm_compute))|].
  apply (rtc_l _ _ s5); [exact (dispatch_after _ c5 s4 H5 ltac:(by vm_compute) ltac:(by vm_compute))|].
  apply rtc_once. exact (finalize_after 10 s5 ltac:(by vm_compute)).
Qed.
End steps.
Lemma beta_genesis_built :
  build_storage (spec_genesis spec) (genesis_storage (spec_genesis spec)) = Ok tt start.
Proof. by vm_compute. Qed.
Lemma Ok_state {T A} (a b : A) (s s' : T) : Ok a s = Ok b s' -> s = s'.
Proof. by intros [= _ ->]. Qed.
Lemma spares_lock : spares_sbtc system_origin (inl Root) c1.
Proof. intros _. discriminate. Qed.
End RuntimeDemo.

Import RuntimeDemo.
(** What the run did. *)
Example s6_alice : free_balance SBTC alice (sget s6) = 200.
Proof. by vm_compute. Qed.
Example s6_fee :
  free_balance RFUEL (FeeAccountId (sget s6)) (sget s6) = 10000005 /\
  free_balance LOCKED_RFUEL bob (sget s6) = 39999995.
Proof. by vm_compute. Qed.
Example s6_price : CurrentPrice (sget s6) = 9000.
Proof. by vm_compute. Qed.

Lemma runtime_reachable_safe_witness :
  ledger_ok (sget s6) /\
  mint_count 77%N (client_log (E:=Event Empty_set) (Ev:=BridgeEvent) s6) = 1 /\
  RioRuntime.dispatch system_origin ensure_member (inl (Signed bob)) c4 s6 <> Panic.
Proof.
  destruct (runtime_reachable_safe (Other := Empty_set) system_origin ensure_member accumulate
    accumulate_nonneg (Code := unit) tt (fun _ => 1%N) (fun _ => (tt, tt)) (fun _ => tt)
    (fun _ => tt) Beta spec eq_refl) as (s0 & Hg & Hsafe).
  rewrite beta_genesis_built in Hg. apply Ok_state in Hg. subst s0.
  destruct (Hsafe s6 (beta_run _ I I I I)) as (Hok & _ & _ & Hd & _).
  split; [exact Hok|]. split; [by vm_compute|]. apply Hd. by vm_compute.
Defined.

Lemma sbtc_backed_by_deposits_witness :
  total_issuance SBTC (sget s6) = 500 /\
  credited (client_log (E:=Event Empty_set) (Ev:=BridgeEvent) s6) = 500 /\
  free_balance SBTC bob (sget s6) = 300.
Proof.
  destruct (sbtc_backed_by_deposits (Other := Empty_set) system_origin ensure_member accumulate
    accumulate_nonneg (Code := unit) tt (fun _ => 1%N) (fun _ => (tt, tt)) (fun _ => tt)
    (fun _ => tt) Beta spec start s6 eq_refl beta_genesis_built
    (beta_run _ spares_lock I I I)) as (Ht & _ & _).
  split; [etrans; [exact Ht|by vm_compute]|]. split; by vm_compute.
Defined.
