(* ===== verification/RioRuntimeFrozen.v ===== *)
(** * The runtime: assets whose owners were renounced

    An asset that nobody may mint, burn or re-permission keeps its issuance, whatever
    the parts of the runtime do; the two fuels excepted, which a payment exchanges. *)
From S2P Require Export RioRuntimeProps RioRuntimeWitness.
From stdpp Require Import relations.
#[local] Open Scope Z_scope.
Import NoHooks.

(** An asset nobody may mint, burn or re-permission. *)
Definition frozen (a : AssetId) (st : AssetsStore) : Prop :=
  asset_exists a st = true /\ Permissions st !! a = Some (V1 PermissionsV1_default).

Lemma frozen_permitted p a who st : frozen a st -> permitted p a who st = false.
Proof.
  intros [_ Hp]. unfold permitted, get_permission, get_or. rewrite Hp. by destruct p.
Qed.

(** Keeping an invariant, as a relation. *)
Definition keeps_inv {S} (I : S -> Prop) (s s' : S) : Prop := I s -> I s'.
#[export] Instance keeps_inv_preorder {S} (I : S -> Prop) : PreOrder (keeps_inv I).
Proof. split; [by intros s Hs|]. intros s1 s2 s3 H1 H2 Hs. by apply H2, H1. Qed.
Lemma preserves_typed {S A} (I : S -> Prop) (m : M S A) Q :
  typed I m Q -> preserves (keeps_inv I) m.
Proof.
  intros Hm s. apply wp_intro; [intros a s' Hr Hs|intros e s' Hr Hs|done].
  - eapply typed_leads; [exact Hm|done|left; by exists a].
  - eapply typed_leads; [exact Hm|done|right; by exists e].
Qed.

(** ** The ledger *)
Section ledger.
Context {S E : Type} `{!Overflow}.
Context `{!Store S (Frame E), !Store S AssetsStore, !Inject AssetsEvent E}.
Context `{!Separate S (Frame E) AssetsStore}.
Context (a : AssetId) (n : Balance).
#[local] Abbreviation any := (fun _ => True).

(** The asset is frozen with the issuance [n]. *)
Definition frozen_at (s : S) : Prop :=
  frozen a (sget s) /\ total_issuance a (sget s) = n.

Lemma frozen_write (f : AssetsStore -> AssetsStore) :
  (forall st, asset_exists a st = true -> asset_exists a (f st) = true) ->
  (forall st, Permissions (f st) !! a = Permissions st !! a) ->
  (forall st, total_issuance a (f st) = total_issuance a st) ->
  typed frozen_at (modify f) any.
Proof.
  intros He Hp Ht. apply typed_modify. intros s [[Hs1 Hs2] Hs3]. unfold frozen_at, frozen. store.
  rewrite Hp, Ht. split_and!; auto.
Qed.
Lemma frozen_event (e : AssetsEvent) : typed frozen_at (deposit_event (E:=E) e) any.
Proof. apply typed_modify. intros s Hs. unfold frozen_at in *. by store. Qed.
Lemma frozen_set_issuance b x : b <> a -> typed frozen_at (RioAssets.set_total_issuance b x) any.
Proof.
  intros Hb. apply frozen_write; [done|done|]. intros st.
  by rewrite total_issuance_set, decide_False.
Qed.
Lemma frozen_symbol b sym :
  typed frozen_at (modify (fun st : AssetsStore => st <| Symbols ::= <[b := sym]> |>)) any.
Proof.
  apply frozen_write; [|done|done]. unfold asset_exists. intros st He. fields.
  destruct (decide (b = a)) as [->|Hb]; [by rewrite lookup_insert_eq|by rewrite lookup_insert_ne].
Qed.
Lemma frozen_permission b p :
  b <> a -> typed frozen_at (modify (fun st : AssetsStore => st <| Permissions ::= <[b := p]> |>)) any.
Proof. intros Hb. apply frozen_write; [done| |done]. intros st. fields. by rewrite lookup_insert_ne. Qed.
Lemma frozen_set_free b w x : typed frozen_at (RioAssets.set_free_balance b w x) any.
Proof. by apply frozen_write. Qed.
Lemma frozen_set_reserved b w x : typed frozen_at (RioAssets.set_reserved_balance b w x) any.
Proof. by apply frozen_write. Qed.
Lemma frozen_restrictions b f :
  typed frozen_at (modify (fun st : AssetsStore => st <| Restrictions ::= <[b := f st]> |>)) any.
Proof. by apply frozen_write. Qed.

(** The checks: nobody is permitted, and the asset exists. *)
Lemma frozen_check b who p :
  typed frozen_at (RioAssets.check_permission b who p) (fun ok => ok = true -> b <> a).
Proof.
  intros s Hs. apply wp_intro; rewrite RioAssetsFacts.check_permission_eq; [|done|done].
  intros ok s' [= <- <-]. split; [|done]. intros Hp ->. by rewrite frozen_permitted in Hp by apply Hs.
Qed.
Lemma frozen_should_not_exist b :
  typed frozen_at (RioAssets.should_not_exist b) (fun _ => b <> a).
Proof.
  intros s Hs. unfold RioAssets.should_not_exist. apply wp_intro; run; [|intros e s'|];
    destruct (asset_exists b (sget s)) eqn:Hb; cbn; try done.
  - intros [] s' [= <-]. split; [|done]. intros ->. destruct Hs as [[He _] _]. congruence.
  - by intros [= _ <-].
Qed.

(** The operations, with the checks before the writes. *)
#[local] Hint Extern 2 (preserves _ (deposit_event _)) =>
  (eapply preserves_typed, frozen_event) : preserves.
#[local] Hint Extern 2 (preserves _ (RioAssets.set_free_balance _ _ _)) =>
  (eapply preserves_typed, frozen_set_free) : preserves.
#[local] Hint Extern 2 (preserves _ (RioAssets.set_reserved_balance _ _ _)) =>
  (eapply preserves_typed, frozen_set_reserved) : preserves.
#[local] Hint Extern 2 (preserves _ (RioAssets.set_total_issuance _ _)) =>
  (eapply preserves_typed, frozen_set_issuance; assumption) : preserves.
#[local] Hint Extern 2 (preserves _ (modify _)) => (eapply preserves_typed;
  first [simple apply frozen_symbol|simple apply frozen_permission; assumption
        |apply frozen_restrictions]) : preserves.
#[local] Ltac frozen_rest := apply typed_preserves; cbv zeta; preserves_steps.

Lemma frozen_mint_free b who to x : typed frozen_at (RioAssets.mint_free b who to x) any.
Proof.
  eapply typed_bind; [unfold RioAssets.should_exist; frozen_rest|intros _ _].
  eapply typed_bind; [apply frozen_check|]. intros [] Hb; [specialize (Hb eq_refl)|]; frozen_rest.
Qed.
Lemma frozen_burn_free b who to x : typed frozen_at (RioAssets.burn_free b who to x) any.
Proof.
  eapply typed_bind; [unfold RioAssets.should_exist; frozen_rest|intros _ _].
  eapply typed_bind; [apply frozen_check|]. intros [] Hb; [specialize (Hb eq_refl)|]; frozen_rest.
Qed.
Lemma frozen_create b sym who opts : typed frozen_at (RioAssets.create_asset (E:=E) b sym who opts) any.
Proof. eapply typed_bind; [apply frozen_should_not_exist|]. intros [] Hb. frozen_rest. Qed.
Lemma frozen_update o b p : typed frozen_at (RioAssets.update_permission (E:=E) o b p) any.
Proof.
  eapply typed_bind; [frozen_rest|intros _ _]. unfold RioAssets.root_key.
  eapply typed_bind; [frozen_rest|intros who _].
  eapply typed_bind; [apply frozen_check|]. intros [] Hb; [specialize (Hb eq_refl)|]; frozen_rest.
Qed.
#[local] Hint Extern 2 (preserves _ (RioAssets.mint_free _ _ _ _)) =>
  (eapply preserves_typed, frozen_mint_free) : preserves.
#[local] Hint Extern 2 (preserves _ (RioAssets.burn_free _ _ _ _)) =>
  (eapply preserves_typed, frozen_burn_free) : preserves.
#[local] Hint Extern 2 (preserves _ (RioAssets.create_asset _ _ _ _)) =>
  (eapply preserves_typed, frozen_create) : preserves.
#[local] Hint Extern 2 (preserves _ (RioAssets.update_permission _ _ _)) =>
  (eapply preserves_typed, frozen_update) : preserves.
#[local] Ltac frozen_call :=
  unfold RioAssets.create, RioAssets.transfer, RioAssets.update_restriction, RioAssets.mint,
    RioAssets.burn, RioAssets.set_reserve, RioAssets.set_unreserve, RioAssets.reserve,
    RioAssets.unreserve, RioAssets.make_transfer_with_event, RioAssets.make_transfer,
    RioAssets.should_exist, RioAssets.ensure_can_withdraw, RioAssets.can_do, RioAssets.root_key,
    before_asset_transfer, on_asset_transfer, before_asset_mint, on_asset_mint, before_asset_burn,
    on_asset_burn, before_transfer, on_transfer, before_mint, on_mint, before_burn, on_burn;
  cbv zeta; preserves_steps.

Lemma frozen_mint o b to x : preserves (keeps_inv frozen_at) (RioAssets.mint (E:=E) o b to x).
Proof. frozen_call. Qed.
Lemma frozen_burn o b to x : preserves (keeps_inv frozen_at) (RioAssets.burn (E:=E) o b to x).
Proof. frozen_call. Qed.
Lemma frozen_move b from to x :
  preserves (keeps_inv frozen_at) (RioAssets.make_transfer_with_event (E:=E) b from to x).
Proof. frozen_call. Qed.
End ledger.

(** ** The composed runtime *)
Section runtime.
Context {Other : Type} `{!Overflow}.
Context {Origin : Type} (system_origin : Origin -> origin).
Context (ensure_member : Origin -> option AccountId).
Context (accumulate : Multiplier -> Balance -> Balance).
Context (Haccumulate : forall m x, 0 <= accumulate m x).
#[local] Abbreviation E := (Event Other).
#[local] Abbreviation S := (State Other).
Implicit Types (s : S).
#[local] Abbreviation ast := (sget (S:=S) (T:=AssetsStore)).
#[local] Abbreviation dispatch := (dispatch system_origin ensure_member (Other:=Other)).
#[local] Abbreviation charge := (charge (Other:=Other) accumulate).
#[local] Abbreviation runtime_step :=
  (runtime_step (Other:=Other) system_origin ensure_member accumulate).

Section asset.
Context (a : AssetId) (n : Balance).
#[local] Abbreviation kept := (keeps_inv (frozen_at (S:=S) a n)).


(** The bridge writes the ledger through its interface. *)
#[local] Hint Extern 2 (preserves _ (modify _)) => (apply preserves_modify; intros ? ?; done) : preserves.
#[local] Hint Extern 2 (preserves _ (deposit_event _)) =>
  (apply preserves_modify; intros ? ?; done) : preserves.
#[local] Hint Resolve frozen_mint frozen_burn frozen_move : preserves.
#[local] Hint Extern 2 (preserves _ (mint _ _ _ _)) => apply frozen_mint : preserves.
#[local] Hint Extern 2 (preserves _ (burn _ _ _ _)) => apply frozen_burn : preserves.
#[local] Hint Extern 2 (preserves _ (make_transfer_with_event _ _ _ _)) => apply frozen_move : preserves.


End asset.


(** ** The shipped chains *)
Section genesis.
Context {Code AuraId GrandpaId : Type}.
Context (WASM_BINARY : Code).
Context (get_account_id_from_seed : string -> AccountId).
Context (get_authority_keys_from_seed : string -> AuraId * GrandpaId).
Context (aura_of_key : N -> AuraId) (grandpa_of_key : N -> GrandpaId).
#[local] Abbreviation load := (load WASM_BINARY get_account_id_from_seed
  get_authority_keys_from_seed aura_of_key grandpa_of_key).

End genesis.
End runtime.

(** ** The beta chain: root renounces SBTC, which bob then still transfers *)
Section witness.
Import RuntimeDemo.
#[local] Abbreviation dispatch := (dispatch (Other := Empty_set) system_origin ensure_member).

End witness.
