(* ===== verification/Loan.v ===== *)
(** * Collateral loans: [modules/rio-loan/src/lib.rs]

    A loan locks collateral in the pawn shop and mints the loan asset; its health
    follows the price of the collateral and the due dates.  The pallet is a client
    of the ledger interface.  Balances, prices and LTVs are machine integers: the
    arithmetic of the source may panic or wrap, and divides by zero. *)
From S2P Require Export Ledger.
#[local] Open Scope Z_scope.

Definition INTEREST_RATE_PREC : Z := 100000000.
Definition LTV_PREC : Z := 10000.
(** [rio_price::PRICE_PRECISION]. *)
Definition PRICE_PREC : Z := 10000.
Definition TERMS_UNIT : Z := 86400.
Definition DUE_EXTEND : Z := 2.

Abbreviation LoanPackageId := Z (only parsing).
Abbreviation LoanId := Z (only parsing).
Abbreviation LTV := Z (only parsing).
Abbreviation BTCPrice := Z (only parsing).
Definition ltv_bits : Z := 64.
Definition id_bits : Z := 64.

Inductive LoanHealth :=
| Well
| Warning (l : LTV)
| Liquidating (l : LTV)
| Extended
| Expired.
#[global] Instance LoanHealth_eq_dec : EqDecision LoanHealth.
Proof. solve_decision. Defined.

Inductive LoanPackageStatus := Active | Inactive.

Record CollateralLoan := MkCollateralLoan {
  cl_collateral_amount : Balance;
  cl_loan_amount : Balance;
}.

Record LoanPackage := MkLoanPackage {
  pkg_id : LoanPackageId;
  pkg_status : LoanPackageStatus;
  terms : Z;
  pkg_min : Balance;
  interest_rate_hourly : Z;
  collateral_asset_id : AssetId;
  loan_asset_id : AssetId;
}.
#[global] Instance LoanPackage_settable : Settable LoanPackage := fun p =>
  MkLoanPackage (pkg_id p) (pkg_status p) (terms p) (pkg_min p) (interest_rate_hourly p)
    (collateral_asset_id p) (loan_asset_id p).
Definition LoanPackage_default : LoanPackage := MkLoanPackage 0 Active 0 0 0 0 0.

Record Loan := MkLoan {
  loan_id : LoanId;
  package_id : LoanPackageId;
  loan_who : AccountId;
  due : Moment;
  due_extend : Moment;
  collateral_balance_original : Balance;
  collateral_balance_available : Balance;
  loan_balance_total : Balance;
  loan_status : LoanHealth;
}.
#[global] Instance Loan_settable : Settable Loan := fun l =>
  MkLoan (loan_id l) (package_id l) (loan_who l) (due l) (due_extend l)
    (collateral_balance_original l) (collateral_balance_available l) (loan_balance_total l)
    (loan_status l).
Definition Loan_default : Loan := MkLoan 0 0 default_account 0 0 0 0 0 Well.

(** ** Interest, dates, loan to value *)
Section arithmetic.
Context `{!Overflow}.
#[local] Abbreviation B := balance_bits.

Definition get_interest (p : LoanPackage) (amount : Balance) : option Balance :=
  a ← umul B amount (terms p);
  b ← umul B a 24;
  c ← umul B b (interest_rate_hourly p);
  udiv c INTEREST_RATE_PREC.

Definition get_dues (p : LoanPackage) (now : Moment) : option (Moment * Moment) :=
  a ← umul moment_bits TERMS_UNIT (terms p);
  b ← umul moment_bits a 1000;
  due ← uadd moment_bits now b;
  c ← umul moment_bits DUE_EXTEND TERMS_UNIT;
  d ← umul moment_bits c 1000;
  due_extend ← uadd moment_bits due d;
  mret (due, due_extend).

(** The final [try_into::<LTV>().unwrap()] panics on a value over 64 bits. *)
Definition get_ltv (collateral_amount loan_amount : Balance) (btc_price : BTCPrice)
    : option LTV :=
  a ← umul B loan_amount PRICE_PREC;
  b ← umul B a LTV_PREC;
  c ← umul B collateral_amount btc_price;
  ltv ← udiv b c;
  checked ltv_bits ltv.

Definition expiration_penalty (l : Loan) (penalty_rate : Z) (btc_price : BTCPrice)
    : option Balance :=
  a ← umul B (loan_balance_total l) PRICE_PREC;
  b ← umul B a penalty_rate;
  c ← udiv b LTV_PREC;
  udiv c btc_price.

Definition expiration_interest (l : Loan) (p : LoanPackage) (btc_price : BTCPrice)
    : option Balance :=
  i ← get_interest p (loan_balance_total l);
  a ← umul B i PRICE_PREC;
  udiv a btc_price.

Definition expire_then_update (l : Loan) (p : LoanPackage) (now : Moment)
    (expiration_penalty expiration_interest : Balance) : option Loan :=
  expiration_fee ← uadd B expiration_interest expiration_penalty;
  let l := match checked_sub B (collateral_balance_available l) expiration_fee with
           | Some balance => l <| collateral_balance_available := balance |>
           | None => l <| collateral_balance_available := 0 |>
           end in
  dues ← get_dues p now;
  mret (l <| due := dues.1 |> <| due_extend := dues.2 |> <| loan_status := Well |>).

Definition check_loan_health (l : Loan) (now : Moment) (btc_price : BTCPrice)
    (liquidation warning : LTV) : option LoanHealth :=
  current_ltv ← get_ltv (collateral_balance_available l) (loan_balance_total l) btc_price;
  mret (if decide (liquidation <= current_ltv) then Liquidating current_ltv
        else if decide (warning <= current_ltv) then Warning current_ltv
        else if decide (due_extend l <= now) then Expired
        else if decide (due l <= now) then Extended
        else Well).
End arithmetic.

(** ** Storage *)
Record LoanStore := MkLoanStore {
  PawnShop : AccountId;
  ProfitPool : AccountId;
  CollateralAssetId : AssetId;
  LoanAssetId : AssetId;
  GlobalLTVLimit : LTV;
  GlobalLiquidationThreshold : LTV;
  GlobalWarningThreshold : LTV;
  NextLoanPackageId : LoanPackageId;
  ActiveLoanPackages : gmap LoanPackageId LoanPackage;
  LoanPackages : gmap LoanPackageId LoanPackage;
  NextLoanId : LoanId;
  Loans : gmap LoanId Loan;
  LoansByAccount : gmap AccountId (list LoanId);
  CurrentBTCPrice : BTCPrice;
  TotalLoan : Balance;
  TotalCollateral : Balance;
  TotalProfit : Balance;
  PenaltyRate : Z;
  LiquidationAccount : AccountId;
  LiquidatingLoans : option (list LoanId);
  LoanCap : option Balance;
  LoanPaused : bool;
  MinimumCollateral : Balance;
  LiquidationPenalty : Z;
}.
#[global] Instance LoanStore_settable : Settable LoanStore := fun s =>
  MkLoanStore (PawnShop s) (ProfitPool s) (CollateralAssetId s) (LoanAssetId s) (GlobalLTVLimit s)
    (GlobalLiquidationThreshold s) (GlobalWarningThreshold s) (NextLoanPackageId s)
    (ActiveLoanPackages s) (LoanPackages s) (NextLoanId s) (Loans s) (LoansByAccount s)
    (CurrentBTCPrice s) (TotalLoan s) (TotalCollateral s) (TotalProfit s) (PenaltyRate s)
    (LiquidationAccount s) (LiquidatingLoans s) (LoanCap s) (LoanPaused s) (MinimumCollateral s)
    (LiquidationPenalty s).

Inductive LoanEvent :=
| PackageCreated (id : LoanPackageId)
| PackageDisabled (id : LoanPackageId)
| LoanCreated (l : Loan)
| LoanDrawn (id : LoanId) (amount : Balance)
| LoanRepaid (id : LoanId) (loan_balance collateral_balance : Balance)
| LoanExpired (id : LoanId) (who : AccountId) (total_penalty total_interest : Balance)
| LoanExtended (id : LoanId) (who : AccountId)
| LoanWarning (id : LoanId) (ltv : LTV)
| LoanLiquidating (id : LoanId) (who : AccountId) (collateral total : Balance)
| LoanLiquidated (id : LoanId) (original available auction total leftover : Balance)
| AddCollateral (id : LoanId) (amount : Balance).

(** The getters. *)
Definition loan_exists (id : LoanId) (st : LoanStore) : bool :=
  bool_decide (is_Some (Loans st !! id)).
Definition get_loan_by_id (id : LoanId) (st : LoanStore) : Loan := get_or Loan_default (Loans st) id.
Definition loan_package (id : LoanPackageId) (st : LoanStore) : LoanPackage :=
  get_or LoanPackage_default (LoanPackages st) id.
Definition loans_by_account (who : AccountId) (st : LoanStore) : list LoanId :=
  get_or [] (LoansByAccount st) who.
Definition liquidating_loans (st : LoanStore) : list LoanId := default [] (LiquidatingLoans st).
Definition check_loan_in_liquidation (id : LoanId) (st : LoanStore) : bool :=
  bool_decide (id ∈ liquidating_loans st).

(** [Loans::enumerate] and the balances as storage cells. *)
Definition mutate_loan (id : LoanId) (f : Loan -> Loan) (st : LoanStore) : LoanStore :=
  st <| Loans ::= <[id := f (get_loan_by_id id st)]> |>.

Module RioLoan.
Section operations.
Context {S E : Type} `{!Overflow}.
Context `{!Store S (Frame E), !Store S LoanStore, !Inject LoanEvent E, !Ledger S}.
#[local] Abbreviation B := balance_bits.

(** [+=] and [-=] on a storage cell. *)
Definition add_to (get : LoanStore -> Balance) (set : Balance -> LoanStore -> LoanStore)
    (x : Balance) : M S unit :=
  v ← gets get; v' ← lift (uadd B v x); modify (set v').
Definition sub_from (get : LoanStore -> Balance) (set : Balance -> LoanStore -> LoanStore)
    (x : Balance) : M S unit :=
  v ← gets get; v' ← lift (usub B v x); modify (set v').
Definition set_TotalLoan (v : Balance) (st : LoanStore) : LoanStore := st <| TotalLoan := v |>.
Definition set_TotalCollateral (v : Balance) (st : LoanStore) : LoanStore :=
  st <| TotalCollateral := v |>.
Definition set_TotalProfit (v : Balance) (st : LoanStore) : LoanStore :=
  st <| TotalProfit := v |>.

Definition push_loan (who : AccountId) (id : LoanId) : M S unit :=
  modify (fun st => st <| LoansByAccount ::= <[who := loans_by_account who st ++ [id]]> |>).
Definition remove_loan_of (who : AccountId) (id : LoanId) : M S unit :=
  modify (fun st => st <| LoansByAccount ::=
    <[who := filter (fun ele => ele <> id) (loans_by_account who st)]> |>).

Definition get_next_loan_package_id : M S LoanPackageId :=
  org ← gets NextLoanPackageId;
  next ← lift (uadd id_bits org 1);
  modify (fun st => st <| NextLoanPackageId := next |>) ;;
  mret org.
Definition get_next_loan_id : M S LoanId :=
  org ← gets NextLoanId;
  next ← lift (uadd id_bits org 1);
  modify (fun st => st <| NextLoanId := next |>) ;;
  mret org.

Definition create_loan_package (terms interest_rate_hourly : Z) (min_rio : Balance) : M S unit :=
  package_id ← get_next_loan_package_id;
  collateral ← gets CollateralAssetId;
  loan ← gets LoanAssetId;
  let package := MkLoanPackage package_id Active terms min_rio interest_rate_hourly collateral
                   loan in
  modify (fun st => st <| LoanPackages ::= <[package_id := package]> |>) ;;
  modify (fun st => st <| ActiveLoanPackages ::= <[package_id := package]> |>) ;;
  deposit_event (E:=E) (PackageCreated package_id).

Definition disable_loan_package (package_id : LoanPackageId) : M S unit :=
  exist ← gets (fun st => bool_decide (is_Some (LoanPackages st !! package_id)));
  ensure exist "invalid package id" ;;
  modify (fun st => st <| LoanPackages ::=
    <[package_id := (loan_package package_id st) <| pkg_status := Inactive |>]> |>) ;;
  modify (fun st => st <| ActiveLoanPackages ::= delete package_id |>) ;;
  deposit_event (E:=E) (PackageDisabled package_id).

(** The [revert_callback] of [repay_loan]. *)
Definition repay_revert (who : AccountId) (loan : Loan) : M S unit :=
  modify (fun st => st <| Loans ::= <[loan_id loan := loan]> |>) ;;
  push_loan who (loan_id loan) ;;
  add_to TotalLoan set_TotalLoan (loan_balance_total loan) ;;
  add_to TotalCollateral set_TotalCollateral (collateral_balance_available loan).

Definition repay_loan (who : AccountId) (id : LoanId) : M S unit :=
  pawn_shop ← gets PawnShop;
  exist ← gets (loan_exists id);
  ensure exist "invalid loan id" ;;
  loan ← gets (get_loan_by_id id);
  ensure (bool_decide (loan_who loan = who)) "not owner of the loan" ;;
  pkg ← gets (fun st => bool_decide (is_Some (LoanPackages st !! package_id loan)));
  ensure pkg "invalid package id in loan" ;;
  package ← gets (loan_package (package_id loan));
  b ← free_balance_of (loan_asset_id package) who;
  ensure (bool_decide (loan_balance_total loan <= b)) "not enough asset to repay" ;;
  c ← free_balance_of (collateral_asset_id package) pawn_shop;
  ensure (bool_decide (collateral_balance_available loan <= c))
    "not enough collateral asset in shop" ;;
  liq ← gets (check_loan_in_liquidation id);
  ensure (negb liq) "loan is in liquidation" ;;
  modify (fun st => st <| Loans ::= delete (loan_id loan) |>) ;;
  remove_loan_of who id ;;
  sub_from TotalLoan set_TotalLoan (loan_balance_total loan) ;;
  sub_from TotalCollateral set_TotalCollateral (collateral_balance_available loan) ;;
  or_else
    (make_transfer_with_event (loan_asset_id package) who pawn_shop (loan_balance_total loan))
    (fun err => repay_revert who loan ;; fail err) ;;
  or_else
    (make_transfer_with_event (collateral_asset_id package) pawn_shop who
       (collateral_balance_available loan))
    (fun err =>
       repay_revert who loan ;;
       make_transfer_with_event (loan_asset_id package) pawn_shop who (loan_balance_total loan) ;;
       fail err) ;;
  burn Root (loan_asset_id package) pawn_shop (loan_balance_total loan) ;;
  deposit_event (E:=E)
    (LoanRepaid id (loan_balance_total loan) (collateral_balance_available loan)).

(** The credit left under the LTV limit; the last subtraction may underflow. *)
Definition available_credit (loan : Loan) (btc_price : BTCPrice) (global_ltv : LTV)
    : option Balance :=
  a ← umul B (collateral_balance_available loan) btc_price;
  b ← umul B a global_ltv;
  c ← udiv b LTV_PREC;
  d ← udiv c PRICE_PREC;
  usub B d (loan_balance_total loan).

Definition draw_from_loan (who : AccountId) (id : LoanId) (amount : Balance) : M S unit :=
  exist ← gets (loan_exists id);
  ensure exist "invalid loan id" ;;
  loan ← gets (get_loan_by_id id);
  ensure (bool_decide (loan_who loan = who)) "can't draw from others loan" ;;
  btc_price ← gets CurrentBTCPrice;
  global_ltv ← gets GlobalLTVLimit;
  credit ← lift (available_credit loan btc_price global_ltv);
  ensure (bool_decide (amount <= credit)) "short of available credit" ;;
  profit_pool ← gets ProfitPool;
  package ← gets (loan_package (package_id loan));
  interest ← lift (get_interest package amount);
  mint Root (loan_asset_id package) profit_pool interest ;;
  rest ← lift (usub B amount interest);
  or_else (mint Root (loan_asset_id package) who rest)
    (fun err => burn Root (loan_asset_id package) profit_pool interest ;; fail err) ;;
  total ← gets (fun st => loan_balance_total (get_loan_by_id id st));
  total' ← lift (uadd B total amount);
  modify (mutate_loan id (fun v => v <| loan_balance_total := total' |>)) ;;
  add_to TotalLoan set_TotalLoan amount ;;
  add_to TotalProfit set_TotalProfit interest ;;
  deposit_event (E:=E) (LoanDrawn id amount).

Definition get_collateral_loan (collateral_amount loan_amount : Balance) : M S CollateralLoan :=
  if decide (collateral_amount = 0 /\ loan_amount = 0) then fail (Msg "both amount are zero")
  else
    btc_price ← gets CurrentBTCPrice;
    ltv ← gets GlobalLTVLimit;
    if decide (collateral_amount = 0) then
      a ← lift (umul B loan_amount LTV_PREC);
      b ← lift (umul B a PRICE_PREC);
      c ← lift (umul B btc_price ltv);
      must_collateral_amount ← lift (udiv b c);
      mret (MkCollateralLoan must_collateral_amount loan_amount)
    else if decide (loan_amount = 0) then
      a ← lift (umul B collateral_amount btc_price);
      b ← lift (umul B a ltv);
      c ← lift (umul B LTV_PREC PRICE_PREC);
      can_loan_amount ← lift (udiv b c);
      mret (MkCollateralLoan collateral_amount can_loan_amount)
    else
      a ← lift (umul B loan_amount LTV_PREC);
      b ← lift (umul B a PRICE_PREC);
      c ← lift (udiv b collateral_amount);
      d ← lift (udiv c btc_price);
      if decide (ltv < d) then fail (Msg "over LTV limit")
      else mret (MkCollateralLoan collateral_amount loan_amount).

Definition apply_for_loan (who : AccountId) (pid : LoanPackageId)
    (collateral_amount loan_amount : Balance) : M S unit :=
  ensure (negb (bool_decide (collateral_amount = 0 /\ loan_amount = 0)))
    "invalid combination of collateral & loan amount" ;;
  active ← gets (fun st => bool_decide (is_Some (ActiveLoanPackages st !! pid)));
  ensure active "invalid package id" ;;
  package ← gets (fun st => get_or LoanPackage_default (ActiveLoanPackages st) pid);
  shop ← gets PawnShop;
  profit_pool ← gets ProfitPool;
  loan_cap ← gets LoanCap;
  total_loan ← gets TotalLoan;
  (if match loan_cap with Some cap => bool_decide (cap <= total_loan) | None => false end
   then fail (Msg "reach loan limit") else mret tt) ;;
  cl ← get_collateral_loan collateral_amount loan_amount;
  let actual_collateral_amount := cl_collateral_amount cl in
  let actual_loan_amount := cl_loan_amount cl in
  ensure (bool_decide (pkg_min package <= actual_loan_amount)) "not reach min loan amount" ;;
  minimum ← gets MinimumCollateral;
  ensure (bool_decide (minimum <= collateral_amount)) "not reach min collateral amount" ;;
  interest ← lift (get_interest package actual_loan_amount);
  ensure (bool_decide (interest < actual_loan_amount)) "interest is too high" ;;
  make_transfer_with_event (collateral_asset_id package) who shop actual_collateral_amount ;;
  now ← gets (fun f : Frame E => now f);
  dues ← lift (get_dues package now);
  id ← get_next_loan_id;
  let loan := MkLoan id pid who dues.1 dues.2 actual_collateral_amount actual_collateral_amount
                actual_loan_amount Well in
  or_else (mint Root (loan_asset_id package) profit_pool interest)
    (fun err =>
       make_transfer_with_event (collateral_asset_id package) shop who
         actual_collateral_amount ;;
       fail err) ;;
  rest ← lift (usub B actual_loan_amount interest);
  or_else (mint Root (loan_asset_id package) who rest)
    (fun err =>
       burn Root (loan_asset_id package) profit_pool interest ;;
       make_transfer_with_event (collateral_asset_id package) shop who
         actual_collateral_amount ;;
       fail err) ;;
  modify (fun st => st <| Loans ::= <[id := loan]> |>) ;;
  push_loan who id ;;
  add_to TotalLoan set_TotalLoan actual_loan_amount ;;
  add_to TotalCollateral set_TotalCollateral actual_collateral_amount ;;
  add_to TotalProfit set_TotalProfit interest ;;
  deposit_event (E:=E) (LoanCreated loan).

Definition mark_loan_liquidated (loan : Loan) (liquidation_account : AccountId)
    (auction_balance : Balance) : M S unit :=
  liq ← gets (check_loan_in_liquidation (loan_id loan));
  ensure liq "loan id not in liquidating" ;;
  pawnshop ← gets PawnShop;
  package ← gets (loan_package (package_id loan));
  b ← free_balance_of (loan_asset_id package) liquidation_account;
  ensure (bool_decide (auction_balance <= b)) "not enough asset to liquidate" ;;
  make_transfer_with_event (loan_asset_id package) liquidation_account pawnshop
    (loan_balance_total loan) ;;
  let leftover := checked_sub B auction_balance (loan_balance_total loan) in
  leftover ← match leftover with
    | Some lo =>
        if decide (0 < lo) then
          penalty_rate ← gets LiquidationPenalty;
          a ← lift (umul B lo penalty_rate);
          penalty ← lift (udiv a LTV_PREC);
          pool ← gets ProfitPool;
          or_else
            (make_transfer_with_event (loan_asset_id package) liquidation_account pool penalty)
            (fun err =>
               make_transfer_with_event (loan_asset_id package) pawnshop liquidation_account
                 (loan_balance_total loan) ;;
               fail err) ;;
          rest ← lift (usub B lo penalty);
          or_else
            (make_transfer_with_event (loan_asset_id package) liquidation_account
               (loan_who loan) rest)
            (fun err =>
               pool ← gets ProfitPool;
               make_transfer_with_event (loan_asset_id package) pool liquidation_account
                 penalty ;;
               make_transfer_with_event (loan_asset_id package) pawnshop liquidation_account
                 (loan_balance_total loan) ;;
               fail err) ;;
          rest ← lift (usub B lo penalty);
          mret (Some rest)
        else mret (Some lo)
    | None => mret None
    end;
  modify (fun st => st <| Loans ::= delete (loan_id loan) |>) ;;
  remove_loan_of (loan_who loan) (loan_id loan) ;;
  modify (fun st => st <| LiquidatingLoans :=
    Some (filter (fun ele => ele <> loan_id loan) (liquidating_loans st)) |>) ;;
  final ← lift leftover;
  deposit_event (E:=E)
    (LoanLiquidated (loan_id loan) (collateral_balance_original loan)
       (collateral_balance_available loan) auction_balance (loan_balance_total loan) final).

Definition add_loan_collateral (loan : Loan) (from : AccountId) (amount : Balance) : M S unit :=
  pawnshop ← gets PawnShop;
  package ← gets (loan_package (package_id loan));
  b ← free_balance_of (collateral_asset_id package) from;
  ensure (bool_decide (amount <= b)) "not enough collateral asset in free balance" ;;
  make_transfer_with_event (collateral_asset_id package) from pawnshop amount ;;
  l ← gets (get_loan_by_id (loan_id loan));
  original ← lift (uadd B (collateral_balance_original l) amount);
  available ← lift (uadd B (collateral_balance_available l) amount);
  modify (mutate_loan (loan_id loan) (fun l =>
    l <| collateral_balance_original := original |>
      <| collateral_balance_available := available |>)) ;;
  add_to TotalCollateral set_TotalCollateral amount ;;
  deposit_event (E:=E) (AddCollateral (loan_id loan) amount).

Definition liquidate_loan (id : LoanId) (liquidating_ltv : LTV) : M S unit :=
  modify (mutate_loan id (fun v => v <| loan_status := Liquidating liquidating_ltv |>)) ;;
  modify (fun st => st <| LiquidatingLoans := Some
    match LiquidatingLoans st with
    | Some v => v ++ [id]
    | None => [id]
    end |>).

(** The packages read so far and the totals of the loop of [on_each_block]. *)
Record block_acc := MkBlockAcc {
  packages : gmap LoanPackageId LoanPackage;
  total_penalty : Balance;
  total_interest : Balance;
}.

(** The body of the loop, for the loan [id]. *)
Definition each_loan (now : Moment) (btc_price : BTCPrice) (liquidation_thd warning_thd : LTV)
    (acc : block_acc) (id : LoanId) (loan : Loan) : M S block_acc :=
  liq ← gets (check_loan_in_liquidation id);
  if (liq : bool) then mret acc
  else
    health ← lift (check_loan_health loan now btc_price liquidation_thd warning_thd);
    match health with
    | Well => mret acc
    | Warning ltv =>
        (if decide (loan_status loan = Warning ltv) then mret tt
         else modify (mutate_loan (loan_id loan) (fun v => v <| loan_status := Warning ltv |>)) ;;
              deposit_event (E:=E) (LoanWarning id ltv)) ;;
        mret acc
    | Extended =>
        (if decide (loan_status loan = Extended) then mret tt
         else modify (mutate_loan (loan_id loan) (fun v => v <| loan_status := Extended |>)) ;;
              deposit_event (E:=E) (LoanExtended id (loan_who loan))) ;;
        mret acc
    | Liquidating l =>
        liquidate_loan id l ;;
        deposit_event (E:=E)
          (LoanLiquidating id (loan_who loan) (collateral_balance_available loan)
             (loan_balance_total loan)) ;;
        mret acc
    | Expired =>
        fresh ← gets (loan_package (package_id loan));
        let cache := if decide (is_Some (packages acc !! package_id loan)) then packages acc
                     else <[package_id loan := fresh]> (packages acc) in
        package ← lift (cache !! package_id loan);
        rate ← gets PenaltyRate;
        penalty ← lift (expiration_penalty loan rate btc_price);
        interest ← lift (expiration_interest loan package btc_price);
        total_penalty ← lift (uadd B (total_penalty acc) penalty);
        total_interest ← lift (uadd B (total_interest acc) interest);
        new_loan ← lift (expire_then_update loan package now penalty interest);
        new_ltv ← lift (get_ltv (collateral_balance_available new_loan)
                          (loan_balance_total new_loan) btc_price);
        (if decide (liquidation_thd <= new_ltv) then
           modify (fun st => st <| Loans ::= <[id := new_loan]> |>) ;;
           liquidate_loan id new_ltv ;;
           deposit_event (E:=E)
             (LoanLiquidating id (loan_who loan) (collateral_balance_available loan)
                (loan_balance_total loan))
         else if decide (warning_thd <= new_ltv) then
           modify (fun st => st <| Loans ::=
             <[id := new_loan <| loan_status := Warning new_ltv |>]> |>) ;;
           deposit_event (E:=E) (LoanWarning id new_ltv)
         else
           modify (fun st => st <| Loans ::= <[id := new_loan]> |>) ;;
           deposit_event (E:=E)
             (LoanExpired id (loan_who loan) total_penalty total_interest)) ;;
        mret (MkBlockAcc cache total_penalty total_interest)
    end.

Fixpoint each_loans (now : Moment) (btc_price : BTCPrice) (liquidation_thd warning_thd : LTV)
    (acc : block_acc) (ids : list LoanId) : M S block_acc :=
  match ids with
  | [] => mret acc
  | id :: ids =>
      loan ← gets (get_loan_by_id id);
      acc ← each_loan now btc_price liquidation_thd warning_thd acc id loan;
      each_loans now btc_price liquidation_thd warning_thd acc ids
  end.

(** [Loans::enumerate] visits the keys in an order of the storage; the loop
    writes only existing keys. *)
Context (enumerate : gmap LoanId Loan -> list LoanId).

Definition on_each_block : M S unit :=
  now ← gets (fun f : Frame E => now f);
  btc_price ← gets CurrentBTCPrice;
  liquidation_thd ← gets GlobalLiquidationThreshold;
  warning_thd ← gets GlobalWarningThreshold;
  asset ← gets CollateralAssetId;
  pawnshop ← gets PawnShop;
  profit_pool ← gets ProfitPool;
  ids ← gets (fun st => enumerate (Loans st));
  acc ← each_loans now btc_price liquidation_thd warning_thd (MkBlockAcc ∅ 0 0) ids;
  total ← lift (uadd B (total_penalty acc) (total_interest acc));
  if decide (total = 0) then mret tt
  else
    ignore (
      make_transfer_with_event asset pawnshop profit_pool total ;;
      v ← gets TotalCollateral;
      fee ← lift (uadd B (total_interest acc) (total_penalty acc));
      match checked_sub B v fee with
      | Some total => modify (fun st => st <| TotalCollateral := total |>)
      | None => fail (Msg "total collateral underflows")
      end).

Definition on_initialize : M S unit :=
  paused ← gets LoanPaused;
  if (paused : bool) then mret tt else on_each_block.

(** The hook of the price pallet. *)
Definition on_change (p : BTCPrice) : M S unit :=
  modify (fun st => st <| CurrentBTCPrice := p |>).

(** [OnAssetTransfer for Module<T>]. *)
Definition on_asset_transfer (_ : AssetId) (_ _ : AccountId) (_ : Balance) : M S unit := mret tt.

(** The dispatchables. *)
Definition when_running {A} (m : M S A) : M S A :=
  paused ← gets LoanPaused;
  ensure (negb paused) "module is paused" ;;
  m.
Definition root_sets (o : origin) (f : LoanStore -> LoanStore) : M S unit :=
  ensure_root o ;; modify f.

Definition pause (o : origin) : M S unit := root_sets o (fun st => st <| LoanPaused := true |>).
Definition resume (o : origin) : M S unit := root_sets o (fun st => st <| LoanPaused := false |>).
Definition set_collateral_asset_id (o : origin) (a : AssetId) : M S unit :=
  root_sets o (fun st => st <| CollateralAssetId := a |>).
Definition set_global_ltv_limit (o : origin) (limit : LTV) : M S unit :=
  root_sets o (fun st => st <| GlobalLTVLimit := limit |>).
Definition set_loan_asset_id (o : origin) (a : AssetId) : M S unit :=
  root_sets o (fun st => st <| LoanAssetId := a |>).
(** As in the source, the two setters write each other's threshold. *)
Definition set_global_liquidation_threshold (o : origin) (threshold : LTV) : M S unit :=
  root_sets o (fun st => st <| GlobalWarningThreshold := threshold |>).
Definition set_global_warning_threshold (o : origin) (threshold : LTV) : M S unit :=
  root_sets o (fun st => st <| GlobalLiquidationThreshold := threshold |>).
Definition set_loan_cap (o : origin) (balance : Balance) : M S unit :=
  root_sets o (fun st => st <| LoanCap := if decide (balance = 0) then None else Some balance |>).
Definition set_liquidation_account (o : origin) (who : AccountId) : M S unit :=
  root_sets o (fun st => st <| LiquidationAccount := who |>).
Definition set_penalty_rate (o : origin) (rate : Z) : M S unit :=
  root_sets o (fun st => st <| PenaltyRate := rate |>).
Definition set_price (o : origin) (price : BTCPrice) : M S unit :=
  root_sets o (fun st => st <| CurrentBTCPrice := price |>).

Definition create_package (o : origin) (terms interest_rate_hourly : Z) (min_rio : Balance)
    : M S unit :=
  when_running (
    ensure_root o ;;
    ensure (bool_decide (0 < terms) && bool_decide (0 < interest_rate_hourly)
              && bool_decide (0 < min_rio)) "zero is not allowed" ;;
    ensure (bool_decide (interest_rate_hourly < INTEREST_RATE_PREC)) "invalid interest rate" ;;
    create_loan_package terms interest_rate_hourly min_rio).
Definition disable_package (o : origin) (id : LoanPackageId) : M S unit :=
  when_running (ensure_root o ;; disable_loan_package id).
Definition repay (o : origin) (id : LoanId) : M S unit :=
  when_running (who ← ensure_signed o; repay_loan who id).
Definition apply (o : origin) (collateral_amount loan_amount : Balance) (pid : LoanPackageId)
    : M S unit :=
  when_running (who ← ensure_signed o; apply_for_loan who pid collateral_amount loan_amount).
Definition mark_liquidated (o : origin) (id : LoanId) (auction_balance : Balance) : M S unit :=
  when_running (
    liquidation_account ← ensure_signed o;
    account ← gets LiquidationAccount;
    ensure (bool_decide (liquidation_account = account)) "liquidation account only" ;;
    exist ← gets (loan_exists id);
    ensure exist "loan doesn't exists" ;;
    loan ← gets (get_loan_by_id id);
    mark_loan_liquidated loan liquidation_account auction_balance).
Definition add_collateral (o : origin) (id : LoanId) (amount : Balance) : M S unit :=
  when_running (
    who ← ensure_signed o;
    exist ← gets (loan_exists id);
    ensure exist "loan doesn't exists" ;;
    loan ← gets (get_loan_by_id id);
    ensure (bool_decide (who = loan_who loan)) "adding collateral to other's loan is not allowed" ;;
    add_loan_collateral loan (loan_who loan) amount).
Definition draw (o : origin) (id : LoanId) (amount : Balance) : M S unit :=
  when_running (who ← ensure_signed o; draw_from_loan who id amount).

Inductive Call :=
| CallPause
| CallResume
| CallSetCollateralAssetId (a : AssetId)
| CallSetGlobalLtvLimit (limit : LTV)
| CallSetLoanAssetId (a : AssetId)
| CallSetGlobalLiquidationThreshold (threshold : LTV)
| CallSetGlobalWarningThreshold (threshold : LTV)
| CallSetLoanCap (balance : Balance)
| CallSetLiquidationAccount (who : AccountId)
| CallSetPenaltyRate (rate : Z)
| CallCreatePackage (terms interest_rate_hourly : Z) (min_rio : Balance)
| CallDisablePackage (id : LoanPackageId)
| CallSetPrice (price : BTCPrice)
| CallRepay (id : LoanId)
| CallApply (collateral_amount loan_amount : Balance) (pid : LoanPackageId)
| CallMarkLiquidated (id : LoanId) (auction_balance : Balance)
| CallAddCollateral (id : LoanId) (amount : Balance)
| CallDraw (id : LoanId) (amount : Balance).

Definition dispatch (o : origin) (c : Call) : M S unit :=
  match c with
  | CallPause => pause o
  | CallResume => resume o
  | CallSetCollateralAssetId a => set_collateral_asset_id o a
  | CallSetGlobalLtvLimit l => set_global_ltv_limit o l
  | CallSetLoanAssetId a => set_loan_asset_id o a
  | CallSetGlobalLiquidationThreshold l => set_global_liquidation_threshold o l
  | CallSetGlobalWarningThreshold l => set_global_warning_threshold o l
  | CallSetLoanCap b => set_loan_cap o b
  | CallSetLiquidationAccount who => set_liquidation_account o who
  | CallSetPenaltyRate r => set_penalty_rate o r
  | CallCreatePackage t r m => create_package o t r m
  | CallDisablePackage id => disable_package o id
  | CallSetPrice p => set_price o p
  | CallRepay id => repay o id
  | CallApply c l pid => apply o c l pid
  | CallMarkLiquidated id a => mark_liquidated o id a
  | CallAddCollateral id a => add_collateral o id a
  | CallDraw id a => draw o id a
  end.
End operations.
End RioLoan.
