(* ===== verification/LoanFacts.v ===== *)
(** * Loans: interest, dates, loan to value, and the effect of each operation *)
From S2P Require Export Loan Client.
#[local] Open Scope Z_scope.
Import RioLoan.

(** ** The arithmetic, where it fits *)
Section arithmetic.
Context `{!Overflow}.
Implicit Types (p : LoanPackage) (l : Loan) (x : Balance).

(** The interest of [x] under [p], as a number, and when it is computed exactly. *)
Definition interest_of p x : Z := x * terms p * 24 * interest_rate_hourly p / INTEREST_RATE_PREC.
Definition interest_fits p x : Prop :=
  0 <= x /\ 0 <= terms p /\ 0 <= interest_rate_hourly p /\
  x * terms p * 24 < 2 ^ balance_bits /\
  x * terms p * 24 * interest_rate_hourly p < 2 ^ balance_bits.

Lemma get_interest_owp p x :
  exact (interest_fits p x) ->
  owp (get_interest p x) (fun i => i = interest_of p x /\ 0 <= i) (~ interest_fits p x).
Proof.
  intros Hx. unfold get_interest, interest_fits in *.
  assert (interest_fits p x -> 0 <= x * terms p /\ x * terms p <= x * terms p * 24 /\
    0 <= x * terms p * 24 * interest_rate_hourly p) as Hpos.
  { intros (? & ? & ? & _). assert (0 <= x * terms p) by (by apply Z.mul_nonneg_nonneg).
    split_and!; [done|lia|apply Z.mul_nonneg_nonneg; lia]. }
  unfold interest_fits in Hpos.
  do 2 owp_step Hx; [unfold in_width; tauto || lia|].
  do 2 owp_step Hx; [unfold in_width; lia|].
  do 2 owp_step Hx; [unfold in_width; lia|].
  owp_step Hx; [done|]. split; [done|]. apply Z.div_pos; [unfold in_width in *; lia|done].
Qed.
Lemma interest_of_nonneg p x : interest_fits p x -> 0 <= interest_of p x.
Proof.
  intros (Hx & Ht & Hr & _). unfold interest_of. apply Z.div_pos; [|done].
  repeat apply Z.mul_nonneg_nonneg; lia.
Qed.

Definition due_of p (now : Moment) : Moment := now + TERMS_UNIT * terms p * 1000.
Definition due_extend_of p (now : Moment) : Moment := due_of p now + DUE_EXTEND * TERMS_UNIT * 1000.
Definition dues_fit p (now : Moment) : Prop :=
  0 <= terms p /\ 0 <= now /\ due_extend_of p now < 2 ^ moment_bits.

Lemma get_dues_owp p now :
  exact (dues_fit p now) ->
  owp (get_dues p now) (fun d => d = (due_of p now, due_extend_of p now)) (~ dues_fit p now).
Proof.
  intros Hx. unfold get_dues.
  assert (dues_fit p now -> in_width moment_bits (TERMS_UNIT * terms p * 1000) /\
    in_width moment_bits (TERMS_UNIT * terms p) /\ in_width moment_bits (due_of p now) /\
    in_width moment_bits (due_extend_of p now)) as Hfit.
  { unfold dues_fit, due_extend_of, due_of, TERMS_UNIT, DUE_EXTEND, in_width, moment_bits. lia. }
  do 2 owp_step Hx; [apply Hfit; assumption|].
  do 2 owp_step Hx; [apply Hfit; assumption|].
  do 2 owp_step Hx; [apply Hfit; assumption|].
  do 2 owp_step Hx; [done|]. do 2 owp_step Hx; [done|].
  do 2 owp_step Hx; [apply Hfit; assumption|]. by owp_step Hx.
Qed.

(** The loan to value of a loan, as a number. *)
Definition prec : Z := LTV_PREC * PRICE_PREC.
Definition ltv_of (c x : Balance) (price : BTCPrice) : LTV := x * prec / (c * price).

Lemma get_ltv_ok c x price :
  0 <= x -> 0 < c -> 0 < price -> x * prec < 2 ^ balance_bits -> c * price < 2 ^ balance_bits ->
  get_ltv c x price = checked ltv_bits (ltv_of c x price).
Proof.
  intros Hx Hc Hp Hw Hcp. unfold get_ltv, ltv_of. unfold prec, LTV_PREC, PRICE_PREC in *.
  assert (0 < c * price) by (by apply Z.mul_pos_pos).
  rewrite umul_ok by (unfold in_width; lia). cbn [mbind option_bind].
  rewrite umul_ok by (unfold in_width; lia). cbn [mbind option_bind].
  rewrite umul_ok by (unfold in_width; lia). cbn [mbind option_bind].
  rewrite udiv_ok by lia. cbn [mbind option_bind]. do 2 f_equal. lia.
Qed.

(** What the LTV limit [r] allows for a collateral. *)
Lemma ltv_le_iff c x price r :
  0 < c -> 0 < price -> ltv_of c x price <= r <-> x * prec < (r + 1) * (c * price).
Proof.
  intros Hc Hp. assert (0 < c * price) by (by apply Z.mul_pos_pos).
  unfold ltv_of. split; intros H1.
  - apply Z.lt_nge. intros H2. pose proof (Z.div_le_lower_bound (x * prec) (c * price) (r + 1)). lia.
  - assert (x * prec / (c * price) < r + 1); [|lia]. apply Z.div_lt_upper_bound; lia.
Qed.

(** A loan within the limit, by its numerator: no rounding is lost. *)
Lemma ltv_le_of_mul c x price r :
  0 < c -> 0 < price -> x * prec <= c * price * r -> ltv_of c x price <= r.
Proof.
  intros Hc Hp Hx. apply ltv_le_iff; [done|done|].
  assert (0 < c * price) by (by apply Z.mul_pos_pos). lia.
Qed.
End arithmetic.

(** ** The amounts of a loan under the LTV limit *)
Section limit.
Context {S : Type} `{!Overflow, !Store S LoanStore}.
Implicit Types (s : S).
#[local] Abbreviation lst := (sget (T:=LoanStore)).

(** The products of [get_collateral_loan] fit a balance. *)
Definition limit_fits (c x : Balance) (price : BTCPrice) (r : LTV) : Prop :=
  0 <= c /\ 0 <= x /\ 0 < price /\ 0 < r /\ x * prec < 2 ^ balance_bits /\
  price * r < 2 ^ balance_bits /\ c * price * r < 2 ^ balance_bits.

Definition collateral_loan_of (c x : Balance) (price : BTCPrice) (r : LTV)
    : error + CollateralLoan :=
  if decide (c = 0 /\ x = 0) then inl (Msg "both amount are zero")
  else if decide (c = 0) then inr (MkCollateralLoan (x * prec / (price * r)) x)
  else if decide (x = 0) then inr (MkCollateralLoan c (c * price * r / prec))
  else if decide (r < ltv_of c x price) then inl (Msg "over LTV limit")
  else inr (MkCollateralLoan c x).

Lemma limit_products c x price r :
  limit_fits c x price r ->
  in_width balance_bits (x * LTV_PREC) /\ in_width balance_bits (x * LTV_PREC * PRICE_PREC) /\
  in_width balance_bits (price * r) /\ price * r <> 0 /\ price <> 0 /\
  in_width balance_bits (c * price) /\ in_width balance_bits (c * price * r) /\
  in_width balance_bits (LTV_PREC * PRICE_PREC).
Proof.
  intros (Hc & Hx & Hp & Hr & H1 & H2 & H3). unfold prec, LTV_PREC, PRICE_PREC, in_width in *.
  assert (0 < price * r) by (by apply Z.mul_pos_pos).
  assert (0 <= c * price) by (apply Z.mul_nonneg_nonneg; lia).
  assert (c * price <= c * price * r) by nia. unfold balance_bits in *. split_and!; lia.
Qed.

Lemma get_collateral_loan_wp c x s :
  let price := CurrentBTCPrice (lst s) in let r := GlobalLTVLimit (lst s) in
  in_width balance_bits c -> in_width balance_bits x -> 0 <= price -> 0 <= r ->
  exact (limit_fits c x price r) ->
  wp (get_collateral_loan c x)
    (fun cl s' => s' = s /\ collateral_loan_of c x price r = inr cl /\
       in_width balance_bits (cl_collateral_amount cl) /\
       in_width balance_bits (cl_loan_amount cl))
    (fun e s' => s' = s /\ collateral_loan_of c x price r = inl e)
    (~ limit_fits c x price r) s.
Proof.
  intros price r Hc Hx Hp Hr Hex.
  pose proof (limit_products c x price r) as Hfit.
  assert (forall y d, 0 < d -> in_width balance_bits y -> in_width balance_bits (y / d)) as Hdiv.
  { intros y d Hd [Hy1 Hy2]. split; [by apply Z.div_pos|].
    apply Z.le_lt_trans with y; [|done]. apply Z.div_le_upper_bound; [done|]. nia. }
  unfold get_collateral_loan, collateral_loan_of. unfold prec, LTV_PREC, PRICE_PREC in *.
  case_decide as Hz; [by rewrite wp_fail|]. do 4 wp_step. fold price r.
  case_decide as Hc0; [|case_decide as Hx0].
  - do 3 (wp_step; apply wp_owp; owp_step Hex; [tauto|]).
    wp_step; apply wp_owp; owp_step Hex; [tauto|].
    wp_step. cbn [cl_collateral_amount cl_loan_amount].
    assert (x * 10000 * 10000 = x * (10000 * 10000)) as Heq by lia. rewrite Heq in *.
    split_and!; [done|done| |done].
    apply Hdiv; [unfold in_width in *; lia|done].
  - do 3 (wp_step; apply wp_owp; owp_step Hex; [tauto|]).
    wp_step; apply wp_owp; owp_step Hex; [done|].
    wp_step. cbn [cl_collateral_amount cl_loan_amount].
    split_and!; [done|done|done|by apply Hdiv].
  - do 2 (wp_step; apply wp_owp; owp_step Hex; [tauto|]).
    do 2 (wp_step; apply wp_owp; owp_step Hex; [tauto|]).
    assert (x * 10000 * 10000 / c / price = ltv_of c x price) as ->.
    { unfold ltv_of, prec, LTV_PREC, PRICE_PREC. unfold in_width in *.
      rewrite Z.div_div by lia. f_equal. lia. }
    case_decide; wp_step; [done|]. by split_and!.
Qed.

(** The amounts [cl] granted for a collateral [c] and a loan [x], 0 where none is given:
    not both are 0; both given, they are granted as they are and within the limit; the
    collateral alone gets the largest loan within the limit; the loan alone asks for
    the collateral of the limit, rounded down. *)
Definition grants (c x : Balance) (price : BTCPrice) (r : LTV) (cl : CollateralLoan) : Prop :=
  let c' := cl_collateral_amount cl in let x' := cl_loan_amount cl in
  ~ (c = 0 /\ x = 0) /\
  (c <> 0 -> x <> 0 -> c' = c /\ x' = x /\ ltv_of c x price <= r) /\
  (c <> 0 -> x = 0 -> c' = c /\ ltv_of c x' price <= r /\
     forall y, y * prec <= c * price * r -> y <= x') /\
  (c = 0 -> x' = x /\ c' * price * r <= x * prec < (c' + 1) * price * r).

Lemma collateral_loan_grants c x price r cl :
  0 <= c -> 0 <= x -> 0 < price -> 0 < r ->
  collateral_loan_of c x price r = inr cl -> grants c x price r cl.
Proof.
  intros Hc Hx Hp Hr. unfold collateral_loan_of, grants.
  assert (0 < price * r) as Hpr by (by apply Z.mul_pos_pos).
  assert (0 < prec) as Hprec by done.
  repeat case_decide; intros [= <-]; cbn [cl_collateral_amount cl_loan_amount];
    (split; [done|]); split_and!; try lia.
  - intros _. split; [done|].
    pose proof (Z.mul_div_le (x * prec) (price * r) Hpr).
    pose proof (Z.mul_succ_div_gt (x * prec) (price * r) Hpr). nia.
  - intros _ _. split_and!; [done| |].
    + apply ltv_le_of_mul; [lia|done|]. rewrite Z.mul_comm. by apply Z.mul_div_le.
    + intros y Hy. apply Z.div_le_lower_bound; lia.
Qed.

(** C28: the amounts granted for a loan respect the limit, in each of the four
    combinations of a collateral and a loan that are given or not: with both, they are
    granted as they are exactly when their loan to value does not exceed the limit;
    with the collateral alone, the largest loan within the limit is granted; with the
    loan alone, the collateral misses the limit by less than one unit; with neither,
    the request is refused.  There is no other error, no write, and no panic where the
    products fit and the price and the limit are positive, as [limit_fits] says. *)
Theorem granted_amounts_respect_limit c x s :
  let price := CurrentBTCPrice (lst s) in let r := GlobalLTVLimit (lst s) in
  in_width balance_bits c -> in_width balance_bits x -> limit_fits c x price r ->
  wp (get_collateral_loan c x)
    (fun cl s' => s' = s /\ grants c x price r cl)
    (fun e s' => s' = s /\
       ((c = 0 /\ x = 0 /\ e = Msg "both amount are zero") \/
        (c <> 0 /\ x <> 0 /\ r < ltv_of c x price /\ e = Msg "over LTV limit"))) False s.
Proof.
  intros price r Hcw Hxw Hfit. pose proof Hfit as (Hc & Hx & Hp & Hr & H1 & H2 & H3).
  eapply wp_mono; [apply (get_collateral_loan_wp c x s); [done|done|lia|lia|by right]| | |tauto].
  - intros cl s' (-> & Hcl & _). split; [done|]. by apply collateral_loan_grants.
  - intros e s' (-> & Hcl). unfold collateral_loan_of in Hcl. fold price r in Hcl.
    revert Hcl. repeat case_decide; intros [= <-]; (split; [done|]).
    + left. tauto.
    + right. split_and!; try lia; try done; intros ->; tauto.
Qed.
End limit.

(** ** Applying for a loan *)
Section apply.
Context {S E : Type} `{!Overflow, !Store S (Frame E), !Store S LoanStore, !Inject LoanEvent E}.
Context `{!Separate S (Frame E) LoanStore}.
Context `{!Ledger S, !LedgerEvents E, !LedgerSpec S E, !EventLog LoanEvent E}.
Context (Hforeign : foreign LoanStore _).
Implicit Types (s : S) (st : LoanStore) (who : AccountId).
#[local] Abbreviation lst := (sget (T:=LoanStore)).
#[local] Abbreviation fr := (sget (T:=Frame E)).
#[local] Abbreviation eff := (effect (E:=E) (T:=LoanStore) (Ev:=LoanEvent)).

Lemma add_to_ok get set x s (Q : unit -> S -> Prop) Er P :
  in_width balance_bits (get (lst s) + x) ->
  Q tt (sput (set (get (lst s) + x) (lst s)) s) -> wp (add_to get set x) Q Er P s.
Proof.
  intros Hw HQ. unfold add_to. do 2 wp_step. wp_step.
  eapply wp_lift_Some; [by apply uadd_ok|]. by wp_step.
Qed.

(** The booking cells, exactly or with a panic that shows they overflow. *)
Section booking.
Context (fits : Prop) (Hex : exact fits).

Lemma add_to_wp get set x s (Q : unit -> S -> Prop) Er :
  (fits -> in_width balance_bits (get (lst s) + x)) ->
  (in_width balance_bits (get (lst s) + x) -> Q tt (sput (set (get (lst s) + x) (lst s)) s)) ->
  wp (add_to get set x) Q Er (~ fits) s.
Proof.
  intros Hf HQ. unfold add_to. do 2 wp_step. wp_step. apply wp_owp. owp_step Hex; [by apply Hf|].
  wp_step. by apply HQ.
Qed.
Lemma sub_from_wp get set x s (Q : unit -> S -> Prop) Er :
  (fits -> in_width balance_bits (get (lst s) - x)) ->
  (in_width balance_bits (get (lst s) - x) -> Q tt (sput (set (get (lst s) - x) (lst s)) s)) ->
  wp (sub_from get set x) Q Er (~ fits) s.
Proof.
  intros Hf HQ. unfold sub_from. do 2 wp_step. wp_step. apply wp_owp. owp_step Hex; [by apply Hf|].
  wp_step. by apply HQ.
Qed.
Lemma next_loan_id_wp s (Q : LoanId -> S -> Prop) Er :
  (fits -> in_width id_bits (NextLoanId (lst s) + 1)) ->
  (in_width id_bits (NextLoanId (lst s) + 1) ->
   Q (NextLoanId (lst s)) (sput ((lst s) <| NextLoanId := NextLoanId (lst s) + 1 |>) s)) ->
  wp get_next_loan_id Q Er (~ fits) s.
Proof.
  intros Hf HQ. unfold get_next_loan_id. do 2 wp_step. wp_step. apply wp_owp.
  owp_step Hex; [by apply Hf|]. do 2 wp_step. wp_step. by apply HQ.
Qed.
Lemma interest_wp p x s (Q : Balance -> S -> Prop) Er :
  (fits -> interest_fits p x) -> (0 <= interest_of p x -> Q (interest_of p x) s) ->
  wp (lift (get_interest p x)) Q Er (~ fits) s.
Proof.
  intros Hf HQ. apply wp_owp. eapply owp_mono; [apply get_interest_owp| |tauto].
  - by eapply exact_mono.
  - intros ? [-> ?]. by apply HQ.
Qed.
End booking.

(** The loan that an application creates. *)
Definition active_package (pid : LoanPackageId) st : LoanPackage :=
  get_or LoanPackage_default (ActiveLoanPackages st) pid.
Definition new_loan who pid (now : Moment) (cl : CollateralLoan) st : Loan :=
  let pkg := active_package pid st in
  MkLoan (NextLoanId st) pid who (due_of pkg now) (due_extend_of pkg now)
    (cl_collateral_amount cl) (cl_collateral_amount cl) (cl_loan_amount cl) Well.
Definition st_apply who (loan : Loan) (interest : Balance) st : LoanStore :=
  st <| NextLoanId := NextLoanId st + 1 |>
     <| Loans ::= <[loan_id loan := loan]> |>
     <| LoansByAccount ::= <[who := loans_by_account who st ++ [loan_id loan]]> |>
     <| TotalLoan := TotalLoan st + loan_balance_total loan |>
     <| TotalCollateral := TotalCollateral st + collateral_balance_available loan |>
     <| TotalProfit := TotalProfit st + interest |>.

(** Every number of an application fits. *)
Record apply_fits (c x : Balance) (pid : LoanPackageId) s : Prop := {
  af_limit : limit_fits c x (CurrentBTCPrice (lst s)) (GlobalLTVLimit (lst s));
  af_interest cl : collateral_loan_of c x (CurrentBTCPrice (lst s)) (GlobalLTVLimit (lst s)) = inr cl ->
    interest_fits (active_package pid (lst s)) (cl_loan_amount cl) /\
    in_width balance_bits (TotalLoan (lst s) + cl_loan_amount cl) /\
    in_width balance_bits (TotalCollateral (lst s) + cl_collateral_amount cl) /\
    in_width balance_bits (TotalProfit (lst s)
      + interest_of (active_package pid (lst s)) (cl_loan_amount cl));
  af_dues : dues_fit (active_package pid (lst s)) (now (fr s));
  af_id : in_width id_bits (NextLoanId (lst s) + 1);
}.

Definition apply_change (pkg : LoanPackage) who st (cl : CollateralLoan)
    : AssetId -> AccountId -> Z :=
  let interest := interest_of pkg (cl_loan_amount cl) in
  plus (move (collateral_asset_id pkg) who (PawnShop st) (cl_collateral_amount cl))
    (plus (at_account (loan_asset_id pkg) (ProfitPool st) interest)
       (at_account (loan_asset_id pkg) who (cl_loan_amount cl - interest))).

(** An application leaves the chain as it was, up to the counter of loans. *)
Definition untouched s s' : Prop :=
  exists st', (st' = lst s \/ st' = (lst s) <| NextLoanId := NextLoanId (lst s) + 1 |>) /\
    eff no_change no_issue st' [] s s'.
Lemma untouched_refl s : ledger_inv s -> untouched s s.
Proof. intros Hi. exists (lst s). split; [by left|]. by apply be_refl. Qed.

Lemma move_cancel a from to x (d : AssetId -> AccountId -> Z) b v :
  plus (plus d (move a from to x)) (move a to from x) b v = d b v.
Proof. unfold plus, move. lia. Qed.

(** The receiver of a transfer can send it back. *)
Lemma transfer_back a from to x s :
  ledger_inv s -> 0 <= x -> x <= balance_of a from s ->
  x <= balance_of a to s + move a from to x a to.
Proof.
  intros Hi Hx Hb. pose proof (balance_nonneg (E:=E) a to s Hi). unfold move, at_account.
  rewrite decide_True by done. case_decide as Heq; [|lia].
  destruct Heq as [_ ->]. lia.
Qed.

Lemma apply_mints_wp (fits : Prop) who pid now0 cl pkg s s1 :
  let interest := interest_of pkg (cl_loan_amount cl) in
  let loan := new_loan who pid now0 cl (lst s) in
  let st1 := (lst s) <| NextLoanId := NextLoanId (lst s) + 1 |> in
  let ca := collateral_asset_id pkg in let la := loan_asset_id pkg in
  let shop := PawnShop (lst s) in let c := cl_collateral_amount cl in
  exact fits -> ledger_inv s -> pkg = active_package pid (lst s) ->
  0 <= c -> 0 <= interest < cl_loan_amount cl -> cl_loan_amount cl < 2 ^ balance_bits ->
  (fits -> in_width balance_bits (TotalLoan (lst s) + cl_loan_amount cl) /\
           in_width balance_bits (TotalCollateral (lst s) + c) /\
           in_width balance_bits (TotalProfit (lst s) + interest)) ->
  transferable ca s = true -> c <= balance_of ca who s -> burnable la s = true ->
  eff (move ca who shop c) no_issue st1 [] s s1 ->
  wp (or_else (mint Root la (ProfitPool (lst s)) interest)
        (fun err => make_transfer_with_event ca shop who c ;; fail err) ;;
      rest ← lift (usub balance_bits (cl_loan_amount cl) interest);
      or_else (mint Root la who rest)
        (fun err => burn Root la (ProfitPool (lst s)) interest ;;
                    make_transfer_with_event ca shop who c ;; fail err) ;;
      modify (fun st => st <| Loans ::= <[loan_id loan := loan]> |>) ;;
      push_loan who (loan_id loan) ;;
      add_to TotalLoan set_TotalLoan (cl_loan_amount cl) ;;
      add_to TotalCollateral set_TotalCollateral c ;;
      add_to TotalProfit set_TotalProfit interest ;;
      deposit_event (E:=E) (LoanCreated loan))
    (fun _ s' => in_width balance_bits (TotalLoan (lst s) + cl_loan_amount cl) /\
       in_width balance_bits (TotalCollateral (lst s) + c) /\
       eff (apply_change pkg who (lst s) cl) (at_asset la (cl_loan_amount cl))
         (st_apply who loan interest (lst s)) [LoanCreated loan] s s')
    (fun _ s' => untouched s s') (~ fits) s1.
Proof.
  intros interest loan st1 ca la shop c Hex Hi Hpkg Hc [Hn Hlow] Hxw Hfit Ht Hb Hbu H1.
  pose proof (transfer_back ca who shop c s Hi Hc Hb) as Hback.
  wp_step. rewrite wp_or_else.
  wp_apply (eff_mint Hforeign _ _ _ _ _ _ H1 la (ProfitPool (lst s)) interest Hn); [| |done].
  2: { intros err s2 [_ ->]. wp_step.
    wp_apply (eff_transfer_ok Hforeign _ _ _ _ _ _ H1 ca shop who c Hc Ht Hback); [|done|done].
    intros [] s2 H2. wp_step. exists st1. split; [by right|].
    eapply be_eq; [exact H2| |done|done]. intros b v. by rewrite <-(move_cancel ca who shop c no_change b v). }
  intros [] s2 [_ H2]. wp_step.
  eapply wp_lift_Some; [apply usub_ok; unfold in_width; lia|]. wp_step. rewrite wp_or_else.
  wp_apply (eff_mint Hforeign _ _ _ _ _ _ H2 la who (cl_loan_amount cl - interest) ltac:(lia));
    [| |done].
  2: { intros err s3 [_ ->]. wp_step.
    wp_apply (eff_burn_ok Hforeign _ _ _ _ _ _ H2 la (ProfitPool (lst s)) interest Hn Hbu);
      [|intros [] s3 H3|done|done].
    { unfold plus. pose proof (balance_nonneg (E:=E) la (ProfitPool (lst s)) s1 (be_inv _ _ _ _ _ _ H1)) as Hn1.
      rewrite (eff_balance _ _ _ _ _ _ H1) in Hn1. unfold at_account. rewrite decide_True by done. lia. }
    wp_step.
    wp_apply (eff_transfer_ok Hforeign _ _ _ _ _ _ H3 ca shop who c Hc Ht); [|intros [] s4 H4|done|done].
    { unfold plus, at_account in *. repeat case_decide; lia. }
    wp_step. exists st1. split; [by right|].
    eapply be_eq; [exact H4| | |done].
    - intros b v. unfold plus, move, at_account, no_change. repeat case_decide; lia.
    - intros b. unfold plus_issue, at_asset, no_issue. case_decide; lia. }
  intros [] s3 [_ H3]. wp_step. wp_step. rewrite (eff_store _ _ _ _ _ _ H3).
  unfold push_loan. do 2 wp_step. rewrite sput_sput.
  wp_step. apply (add_to_wp fits Hex); store; [tauto|intros Hw1]. rewrite sput_sput.
  wp_step. apply (add_to_wp fits Hex); store; [tauto|intros Hw2]. rewrite sput_sput.
  wp_step. apply (add_to_wp fits Hex); store; [tauto|intros Hw3]. rewrite sput_sput.
  wp_step. split; [done|]. split; [done|].
  eapply be_eq; [apply (eff_event _ _ _ []); [eapply (eff_write Hforeign); exact H3|by store]| | |done].
  - intros b v. unfold apply_change, plus, move, at_account, no_change. fold interest la ca.
    repeat case_decide; lia.
  - intros b. unfold plus_issue, at_asset, no_issue. case_decide; lia.
Qed.

Definition apply_done who pid c x s s' : Prop :=
  exists cl,
    let pkg := active_package pid (lst s) in
    let loan := new_loan who pid (now (fr s)) cl (lst s) in
    let interest := interest_of pkg (cl_loan_amount cl) in
    collateral_loan_of c x (CurrentBTCPrice (lst s)) (GlobalLTVLimit (lst s)) = inr cl /\
    is_Some (ActiveLoanPackages (lst s) !! pid) /\
    (forall cap, LoanCap (lst s) = Some cap -> TotalLoan (lst s) < cap) /\
    pkg_min pkg <= cl_loan_amount cl /\ MinimumCollateral (lst s) <= c /\
    0 <= interest < cl_loan_amount cl /\
    0 <= cl_collateral_amount cl <= balance_of (collateral_asset_id pkg) who s /\
    in_width balance_bits (TotalLoan (lst s) + cl_loan_amount cl) /\
    in_width balance_bits (TotalCollateral (lst s) + cl_collateral_amount cl) /\
    eff (apply_change pkg who (lst s) cl) (at_asset (loan_asset_id pkg) (cl_loan_amount cl))
      (st_apply who loan interest (lst s)) [LoanCreated loan] s s'.

Lemma apply_wp who pid c x s :
  let fits := apply_fits c x pid s in
  exact fits -> ledger_inv s -> in_width balance_bits c -> in_width balance_bits x ->
  0 <= CurrentBTCPrice (lst s) -> 0 <= GlobalLTVLimit (lst s) ->
  burnable (loan_asset_id (active_package pid (lst s))) s = true ->
  wp (apply_for_loan (E:=E) who pid c x) (fun _ s' => apply_done who pid c x s s')
    (fun _ s' => untouched s s') (~ fits) s.
Proof.
  intros fits Hex Hi Hcw Hxw Hprice Hlimit Hbu. unfold apply_for_loan.
  do 2 wp_step; [|by apply untouched_refl].
  do 4 wp_step; [|by apply untouched_refl].
  do 10 wp_step. set (pkg := active_package pid (lst s)).
  change (get_or LoanPackage_default (ActiveLoanPackages (lst s)) pid) with pkg.
  wp_step. destruct (match LoanCap (lst s) with Some cap => _ | None => false end) eqn:Hcap;
    [rewrite wp_fail; by apply untouched_refl|]. rewrite wp_ret. wp_step.
  eapply wp_mono; [apply (get_collateral_loan_wp c x s); try done; eapply exact_mono;
      [exact Hex|apply af_limit]| | |intros Hl Hf; by apply Hl, Hf].
  2: { intros e s1 [-> _]. by apply untouched_refl. }
  intros cl s1 (-> & Hcl & [Hc0 _] & [Hx0 Hx1]). cbv zeta.
  assert (fits -> interest_fits pkg (cl_loan_amount cl) /\
    in_width balance_bits (TotalLoan (lst s) + cl_loan_amount cl) /\
    in_width balance_bits (TotalCollateral (lst s) + cl_collateral_amount cl) /\
    in_width balance_bits (TotalProfit (lst s) + interest_of pkg (cl_loan_amount cl))) as Hint
    by (intros Hf; by apply (af_interest _ _ _ _ Hf)).
  do 2 wp_step; [|by apply untouched_refl].
  do 4 wp_step; [|by apply untouched_refl].
  wp_step. apply (interest_wp fits Hex); [tauto|intros Hn].
  do 2 wp_step; [|by apply untouched_refl]. wp_step.
  wp_apply (eff_transfer Hforeign _ _ _ _ _ _ (be_refl s Hi) (collateral_asset_id pkg) who
    (PawnShop (lst s)) (cl_collateral_amount cl) Hc0); [| |done].
  2: { intros e s1 [_ ->]. by apply untouched_refl. }
  intros [] s1 [Hte Hef]. apply (transfer_err_None (E:=E)) in Hte as [Htr Hcb].
  do 2 wp_step. rewrite (eff_now _ _ _ _ _ _ Hef).
  wp_step. apply wp_owp. eapply owp_mono; [apply get_dues_owp; eapply exact_mono;
    [exact Hex|apply af_dues]| |intros Hl Hf; by apply Hl, Hf].
  intros dues ->. wp_step.
  apply (next_loan_id_wp fits Hex); rewrite (eff_store _ _ _ _ _ _ Hef); [apply af_id|intros _].
  cbn [fst snd].
  repeat match goal with H : bool_decide _ = true |- _ => apply bool_decide_eq_true in H end.
  wp_apply (apply_mints_wp fits who pid (now (fr s)) cl pkg s); try done.
  - tauto.
  - eapply be_eq; [eapply (eff_write Hforeign); exact Hef| |done|done].
    intros b v. unfold plus, no_change. lia.
  - intros [] s2 (Hw1 & Hw2 & Hfin). exists cl. cbv zeta. fold pkg.
    split_and!; try done. intros cap Hc. rewrite Hc in Hcap.
    apply bool_decide_eq_false in Hcap. lia.
Qed.
End apply.
