(* ===== verification/LoanOps.v ===== *)
(** * Loans: the effect of repaying, drawing and adding collateral *)
From S2P Require Export LoanFacts.
#[local] Open Scope Z_scope.
Import RioLoan.

Lemma LoanStore_ext (st st' : LoanStore) :
  PawnShop st = PawnShop st' -> ProfitPool st = ProfitPool st' ->
  CollateralAssetId st = CollateralAssetId st' -> LoanAssetId st = LoanAssetId st' ->
  GlobalLTVLimit st = GlobalLTVLimit st' -> GlobalLiquidationThreshold st = GlobalLiquidationThreshold st' ->
  GlobalWarningThreshold st = GlobalWarningThreshold st' -> NextLoanPackageId st = NextLoanPackageId st' ->
  ActiveLoanPackages st = ActiveLoanPackages st' -> LoanPackages st = LoanPackages st' ->
  NextLoanId st = NextLoanId st' -> Loans st = Loans st' ->
  LoansByAccount st = LoansByAccount st' -> CurrentBTCPrice st = CurrentBTCPrice st' ->
  TotalLoan st = TotalLoan st' -> TotalCollateral st = TotalCollateral st' ->
  TotalProfit st = TotalProfit st' -> PenaltyRate st = PenaltyRate st' ->
  LiquidationAccount st = LiquidationAccount st' -> LiquidatingLoans st = LiquidatingLoans st' ->
  LoanCap st = LoanCap st' -> LoanPaused st = LoanPaused st' ->
  MinimumCollateral st = MinimumCollateral st' -> LiquidationPenalty st = LiquidationPenalty st' -> st = st'.
Proof. destruct st, st'; cbn. intros. by subst. Qed.

Lemma get_loan_Some id l st : Loans st !! id = Some l -> get_loan_by_id id st = l.
Proof. unfold get_loan_by_id, get_or. by intros ->. Qed.

(** The decisions of the guards, as propositions. *)
Ltac fold_bools :=
  unfold loan_exists, check_loan_in_liquidation in *;
  repeat match goal with
  | H : bool_decide _ = true |- _ => apply bool_decide_eq_true in H
  | H : bool_decide _ = false |- _ => apply bool_decide_eq_false in H
  | H : negb _ = true |- _ => apply negb_true_iff in H
  | H : negb _ = false |- _ => apply negb_false_iff in H
  end.

(** Results that are not negative. *)
Lemma udiv_nonneg x y z : 0 <= x -> 0 <= y -> udiv x y = Some z -> 0 <= z.
Proof. unfold udiv. intros Hx Hy. case_decide; [done|]. intros [= <-]. apply Z.div_pos; lia. Qed.
Lemma umul_nonneg `{!Overflow} x y z : umul balance_bits x y = Some z -> 0 <= z.
Proof. intros Hz%arith_in_width; [|done]. apply Hz. Qed.
(** What the event of a liquidation takes out of the running loans: the amount of the
    loan and its collateral. *)
Definition written_off (e : LoanEvent) : Balance * Balance :=
  match e with LoanLiquidated _ _ collateral _ total _ => (total, collateral) | _ => (0, 0) end.

Section operations.
Context {S E : Type} `{!Overflow, !Store S (Frame E), !Store S LoanStore, !Inject LoanEvent E}.
Context `{!Separate S (Frame E) LoanStore}.
Context `{!Ledger S, !LedgerEvents E, !LedgerSpec S E, !EventLog LoanEvent E}.
Context (Hforeign : foreign LoanStore _).
Implicit Types (s : S) (st : LoanStore) (who : AccountId) (loan : Loan).
#[local] Abbreviation lst := (sget (T:=LoanStore)).
#[local] Abbreviation eff := (effect (E:=E) (T:=LoanStore) (Ev:=LoanEvent)).

(** ** Repaying *)
Definition others (id : LoanId) (l : list LoanId) : list LoanId := filter (fun ele => ele <> id) l.
Definition st_repay who loan st : LoanStore :=
  st <| Loans ::= delete (loan_id loan) |>
     <| LoansByAccount ::= <[who := others (loan_id loan) (loans_by_account who st)]> |>
     <| TotalLoan := TotalLoan st - loan_balance_total loan |>
     <| TotalCollateral := TotalCollateral st - collateral_balance_available loan |>.
(** The reverted repayment moves the loan to the end of the list of its owner. *)
Definition st_reorder who loan st : LoanStore :=
  st <| LoansByAccount ::=
    <[who := others (loan_id loan) (loans_by_account who st) ++ [loan_id loan]]> |>.

Lemma others_push_insert who loan st :
  loans_by_account who (st_repay who loan st) = others (loan_id loan) (loans_by_account who st).
Proof. unfold loans_by_account at 1, st_repay, get_or; fields. by rewrite lookup_insert_eq. Qed.

Lemma repay_revert_wp who loan st s (Q : unit -> S -> Prop) Er :
  lst s = st_repay who loan st -> Loans st !! loan_id loan = Some loan ->
  in_width balance_bits (TotalLoan st) -> in_width balance_bits (TotalCollateral st) ->
  Q tt (sput (st_reorder who loan st) s) -> wp (repay_revert who loan) Q Er False s.
Proof.
  intros Hs Hloan Hw1 Hw2 HQ. unfold repay_revert, push_loan.
  do 4 wp_step. rewrite sput_sput, Hs.
  change (loans_by_account who ((st_repay who loan st) <| Loans ::= <[loan_id loan:=loan]> |>))
    with (loans_by_account who (st_repay who loan st)). rewrite others_push_insert.
  assert (forall v x : Z, v - x + x = v) as Hback by lia.
  wp_step. apply add_to_ok; store; unfold st_repay; fields; rewrite ?Hback; [done|].
  apply add_to_ok; store; rewrite ?sput_sput; unfold set_TotalLoan; fields; rewrite ?Hback; [done|].
  match goal with |- Q tt (sput ?t s) => enough (t = st_reorder who loan st) as -> by done end.
  unfold set_TotalCollateral, st_reorder. apply LoanStore_ext; fields; try match goal with |- ?x = ?x => exact eq_refl end.
  - by rewrite insert_delete_eq, insert_id.
  - by rewrite insert_insert_eq.
Qed.

Definition repay_change (pkg : LoanPackage) who loan st : AssetId -> AccountId -> Z :=
  plus (at_account (loan_asset_id pkg) who (- loan_balance_total loan))
    (move (collateral_asset_id pkg) (PawnShop st) who (collateral_balance_available loan)).

(** The conditions under which a loan can be repaid. *)
Definition repayable who id s : Prop :=
  let loan := get_loan_by_id id (lst s) in
  let pkg := loan_package (package_id loan) (lst s) in
  let la := loan_asset_id pkg in let ca := collateral_asset_id pkg in
  is_Some (Loans (lst s) !! id) /\ loan_who loan = who /\
  is_Some (LoanPackages (lst s) !! package_id loan) /\ id ∉ liquidating_loans (lst s) /\
  loan_balance_total loan <= balance_of la who s /\
  collateral_balance_available loan <= balance_of ca (PawnShop (lst s)) s /\
  transferable la s = true /\ transferable ca s = true.
Definition repay_done who id s s' : Prop :=
  let loan := get_loan_by_id id (lst s) in
  let pkg := loan_package (package_id loan) (lst s) in
  repayable who id s /\
  eff (repay_change pkg who loan (lst s)) (at_asset (loan_asset_id pkg) (- loan_balance_total loan))
    (st_repay who loan (lst s))
    [LoanRepaid id (loan_balance_total loan) (collateral_balance_available loan)] s s'.
Definition repay_failed who id s s' : Prop :=
  ~ repayable who id s /\
  exists st', (st' = lst s \/ st' = st_reorder who (get_loan_by_id id (lst s)) (lst s)) /\
    eff no_change no_issue st' [] s s'.

(** The part after the checks. *)
Lemma repay_transfers_wp who loan pkg s s1 :
  let la := loan_asset_id pkg in let ca := collateral_asset_id pkg in
  let shop := PawnShop (lst s) in
  let t := loan_balance_total loan in let c := collateral_balance_available loan in
  ledger_inv s -> Loans (lst s) !! loan_id loan = Some loan -> 0 <= t -> 0 <= c ->
  in_width balance_bits (TotalLoan (lst s)) -> in_width balance_bits (TotalCollateral (lst s)) ->
  burnable la s = true -> t <= balance_of la who s -> c <= balance_of ca shop s ->
  eff no_change no_issue (st_repay who loan (lst s)) [] s s1 ->
  wp (or_else (make_transfer_with_event la who shop t)
        (fun err => repay_revert who loan ;; fail err) ;;
      or_else (make_transfer_with_event ca shop who c)
        (fun err => repay_revert who loan ;; make_transfer_with_event la shop who t ;; fail err) ;;
      burn Root la shop t ;;
      deposit_event (E:=E) (LoanRepaid (loan_id loan) t c))
    (fun _ s' => transferable la s && transferable ca s = true /\
       eff (repay_change pkg who loan (lst s)) (at_asset la (- t))
       (st_repay who loan (lst s)) [LoanRepaid (loan_id loan) t c] s s')
    (fun _ s' => transferable la s && transferable ca s = false /\
       eff no_change no_issue (st_reorder who loan (lst s)) [] s s') False s1.
Proof.
  intros la ca shop t c Hi Hloan Ht0 Hc0 Hw1 Hw2 Hbu Ht Hc H1.
  pose proof (balance_nonneg (E:=E) la shop s Hi) as Hnn.
  wp_step. rewrite wp_or_else.
  wp_apply (eff_transfer Hforeign _ _ _ _ _ _ H1 la who shop t Ht0); [| |done].
  2: { intros e s2 [He ->]. wp_step.
    apply (repay_revert_wp who loan (lst s)); try done; [by apply H1|]. wp_step.
    split; [apply (eff_transfer_Some _ _ _ _ _ _ H1) in He as [->|He]; [done|];
      unfold no_change in He; lia|].
    eapply (eff_write Hforeign); exact H1. }
  intros [] s2 [Htr H2]. apply (eff_transfer_None _ _ _ _ _ _ H1) in Htr as [Htr _].
  wp_step. rewrite wp_or_else.
  wp_apply (eff_transfer Hforeign _ _ _ _ _ _ H2 ca shop who c Hc0); [| |done].
  2: { intros e s3 [He ->]. wp_step.
    apply (repay_revert_wp who loan (lst s)); try done; [by apply H2|]. wp_step.
    apply (eff_transfer_Some _ _ _ _ _ _ H2) in He.
    pose proof (eff_write Hforeign _ _ _ _ _ _ H2 (st_reorder who loan (lst s))) as H3.
    wp_apply (eff_transfer_ok Hforeign _ _ _ _ _ _ H3 la shop who t Ht0 Htr); [|intros [] s4 H4|done|done].
    { unfold plus, move, at_account, no_change. account_cases. }
    wp_step. split.
    - destruct He as [->|He]; [by rewrite andb_false_r|].
      exfalso. clear -Hnn Ht Ht0 Hc Hc0 He. clearbody la ca shop t c. account_cases.
    - eapply be_eq; [exact H4| |done|done].
      intros b v. unfold plus, move, at_account, no_change. repeat case_decide; lia. }
  intros [] s3 [Htc H3]. apply (eff_transfer_None _ _ _ _ _ _ H2) in Htc as [Htc _]. wp_step.
  wp_apply (eff_burn_ok Hforeign _ _ _ _ _ _ H3 la shop t Ht0 Hbu); [|intros [] s4 H4|done|done].
  { unfold plus, move, at_account, no_change. clear -Hnn Ht Ht0 Hc Hc0. clearbody la ca shop t c. account_cases. }
  wp_step. split; [by rewrite Htr, Htc|].
  eapply be_eq; [apply (eff_event _ _ _ []); [exact H4|by store]| | |done].
  - intros b v. unfold repay_change, plus, move, at_account, no_change. fold la ca shop t c.
    repeat case_decide; lia.
  - intros b. unfold plus_issue, at_asset, no_issue. case_decide; lia.
Qed.

(** A guard that refuses shows that the loan cannot be repaid. *)
Ltac refused Hfail :=
  apply Hfail; intros (? & ? & ? & ? & ? & ? & _); fold_bools; contradiction.

(** What a repayment takes out of the booking cells. *)
Definition repay_fits id s : Prop :=
  let loan := get_loan_by_id id (lst s) in
  in_width balance_bits (TotalLoan (lst s) - loan_balance_total loan) /\
  in_width balance_bits (TotalCollateral (lst s) - collateral_balance_available loan).

Lemma repay_wp who id s :
  let loan := get_loan_by_id id (lst s) in
  exact (repay_fits id s) -> ledger_inv s ->
  (is_Some (Loans (lst s) !! id) -> loan_id loan = id /\ 0 <= loan_balance_total loan /\
    0 <= collateral_balance_available loan /\
    burnable (loan_asset_id (loan_package (package_id loan) (lst s))) s = true) ->
  in_width balance_bits (TotalLoan (lst s)) -> in_width balance_bits (TotalCollateral (lst s)) ->
  wp (repay_loan (E:=E) who id) (fun _ s' => repay_done who id s s')
    (fun _ s' => repay_failed who id s s') (~ repay_fits id s) s.
Proof.
  intros loan Hex Hi Hok Hw1 Hw2. unfold repay_loan.
  assert (~ repayable who id s -> repay_failed who id s s) as Hfail.
  { intros Hn. split; [done|]. exists (lst s). split; [by left|by apply be_refl]. }
  set (pkg := loan_package (package_id loan) (lst s)) in *.
  do 6 wp_step; [|refused Hfail]. do 3 wp_step. fold loan. wp_step; [|refused Hfail].
  do 3 wp_step. wp_step; [|refused Hfail]. do 2 wp_step. wp_step. apply free_balance_wp. fold pkg.
  do 2 wp_step; [|refused Hfail]. wp_step. apply free_balance_wp. do 2 wp_step; [|refused Hfail].
  do 3 wp_step. wp_step; [|refused Hfail]. fold_bools.
  match goal with H : is_Some (Loans _ !! _) |- _ => rename H into Hsome end.
  destruct (Hok Hsome) as (Hid & Ht0 & Hc0 & Hbu).
  assert (Loans (lst s) !! loan_id loan = Some loan) as Hloan.
  { rewrite Hid. unfold loan, get_loan_by_id, get_or. by destruct Hsome as [l ->]. }
  do 2 wp_step. unfold remove_loan_of. do 2 wp_step. rewrite sput_sput.
  wp_step. apply (sub_from_wp _ Hex); store; [by intros [? _]|intros Hs1]. rewrite sput_sput.
  wp_step. apply (sub_from_wp _ Hex); store; [by intros [_ ?]|intros Hs2]. rewrite sput_sput.
  match goal with |- wp _ _ _ _ (sput ?st s) => assert (st = st_repay who loan (lst s)) as -> end.
  { unfold set_TotalCollateral, set_TotalLoan, st_repay, others; fields. by rewrite Hid. }
  replace (LoanRepaid id) with (LoanRepaid (loan_id loan)) by (by rewrite Hid).
  eapply wp_mono; [eapply (repay_transfers_wp who loan pkg s)| | |]; try done.
  - eapply (eff_write Hforeign). by apply be_refl.
  - intros [] s' [Htr H']. rewrite Hid in H'. apply andb_true_iff in Htr as [? ?]. split; [|done].
    unfold repayable; cbv zeta. fold loan. fold pkg. by split_and!.
  - intros e s' [Htr H']. split; [intros (_ & _ & _ & _ & _ & _ & Ht1 & Ht2)|].
    + change (transferable (loan_asset_id pkg) s = true) in Ht1.
      change (transferable (collateral_asset_id pkg) s = true) in Ht2.
      by rewrite Ht1, Ht2 in Htr.
    + exists (st_reorder who loan (lst s)). split; [by right|done].
Qed.

(** ** Drawing *)
Definition credit_of loan (price : BTCPrice) (limit : LTV) : Balance :=
  collateral_balance_available loan * price * limit / LTV_PREC / PRICE_PREC - loan_balance_total loan.
Definition st_draw id (x interest : Balance) st : LoanStore :=
  (mutate_loan id (fun v => v <| loan_balance_total := loan_balance_total v + x |>) st)
    <| TotalLoan := TotalLoan st + x |> <| TotalProfit := TotalProfit st + interest |>.

(** The numbers of a draw fit. *)
Definition draw_fits id (x : Balance) s : Prop :=
  let st := lst s in let loan := get_loan_by_id id st in
  let pkg := loan_package (package_id loan) st in
  in_width balance_bits (collateral_balance_available loan * CurrentBTCPrice st) /\
  in_width balance_bits (collateral_balance_available loan * CurrentBTCPrice st * GlobalLTVLimit st) /\
  in_width balance_bits (credit_of loan (CurrentBTCPrice st) (GlobalLTVLimit st)) /\
  interest_fits pkg x /\ interest_of pkg x <= x /\ x < 2 ^ balance_bits /\
  in_width balance_bits (loan_balance_total loan + x) /\
  in_width balance_bits (TotalLoan st + x) /\
  in_width balance_bits (TotalProfit st + interest_of pkg x).

Definition draw_done who id (x : Balance) s s' : Prop :=
  let st := lst s in let loan := get_loan_by_id id st in
  let pkg := loan_package (package_id loan) st in let interest := interest_of pkg x in
  is_Some (Loans st !! id) /\ loan_who loan = who /\
  x <= credit_of loan (CurrentBTCPrice st) (GlobalLTVLimit st) /\
  0 <= interest <= x /\ in_width balance_bits (TotalLoan st + x) /\
  eff (plus (at_account (loan_asset_id pkg) (ProfitPool st) interest)
        (at_account (loan_asset_id pkg) who (x - interest)))
    (at_asset (loan_asset_id pkg) x) (st_draw id x interest st) [LoanDrawn id x] s s'.
(** A failed call changed nothing. *)
Definition unchanged s s' : Prop := eff no_change no_issue (lst s) [] s s'.
Lemma unchanged_refl s : ledger_inv s -> unchanged s s.
Proof. apply be_refl. Qed.

Lemma available_credit_owp loan price limit fits :
  exact fits ->
  (fits -> in_width balance_bits (collateral_balance_available loan * price) /\
    in_width balance_bits (collateral_balance_available loan * price * limit) /\
    in_width balance_bits (credit_of loan price limit)) ->
  owp (available_credit loan price limit) (fun c => c = credit_of loan price limit) (~ fits).
Proof.
  intros Hex Hfit. unfold available_credit.
  do 2 owp_step Hex; [tauto|]. do 2 owp_step Hex; [tauto|]. do 2 owp_step Hex; [done|].
  do 2 owp_step Hex; [done|]. owp_step Hex; [apply Hfit; assumption|done].
Qed.

Lemma draw_wp who id x s :
  let loan := get_loan_by_id id (lst s) in
  exact (draw_fits id x s) -> ledger_inv s -> 0 <= x ->
  (is_Some (Loans (lst s) !! id) ->
    burnable (loan_asset_id (loan_package (package_id loan) (lst s))) s = true) ->
  wp (draw_from_loan (E:=E) who id x) (fun _ s' => draw_done who id x s s')
    (fun _ s' => unchanged s s') (~ draw_fits id x s) s.
Proof.
  intros loan Hex Hi Hx Hok. pose proof (unchanged_refl s Hi) as Hno. unfold draw_from_loan.
  do 4 wp_step; [|done]. do 2 wp_step. fold loan. do 2 wp_step; [|done]. do 4 wp_step.
  wp_step. apply wp_owp. eapply owp_mono; [apply (available_credit_owp _ _ _ _ Hex)| |done].
  { intros (? & ? & ? & _). done. }
  intros credit ->. do 2 wp_step; [|done]. do 4 wp_step.
  set (pkg := loan_package (package_id loan) (lst s)) in *.
  wp_step. apply (interest_wp _ Hex); [by intros (_ & _ & _ & ? & _)|intros Hn].
  repeat match goal with H : bool_decide _ = true |- _ => apply bool_decide_eq_true in H end.
  match goal with H : loan_exists _ _ = true |- _ =>
    apply bool_decide_eq_true in H; rename H into Hsome end.
  set (la := loan_asset_id pkg) in *. set (interest := interest_of pkg x) in *.
  wp_step. wp_apply (eff_mint Hforeign _ _ _ _ _ _ (be_refl s Hi) la (ProfitPool (lst s)) interest Hn);
    [|by intros e s1 [_ ->]|done].
  intros [] s1 [_ Hm1]. wp_step. apply wp_owp. owp_step Hex.
  { match goal with H : draw_fits _ _ _ |- _ => destruct H as (_ & _ & _ & _ & Hle & ? & _) end.
    change (interest <= x) in Hle. unfold in_width. lia. }
  wp_step. rewrite wp_or_else.
  wp_apply (eff_mint Hforeign _ _ _ _ _ _ Hm1 la who (x - interest));
    [match goal with H : in_width _ (x - interest) |- _ => apply H end| | |done].
  2: { intros e s2 [_ ->]. wp_step.
    wp_apply (eff_burn_ok Hforeign _ _ _ _ _ _ Hm1 la (ProfitPool (lst s)) interest Hn (Hok Hsome));
      [|intros [] s2 Hm2|done|done].
    { pose proof (balance_nonneg (E:=E) la (ProfitPool (lst s)) s Hi). account_cases. }
    wp_step. eapply be_eq; [exact Hm2| | |done].
    - intros b v. account_cases.
    - intros b. unfold plus_issue, at_asset, no_issue. case_decide; lia. }
  intros [] s2 [_ Hm2]. do 2 wp_step. rewrite (eff_store _ _ _ _ _ _ Hm2). fold loan.
  wp_step. apply wp_owp. owp_step Hex; [by match goal with H : draw_fits _ _ _ |- _ => destruct H as (_ & _ & _ & _ & _ & _ & ? & _) end|].
  do 2 wp_step. rewrite (eff_store _ _ _ _ _ _ Hm2).
  wp_step. apply (add_to_wp _ Hex); store; [by intros (_ & _ & _ & _ & _ & _ & _ & ? & _)|intros Hw].
  rewrite sput_sput. wp_step.
  apply (add_to_wp _ Hex); store; [by intros (_ & _ & _ & _ & _ & _ & _ & _ & ?)|intros _].
  rewrite sput_sput. wp_step.
  unfold draw_done; cbv zeta. fold loan. fold pkg. fold la. fold interest.
  assert (interest <= x).
  { match goal with H : in_width _ (x - interest) |- _ => unfold in_width in H; lia end. }
  split_and!; try done.
  eapply be_eq; [apply (eff_event _ _ _ []); [eapply (eff_write Hforeign); exact Hm2|by store]| | |done].
  - intros b v. account_cases.
  - intros b. unfold plus_issue, at_asset, no_issue. case_decide; lia.
Qed.

(** ** Adding collateral *)
Definition st_add id (x : Balance) st : LoanStore :=
  (mutate_loan id (fun l => l <| collateral_balance_original := collateral_balance_original l + x |>
                              <| collateral_balance_available := collateral_balance_available l + x |>) st)
    <| TotalCollateral := TotalCollateral st + x |>.
Definition add_fits id (x : Balance) s : Prop :=
  let loan := get_loan_by_id id (lst s) in
  in_width balance_bits (collateral_balance_original loan + x) /\
  in_width balance_bits (collateral_balance_available loan + x) /\
  in_width balance_bits (TotalCollateral (lst s) + x).
Definition add_done from id (x : Balance) s s' : Prop :=
  let loan := get_loan_by_id id (lst s) in
  let ca := collateral_asset_id (loan_package (package_id loan) (lst s)) in
  x <= balance_of ca from s /\ in_width balance_bits (TotalCollateral (lst s) + x) /\
  eff (move ca from (PawnShop (lst s)) x) no_issue (st_add id x (lst s)) [AddCollateral id x] s s'.

Lemma add_collateral_wp from id x s :
  let loan := get_loan_by_id id (lst s) in
  exact (add_fits id x s) -> ledger_inv s -> 0 <= x -> loan_id loan = id ->
  wp (add_loan_collateral (E:=E) loan from x) (fun _ s' => add_done from id x s s')
    (fun _ s' => unchanged s s') (~ add_fits id x s) s.
Proof.
  intros loan Hex Hi Hx Hid. pose proof (unchanged_refl s Hi) as Hno.
  unfold add_loan_collateral. rewrite Hid. do 4 wp_step. wp_step. apply free_balance_wp.
  set (ca := collateral_asset_id (loan_package (package_id loan) (lst s))).
  do 2 wp_step; [|done].
  match goal with H : bool_decide _ = true |- _ => apply bool_decide_eq_true in H; rename H into Hb end.
  wp_step. wp_apply (eff_transfer Hforeign _ _ _ _ _ _ (be_refl s Hi) ca from (PawnShop (lst s)) x Hx);
    [|by intros e s1 [_ ->]|done].
  intros [] s1 [_ H1]. do 2 wp_step. rewrite (eff_store _ _ _ _ _ _ H1). fold loan.
  wp_step. apply wp_owp. owp_step Hex; [match goal with H : add_fits _ _ _ |- _ => apply H end|].
  wp_step. apply wp_owp. owp_step Hex; [match goal with H : add_fits _ _ _ |- _ => apply H end|].
  do 2 wp_step. rewrite (eff_store _ _ _ _ _ _ H1).
  wp_step. apply (add_to_wp _ Hex); store; [by intros (_ & _ & ?)|intros Hw]. rewrite sput_sput.
  wp_step. unfold add_done; cbv zeta. fold loan. fold ca. split_and!; [done|done|].
  eapply be_eq; [apply (eff_event _ _ _ []); [eapply (eff_write Hforeign); exact H1|by store]|done..].
Qed.

(** ** Liquidation *)
Definition st_liquidated loan st : LoanStore :=
  st <| Loans ::= delete (loan_id loan) |>
     <| LoansByAccount ::= <[loan_who loan := others (loan_id loan) (loans_by_account (loan_who loan) st)]> |>
     <| LiquidatingLoans := Some (others (loan_id loan) (liquidating_loans st)) |>.
(** Funds moved, and the pawn shop lost none unless it is the liquidation account. *)
Definition shop_keeps account (d : AssetId -> AccountId -> Z) st : Prop :=
  account <> PawnShop st -> forall a, 0 <= d a (PawnShop st).
Definition liquidated loan account x s s' : Prop :=
  loan_balance_total loan <= x /\ loan_id loan ∈ liquidating_loans (lst s) /\
  exists d e, shop_keeps account d (lst s) /\
    written_off e = (loan_balance_total loan, collateral_balance_available loan) /\
    eff d no_issue (st_liquidated loan (lst s)) [e] s s'.
Definition not_liquidated account s s' : Prop :=
  exists d, shop_keeps account d (lst s) /\ eff d no_issue (lst s) [] s s'.

Lemma not_liquidated_intro account d s s' :
  eff d no_issue (lst s) [] s s' -> shop_keeps account d (lst s) -> not_liquidated account s s'.
Proof. intros He Hd. by exists d. Qed.

(** A transfer that is undone, whether or not it can be, before the error is given back. *)
Lemma undo_wp account la from to x d err s s1 :
  eff d no_issue (lst s) [] s s1 -> 0 <= x -> shop_keeps account d (lst s) ->
  shop_keeps account (plus d (move la from to x)) (lst s) ->
  wp (A := unit) (make_transfer_with_event la from to x ;; fail err) (fun _ _ => False)
    (fun _ s' => not_liquidated account s s') True s1.
Proof.
  intros He Hx Hd Hd'. wp_step. wp_apply (eff_transfer Hforeign _ _ _ _ _ _ He la from to x Hx); [| |done].
  - intros [] s2 [_ H2]. wp_step. by apply (not_liquidated_intro _ _ _ _ H2).
  - intros e s2 [_ ->]. by apply (not_liquidated_intro _ _ _ _ He).
Qed.

(** The leftover of the auction is shared; a transfer that fails is undone. *)
Lemma leftover_wp loan account pkg lo s s1 :
  let st := lst s in let la := loan_asset_id pkg in let total := loan_balance_total loan in
  ledger_inv s -> 0 <= total -> 
  eff (plus no_change (move la account (PawnShop st) total)) no_issue st [] s s1 ->
  wp (penalty_rate ← gets LiquidationPenalty;
      a ← lift (umul balance_bits lo penalty_rate);
      penalty ← lift (udiv a LTV_PREC);
      pool ← gets ProfitPool;
      or_else (make_transfer_with_event la account pool penalty)
        (fun err => make_transfer_with_event la (PawnShop st) account total ;; fail err) ;;
      rest ← lift (usub balance_bits lo penalty);
      or_else (make_transfer_with_event la account (loan_who loan) rest)
        (fun err =>
           pool ← gets ProfitPool;
           make_transfer_with_event la pool account penalty ;;
           make_transfer_with_event la (PawnShop st) account total ;; fail err) ;;
      rest ← lift (usub balance_bits lo penalty);
      mret (Some rest))
    (fun left s' => exists d, left <> None /\ shop_keeps account d st /\ eff d no_issue st [] s s')
    (fun _ s' => not_liquidated account s s') True s1.
Proof.
  intros st la total Hi Ht H1.
  do 3 wp_step. apply wp_lift; split; [intros a1 Ha1%umul_nonneg|done].
  wp_step. apply wp_lift; split; [intros penalty Hpen|done].
  assert (0 <= penalty) as Hpen0 by (by eapply (udiv_nonneg a1 LTV_PREC)).
  do 3 wp_step. rewrite (eff_store _ _ _ _ _ _ H1). rewrite wp_or_else.
  wp_apply (eff_transfer Hforeign _ _ _ _ _ _ H1 la account (ProfitPool st) penalty Hpen0); [| |done].
  2: { intros e s2 [_ ->].
    eapply wp_mono; [apply (undo_wp account la _ _ _ _ e s s1 H1 Ht)|done..]; intros Hne a; account_cases. }
  intros [] s2 [_ H2]. wp_step. apply wp_lift; split; [intros rest Hrest|done].
  assert (0 <= rest) as Hrest0 by (by apply arith_in_width in Hrest as [? _]).
  wp_step. rewrite wp_or_else.
  wp_apply (eff_transfer Hforeign _ _ _ _ _ _ H2 la account (loan_who loan) rest Hrest0); [| |done].
  2: { intros e s3 [_ ->]. do 2 wp_step. rewrite (eff_store _ _ _ _ _ _ H2). wp_step.
    wp_apply (eff_transfer Hforeign _ _ _ _ _ _ H2 la (ProfitPool st) account penalty Hpen0); [| |done].
    - intros [] s3 [_ H3].
      eapply wp_mono; [apply (undo_wp account la _ _ _ _ e s s3 H3 Ht)|done..]; intros Hne a; account_cases.
    - intros e' s3 [_ ->]. apply (not_liquidated_intro _ _ _ _ H2). intros Hne a. account_cases. }
  intros [] s3 [_ H3]. wp_step. apply wp_lift; split; [intros r _|done]. wp_step.
  eexists. split_and!; [done| |exact H3]. intros Hne a. account_cases.
Qed.

Lemma liquidated_wp loan account x s :
  ledger_inv s -> 0 <= loan_balance_total loan ->
  wp (mark_loan_liquidated (E:=E) loan account x) (fun _ s' => liquidated loan account x s s')
    (fun _ s' => not_liquidated account s s') True s.
Proof.
  intros Hi Ht.
  assert (not_liquidated account s s) as Hno.
  { apply (not_liquidated_intro account no_change); [by apply be_refl|done]. }
  unfold mark_loan_liquidated. do 3 wp_step. wp_step; [|done]. do 4 wp_step. wp_step. apply free_balance_wp.
  do 2 wp_step; [|done]. fold_bools. match goal with H : loan_id _ ∈ _ |- _ => rename H into Hin end. wp_step.
  set (pkg := loan_package (package_id loan) (lst s)).
  wp_apply (eff_transfer Hforeign _ _ _ _ _ _ (be_refl s Hi) (loan_asset_id pkg) account (PawnShop (lst s))
    (loan_balance_total loan) Ht); [|by intros e s1 [_ ->]|done].
  intros [] s1 [_ He1]. cbv zeta. wp_step.
  eapply wp_mono with (Q := fun left s' => exists d, (left <> None -> loan_balance_total loan <= x) /\
     shop_keeps account d (lst s) /\ eff d no_issue (lst s) [] s s')
    (E := fun _ s' => not_liquidated account s s') (P := True); [| |done|done].
  - destruct (checked_sub _ _ _) as [lo|] eqn:Hlo.
    + apply checked_Some in Hlo as [-> [Hlo _]]. case_decide.
      * eapply wp_mono; [apply (leftover_wp loan account pkg _ s s1 Hi Ht He1)| |done|done].
        intros left s' (d & _ & Hd & He). exists d. split_and!; [lia|done|done].
      * wp_step. eexists. split_and!; [lia| |exact He1]. intros Hne a. account_cases.
    + wp_step. eexists. split_and!; [done| |exact He1]. intros Hne a. account_cases.
  - intros left s2 (d & Hle & Hd & He). unfold remove_loan_of. do 6 wp_step. rewrite !sput_sput.
    rewrite (eff_store _ _ _ _ _ _ He). wp_step. apply wp_lift; split; [intros final ->|done]. wp_step.
    split; [by apply Hle|]. split; [done|]. eexists d, _. split_and!; [done| |].
    2: { eapply (eff_event _ _ _ []); [eapply (eff_write Hforeign); exact He|by store]. }
    done.
Qed.
End operations.
