(* ===== verification/LoanBlocks.v ===== *)
(** * Loans: what a block does to the loans

    [age] is the reference: what the hook at the start of a block makes of one loan,
    whatever the others.  The hook loops over the loans in the order of the storage and
    writes as it goes; it is shown to age every loan by the reference. *)
From S2P Require Export LoanOps.
#[local] Open Scope Z_scope.
Import RioLoan.

(** ** The reference *)
Record aged := MkAged {
  aged_loan : Loan;
  aged_liquidates : bool;
  aged_penalty : Balance;
  aged_interest : Balance;
}.
Definition aged_fee (a : aged) : Balance := aged_penalty a + aged_interest a.
Ltac unfold_aged :=
  unfold aged_fee; cbn [aged_loan aged_liquidates aged_penalty aged_interest]; fields.

Section age.
Context `{!Overflow}.

(** An expired loan pays its fee and starts anew, or enters liquidation. *)
Definition expire (now : Moment) (id : LoanId) st (l : Loan) : option aged :=
  let price := CurrentBTCPrice st in let pkg := loan_package (package_id l) st in
  penalty ← expiration_penalty l (PenaltyRate st) price;
  interest ← expiration_interest l pkg price;
  l' ← expire_then_update l pkg now penalty interest;
  v ← get_ltv (collateral_balance_available l') (loan_balance_total l') price;
  mret (if decide (GlobalLiquidationThreshold st <= v)
        then MkAged (l' <| loan_status := Liquidating v |>) true penalty interest
        else if decide (GlobalWarningThreshold st <= v)
        then MkAged (l' <| loan_status := Warning v |>) false penalty interest
        else MkAged l' false penalty interest).
Definition age (now : Moment) (id : LoanId) st (l : Loan) : option aged :=
  if check_loan_in_liquidation id st then mret (MkAged l false 0 0)
  else
    health ← check_loan_health l now (CurrentBTCPrice st) (GlobalLiquidationThreshold st)
               (GlobalWarningThreshold st);
    match health with
    | Well => mret (MkAged l false 0 0)
    | Warning v => mret (MkAged (l <| loan_status := Warning v |>) false 0 0)
    | Extended => mret (MkAged (l <| loan_status := Extended |>) false 0 0)
    | Liquidating v => mret (MkAged (l <| loan_status := Liquidating v |>) true 0 0)
    | Expired => expire now id st l
    end.

(** What the rest of the storage has to do with it. *)
Lemma age_ext now id st st' l :
  check_loan_in_liquidation id st' = check_loan_in_liquidation id st ->
  CurrentBTCPrice st' = CurrentBTCPrice st -> PenaltyRate st' = PenaltyRate st ->
  LoanPackages st' = LoanPackages st ->
  GlobalLiquidationThreshold st' = GlobalLiquidationThreshold st ->
  GlobalWarningThreshold st' = GlobalWarningThreshold st -> age now id st' l = age now id st l.
Proof. intros Hq Hp Hr Hk Hl Hw. unfold age, expire, loan_package. by rewrite Hq, Hp, Hr, Hk, Hl, Hw. Qed.

Lemma get_ltv_no_collateral x price : get_ltv 0 x price = None.
Proof.
  unfold get_ltv. destruct (umul _ x _) as [a|]; [|done]. cbn.
  destruct (umul _ a _) as [b|]; [|done]. cbn. by rewrite umul_ok by done.
Qed.
Lemma get_ltv_collateral c x price v : get_ltv c x price = Some v -> c <> 0.
Proof. intros Hv ->. by rewrite get_ltv_no_collateral in Hv. Qed.

Lemma uadd_exact w x y z : exact (in_width w (x + y)) -> uadd w x y = Some z -> z = x + y.
Proof.
  unfold exact, uadd, arith. intros [Hc|Hw]; [rewrite Hc|rewrite decide_True by done; congruence].
  case_decide; congruence.
Qed.

(** Fees are not negative. *)
Lemma expiration_penalty_nonneg l r price x :
  0 <= price -> expiration_penalty l r price = Some x -> 0 <= x.
Proof.
  unfold expiration_penalty. intros Hp (a & Ha & (b & Hb & (c & Hc & Hx)%bind_Some)%bind_Some)%bind_Some.
  apply (udiv_nonneg c price); [|done..]. by apply (udiv_nonneg b LTV_PREC); [eapply umul_nonneg| |].
Qed.
Lemma expiration_interest_nonneg l p price x :
  0 <= price -> expiration_interest l p price = Some x -> 0 <= x.
Proof.
  unfold expiration_interest. intros Hp (a & Ha & (b & Hb & Hx)%bind_Some)%bind_Some.
  apply (udiv_nonneg b price); [by eapply umul_nonneg|done..].
Qed.

Lemma age_fees_nonneg now id st l a :
  0 <= CurrentBTCPrice st -> age now id st l = Some a -> 0 <= aged_penalty a /\ 0 <= aged_interest a.
Proof.
  intros Hp. unfold age. case_match; [by intros [= <-]|].
  intros (h & _ & Ha)%bind_Some. destruct h; try by injection Ha as <-.
  unfold expire in Ha.
  apply bind_Some in Ha as (x & Hx & (y & Hy & (l' & _ & (v & _ & [= <-])%bind_Some)%bind_Some)%bind_Some).
  apply expiration_penalty_nonneg in Hx; [|done]. apply expiration_interest_nonneg in Hy; [|done].
  by repeat case_decide.
Qed.

(** What an expiration leaves of the loan. *)
Lemma expire_then_update_Some l p now a b l' :
  overflow_checks = true -> in_width balance_bits (collateral_balance_available l) ->
  expire_then_update l p now a b = Some l' ->
  loan_id l' = loan_id l /\ package_id l' = package_id l /\ loan_who l' = loan_who l /\
  loan_balance_total l' = loan_balance_total l /\
  collateral_balance_available l' = Z.max 0 (collateral_balance_available l - (a + b)).
Proof.
  unfold expire_then_update, uadd, arith, checked_sub, checked. intros -> [_ Hw].
  case_decide as Hf; [|done]. cbn [mbind option_bind]. intros (d & _ & [= <-])%bind_Some. fields.
  unfold in_width in *. case_decide; fields; split_and!; try done; lia.
Qed.

(** What aging keeps of a loan, and the collateral it takes. *)
Record ages_to (l : Loan) (a : aged) : Prop := {
  at_id : loan_id (aged_loan a) = loan_id l;
  at_package : package_id (aged_loan a) = package_id l;
  at_who : loan_who (aged_loan a) = loan_who l;
  at_total : loan_balance_total (aged_loan a) = loan_balance_total l;
  at_penalty : 0 <= aged_penalty a;
  at_interest : 0 <= aged_interest a;
  at_collateral : collateral_balance_available (aged_loan a) = collateral_balance_available l - aged_fee a;
}.
Lemma expire_ages now id st l a :
  overflow_checks = true -> in_width balance_bits (collateral_balance_available l) ->
  0 <= CurrentBTCPrice st -> expire now id st l = Some a ->
  ages_to l a /\ 0 < collateral_balance_available (aged_loan a).
Proof.
  unfold expire. intros Hc Hw Hp (x & Hx & (y & Hy & (l' & Hl' & (v & Hv & Ha)%bind_Some)%bind_Some)
    %bind_Some)%bind_Some.
  apply get_ltv_collateral in Hv. apply expiration_penalty_nonneg in Hx; [|done].
  apply expiration_interest_nonneg in Hy; [|done].
  apply expire_then_update_Some in Hl' as (H1 & H2 & H3 & H4 & H5); [|done..].
  repeat case_decide; injection Ha as <-; (split; [split|]; unfold_aged; done || lia).
Qed.
Lemma age_ages now id st l a :
  overflow_checks = true -> in_width balance_bits (collateral_balance_available l) ->
  0 <= CurrentBTCPrice st -> age now id st l = Some a ->
  ages_to l a /\ 0 <= collateral_balance_available (aged_loan a) /\
  (id ∉ liquidating_loans st -> 0 < collateral_balance_available (aged_loan a)).
Proof.
  unfold age, check_loan_in_liquidation. intros Hc [Hn Hw] Hp.
  destruct (bool_decide _) eqn:Hliq.
  - intros [= <-]. split; [split; unfold_aged; done || lia|]. split; [done|].
    intros Hno. by apply bool_decide_eq_true in Hliq.
  - intros (h & Hh & Ha)%bind_Some.
    assert (collateral_balance_available l <> 0) as Hpos.
    { apply bind_Some in Hh as (v & Hv & _). by eapply get_ltv_collateral. }
    destruct h; try (injection Ha as <-; split; [split|]; unfold_aged; done || lia).
    apply expire_ages in Ha as [Ha Hpos']; [|done..]. split; [done|]. lia.
Qed.
End age.

(** Events that are not a liquidation. *)
Definition quiet (l : list LoanEvent) : Prop := Forall (fun e => written_off e = (0, 0)) l.

(** ** The loop *)
Section blocks.
Context {S E : Type} `{!Overflow, !Store S (Frame E), !Store S LoanStore, !Inject LoanEvent E}.
Context `{!Separate S (Frame E) LoanStore}.
Context `{!Ledger S, !LedgerEvents E, !LedgerSpec S E, !EventLog LoanEvent E}.
Context (Hforeign : foreign LoanStore _).
Implicit Types (s : S) (st : LoanStore) (who : AccountId) (loan : Loan).
#[local] Abbreviation lst := (sget (T:=LoanStore)).
#[local] Abbreviation fr := (sget (T:=Frame E)).
#[local] Abbreviation eff := (effect (E:=E) (T:=LoanStore) (Ev:=LoanEvent)).

Definition push_all (ids : list LoanId) (l : option (list LoanId)) : option (list LoanId) :=
  match ids with [] => l | _ => Some (default [] l ++ ids) end.
(** The storage once the loan [id] has aged. *)
Definition st_age (id : LoanId) (a : aged) st : LoanStore :=
  st <| Loans ::= <[id := aged_loan a]> |>
     <| LiquidatingLoans ::= push_all (if aged_liquidates a then [id] else []) |>.
Lemma st_age_same id a st :
  Loans st !! id = Some (aged_loan a) -> aged_liquidates a = false -> st_age id a st = st.
Proof.
  intros Hl Ha. unfold st_age. rewrite Ha. apply LoanStore_ext; fields; try done. by rewrite insert_id.
Qed.

(** The packages read so far are those of the storage. *)
Definition cache_ok (acc : block_acc) st : Prop :=
  forall pid p, packages acc !! pid = Some p -> p = loan_package pid st.
(** The totals of the loop, where they fit. *)
Definition adds (a : aged) (acc acc' : block_acc) : Prop :=
  exact (in_width balance_bits (total_penalty acc + aged_penalty a) /\
         in_width balance_bits (total_interest acc + aged_interest a)) ->
  total_penalty acc' = total_penalty acc + aged_penalty a /\
  total_interest acc' = total_interest acc + aged_interest a.
Definition overflows (a : aged) (acc : block_acc) : Prop :=
  ~ (in_width balance_bits (total_penalty acc + aged_penalty a) /\
     in_width balance_bits (total_interest acc + aged_interest a)).

Definition each_done id l (acc : block_acc) s (acc' : block_acc) s' : Prop :=
  exists a evs, age (now (fr s)) id (lst s) l = Some a /\ quiet evs /\
    eff no_change no_issue (st_age id a (lst s)) evs s s' /\
    cache_ok acc' (lst s) /\ adds a acc acc'.
Definition each_stuck id l (acc : block_acc) s : Prop :=
  match age (now (fr s)) id (lst s) l with Some a => overflows a acc | None => True end.

Lemma adds_none l b acc : adds (MkAged l b 0 0) acc acc.
Proof. intros _. cbn. lia. Qed.

(** The writes of the body: the aged loan, and its id when it enters liquidation. *)
Lemma each_finish id l a evs acc acc' st' s s' :
  age (now (fr s)) id (lst s) l = Some a -> eff no_change no_issue st' evs s s' -> quiet evs ->
  st' = st_age id a (lst s) -> cache_ok acc' (lst s) -> adds a acc acc' ->
  each_done id l acc s acc' s'.
Proof. intros Ha He Hq -> Hc Hadd. by exists a, evs. Qed.

Lemma liquidate_wp id l v s s0 evs st (Q : unit -> S -> Prop) Er P :
  eff no_change no_issue st evs s0 s -> Loans st !! id = Some l ->
  (forall s', eff no_change no_issue
      (st_age id (MkAged (l <| loan_status := Liquidating v |>) true 0 0) st) evs s0 s' -> Q tt s') ->
  wp (liquidate_loan id v) Q Er P s.
Proof.
  intros He Hl HQ. unfold liquidate_loan. do 3 wp_step. rewrite !sput_sput, (eff_store _ _ _ _ _ _ He).
  eapply HQ. match goal with |- effect _ _ ?x _ _ (sput ?y _) => replace x with y end.
  - by eapply (eff_write Hforeign).
  - unfold st_age, mutate_loan. rewrite (get_loan_Some _ _ _ Hl). cbn. apply LoanStore_ext; fields; try done.
    unfold push_all, default. by destruct (LiquidatingLoans st).
Qed.

Lemma write_event_wp (g : LoanStore -> LoanStore) (e : LoanEvent) s (Q : unit -> S -> Prop) Er P :
  ledger_inv s -> (forall s', eff no_change no_issue (g (lst s)) [e] s s' -> Q tt s') ->
  wp (modify g ;; deposit_event (E:=E) e) Q Er P s.
Proof.
  intros Hi HQ. do 3 wp_step. apply HQ.
  apply (eff_event _ _ _ []); [eapply (eff_write Hforeign), be_refl, Hi|by store].
Qed.

(** A loan whose status changes, or is already the new one. *)
Lemma each_status id l h e acc s Er P :
  let st := lst s in
  ledger_inv s -> Loans st !! id = Some l -> loan_id l = id -> cache_ok acc st -> quiet [e] ->
  age (now (fr s)) id st l = Some (MkAged (l <| loan_status := h |>) false 0 0) ->
  wp ((if decide (loan_status l = h) then mret tt
       else modify (mutate_loan (loan_id l) (fun v => v <| loan_status := h |>)) ;;
            deposit_event (E:=E) e) ;; mret acc)
    (fun acc' s' => each_done id l acc s acc' s') Er P s.
Proof.
  intros st Hi Hl Hid Hc Hq Hage. wp_step. case_decide as Hsame; [do 2 wp_step|].
  - eapply (each_finish id l _ []); [exact Hage|by apply be_refl|by constructor| |done|by apply adds_none].
    rewrite st_age_same; [done| |done]. fold st. rewrite Hl. by destruct l; cbn in *; subst.
  - apply write_event_wp; [done|intros s' He]. wp_step.
    eapply (each_finish id l _ [_]); [exact Hage|exact He|done| |done|by apply adds_none].
    rewrite Hid. unfold mutate_loan, st_age. fold st. rewrite (get_loan_Some _ _ _ Hl).
    apply LoanStore_ext; by fields.
Qed.

(** The writes of an expired loan, aged to [l'] with the loan to value [v]. *)
Lemma expired_write id l l' v x y tp ti acc acc' s Er P :
  let st := lst s in
  ledger_inv s -> cache_ok acc' st ->
  (forall a, aged_penalty a = x -> aged_interest a = y -> adds a acc acc') ->
  age (now (fr s)) id st l = Some
    (if decide (GlobalLiquidationThreshold st <= v)
     then MkAged (l' <| loan_status := Liquidating v |>) true x y
     else if decide (GlobalWarningThreshold st <= v)
     then MkAged (l' <| loan_status := Warning v |>) false x y
     else MkAged l' false x y) ->
  wp ((if decide (GlobalLiquidationThreshold st <= v) then
         modify (fun st => st <| Loans ::= <[id := l']> |>) ;;
         liquidate_loan id v ;;
         deposit_event (E:=E)
           (LoanLiquidating id (loan_who l) (collateral_balance_available l) (loan_balance_total l))
       else if decide (GlobalWarningThreshold st <= v) then
         modify (fun st => st <| Loans ::= <[id := l' <| loan_status := Warning v |>]> |>) ;;
         deposit_event (E:=E) (LoanWarning id v)
       else
         modify (fun st => st <| Loans ::= <[id := l']> |>) ;;
         deposit_event (E:=E) (LoanExpired id (loan_who l) tp ti)) ;; mret acc')
    (fun acc'' s' => each_done id l acc s acc'' s') Er P s.
Proof.
  intros st Hi Hc Hadds Hage.
  wp_step. repeat case_decide; [|apply write_event_wp; [done|intros s' He]; wp_step..].
  2,3: eapply (each_finish id l _ [_]); [exact Hage|exact He|by repeat constructor| |done|by apply Hadds];
    unfold st_age; cbn; apply LoanStore_ext; by fields.
  do 2 wp_step. wp_step. eapply (liquidate_wp id l' v _ s [] (st <| Loans ::= <[id := l']> |>)).
  { by eapply (eff_write Hforeign), be_refl. }
  { fields. by rewrite lookup_insert_eq. }
  intros s1 H1. do 2 wp_step.
  eapply each_finish; [exact Hage|by apply (eff_event _ _ _ _ _ _ H1)|by repeat constructor| |done|by apply Hadds].
  unfold st_age; cbn. apply LoanStore_ext; fields; try done. by rewrite insert_insert_eq.
Qed.

(** The package of an expired loan is read once. *)
Lemma expired_cache acc pid st :
  let cache := if decide (is_Some (packages acc !! pid)) then packages acc
               else <[pid := loan_package pid st]> (packages acc) in
  cache_ok acc st ->
  (forall pid p, cache !! pid = Some p -> p = loan_package pid st) /\
  cache !! pid = Some (loan_package pid st).
Proof.
  intros cache Hc. unfold cache. case_decide as Hin.
  - split; [done|]. destruct Hin as [p Hp]. rewrite Hp. f_equal. by apply Hc.
  - split; [|by rewrite lookup_insert_eq]. intros pid' p. rewrite lookup_insert.
    case_decide; [by intros [= <-]; subst|apply Hc].
Qed.
(** A total that does not fit. *)
Lemma expired_overflow (o : option aged) x y acc :
  (forall a, o = Some a -> aged_penalty a = x /\ aged_interest a = y) ->
  uadd balance_bits (total_penalty acc) x = None \/ uadd balance_bits (total_interest acc) y = None ->
  match o with Some a => overflows a acc | None => True end.
Proof.
  intros Ho Hn. destruct o as [a|]; [|done]. destruct (Ho a eq_refl) as [<- <-]. intros [Hp Hi].
  rewrite !uadd_ok in Hn by done. by destruct Hn.
Qed.

Lemma each_loan_wp acc id l s :
  let st := lst s in
  ledger_inv s -> Loans st !! id = Some l -> loan_id l = id -> cache_ok acc st ->
  wp (each_loan (E:=E) (now (fr s)) (CurrentBTCPrice st) (GlobalLiquidationThreshold st)
        (GlobalWarningThreshold st) acc id l)
    (fun acc' s' => each_done id l acc s acc' s') (fun _ _ => False) (each_stuck id l acc s) s.
Proof.
  intros st Hi Hl Hid Hc. unfold each_loan, each_stuck. do 2 wp_step. fold st.
  destruct (check_loan_in_liquidation id st) eqn:Hliq.
  { wp_step. eapply (each_finish id l (MkAged l false 0 0) []); [|by apply be_refl|by constructor| |done|by apply adds_none].
    - unfold age. fold st. by rewrite Hliq.
    - by rewrite st_age_same. }
  assert (age (now (fr s)) id st l =
    health ← check_loan_health l (now (fr s)) (CurrentBTCPrice st) (GlobalLiquidationThreshold st)
               (GlobalWarningThreshold st);
    match health with
    | Well => mret (MkAged l false 0 0)
    | Warning v => mret (MkAged (l <| loan_status := Warning v |>) false 0 0)
    | Extended => mret (MkAged (l <| loan_status := Extended |>) false 0 0)
    | Liquidating v => mret (MkAged (l <| loan_status := Liquidating v |>) true 0 0)
    | Expired => expire (now (fr s)) id st l
    end) as Hage by (unfold age; by rewrite Hliq).
  wp_step. apply wp_lift; split; [intros h Hh|intros Hh; by rewrite Hage, Hh].
  rewrite Hh in Hage. cbn [mbind option_bind] in Hage. destruct h as [|v|v| |].
  - wp_step. eapply (each_finish id l _ []); [exact Hage|by apply be_refl|by constructor| |done|by apply adds_none].
    by rewrite st_age_same.
  - by apply each_status; [..|repeat constructor|].
  - wp_step.
    eapply (liquidate_wp id l v s s [] st); [by apply be_refl|done|intros s1 H1]. do 2 wp_step. wp_step.
    eapply each_finish; [exact Hage|by apply (eff_event _ _ _ _ _ _ H1)| |done|done|by apply adds_none].
    by repeat constructor.
  - by apply each_status; [..|repeat constructor|].
  - unfold expire in Hage. set (pkg := loan_package (package_id l) st) in *. do 3 wp_step. fold st.
    set (cache := if decide _ then _ else _).
    destruct (expired_cache acc (package_id l) st Hc) as [Hcache Hpkg]. fold cache pkg in Hcache, Hpkg. rewrite Hpkg.
    eapply wp_lift_Some; [done|]. cbv beta. rewrite Hage. do 2 wp_step. fold st.
    wp_step. apply wp_lift; split; [intros x Hx|by intros ->].
    wp_step. apply wp_lift; split; [intros y Hy|by rewrite Hx; intros ->].
    rewrite Hx, Hy in *. cbn [mbind option_bind] in *.
    match type of Hage with _ = ?r => set (rest := r) in * end.
    assert (forall a, rest = Some a -> aged_penalty a = x /\ aged_interest a = y) as Hrest.
    { unfold rest. intros a (l' & _ & (v & _ & [= <-])%bind_Some)%bind_Some. by repeat case_decide. }
    wp_step. apply wp_lift; split; [intros tp Htp|by intros Htp; apply (expired_overflow _ x y); [|left]].
    wp_step. apply wp_lift; split; [intros ti Hti|by intros Hti; apply (expired_overflow _ x y); [|right]].
    clear Hrest. wp_step. apply wp_lift; split; [intros l' Hl'|by unfold rest; intros ->].
    wp_step. apply wp_lift; split; [intros v Hv|by unfold rest; rewrite Hl'; cbn; intros ->].
    unfold rest in *. rewrite Hl' in *. cbn [mbind option_bind] in *. rewrite Hv in *.
    cbn [mbind option_bind] in *.
    assert (forall a, aged_penalty a = x -> aged_interest a = y -> adds a acc (MkBlockAcc cache tp ti)) as Hadds.
    { intros a <- <- Hw. split; eapply uadd_exact; [|exact Htp| |exact Hti];
        (eapply exact_mono; [exact Hw|tauto]). }
    by apply (expired_write id l l' v x y tp ti).
Qed.

(** *** The loop, from the storage [st0] *)
Section loop.
Context (s0 : S) (all : list LoanId).
#[local] Abbreviation st0 := (lst s0).
Definition aged_of (k : LoanId) : option aged := l ← Loans st0 !! k; age (now (fr s0)) k st0 l.
Definition penalty_of (k : LoanId) : Balance := from_option aged_penalty 0 (aged_of k).
Definition interest_in (k : LoanId) : Balance := from_option aged_interest 0 (aged_of k).
Definition liquidates (k : LoanId) : bool := from_option aged_liquidates false (aged_of k).

(** Every loan ages, and the fees fit a balance. *)
Definition block_fee : Balance := zsum (map penalty_of all) + zsum (map interest_in all).
Definition all_age : Prop :=
  (forall k, k ∈ all -> is_Some (aged_of k)) /\ in_width balance_bits block_fee.

Record loop_inv (done : list LoanId) (acc : block_acc) s : Prop := {
  lp_ages k : k ∈ done -> is_Some (aged_of k);
  lp_loans k : Loans (lst s) !! k = if decide (k ∈ done) then aged_loan <$> aged_of k else Loans st0 !! k;
  lp_liquidating : LiquidatingLoans (lst s) =
    push_all (filter (fun k => liquidates k = true) done) (LiquidatingLoans st0);
  lp_rest : lst s = st0 <| Loans := Loans (lst s) |> <| LiquidatingLoans := LiquidatingLoans (lst s) |>;
  lp_effect : exists evs, quiet evs /\ eff no_change no_issue (lst s) evs s0 s;
  lp_cache : cache_ok acc st0;
  lp_totals : exact all_age ->
    total_penalty acc = zsum (map penalty_of done) /\ total_interest acc = zsum (map interest_in done);
}.
Context (Hi : ledger_inv s0) (Hprice : 0 <= CurrentBTCPrice st0).

Lemma loop_start : loop_inv [] (MkBlockAcc ∅ 0 0) s0.
Proof.
  split; try done.
  - by intros k ?%not_elem_of_nil.
  - by destruct st0.
  - exists []. split; [by constructor|by apply be_refl].
Qed.

Lemma push_all_app l l' q : push_all (l ++ l') q = push_all l' (push_all l q).
Proof. destruct l, l'; cbn; rewrite ?app_nil_r; try done. by rewrite <-app_assoc. Qed.
Lemma elem_of_push_all k l st st' :
  LiquidatingLoans st' = push_all l (LiquidatingLoans st) ->
  k ∈ liquidating_loans st' <-> k ∈ liquidating_loans st \/ k ∈ l.
Proof.
  unfold liquidating_loans. intros ->. destruct l as [|x l]; cbn.
  - by rewrite elem_of_nil; tauto.
  - by rewrite elem_of_app.
Qed.
Lemma loop_same {A} (f : LoanStore -> A) done acc s :
  (forall x y, f (st0 <| Loans := x |> <| LiquidatingLoans := y |>) = f st0) ->
  loop_inv done acc s -> f (lst s) = f st0.
Proof. intros Hf Hs. by rewrite (lp_rest _ _ _ Hs). Qed.
Lemma loop_now done acc s : loop_inv done acc s -> now (fr s) = now (fr s0).
Proof. intros Hs. destruct (lp_effect _ _ _ Hs) as (evs & _ & He). apply He. Qed.

(** A loan that the loop has not reached ages as at the start. *)
Lemma loop_age done acc s id l :
  loop_inv done acc s -> id ∉ done -> Loans st0 !! id = Some l ->
  age (now (fr s)) id (lst s) l = aged_of id.
Proof.
  intros Hs Hid Hl. unfold aged_of. rewrite Hl. cbn. rewrite (loop_now _ _ _ Hs).
  assert (forall A (f : LoanStore -> A), (forall x y, f (st0 <| Loans := x |> <| LiquidatingLoans := y |>)
    = f st0) -> f (lst s) = f st0) as Hf by (intros; by eapply loop_same).
  apply age_ext; [|apply Hf; intros; by fields..].
  unfold check_loan_in_liquidation. apply bool_decide_ext.
  rewrite (elem_of_push_all _ _ _ _ (lp_liquidating _ _ _ Hs)), list_elem_of_filter. tauto.
Qed.
Lemma fees_nonneg k : 0 <= penalty_of k /\ 0 <= interest_in k.
Proof.
  unfold penalty_of, interest_in. destruct (aged_of k) as [a|] eqn:Ha; [|done]. cbn.
  apply bind_Some in Ha as (l & _ & Ha). by eapply age_fees_nonneg.
Qed.
Lemma sum_nonneg (f : LoanId -> Z) l : (forall k, 0 <= f k) -> 0 <= zsum (map f l).
Proof. intros Hf. apply zsum_nonneg, Forall_forall. by intros y (k & -> & _)%list_elem_of_fmap. Qed.
Lemma prefix_fits l k l' :
  l ++ k :: l' = all -> in_width balance_bits block_fee ->
  in_width balance_bits (zsum (map penalty_of l) + penalty_of k) /\
  in_width balance_bits (zsum (map interest_in l) + interest_in k).
Proof.
  unfold block_fee. intros <-. rewrite !map_app, !zsum_app. cbn. unfold in_width.
  pose proof (fees_nonneg k).
  pose proof (sum_nonneg penalty_of l (fun k => proj1 (fees_nonneg k))).
  pose proof (sum_nonneg penalty_of l' (fun k => proj1 (fees_nonneg k))).
  pose proof (sum_nonneg interest_in l (fun k => proj2 (fees_nonneg k))).
  pose proof (sum_nonneg interest_in l' (fun k => proj2 (fees_nonneg k))).
  unfold zsum in *. lia.
Qed.

Lemma loop_next done acc s id rest l acc' s' :
  loop_inv done acc s -> id ∉ done -> Loans st0 !! id = Some l -> done ++ id :: rest = all ->
  each_done id l acc s acc' s' -> loop_inv (done ++ [id]) acc' s'.
Proof.
  intros Hs Hid Hl Hall (a & evs & Ha & Hq & He & Hc & Hadd). pose proof (be_store _ _ _ _ _ _ He) as Hst.
  rewrite (loop_age done acc) in Ha by done.
  assert (forall k, k ∈ done ++ [id] <-> k ∈ done \/ k = id) as Hin
    by (intros k; rewrite elem_of_app, list_elem_of_singleton; tauto).
  split.
  - intros k [Hk| ->]%Hin; [by eapply (lp_ages _ _ _ Hs)|by exists a].
  - intros k. rewrite Hst. unfold st_age; fields. rewrite lookup_insert, (lp_loans _ _ _ Hs).
    destruct (decide (k ∈ done ++ [id])) as [Hk|Hk]; rewrite Hin in Hk.
    + case_decide as Heq; [subst k; by rewrite Ha|]. rewrite decide_True; [done|]. by destruct Hk.
    + rewrite !decide_False by naive_solver. done.
  - rewrite Hst. unfold st_age; fields. rewrite (lp_liquidating _ _ _ Hs), <-push_all_app, filter_app.
    do 2 f_equal. unfold filter; cbn. unfold liquidates. rewrite Ha. cbn. by destruct (aged_liquidates a).
  - rewrite Hst. unfold st_age; fields. rewrite (lp_rest _ _ _ Hs). apply LoanStore_ext; by fields.
  - destruct (lp_effect _ _ _ Hs) as (evs0 & Hq0 & He0). exists (evs0 ++ evs).
    split; [by apply Forall_app|].
    rewrite Hst. eapply be_eq; [exact (be_trans _ _ _ _ _ _ _ _ _ _ _ He0 He)|intros; done..|done].
  - intros pid p Hp. rewrite (Hc pid p Hp). unfold loan_package.
    by rewrite (loop_same LoanPackages _ _ _ ltac:(by intros; fields) Hs).
  - intros Hage. destruct (lp_totals _ _ _ Hs Hage) as [Hp1 Hp2].
    assert (penalty_of id = aged_penalty a /\ interest_in id = aged_interest a) as [H1 H2]
      by (unfold penalty_of, interest_in; by rewrite Ha).
    rewrite !map_app, !zsum_app. cbn. rewrite H1, H2, !Z.add_0_r, <-Hp1, <-Hp2. apply Hadd.
    eapply exact_mono; [exact Hage|]. intros [_ Hw]. rewrite Hp1, Hp2, <-H1, <-H2.
    by apply (prefix_fits done id rest).
Qed.

Lemma loop_stuck done acc s id rest l :
  loop_inv done acc s -> id ∉ done -> Loans st0 !! id = Some l -> done ++ id :: rest = all ->
  each_stuck id l acc s -> ~ all_age.
Proof.
  intros Hs Hid Hl Hall Hstuck Hage. unfold each_stuck in Hstuck. rewrite (loop_age done acc) in Hstuck by done.
  destruct (lp_totals _ _ _ Hs (or_intror Hage)) as [Hp1 Hp2]. destruct Hage as [Ha Hw].
  destruct (Ha id) as [a Hida]; [rewrite <-Hall; set_solver|]. rewrite Hida in Hstuck. apply Hstuck.
  rewrite Hp1, Hp2. apply (prefix_fits done id rest) in Hw as [Hw1 Hw2]; [|done].
  unfold penalty_of at 2 in Hw1. unfold interest_in at 2 in Hw2. by rewrite Hida in Hw1, Hw2.
Qed.

Lemma each_loans_wp rest done acc s :
  NoDup all -> (forall k, k ∈ all -> exists l, Loans st0 !! k = Some l /\ loan_id l = k) ->
  done ++ rest = all -> loop_inv done acc s ->
  wp (each_loans (E:=E) (now (fr s0)) (CurrentBTCPrice st0) (GlobalLiquidationThreshold st0)
        (GlobalWarningThreshold st0) acc rest)
    (fun acc' s' => loop_inv all acc' s') (fun _ _ => False) (~ all_age) s.
Proof.
  intros Hnd Hids. revert done acc s. induction rest as [|id rest IH]; intros done acc s Hall Hs.
  { cbn [each_loans]. wp_step. by rewrite <-Hall, app_nil_r. }
  destruct (Hids id) as (l & Hl & Hlid); [rewrite <-Hall; set_solver|].
  assert (id ∉ done) as Hid.
  { rewrite <-Hall in Hnd. apply NoDup_app in Hnd as (_ & Hnd & _). intros Hin. apply (Hnd id Hin). by left. }
  pose proof (loop_same (fun st => (CurrentBTCPrice st, GlobalLiquidationThreshold st,
    GlobalWarningThreshold st)) _ _ _ ltac:(by intros; fields) Hs) as Hsame.
  injection Hsame as Hsp Hsl Hsw.
  cbn [each_loans]. do 3 wp_step. rewrite (get_loan_Some id l).
  2: { by rewrite (lp_loans _ _ _ Hs), decide_False. }
  rewrite <-Hsp, <-Hsl, <-Hsw, <-(loop_now _ _ _ Hs).
  destruct (lp_effect _ _ _ Hs) as (evs & _ & He).
  eapply wp_mono; [apply (each_loan_wp acc id l s); [apply He| |done|]| |done|].
  - by rewrite (lp_loans _ _ _ Hs), decide_False.
  - intros pid p Hp. rewrite (lp_cache _ _ _ Hs pid p Hp). unfold loan_package.
    by rewrite (loop_same LoanPackages _ _ _ ltac:(by intros; fields) Hs).
  - intros acc' s' Hd. rewrite Hsp, Hsl, Hsw, (loop_now _ _ _ Hs).
    apply (IH (done ++ [id])); [by rewrite <-app_assoc|by eapply loop_next].
  - by apply (loop_stuck done acc s id rest l).
Qed.
End loop.

(** ** The block *)
Definition block_loans s : gmap LoanId Loan :=
  map_imap (fun id l => aged_loan <$> age (now (fr s)) id (lst s) l) (Loans (lst s)).
(** The fees leave the pawn shop for the profit pool, unless there are none or the
    ledger refuses the transfer. *)
Definition fees_paid (fee : Balance) st (d : AssetId -> AccountId -> Z) (collateral : Balance) s : Prop :=
  let ca := CollateralAssetId st in
  (fee = 0 \/ transferable ca s = false \/ balance_of ca (PawnShop st) s < fee) /\
    d = no_change /\ collateral = TotalCollateral st \/
  fee <> 0 /\ d = move ca (PawnShop st) (ProfitPool st) fee /\
    transferable ca s = true /\ fee <= balance_of ca (PawnShop st) s /\
    collateral = default (TotalCollateral st) (checked_sub balance_bits (TotalCollateral st) fee).

Record block_done (ids : list LoanId) s s' : Prop := {
  bk_loans : Loans (lst s') = block_loans s;
  bk_liquidating : LiquidatingLoans (lst s') =
    push_all (filter (fun k => liquidates s k = true) ids) (LiquidatingLoans (lst s));
  bk_rest : lst s' = (lst s) <| Loans := Loans (lst s') |>
    <| LiquidatingLoans := LiquidatingLoans (lst s') |> <| TotalCollateral := TotalCollateral (lst s') |>;
  bk_effect : exists d evs, quiet evs /\ eff d no_issue (lst s') evs s s' /\
    fees_paid (block_fee s ids) (lst s) d (TotalCollateral (lst s')) s;
}.

Lemma loop_block ids acc s0 s :
  complete ids (Loans (lst s0)) -> loop_inv s0 ids ids acc s ->
  Loans (lst s) = block_loans s0.
Proof.
  intros [_ Hids] Hs. apply map_eq. intros k. rewrite (lp_loans _ _ _ _ _ Hs).
  unfold block_loans. rewrite map_lookup_imap. unfold aged_of. case_decide as Hk.
  - destruct (Loans (lst s0) !! k) as [l|]; [|done]. done.
  - rewrite Hids, <-eq_None_not_Some in Hk. by rewrite Hk.
Qed.

Lemma on_each_block_wp enumerate s :
  let st := lst s in let ids := enumerate (Loans st) in
  ledger_inv s -> 0 <= CurrentBTCPrice st -> exact (all_age s ids) ->
  complete ids (Loans st) -> (forall k l, Loans st !! k = Some l -> loan_id l = k) ->
  wp (on_each_block (E:=E) enumerate) (fun _ s' => all_age s ids /\ block_done ids s s')
    (fun _ _ => False) (~ all_age s ids) s.
Proof.
  intros st ids Hi Hp Hex Hcomplete Hkey. pose proof Hcomplete as [Hnd Hids]. unfold on_each_block. do 17 wp_step. fold st ids.
  wp_apply (each_loans_wp s ids Hi Hp ids [] (MkBlockAcc ∅ 0 0) s Hnd); [|done|by apply loop_start| |done|done].
  { intros k [l Hl]%Hids. exists l. split; [done|]. by apply Hkey. }
  intros acc s1 Hs. destruct (lp_totals _ _ _ _ _ Hs Hex) as [Ht1 Ht2].
  assert (total_penalty acc + total_interest acc = block_fee s ids) as Hfee by (by rewrite Ht1, Ht2).
  destruct (lp_effect _ _ _ _ _ Hs) as (evs & Hq & He). pose proof (eff_store _ _ _ _ _ _ He) as _.
  wp_step. apply wp_owp. owp_step Hex; [rewrite Hfee; by match goal with H : all_age _ _ |- _ => apply H end|].
  rewrite Hfee in *. set (fee := block_fee s ids) in *.
  assert (all_age s ids) as Hage by (split; [apply (lp_ages _ _ _ _ _ Hs)|done]).
  assert (forall s' d evs', quiet evs' -> eff d no_issue (lst s') evs' s s' ->
    lst s' = (lst s1) <| TotalCollateral := TotalCollateral (lst s') |> ->
    fees_paid fee st d (TotalCollateral (lst s')) s -> all_age s ids /\ block_done ids s s') as Hdone.
  { intros s' d evs' Hq' He' Hst Hpaid. split; [done|].
    pose proof (lp_rest _ _ _ _ _ Hs) as Hrest. split.
    - rewrite Hst; fields. by apply (loop_block ids acc).
    - rewrite Hst; fields. apply (lp_liquidating _ _ _ _ _ Hs).
    - rewrite Hst. fields. rewrite Hrest. apply LoanStore_ext; by fields.
    - by exists d, evs'. }
  assert (TotalCollateral (lst s1) = TotalCollateral st) as Htc
    by (apply (loop_same s ids TotalCollateral ids acc); [by intros; fields|done]).
  assert (lst s1 = (lst s1) <| TotalCollateral := TotalCollateral (lst s1) |>) as Hsame
    by (apply LoanStore_ext; by fields).
  case_decide as Hzero.
  { wp_step. apply (Hdone s1 no_change evs); [done..|]. left. split; [by left|done]. }
  do 2 wp_step.
  wp_apply (eff_transfer Hforeign _ _ _ _ _ _ He (CollateralAssetId st) (PawnShop st) (ProfitPool st) fee);
    [apply Hage| | |done].
  2: { intros e s2 [Herr ->]. apply (eff_transfer_Some _ _ _ _ _ _ He) in Herr.
    wp_step. apply (Hdone s1 no_change evs); [done..|]. left. unfold no_change in Herr.
    rewrite Z.add_0_r in Herr. split; [by right|done]. }
  intros [] s2 [Herr He2]. apply (eff_transfer_None _ _ _ _ _ _ He) in Herr. unfold no_change in Herr.
  rewrite Z.add_0_r in Herr. destruct Herr as [Htr Hbal].
  assert (eff (move (CollateralAssetId st) (PawnShop st) (ProfitPool st) fee) no_issue (lst s1) evs s s2)
    as H2 by (eapply be_eq; [exact He2| |done..]; intros; unfold plus, no_change; lia).
  clear He2. do 3 wp_step. rewrite (eff_store _ _ _ _ _ _ H2), Htc.
  apply wp_owp. owp_step Hex; [by rewrite Z.add_comm, Hfee|].
  rewrite Z.add_comm, Hfee. wp_step.
  - wp_step. rewrite (eff_store _ _ _ _ _ _ H2).
    eapply Hdone; [exact Hq|store; by eapply (eff_write Hforeign)|by store|].
    store. right. by rewrite Heqo.
  - do 2 wp_step. eapply Hdone; [exact Hq|by rewrite (eff_store _ _ _ _ _ _ H2)| |];
      rewrite (eff_store _ _ _ _ _ _ H2); [done|]. right. by rewrite Heqo.
Qed.
End blocks.
