(* ===== verification/LoanProps.v ===== *)
(** * Loans: the invariant of the books, and that every call keeps it

    The liquidations and the blocks, which write loans and collateral off, are in
    [LoanRuns.v]. *)
From S2P Require Export LoanBlocks AssetsLedger Demo.
From stdpp Require Import relations.
#[local] Open Scope Z_scope.
Import RioLoan.

(** ** The invariant of the storage *)
(** The loans and the collateral that the liquidations among the events wrote off. *)
Definition written (evs : list LoanEvent) : Balance * Balance :=
  (zsum (map (fun e => (written_off e).1) evs), zsum (map (fun e => (written_off e).2) evs)).
Lemma written_app l l' :
  written (l ++ l') = ((written l).1 + (written l').1, (written l).2 + (written l').2).
Proof. unfold written. by rewrite !map_app, !zsum_app. Qed.
Lemma written_one e : written [e] = written_off e.
Proof. unfold written; cbn. rewrite !Z.add_0_r. by destruct (written_off e). Qed.
Lemma written_quiet l : quiet l -> written l = (0, 0).
Proof.
  induction 1 as [|e l He _ IH]; [done|]. change (e :: l) with ([e] ++ l).
  by rewrite written_app, IH, written_one, He.
Qed.

Definition total_of (f : Loan -> Z) (m : gmap LoanId Loan) : Z := map_sum (fun _ l => f l) m.

(** The totals count the running loans and [w], the loans and the collateral that
    liquidations wrote off. *)
Record books_ok (w : Balance * Balance) (st : LoanStore) : Prop := {
  bo_price : 0 <= CurrentBTCPrice st;
  bo_limit : 0 <= GlobalLTVLimit st;
  bo_package pid p : LoanPackages st !! pid = Some p -> pid < NextLoanPackageId st;
  bo_active pid p : ActiveLoanPackages st !! pid = Some p -> LoanPackages st !! pid = Some p;
  bo_loan id l : Loans st !! id = Some l ->
    loan_id l = id /\ id < NextLoanId st /\ 0 <= loan_balance_total l /\
    0 <= collateral_balance_available l /\ is_Some (LoanPackages st !! package_id l);
  bo_positive id l : Loans st !! id = Some l -> 0 < MinimumCollateral st ->
    id ∉ liquidating_loans st -> 0 < collateral_balance_available l;
  bo_written : 0 <= w.1 /\ 0 <= w.2;
  bo_total : TotalLoan st = total_of loan_balance_total (Loans st) + w.1;
  bo_collateral : TotalCollateral st = total_of collateral_balance_available (Loans st) + w.2;
  bo_total_width : in_width balance_bits (TotalLoan st);
  bo_collateral_width : in_width balance_bits (TotalCollateral st);
}.

(** The collateral of the asset [a] that the loans lock. *)
Definition collateral_of (st : LoanStore) (l : Loan) : AssetId :=
  collateral_asset_id (loan_package (package_id l) st).
Definition locked (a : AssetId) (st : LoanStore) : Balance :=
  total_of (fun l => if decide (collateral_of st l = a) then collateral_balance_available l else 0)
    (Loans st).

Lemma total_of_insert f m id l :
  total_of f (<[id := l]> m) = total_of f m - from_option f 0 (m !! id) + f l.
Proof. apply (map_sum_insert (fun _ => f)). Qed.
Lemma total_of_delete f m id :
  total_of f (delete id m) = total_of f m - from_option f 0 (m !! id).
Proof. apply (map_sum_delete (fun _ => f)). Qed.
Lemma total_of_ext f g m :
  (forall id l, m !! id = Some l -> f l = g l) -> total_of f m = total_of g m.
Proof. apply map_sum_ext. Qed.

Section invariant.
Context {S E : Type} `{!Overflow, !Store S (Frame E), !Store S LoanStore, !Inject LoanEvent E}.
Context `{!Separate S (Frame E) LoanStore}.
Context `{!Ledger S, !LedgerEvents E, !LedgerSpec S E, !EventLog LoanEvent E}.
Context (Hforeign : foreign LoanStore _).
Implicit Types (s : S) (st : LoanStore) (who : AccountId) (loan : Loan).
#[local] Abbreviation lst := (sget (T:=LoanStore)).
#[local] Abbreviation fr := (sget (T:=Frame E)).
#[local] Abbreviation eff := (effect (E:=E) (T:=LoanStore) (Ev:=LoanEvent)).

(** The assets that the pallet mints can be burnt. *)
Definition burnables st s : Prop :=
  burnable (LoanAssetId st) s = true /\
  forall pid p, LoanPackages st !! pid = Some p -> burnable (loan_asset_id p) s = true.
Definition written_of s : Balance * Balance := written (client_log (E:=E) (Ev:=LoanEvent) s).
Record loan_inv s : Prop := {
  li_ledger : ledger_inv s;
  li_books : books_ok (written_of s) (lst s);
  li_backed a : locked a (lst s) <= balance_of a (PawnShop (lst s)) s;
  li_burnable : burnables (lst s) s;
}.

Lemma written_effect d i st' l s s' :
  eff d i st' l s s' ->
  written_of s' = ((written_of s).1 + (written l).1, (written_of s).2 + (written l).2).
Proof. intros He. unfold written_of. by rewrite (be_log _ _ _ _ _ _ He), written_app. Qed.

(** An effect keeps the invariant when the new books are right and the shop gains
    what the loans lock. *)
Lemma loan_inv_effect d i st' l s s' :
  loan_inv s -> eff d i st' l s s' ->
  books_ok ((written_of s).1 + (written l).1, (written_of s).2 + (written l).2) st' ->
  PawnShop st' = PawnShop (lst s) ->
  (forall a, locked a st' <= locked a (lst s) + d a (PawnShop (lst s))) ->
  burnables st' s -> loan_inv s'.
Proof.
  intros [_ _ Hb _] He Hst Hshop Hlock [Hbu1 Hbu2].
  split; [apply He| | |]; rewrite ?(written_effect _ _ _ _ _ _ He), ?(be_store _ _ _ _ _ _ He); [done| |].
  - intros a. rewrite (be_balance _ _ _ _ _ _ He), Hshop. specialize (Hb a). specialize (Hlock a). lia.
  - split; [|intros pid p Hp]; rewrite (be_burnable _ _ _ _ _ _ He); [done|by eapply Hbu2].
Qed.
Lemma loan_inv_quiet d i st' l s s' :
  loan_inv s -> eff d i st' l s s' -> quiet l -> books_ok (written_of s) st' ->
  PawnShop st' = PawnShop (lst s) ->
  (forall a, locked a st' <= locked a (lst s) + d a (PawnShop (lst s))) ->
  burnables st' s -> loan_inv s'.
Proof.
  intros Hi He Hq%written_quiet Hst. eapply loan_inv_effect; [done|exact He|].
  rewrite Hq, !Z.add_0_r. by destruct (written_of s).
Qed.

(** *** The calls other than the liquidations, which write nothing off *)
#[local] Abbreviation inv := loan_inv.

(** The same loans, packages and totals. *)
Record same_books st st' : Prop := {
  sb_loans : Loans st' = Loans st;
  sb_packages : LoanPackages st' = LoanPackages st;
  sb_active : ActiveLoanPackages st' = ActiveLoanPackages st;
  sb_total : TotalLoan st' = TotalLoan st;
  sb_collateral : TotalCollateral st' = TotalCollateral st;
  sb_next_package : NextLoanPackageId st' = NextLoanPackageId st;
  sb_next : NextLoanId st <= NextLoanId st';
  sb_shop : PawnShop st' = PawnShop st;
  sb_minimum : MinimumCollateral st' = MinimumCollateral st;
  sb_liquidating : LiquidatingLoans st' = LiquidatingLoans st;
}.
Lemma same_books_ok w st st' :
  books_ok w st -> same_books st st' -> 0 <= CurrentBTCPrice st' -> 0 <= GlobalLTVLimit st' ->
  books_ok w st'.
Proof.
  intros [] [] Hp Hl. split; rewrite ?sb_loans0, ?sb_packages0, ?sb_active0, ?sb_total0,
    ?sb_collateral0, ?sb_next_package0; try done.
  - intros id l Hl'. destruct (bo_loan0 id l Hl') as (? & ? & ?). split_and!; try tauto. lia.
  - intros id l. rewrite sb_minimum0. unfold liquidating_loans. rewrite sb_liquidating0. apply bo_positive0.
Qed.
Lemma same_books_locked st st' a : same_books st st' -> locked a st' = locked a st.
Proof.
  intros []. unfold locked, collateral_of, loan_package. by rewrite sb_loans0, sb_packages0.
Qed.
Lemma loan_inv_same st' l s s' :
  inv s -> same_books (lst s) st' -> 0 <= CurrentBTCPrice st' -> 0 <= GlobalLTVLimit st' ->
  burnable (LoanAssetId st') s = true -> quiet l -> eff no_change no_issue st' l s s' -> inv s'.
Proof.
  intros Hi Hsame Hp Hl Hbu Hq He. pose proof (li_burnable _ Hi) as [_ Hbu'].
  eapply loan_inv_quiet; [done|exact He|done|by eapply same_books_ok; [apply Hi|..]|apply Hsame| |].
  - intros a. rewrite (same_books_locked _ _ a Hsame). unfold no_change. lia.
  - split; [done|]. by rewrite (sb_packages _ _ Hsame).
Qed.

(** *** Applying *)
Lemma collateral_loan_positive c x price r cl :
  collateral_loan_of c x price r = inr cl -> 0 < c -> 0 < cl_collateral_amount cl.
Proof. unfold collateral_loan_of. repeat case_decide; try done; intros [= <-]; cbn; lia. Qed.
Lemma apply_inv who pid c x s s' :
  inv s -> who <> PawnShop (lst s) -> apply_done (E:=E) who pid c x s s' -> inv s'.
Proof.
  intros Hi Hwho (cl & Hcl). cbv zeta in Hcl.
  destruct Hcl as (Hcl & [p Hp] & _ & _ & Hmin & [Hint0 Hint] & [Hc0 _] & Hw1 & Hw2 & He).
  pose proof (li_books _ Hi) as Hb. set (st := lst s) in *.
  assert (active_package pid st = p) as Hpkg by (unfold active_package, get_or; by rewrite Hp).
  pose proof (bo_active _ _ Hb _ _ Hp) as Hp'.
  assert (Loans st !! NextLoanId st = None) as Hfresh.
  { destruct (Loans st !! NextLoanId st) as [l|] eqn:Hl; [|done].
    destruct (bo_loan _ _ Hb _ _ Hl) as (_ & ? & _). lia. }
  assert (loan_package pid st = p) as Hlp by (unfold loan_package, get_or; by rewrite Hp').
  eapply loan_inv_quiet; [done|exact He|by repeat constructor| |done| |exact (li_burnable _ Hi)];
    rewrite ?Hpkg in *; set (loan := new_loan _ _ _ _ _) in *.
  - split; unfold st_apply; fields; try apply Hb; try done.
    + intros id l. rewrite lookup_insert. case_decide as Hid.
      * intros [= <-]. subst id. unfold loan, new_loan; cbn. split_and!; try done; lia.
      * intros Hl. destruct (bo_loan _ _ Hb _ _ Hl) as (? & ? & ?). split_and!; try tauto. lia.
    + intros id l. rewrite lookup_insert. case_decide as Hid; [|apply (bo_positive _ _ Hb)].
      intros [= <-] Hpos _. cbn. apply (collateral_loan_positive _ _ _ _ _ Hcl). lia.
    + rewrite total_of_insert, (bo_total _ _ Hb). cbn. rewrite Hfresh. cbn. lia.
    + rewrite total_of_insert, (bo_collateral _ _ Hb). cbn. rewrite Hfresh. cbn. lia.
  - intros a. unfold locked at 1, st_apply; fields. rewrite total_of_insert. cbn [loan_id loan new_loan].
    rewrite Hfresh. cbn [from_option].
    change (total_of _ (Loans st)) with (locked a st).
    match goal with |- context [decide (?x = a)] =>
      assert (x = collateral_asset_id p) as -> by (by unfold collateral_of; rewrite <-Hlp) end.
    cbn [collateral_balance_available loan new_loan]. fold st. unfold apply_change. account_cases.
Qed.

(** *** Repaying *)
Lemma repay_inv who id s s' :
  inv s -> who <> PawnShop (lst s) -> repay_done (E:=E) who id s s' -> inv s'.
Proof.
  intros Hi Hwho [(Hsome & _ & _ & _ & _ & _ & _) He].
  pose proof (li_books _ Hi) as Hb. destruct Hsome as [loan Hl].
  rewrite !(get_loan_Some _ _ _ Hl) in He.
  destruct (bo_loan _ _ Hb _ _ Hl) as (Hid & _ & Ht & Hc & _). rewrite <-Hid in Hl.
  set (st := lst s) in *. set (pkg := loan_package (package_id loan) st) in *.
  assert (forall (f : Loan -> Z) g, (forall id l, Loans st !! id = Some l -> 0 <= f l) -> 0 <= f loan ->
    0 <= g -> in_width balance_bits (total_of f (Loans st) + g) ->
    in_width balance_bits (total_of f (Loans st) + g - f loan)) as Hwidth.
  { intros f g Hf Hl0 Hg [_ Hw]. split; [|lia].
    assert (f loan <= total_of f (Loans st)); [|lia].
    by apply (map_sum_lookup_le (fun _ => f) _ (loan_id loan)). }
  destruct (bo_written _ _ Hb) as [Hw1 Hw2].
  eapply loan_inv_quiet; [done|exact He|by repeat constructor| |done| |exact (li_burnable _ Hi)].
  - split; unfold st_repay; fields; try apply Hb.
    + intros id' l [_ Hl']%lookup_delete_Some. by apply (bo_loan _ _ Hb).
    + intros id' l [_ Hl']%lookup_delete_Some. by apply (bo_positive _ _ Hb).
    + rewrite total_of_delete, Hl, (bo_total _ _ Hb). cbn. lia.
    + rewrite total_of_delete, Hl, (bo_collateral _ _ Hb). cbn. lia.
    + rewrite (bo_total _ _ Hb). apply Hwidth; [|done|done|].
      * intros id' l Hl'. apply (bo_loan _ _ Hb _ _ Hl').
      * rewrite <-(bo_total _ _ Hb). apply Hb.
    + rewrite (bo_collateral _ _ Hb). apply Hwidth; [|done|done|].
      * intros id' l Hl'. apply (bo_loan _ _ Hb _ _ Hl').
      * rewrite <-(bo_collateral _ _ Hb). apply Hb.
  - intros a. unfold locked at 1, st_repay; fields. rewrite total_of_delete, Hl. cbn [from_option].
    change (total_of _ (Loans st)) with (locked a st).
    match goal with |- context [decide (?x = a)] => change x with (collateral_asset_id pkg) end.
    fold st. unfold repay_change. account_cases.
Qed.

Lemma repay_failed_inv who id s s' :
  inv s -> repay_failed (E:=E) who id s s' -> inv s'.
Proof.
  intros Hi (_ & st' & Hst & He).
  eapply (loan_inv_same st'); [done| | | | |by constructor|exact He];
    destruct Hst as [-> | ->]; try split; unfold st_reorder; fields; try done;
    apply Hi || apply (li_books _ Hi).
Qed.
Lemma untouched_inv s s' : inv s -> untouched (E:=E) s s' -> inv s'.
Proof.
  intros Hi (st' & Hst & He).
  eapply (loan_inv_same st'); [done| | | | |by constructor|exact He];
    destruct Hst as [-> | ->]; try split; fields; try done; try lia;
    apply Hi || apply (li_books _ Hi).
Qed.
Lemma unchanged_inv s s' : inv s -> unchanged (E:=E) s s' -> inv s'.
Proof.
  intros Hi He. apply (untouched_inv s); [done|]. exists (lst s). split; [by left|done].
Qed.

(** *** Drawing and adding collateral *)
Lemma update_inv id loan loan' d i l st' s s' (dx dc : Z) :
  let st := lst s in
  inv s -> Loans st !! id = Some loan -> loan_id loan' = id ->
  package_id loan' = package_id loan ->
  loan_balance_total loan' = loan_balance_total loan + dx ->
  collateral_balance_available loan' = collateral_balance_available loan + dc ->
  0 <= dx -> 0 <= dc ->
  in_width balance_bits (TotalLoan st + dx) -> in_width balance_bits (TotalCollateral st + dc) ->
  Loans st' = <[id := loan']> (Loans st) ->
  same_books st (st' <| Loans := Loans st |> <| TotalLoan := TotalLoan st |>
                     <| TotalCollateral := TotalCollateral st |>) ->
  TotalLoan st' = TotalLoan st + dx -> TotalCollateral st' = TotalCollateral st + dc ->
  CurrentBTCPrice st' = CurrentBTCPrice st -> GlobalLTVLimit st' = GlobalLTVLimit st ->
  LoanAssetId st' = LoanAssetId st ->
  (forall a, (if decide (collateral_of st loan = a) then dc else 0) <= d a (PawnShop st)) ->
  quiet l -> eff d i st' l s s' -> inv s'.
Proof.
  intros st Hi Hl Hid Hpkg Ht Hc Hdx Hdc Hw1 Hw2 HLoans [_ Hp Ha _ _ Hnp Hn Hsh Hmi Hlq] Htl Htc Hpr Hli Hla Hd Hq He.
  pose proof (li_books _ Hi) as Hb. fold st in Hb. destruct (li_burnable _ Hi) as [Hbu1 Hbu2].
  revert Hp Ha Hnp Hn Hsh Hmi Hlq; fields; intros Hp Ha Hnp Hn Hsh Hmi Hlq.
  eapply loan_inv_quiet; [done|exact He|done| |done| |].
  - split; rewrite ?HLoans, ?Hp, ?Ha, ?Hnp, ?Htl, ?Htc, ?Hpr, ?Hli; try apply Hb; try done.
    + intros id' l'. rewrite lookup_insert. case_decide as Hid'.
      * intros [= <-]. subst id'. destruct (bo_loan _ _ Hb _ _ Hl) as (? & ? & ? & ? & ?).
        rewrite Hpkg. split_and!; try done; lia.
      * intros Hl'. destruct (bo_loan _ _ Hb _ _ Hl') as (? & ? & ?). split_and!; try tauto. lia.
    + intros id' l'. unfold liquidating_loans. rewrite Hmi, Hlq, lookup_insert.
      case_decide; [|apply (bo_positive _ _ Hb)]. intros [= <-]. subst id'. intros Hpos Hno.
      pose proof (bo_positive _ _ Hb _ _ Hl Hpos Hno). lia.
    + rewrite total_of_insert, Hl, (bo_total _ _ Hb). cbn. lia.
    + rewrite total_of_insert, Hl, (bo_collateral _ _ Hb). cbn. lia.
  - intros a. specialize (Hd a). fold st.
    assert (forall l', collateral_of st' l' = collateral_of st l') as Hcol
      by (intros l'; unfold collateral_of, loan_package; by rewrite Hp).
    assert (locked a st' = locked a st + (if decide (collateral_of st loan = a) then dc else 0)) as ->;
      [|lia].
    unfold locked at 1. rewrite HLoans, total_of_insert, Hl. cbn [from_option].
    rewrite (total_of_ext _ (fun l => if decide (collateral_of st l = a)
      then collateral_balance_available l else 0)) by (intros; by rewrite Hcol).
    change (total_of _ (Loans st)) with (locked a st). rewrite !Hcol.
    assert (collateral_of st loan' = collateral_of st loan) as -> by (unfold collateral_of; by rewrite Hpkg).
    case_decide; lia.
  - split; [by rewrite Hla|]. by rewrite Hp.
Qed.

Lemma draw_inv who id x s s' :
  inv s -> 0 <= x -> draw_done (E:=E) who id x s s' -> inv s'.
Proof.
  intros Hi Hx ([loan Hl] & _ & _ & [Hn1 Hn2] & Hw & He). pose proof (li_books _ Hi) as Hb.
  rewrite !(get_loan_Some _ _ _ Hl) in *.
  eapply (update_inv id loan (loan <| loan_balance_total := loan_balance_total loan + x |>)
    _ _ _ _ _ _ x 0); try exact He; try done; unfold st_draw, mutate_loan; fields; rewrite ?Z.add_0_r;
    try done; try apply (li_books _ Hi); rewrite ?(get_loan_Some _ _ _ Hl); try done.
  - intros a. case_decide; account_cases.
  - by repeat constructor.
Qed.
Lemma add_inv from id x s s' :
  inv s -> 0 <= x -> from <> PawnShop (lst s) -> is_Some (Loans (lst s) !! id) ->
  add_done (E:=E) from id x s s' -> inv s'.
Proof.
  intros Hi Hx Hfrom [loan Hl] (_ & Hw & He). pose proof (li_books _ Hi) as Hb.
  rewrite !(get_loan_Some _ _ _ Hl) in *.
  eapply (update_inv id loan
    (loan <| collateral_balance_original := collateral_balance_original loan + x |>
          <| collateral_balance_available := collateral_balance_available loan + x |>)
    _ _ _ _ _ _ 0 x); try exact He; try done; unfold st_add, mutate_loan; fields; rewrite ?Z.add_0_r;
    try done; try apply (li_books _ Hi); rewrite ?(get_loan_Some _ _ _ Hl); try done.
  - intros a. unfold collateral_of. case_decide; account_cases.
  - by repeat constructor.
Qed.

(** *** Packages *)
Lemma packages_inv st' l s s' :
  let st := lst s in
  inv s -> Loans st' = Loans st -> TotalLoan st' = TotalLoan st ->
  TotalCollateral st' = TotalCollateral st -> NextLoanId st' = NextLoanId st ->
  PawnShop st' = PawnShop st -> CurrentBTCPrice st' = CurrentBTCPrice st ->
  GlobalLTVLimit st' = GlobalLTVLimit st -> MinimumCollateral st' = MinimumCollateral st ->
  LiquidatingLoans st' = LiquidatingLoans st ->
  (forall pid p, LoanPackages st' !! pid = Some p -> pid < NextLoanPackageId st') ->
  (forall pid p, ActiveLoanPackages st' !! pid = Some p -> LoanPackages st' !! pid = Some p) ->
  (forall pid p, LoanPackages st !! pid = Some p -> exists p', LoanPackages st' !! pid = Some p' /\
     collateral_asset_id p' = collateral_asset_id p) ->
  burnables st' s -> quiet l -> eff no_change no_issue st' l s s' -> inv s'.
Proof.
  intros st Hi Hl Ht Hc Hn Hsh Hpr Hli Hmi Hlq Hp1 Hp2 Hkeep Hbu Hq He.
  pose proof (li_books _ Hi) as Hb. fold st in Hb.
  eapply loan_inv_quiet; [done|exact He|done| |done| |done].
  - split; rewrite ?Hl, ?Ht, ?Hc, ?Hn, ?Hpr, ?Hli, ?Hmi; try apply Hb; try done.
    + intros id l' Hl'. destruct (bo_loan _ _ Hb _ _ Hl') as (? & ? & ? & ? & [p Hp]).
      destruct (Hkeep _ _ Hp) as (p' & Hp' & _). by split_and!.
    + unfold liquidating_loans. rewrite Hlq. apply (bo_positive _ _ Hb).
  - intros a. unfold no_change. rewrite Z.add_0_r. fold st. unfold locked. rewrite Hl.
    apply Z.eq_le_incl, total_of_ext. intros id l' Hl'.
    destruct (bo_loan _ _ Hb _ _ Hl') as (_ & _ & _ & _ & [p Hp]).
    destruct (Hkeep _ _ Hp) as (p' & Hp' & Hca).
    assert (collateral_of st' l' = collateral_of st l') as ->; [|done].
    unfold collateral_of, loan_package, get_or. rewrite Hp, Hp'. done.
Qed.

(** From here on the build checks for overflow: what does not fit panics. *)
Context (Hchecks : overflow_checks = true).
#[local] Abbreviation keeps m s :=
  (wp m (fun _ s' => inv s') (fun _ s' => inv s') (~ False) s).

Lemma checked_exact (P : Prop) : exact P.
Proof. by left. Qed.

Lemma create_package_keeps t r m s : inv s -> keeps (create_loan_package (E:=E) t r m) s.
Proof.
  intros Hi. pose proof (li_books _ Hi) as Hb. destruct (li_burnable _ Hi) as [Hbu1 Hbu2].
  unfold create_loan_package, get_next_loan_package_id.
  do 3 wp_step. wp_step. apply wp_owp. owp_step (checked_exact False); [done|].
  repeat wp_step. rewrite !sput_sput.
  assert (LoanPackages (lst s) !! NextLoanPackageId (lst s) = None) as Hfresh.
  { destruct (LoanPackages (lst s) !! _) as [p|] eqn:Hp; [|done].
    apply (bo_package _ _ Hb) in Hp. lia. }
  eapply packages_inv; [done|..|eapply (eff_event _ _ _ []);
    [eapply (eff_write Hforeign), be_refl, Hi|by store]]; fields; try done.
  - intros pid p. rewrite lookup_insert. case_decide as Hpid; [lia|].
    intros Hp%(bo_package _ _ Hb). lia.
  - intros pid p. rewrite !lookup_insert. case_decide; [done|]. apply (bo_active _ _ Hb).
  - intros pid p Hp. exists p. rewrite lookup_insert_ne; [done|congruence].
  - split; [done|]. fields. intros pid p. rewrite lookup_insert.
    case_decide; [by intros [= <-]|by apply Hbu2].
  - by repeat constructor.
Qed.

Lemma disable_package_keeps pid s : inv s -> keeps (disable_loan_package (E:=E) pid) s.
Proof.
  intros Hi. pose proof (li_books _ Hi) as Hb. destruct (li_burnable _ Hi) as [Hbu1 Hbu2].
  unfold disable_loan_package. do 3 wp_step. wp_step; [|done]. repeat wp_step. rewrite !sput_sput.
  match goal with H : bool_decide _ = true |- _ => apply bool_decide_eq_true in H as [p0 Hp0] end.
  assert (loan_package pid (lst s) = p0) as Hlp by (unfold loan_package, get_or; by rewrite Hp0).
  eapply packages_inv; [done|..|eapply (eff_event _ _ _ []);
    [eapply (eff_write Hforeign), be_refl, Hi|by store]]; fields; rewrite ?Hlp; try done.
  - intros pid' p. rewrite lookup_insert. case_decide as Hpid; [subst pid'|apply (bo_package _ _ Hb)].
    intros _. by apply (bo_package _ _ Hb) in Hp0.
  - intros pid' p [Hne Hp]%lookup_delete_Some. rewrite lookup_insert_ne by done. by apply (bo_active _ _ Hb).
  - intros pid' p Hp. rewrite lookup_insert. case_decide as Hpid; [subst pid'|by exists p].
    eexists. split; [done|]. fields. congruence.
  - split; [done|]. fields. intros pid' p. rewrite lookup_insert.
    case_decide; [|by apply Hbu2]. intros [= <-]. fields. by apply (Hbu2 pid).
  - by repeat constructor.
Qed.

(** *** Every call *)
(** The arguments have their type; a loan asset can be burnt by root. *)
Definition loan_call_ok (c : Call) s : Prop :=
  match c with
  | CallSetLoanAssetId a => burnable a s = true
  | CallSetGlobalLtvLimit x | CallSetPrice x | CallAddCollateral _ x | CallDraw _ x => 0 <= x
  | CallApply c x _ => in_width balance_bits c /\ in_width balance_bits x
  | _ => True
  end.

Lemma setter_keeps o f s :
  inv s -> same_books (lst s) (f (lst s)) -> 0 <= CurrentBTCPrice (f (lst s)) ->
  0 <= GlobalLTVLimit (f (lst s)) -> burnable (LoanAssetId (f (lst s))) s = true ->
  keeps (root_sets o f) s.
Proof.
  intros Hi Hsame Hp Hl Hbu. unfold root_sets. do 2 wp_step; [|done]. wp_step.
  eapply (loan_inv_same (f (lst s))); [done..|by constructor|]. eapply (eff_write Hforeign), be_refl, Hi.
Qed.
Lemma running_keeps {A} (m : M S A) s :
  inv s -> (LoanPaused (lst s) = false -> keeps m s) -> keeps (when_running m) s.
Proof.
  intros Hi Hm. unfold when_running. do 3 wp_step. wp_step; [|done]. apply Hm. by apply negb_true_iff.
Qed.

Lemma apply_ready who pid c x s :
  inv s -> in_width balance_bits c -> in_width balance_bits x ->
  wp (apply_for_loan (E:=E) who pid c x) (fun _ s' => apply_done (E:=E) who pid c x s s')
    (fun _ s' => untouched (E:=E) s s') (~ False) s.
Proof.
  intros Hi Hcw Hxw. pose proof (li_books _ Hi) as Hb. destruct (li_burnable _ Hi) as [_ Hbu].
  assert (untouched (E:=E) s s) as Hno by (apply untouched_refl, Hi).
  destruct (ActiveLoanPackages (lst s) !! pid) as [p|] eqn:Hp.
  - eapply wp_mono; [apply (apply_wp Hforeign who pid c x s (checked_exact _))|done|done|by intros _ []];
      try apply Hi; try apply Hb; try done.
    unfold active_package, get_or. rewrite Hp. apply (Hbu pid). by apply (bo_active _ _ Hb).
  - unfold apply_for_loan. do 2 wp_step; [|done]. do 4 wp_step; [|done]. fold_bools.
    rewrite Hp in *. by match goal with Hs : is_Some None |- _ => destruct Hs end.
Qed.

Lemma loan_dispatch_keeps o (c : Call) s :
  inv s -> o <> Signed (PawnShop (lst s)) -> loan_call_ok c s ->
  (forall id x, c <> CallMarkLiquidated id x) -> keeps (dispatch (E:=E) o c) s.
Proof.
  intros Hi Ho Hok Hnot. pose proof (li_books _ Hi) as Hb. pose proof (li_burnable _ Hi) as [Hbu1 Hbu2].
  destruct c as [| |a|l|a|t|t|b|la|r|t r m|pid|p|id|c x pid|id x|id x|id x];
    cbn [dispatch loan_call_ok] in *; try (by destruct (Hnot _ _ eq_refl));
    try (apply setter_keeps; fields; try done; try apply Hb; by split; fields);
    try (apply running_keeps; [done|intros _]).
  - do 2 wp_step; [|done]. do 2 wp_step; [|done]. do 2 wp_step; [|done]. by apply create_package_keeps.
  - do 2 wp_step; [|done]. by apply disable_package_keeps.
  - do 2 wp_step; [subst o|done].
    wp_apply (repay_wp Hforeign who id s (checked_exact _)); try apply Hi; try apply Hb.
    + intros [l Hl]. rewrite (get_loan_Some _ _ _ Hl).
      destruct (bo_loan _ _ Hb _ _ Hl) as (? & _ & ? & ? & [p Hp]). split_and!; try done.
      unfold loan_package, get_or. rewrite Hp. by apply (Hbu2 _ _ Hp).
    + intros [] s' Hd. apply (repay_inv who id s); [done|congruence|done].
    + intros e s' Hf. by apply (repay_failed_inv who id s).
    + by intros _ [].
  - do 2 wp_step; [subst o|done]. destruct Hok as [Hcw Hxw].
    wp_apply (apply_ready who pid c x s); try done.
    + intros [] s' Hd. eapply apply_inv; [done| |exact Hd]. congruence.
    + intros e s' Hf. by apply (untouched_inv s).
  - do 2 wp_step; [subst o|done]. do 4 wp_step; [|done]. do 2 wp_step. do 2 wp_step; [|done].
    fold_bools. match goal with H : is_Some _ |- _ => rename H into Hsome end. subst who.
    pose proof Hsome as [l Hl].
    wp_apply (add_collateral_wp Hforeign _ id x s (checked_exact _)); try apply Hi; try done.
    + by rewrite (get_loan_Some _ _ _ Hl).
    + intros [] s' Hd. eapply add_inv; [done|done| |done|exact Hd]. congruence.
    + intros e s' Hf. by apply (unchanged_inv s).
    + by intros _ [].
  - do 2 wp_step; [subst o|done].
    wp_apply (draw_wp Hforeign who id x s (checked_exact _)); try apply Hi; try done.
    + intros [l Hl]. rewrite (get_loan_Some _ _ _ Hl).
      destruct (bo_loan _ _ Hb _ _ Hl) as (_ & _ & _ & _ & [p Hp]).
      unfold loan_package, get_or. rewrite Hp. by apply (Hbu2 _ _ Hp).
    + intros [] s' Hd. by eapply draw_inv.
    + intros e s' Hf. by apply (unchanged_inv s).
    + by intros _ [].
Qed.

(** ** Repaying *)
(** The invariant gives what a repayment needs. *)
Lemma repay_ready who id s :
  inv s ->
  wp (repay_loan (E:=E) who id) (fun _ s' => repay_done (E:=E) who id s s')
    (fun _ s' => repay_failed (E:=E) who id s s') False s.
Proof.
  intros Hi. pose proof (li_books _ Hi) as Hb. destruct (li_burnable _ Hi) as [_ Hbu].
  destruct (Loans (lst s) !! id) as [l|] eqn:Hl.
  - pose proof (bo_loan _ _ Hb _ _ Hl) as (Hid & _ & Ht & Hc & [p Hp]).
    assert (repay_fits id s) as Hfits.
    { unfold repay_fits. rewrite (get_loan_Some _ _ _ Hl).
      pose proof (bo_total_width _ _ Hb). pose proof (bo_collateral_width _ _ Hb).
      destruct (bo_written _ _ Hb) as [Hw1 Hw2].
      assert (loan_balance_total l <= TotalLoan (lst s)).
      { rewrite (bo_total _ _ Hb). etrans; [|apply Z.add_le_mono_l, Hw1]. rewrite Z.add_0_r. apply (map_sum_lookup_le (fun _ => loan_balance_total) _ id); [|done].
        intros k v Hk. apply (bo_loan _ _ Hb _ _ Hk). }
      assert (collateral_balance_available l <= TotalCollateral (lst s)).
      { rewrite (bo_collateral _ _ Hb). etrans; [|apply Z.add_le_mono_l, Hw2]. rewrite Z.add_0_r.
        apply (map_sum_lookup_le (fun _ => collateral_balance_available) _ id); [|done].
        intros k v Hk. apply (bo_loan _ _ Hb _ _ Hk). }
      unfold in_width in *. lia. }
    eapply wp_mono; [apply (repay_wp Hforeign who id s (or_intror Hfits))| | |]; try done;
      try apply Hi; try apply Hb.
    intros _. rewrite (get_loan_Some _ _ _ Hl). split_and!; try done.
    unfold loan_package, get_or. rewrite Hp. by apply (Hbu _ _ Hp).
  - assert (~ is_Some (Loans (lst s) !! id)) as Hno by (by rewrite Hl, <-eq_None_not_Some).
    unfold repay_loan. do 6 wp_step; [fold_bools; contradiction|]. split; [by intros (? & _)|].
    exists (lst s). split; [by left|]. apply be_refl, Hi.
Qed.

Lemma repay_change_ready id l s a :
  inv s -> Loans (lst s) !! id = Some l -> a = collateral_of (lst s) l ->
  collateral_balance_available l <= balance_of a (PawnShop (lst s)) s.
Proof.
  intros Hi Hl ->. etrans; [|apply (li_backed _ Hi)]. unfold locked, total_of.
  pose proof (li_books _ Hi) as Hb.
  pose proof (map_sum_lookup_le (fun _ l' => if decide (collateral_of (lst s) l' = collateral_of (lst s) l)
    then collateral_balance_available l' else 0) (Loans (lst s)) id l) as Hle.
  cbv beta in Hle. rewrite decide_True in Hle by done. apply Hle; [|done].
  intros k v Hk. case_decide; [apply (bo_loan _ _ Hb _ _ Hk)|done].
Qed.
End invariant.
