(* ===== verification/LoanRuns.v ===== *)
(** * Loans: the books over all runs

    Liquidations and blocks keep the invariant of the books; a run interleaves the
    calls of the accounts with blocks, reports of the price, time, and what others do
    with the ledger. *)
From S2P Require Export LoanProps.
From stdpp Require Import relations.
#[local] Open Scope Z_scope.
Import RioLoan.

Section runs.
Context {S E : Type} `{!Overflow, !Store S (Frame E), !Store S LoanStore, !Inject LoanEvent E}.
Context `{!Separate S (Frame E) LoanStore}.
Context `{!Ledger S, !LedgerEvents E, !LedgerSpec S E, !EventLog LoanEvent E}.
Context (Hforeign : foreign LoanStore _) (Hchecks : overflow_checks = true).
Implicit Types (s : S) (st : LoanStore) (who : AccountId) (loan : Loan).
#[local] Abbreviation lst := (sget (T:=LoanStore)).
#[local] Abbreviation fr := (sget (T:=Frame E)).
#[local] Abbreviation eff := (effect (E:=E) (T:=LoanStore) (Ev:=LoanEvent)).
#[local] Abbreviation inv := (loan_inv (E:=E)).
#[local] Abbreviation written := (written_of (E:=E)).

(** ** Liquidations *)
Lemma sum_le (f : Loan -> Z) m id l :
  (forall k v, m !! k = Some v -> 0 <= f v) -> m !! id = Some l -> f l <= total_of f m.
Proof. apply (map_sum_lookup_le (fun _ => f)). Qed.

Lemma liquidated_inv loan account x s s' :
  inv s -> account <> PawnShop (lst s) -> Loans (lst s) !! loan_id loan = Some loan ->
  liquidated (E:=E) loan account x s s' -> inv s'.
Proof.
  intros Hi Hacc Hl (_ & _ & d & e & Hd & He & Heff). pose proof (li_books _ Hi) as Hb.
  destruct (bo_loan _ _ Hb _ _ Hl) as (_ & _ & Ht & Hc & _). destruct (bo_written _ _ Hb) as [Hw1 Hw2].
  set (st := lst s) in *.
  eapply loan_inv_effect; [done|exact Heff| |done| |exact (li_burnable _ Hi)].
  - rewrite written_one, He. generalize dependent (written s). intros w Hb Hw1 Hw2. cbn [fst snd].
    split; unfold st_liquidated; fields; try apply Hb.
    + intros id l [_ Hl']%lookup_delete_Some. by apply (bo_loan _ _ Hb).
    + intros id l [Hne Hl']%lookup_delete_Some Hpos Hno. apply (bo_positive _ _ Hb _ _ Hl' Hpos).
      intros Hin. apply Hno. unfold liquidating_loans; fields. cbn. unfold others.
      apply list_elem_of_filter. split; [congruence|exact Hin].
    + cbn. lia.
    + rewrite total_of_delete, Hl, (bo_total _ _ Hb). cbn. lia.
    + rewrite total_of_delete, Hl, (bo_collateral _ _ Hb). cbn. lia.
  - intros a. unfold locked at 1, st_liquidated; fields. rewrite total_of_delete, Hl. cbn [from_option].
    change (total_of _ (Loans st)) with (locked a st). specialize (Hd Hacc a). fold st. case_decide; lia.
Qed.
Lemma not_liquidated_inv account s s' :
  inv s -> account <> PawnShop (lst s) -> not_liquidated (E:=E) account s s' -> inv s'.
Proof.
  intros Hi Hacc (d & Hd & He).
  eapply loan_inv_quiet; [done|exact He|by constructor|apply Hi|done| |apply Hi].
  intros a. specialize (Hd Hacc a). lia.
Qed.

(** *** Every call keeps the invariant *)
Lemma call_keeps o (c : Call) s :
  inv s -> o <> Signed (PawnShop (lst s)) -> loan_call_ok c s ->
  wp (dispatch (E:=E) o c) (fun _ s' => inv s') (fun _ s' => inv s') (~ False) s.
Proof.
  intros Hi Ho Hok. assert ((exists id x, c = CallMarkLiquidated id x) \/
    forall id x, c <> CallMarkLiquidated id x) as [(id & x & ->)|Hnot]
    by (destruct c; first [left; by eexists _, _ | right; done]).
  - cbn [dispatch]. apply running_keeps; [done|intros _]. pose proof (li_books _ Hi) as Hb.
    do 2 wp_step; [subst o|done]. do 2 wp_step. do 2 wp_step; [|done]. do 2 wp_step. do 2 wp_step; [|done].
    do 2 wp_step. fold_bools. match goal with H : is_Some _ |- _ => destruct H as [l Hl] end.
    rewrite (get_loan_Some _ _ _ Hl). destruct (bo_loan _ _ Hb _ _ Hl) as (Hid & _ & Ht & _). subst id.
    assert (who <> PawnShop (lst s)) as Hne by congruence.
    eapply wp_mono; [apply (liquidated_wp Hforeign l who x s); [apply Hi|done]| | |by intros _ []].
    + intros [] s' Hd. by eapply liquidated_inv.
    + intros e s' Hd. by eapply not_liquidated_inv.
  - eapply wp_mono; [by apply (loan_dispatch_keeps Hforeign Hchecks)|done..].
Qed.

(** ** Blocks *)
(** Every package takes the asset that the block collects its fees in. *)
Definition block_ok s : Prop :=
  transferable (CollateralAssetId (lst s)) s = true /\
  forall pid p, LoanPackages (lst s) !! pid = Some p -> collateral_asset_id p = CollateralAssetId (lst s).

Section block.
Context (s : S) (Hi : inv s).
#[local] Abbreviation st := (lst s).
#[local] Abbreviation ages k l := (age (now (fr s)) k st l).

Lemma collateral_width k l : Loans st !! k = Some l -> in_width balance_bits (collateral_balance_available l).
Proof.
  intros Hl. pose proof (li_books _ Hi) as Hb. destruct (bo_loan _ _ Hb _ _ Hl) as (_ & _ & _ & Hc & _).
  destruct (bo_written _ _ Hb) as [_ Hw2]. destruct (bo_collateral_width _ _ Hb) as [_ Hw].
  rewrite (bo_collateral _ _ Hb) in Hw. split; [done|].
  pose proof (sum_le collateral_balance_available _ k l (fun k v Hk => proj1 (proj2 (proj2 (proj2 (bo_loan _ _ Hb k v Hk))))) Hl).
  lia.
Qed.
Lemma stored_ages ids k l :
  complete ids (Loans st) -> all_age s ids -> Loans st !! k = Some l ->
  exists a, ages k l = Some a /\ aged_of s k = Some a /\ ages_to l a /\
    0 <= collateral_balance_available (aged_loan a) /\
    (k ∉ liquidating_loans st -> 0 < collateral_balance_available (aged_loan a)).
Proof.
  intros [_ Hids] [Hall _] Hl. destruct (Hall k) as [a Ha]; [apply Hids; by exists l|]. exists a.
  assert (ages k l = Some a) as Hage by (unfold aged_of in Ha; by rewrite Hl in Ha).
  split; [done|]. split; [done|].
  eapply age_ages; [done|by eapply collateral_width|apply (li_books _ Hi)|exact Hage].
Qed.

Lemma left_loan ids k l' :
  complete ids (Loans st) -> all_age s ids -> block_loans s !! k = Some l' ->
  exists l a, Loans st !! k = Some l /\ l' = aged_loan a /\ ages_to l a /\
    0 <= collateral_balance_available l' /\
    (k ∉ liquidating_loans st -> 0 < collateral_balance_available l').
Proof.
  intros Hids Hall. unfold block_loans. rewrite map_lookup_imap.
  destruct (Loans st !! k) as [l|] eqn:Hl; [cbn|done].
  destruct (stored_ages ids k l Hids Hall Hl) as (a & -> & _ & Hto). cbn. intros [= <-]. by exists l, a.
Qed.
Lemma left_nonneg ids :
  complete ids (Loans st) -> all_age s ids ->
  0 <= total_of collateral_balance_available (block_loans s).
Proof.
  intros Hids Hall. apply map_sum_nonneg. intros k l' Hl.
  by destruct (left_loan ids _ _ Hids Hall Hl) as (l & a & _ & _ & _ & ? & _).
Qed.

(** The sums over the loans that the block leaves. *)
Lemma block_total (f : Loan -> Z) (g : LoanId -> Z) ids :
  complete ids (Loans st) -> all_age s ids ->
  (forall k l a, Loans st !! k = Some l -> aged_of s k = Some a -> ages_to l a -> f (aged_loan a) = f l - g k) ->
  total_of f (block_loans s) = total_of f (Loans st) - map_sum (fun k _ => g k) (Loans st).
Proof.
  intros Hids Hall Hf. unfold total_of, block_loans. rewrite map_sum_imap, <-map_sum_minus.
  apply map_sum_ext. intros k l Hl. destruct (stored_ages ids k l Hids Hall Hl) as (a & Ha & Hk & Hto & _).
  rewrite Ha. cbn. by apply Hf.
Qed.
Definition fee_of (k : LoanId) : Balance := from_option aged_fee 0 (aged_of s k).
Lemma block_fee_sum ids :
  complete ids (Loans st) ->
  block_fee s ids = map_sum (fun k _ => fee_of k) (Loans st).
Proof.
  intros Hids. unfold block_fee. rewrite (map_sum_keys _ _ ids) by done.
  unfold zsum. clear. induction ids as [|k l IH]; [done|]. cbn. rewrite <-IH.
  assert (fee_of k = penalty_of s k + interest_in s k) as ->; [|lia].
  unfold fee_of, penalty_of, interest_in, aged_fee. by destruct (aged_of s k).
Qed.

(** The books once the block has written them, and its fees have moved. *)
Lemma block_books ids st' fee :
  complete ids (Loans st) -> all_age s ids ->
  fee = block_fee s ids ->
  Loans st' = block_loans s ->
  LiquidatingLoans st' = push_all (filter (fun k => liquidates s k = true) ids) (LiquidatingLoans st) ->
  TotalCollateral st' = TotalCollateral st - fee ->
  st' = st <| Loans := Loans st' |> <| LiquidatingLoans := LiquidatingLoans st' |>
           <| TotalCollateral := TotalCollateral st' |> ->
  books_ok (written s) st'.
Proof.
  intros Hids Hall Hfee HL HQ HT Hrest. pose proof (li_books _ Hi) as Hb.
  assert (forall k l', Loans st' !! k = Some l' -> _) as Hold
    by (intros k l'; rewrite HL; by apply (left_loan ids k l')).
  assert (TotalCollateral st' = total_of collateral_balance_available (Loans st') + (written s).2) as Hsum.
  { rewrite HT, HL, (block_total _ fee_of ids), Hfee, (block_fee_sum ids), (bo_collateral _ _ Hb); try done; [lia|].
    intros k l a _ Ha Hto. rewrite (at_collateral _ _ Hto). unfold fee_of. by rewrite Ha. }
  assert (0 <= fee) as Hfee0 by (subst fee; apply Hall).
  pose proof (left_nonneg ids Hids Hall) as Hpos. rewrite <-HL in Hpos.
  rewrite Hrest. split; fields; try apply Hb; [intros k l' Hl|intros k l' Hl Hmin Hno| |exact Hsum|].
  - destruct (Hold _ _ Hl) as (l & a & Hl0 & -> & [] & ? & _).
    destruct (bo_loan _ _ Hb _ _ Hl0) as (? & ? & ? & _ & ?). split_and!; congruence || lia || by rewrite at_package.
  - destruct (Hold _ _ Hl) as (l & a & _ & _ & _ & _ & Hp). apply Hp. intros Hin. apply Hno.
    unfold liquidating_loans; fields. fold (liquidating_loans st').
    by apply (elem_of_push_all _ _ _ _ HQ); left.
  - rewrite HL, (block_total _ (fun _ => 0) ids); try done.
    + rewrite (bo_total _ _ Hb), map_sum_zero. lia.
    + intros k l a _ _ Hto. rewrite (at_total _ _ Hto). lia.
  - destruct (bo_written _ _ Hb). destruct (bo_collateral_width _ _ Hb). unfold in_width. lia.
Qed.

(** What the loans lock, where they all lock the asset [ca]. *)
Lemma locked_one st' ca a :
  (forall k l, Loans st' !! k = Some l -> collateral_of st' l = ca) ->
  locked a st' = if decide (ca = a) then total_of collateral_balance_available (Loans st') else 0.
Proof.
  intros Hca. unfold locked. rewrite (total_of_ext _ (fun l => if decide (ca = a)
    then collateral_balance_available l else 0)) by (intros k l Hl; by rewrite (Hca k l Hl)).
  case_decide; [done|]. apply map_sum_zero.
Qed.
Lemma block_collateral k l : block_ok s -> Loans st !! k = Some l -> collateral_of st l = CollateralAssetId st.
Proof.
  intros [_ Hp] Hl. destruct (bo_loan _ _ (li_books _ Hi) _ _ Hl) as (_ & _ & _ & _ & [p Hpkg]).
  unfold collateral_of, loan_package, get_or. rewrite Hpkg. by eapply Hp.
Qed.

Lemma block_inv ids s' :
  complete ids (Loans st) -> block_ok s -> all_age s ids ->
  block_done (E:=E) ids s s' -> inv s'.
Proof.
  intros Hids Hok Hall [HL HQ Hrest (d & evs & Hq & He & Hpaid)]. pose proof (li_books _ Hi) as Hb.
  set (ca := CollateralAssetId st) in *. set (fee := block_fee s ids) in *.
  assert (forall a, locked a st = if decide (ca = a)
    then total_of collateral_balance_available (Loans st) else 0) as Hlock
    by (intros a; apply locked_one; intros; by eapply block_collateral).
  assert (forall a, locked a (lst s') = if decide (ca = a)
    then total_of collateral_balance_available (Loans (lst s')) else 0) as Hlock'.
  { intros a. apply locked_one. rewrite HL. intros k l' Hl'.
    destruct (left_loan ids k l' Hids Hall Hl') as (l & x & Hl & -> & Hto & _).
    rewrite Hrest. unfold collateral_of. rewrite (at_package _ _ Hto). by apply (block_collateral k). }
  assert (total_of collateral_balance_available (Loans (lst s'))
    = total_of collateral_balance_available (Loans st) - fee) as Hleft.
  { rewrite HL, (block_total _ fee_of ids), <-(block_fee_sum ids); try done.
    intros k l a _ Ha Hto. rewrite (at_collateral _ _ Hto). unfold fee_of. by rewrite Ha. }
  assert (0 <= fee) as Hfee by apply Hall.
  pose proof (left_nonneg ids Hids Hall) as Hpos. rewrite <-HL in Hpos.
  pose proof (li_backed _ Hi ca) as Hback. rewrite Hlock, decide_True in Hback by done.
  assert (TotalCollateral (lst s') = TotalCollateral st - fee /\
    forall a, (if decide (ca = a) then - fee else 0) <= d a (PawnShop st)) as [HT Hd].
  { destruct (bo_written _ _ Hb) as [_ Hw2]. pose proof (bo_collateral _ _ Hb) as Htc.
    destruct Hpaid as [(Hno & -> & ->)|(_ & -> & _ & _ & ->)].
    - assert (fee = 0) as ->; [|split; [lia|intros a; unfold no_change; case_decide; lia]].
      destruct Hno as [Hz|[Ht|Hlt]]; [done| |fold ca st in Hlt; lia].
      destruct Hok as [Hok _]. unfold ca in Ht. congruence.
    - split; [|intros a; account_cases]. unfold checked_sub, checked. rewrite decide_True; [done|].
      destruct (bo_collateral_width _ _ Hb). unfold in_width. lia. }
  eapply loan_inv_quiet; [exact Hi|exact He|done| |by rewrite Hrest| |].
  - by apply (block_books ids _ fee).
  - intros a. rewrite Hlock, Hlock'. specialize (Hd a). case_decide; lia.
  - rewrite Hrest. apply (li_burnable _ Hi).
Qed.
End block.

(** ** Runs *)
(** An enumeration of the loans. *)
Definition enumerates (enumerate : gmap LoanId Loan -> list LoanId) s : Prop :=
  complete (enumerate (Loans (lst s))) (Loans (lst s)).

Inductive loan_step : S -> S -> Prop :=
| lstep_ok s o c s' :
    o <> Signed (PawnShop (lst s)) -> loan_call_ok c s -> dispatch (E:=E) o c s = Ok tt s' ->
    loan_step s s'
| lstep_err s o c e s' :
    o <> Signed (PawnShop (lst s)) -> loan_call_ok c s -> dispatch (E:=E) o c s = Err e s' ->
    loan_step s s'
| lstep_block s enumerate s' :
    enumerates enumerate s -> block_ok s -> on_initialize (E:=E) enumerate s = Ok tt s' -> loan_step s s'
| lstep_price s p s' : 0 <= p -> on_change p s = Ok tt s' -> loan_step s s'
| lstep_time s n x t : loan_step s (sput (MkFrame (events (fr s)) n x t (sudo_key (fr s))) s)
(** Other parts of the chain: the pawn shop loses nothing. *)
| lstep_other s d i s' :
    eff d i (lst s) [] s s' -> (forall a, 0 <= d a (PawnShop (lst s))) -> loan_step s s'.
(** A chain without loans nor packages, on which nothing was written off. *)
Record loan_start s : Prop := {
  ls_ledger : ledger_inv s;
  ls_loans : Loans (lst s) = ∅;
  ls_packages : LoanPackages (lst s) = ∅;
  ls_active : ActiveLoanPackages (lst s) = ∅;
  ls_total : TotalLoan (lst s) = 0;
  ls_collateral : TotalCollateral (lst s) = 0;
  ls_price : 0 <= CurrentBTCPrice (lst s);
  ls_limit : 0 <= GlobalLTVLimit (lst s);
  ls_burnable : burnable (LoanAssetId (lst s)) s = true;
  ls_log : client_log (E:=E) (Ev:=LoanEvent) s = [];
}.

Lemma loan_start_inv s : loan_start s -> inv s.
Proof.
  intros []. split; [done| | |split; [done|]].
  - assert (written s = (0, 0)) as -> by (unfold written_of; by rewrite ls_log0).
    split; rewrite ?ls_loans0, ?ls_packages0, ?ls_active0, ?ls_total0, ?ls_collateral0; done.
  - intros a. unfold locked. rewrite ls_loans0. by apply balance_nonneg.
  - rewrite ls_packages0. done.
Qed.

(** Running the hook, where the loans can be enumerated. *)
Lemma on_initialize_wp enumerate s :
  inv s -> enumerates enumerate s ->
  wp (on_initialize (E:=E) enumerate)
    (fun _ s' => LoanPaused (lst s) = true /\ s' = s \/ LoanPaused (lst s) = false /\
       all_age s (enumerate (Loans (lst s))) /\ block_done (E:=E) (enumerate (Loans (lst s))) s s')
    (fun _ _ => False)
    (LoanPaused (lst s) = false /\ ~ all_age s (enumerate (Loans (lst s)))) s.
Proof.
  intros Hi Hids. pose proof (li_books _ Hi) as Hb. unfold on_initialize. do 2 wp_step.
  destruct (LoanPaused (lst s)) eqn:Hp; [wp_step; by left|].
  eapply wp_mono; [apply (on_each_block_wp Hforeign enumerate s); try done; try apply Hi; try apply Hb| |done|done].
  - by left.
  - intros [] s' [Hall Hd]. by right.
Qed.

Lemma loan_step_inv s s' : loan_step s s' -> inv s -> inv s'.
Proof.
  intros Hstep Hi. destruct Hstep as [s o c s' Ho Hok Hr|s o c e s' Ho Hok Hr|s enum s' Hen Hok Hr|s p s' Hp Hr|s n x t|s d i s' He Hd].
  - exact (wp_Ok _ _ _ _ _ _ _ (call_keeps o c s Hi Ho Hok) Hr).
  - exact (wp_Err _ _ _ _ _ _ _ (call_keeps o c s Hi Ho Hok) Hr).
  - pose proof (wp_Ok _ _ _ _ _ _ _ (on_initialize_wp enum s Hi Hen) Hr) as [[_ ->]|(_ & Hall & Hd)]; [done|].
    by eapply block_inv.
  - injection Hr as <-. eapply (loan_inv_same (E:=E) ((lst s) <| CurrentBTCPrice := p |>)); [exact Hi| | | | |by constructor|].
    + by split; fields.
    + by fields.
    + fields. apply (li_books _ Hi).
    + fields. apply (li_burnable _ Hi).
    + eapply (eff_write Hforeign), be_refl, Hi.
  - destruct Hi as [Hl Hb Hk Hu].
    set (s' := sput _ s). assert (same_ledger s' s) as Hs by (by apply same_ledger_frame).
    assert (lst s' = lst s) as Hst by (by unfold s'; store).
    assert (written s' = written s) as Hw by (unfold written_of, client_log, s'; by store).
    split; rewrite ?Hst, ?Hw; [by rewrite Hs|done|intros a; by rewrite Hs|].
    destruct Hu as [Hu1 Hu2]. split; [by rewrite Hs|]. intros pid p Hp. rewrite Hs. by eapply Hu2.
  - eapply loan_inv_quiet; [done|exact He|by constructor|apply Hi|done| |apply Hi].
    intros a. specialize (Hd a). lia.
Qed.
Lemma loan_steps_inv s0 s : loan_start s0 -> rtc loan_step s0 s -> inv s.
Proof.
  intros Hs%loan_start_inv Hrun. induction Hrun as [|s0 s1 s Hstep _ IH]; [done|].
  by eapply IH, loan_step_inv.
Qed.

(** C21: the books of the loans balance, along the runs of the build that checks for
    overflow, from a chain without loans, where the loan assets are burnable by root and
    calls have arguments of their types: the steps are calls of any account but the pawn
    shop, successful or not, blocks while every package locks the current collateral asset
    and that asset is transferable, reports of the price, and steps of other parts that do
    not write the loans or lower a balance of the pawn shop.  Then the total loan and the
    total collateral are the sums over the running loans and what the events of
    liquidations wrote off; of every asset the pawn shop holds at least the collateral
    that the loans lock; and where a collateral is asked of every loan, only a loan in
    liquidation can be without. *)
Theorem books_balance s0 s :
  loan_start s0 -> rtc loan_step s0 s ->
  TotalLoan (lst s) = total_of loan_balance_total (Loans (lst s)) + (written s).1 /\
  TotalCollateral (lst s) = total_of collateral_balance_available (Loans (lst s)) + (written s).2 /\
  (forall a, locked a (lst s) <= balance_of a (PawnShop (lst s)) s) /\
  (forall id l, Loans (lst s) !! id = Some l -> loan_id l = id /\ id < NextLoanId (lst s) /\
     (0 < MinimumCollateral (lst s) -> id ∉ liquidating_loans (lst s) -> 0 < collateral_balance_available l)).
Proof.
  intros Hs Hrun. destruct (loan_steps_inv _ _ Hs Hrun) as [_ Hb Hk _].
  split_and!; [apply Hb|apply Hb|done|].
  intros id l Hl. destruct (bo_loan _ _ Hb _ _ Hl) as (? & ? & _). split_and!; [done..|].
  by apply (bo_positive _ _ Hb).
Qed.

(** C22: a borrower can get the collateral back: in every state that the runs of
    [books_balance] reach (in the build that checks for overflow, no call of the pawn
    shop, blocks only while every package locks the current collateral asset), whatever
    blocks and liquidations came before, if the pallet runs and both assets of the loan
    are transferable, the owner of a loan that is not in liquidation and holds its amount
    repays it: the loan is gone, its amount burnt and its collateral returned in full. *)
Theorem borrower_can_repay s0 s id l :
  let st := lst s in let pkg := loan_package (package_id l) st in
  let la := loan_asset_id pkg in let ca := collateral_asset_id pkg in
  loan_start s0 -> rtc loan_step s0 s -> Loans st !! id = Some l ->
  id ∉ liquidating_loans st -> LoanPaused st = false ->
  loan_balance_total l <= balance_of la (loan_who l) s ->
  transferable la s = true -> transferable ca s = true ->
  exists s', repay (E:=E) (Signed (loan_who l)) id s = Ok tt s' /\
    Loans (lst s') = delete id (Loans st) /\
    issuance_of la s' = issuance_of la s - loan_balance_total l /\
    forall a w, balance_of a w s' = balance_of a w s
      + at_account la (loan_who l) (- loan_balance_total l) a w
      + at_account ca (loan_who l) (collateral_balance_available l) a w
      - at_account ca (PawnShop st) (collateral_balance_available l) a w.
Proof.
  intros st pkg la ca Hs Hrun Hl Hliq Hp Hb Ht1 Ht2.
  pose proof (loan_steps_inv _ _ Hs Hrun) as Hi. pose proof (li_books _ Hi) as Hbooks.
  pose proof (bo_loan _ _ Hbooks _ _ Hl) as (Hid & _ & _ & _ & Hpkg).
  assert (repayable (loan_who l) id s) as Hcan.
  { pose proof (get_loan_Some _ _ _ Hl) as Hg. unfold st in Hg. unfold repayable; cbv zeta.
    rewrite Hg. split_and!; try done. by apply (repay_change_ready id). }
  assert (wp (repay (E:=E) (Signed (loan_who l)) id)
    (fun _ s' => repay_done (E:=E) (loan_who l) id s s') (fun _ _ => False) False s) as Hwp.
  { unfold repay, when_running. do 4 wp_step; [|unfold st in Hp; by rewrite Hp in *].
    do 2 wp_step; [|by match goal with Ho : forall who, _ <> Signed who |- _ => destruct (Ho (loan_who l)) end].
    match goal with Hw : Signed _ = Signed _ |- _ => injection Hw as <- end.
    eapply wp_mono; [apply (repay_ready Hforeign (loan_who l) id s Hi)|done| |done].
    intros e s' [Hn _]. done. }
  destruct (repay (E:=E) (Signed (loan_who l)) id s) as [[] s'|e s'|] eqn:Hr;
    [|by eapply wp_Err in Hwp|by eapply wp_Panic in Hwp].
  eapply wp_Ok in Hwp as [_ He]; [|exact Hr]. pose proof (get_loan_Some _ _ _ Hl) as Hg.
  unfold st in Hg. rewrite !Hg in He. exists s'. split_and!; [done| | |].
  - rewrite (be_store _ _ _ _ _ _ He). unfold st_repay; fields. by rewrite Hid.
  - rewrite (be_issuance _ _ _ _ _ _ He). unfold at_asset. rewrite decide_True by done. lia.
  - intros a w. rewrite (be_balance _ _ _ _ _ _ He). unfold repay_change, Client.plus, move.
    fold st pkg la ca. lia.
Qed.
End runs.
