(* ===== verification/LoanSafety.v ===== *)
(** * Loans: the block is the reference, and when it does not halt the chain

    In every reachable state the hook at the start of a block does to every loan what
    the reference [age] says, and it panics exactly when some loan does not age;
    bounds on the numbers and on the rates that keep it from panicking. *)
From S2P Require Export LoanRuns.
From stdpp Require Import relations.
#[local] Open Scope Z_scope.
Import RioLoan.

(** A penalty at the rate [R] and an interest at the rate [N], both of the amount [x],
    against the collateral [c] at the price [q]. *)
Lemma fee_arith (q IP c x R N W pen int i : Z) :
  0 < q -> 0 < IP -> 0 < c -> 0 <= R -> 0 <= N -> 0 <= x -> q * pen <= x * R -> IP * i <= x * N ->
  q * int <= i * 10000 -> x * (10000 * 10000) < W * (c * q) ->
  W * (R * IP + 10000 * N) <= 10000 * 10000 * IP -> pen + int < c.
Proof.
  intros Hq HIP Hc HR HN Hx H1 H2 H3 Hv Hb. apply Z.nle_gt. intros Hge.
  set (K := R * IP + 10000 * N) in *.
  assert (0 <= K) as HK by (unfold K; assert (0 <= R * IP) by (apply Z.mul_nonneg_nonneg; lia); lia).
  assert (0 < c * q) as Hcq by (by apply Z.mul_pos_pos).
  assert (0 < IP * (c * q)) by (by apply Z.mul_pos_pos).
  assert (IP * (c * q) <= x * K) as Hle.
  { apply (Z.mul_le_mono_nonneg_l _ _ IP) in H1; [|lia]. apply (Z.mul_le_mono_nonneg_l _ _ IP) in H3; [|lia].
    apply (Z.mul_le_mono_nonneg_r _ _ (IP * q)) in Hge; [|apply Z.mul_nonneg_nonneg; lia]. unfold K. lia. }
  destruct (decide (K = 0)) as [Hz|Hnz]; [rewrite Hz in Hle; lia|].
  apply (Zmult_lt_compat_r _ _ K) in Hv; [|lia].
  apply (Z.mul_le_mono_nonneg_l _ _ (c * q)) in Hb; lia.
Qed.

(** ** A loan whose numbers fit ages *)
Section fits.
Context `{!Overflow}.
Implicit Types (st : LoanStore) (l : Loan).

(** The rates of an expiration against the threshold under which a loan expires: the
    fee of a loan of that value stays under its collateral. *)
Definition expiration_rate st p : Z :=
  PenaltyRate st * INTEREST_RATE_PREC + PRICE_PREC * (terms p * 24 * interest_rate_hourly p).
Definition rates_bounded st p : Prop :=
  GlobalWarningThreshold st * expiration_rate st p <= prec * INTEREST_RATE_PREC.

Record value_fits st l : Prop := {
  vf_total : 0 <= loan_balance_total l;
  vf_amount : loan_balance_total l * prec < 2 ^ balance_bits;
  vf_worth : collateral_balance_available l * CurrentBTCPrice st < 2 ^ balance_bits;
  vf_ltv : loan_balance_total l * prec < 2 ^ ltv_bits * CurrentBTCPrice st;
}.
Record expiration_fits (now : Moment) st l : Prop := {
  ef_rate : 0 <= PenaltyRate st;
  ef_penalty : loan_balance_total l * PRICE_PREC * PenaltyRate st < 2 ^ balance_bits;
  ef_interest : interest_fits (loan_package (package_id l) st) (loan_balance_total l);
  ef_value : interest_of (loan_package (package_id l) st) (loan_balance_total l) * PRICE_PREC < 2 ^ balance_bits;
  ef_dues : dues_fit (loan_package (package_id l) st) now;
  ef_bounded : rates_bounded st (loan_package (package_id l) st);
}.
Definition age_fits (now : Moment) st l : Prop :=
  value_fits st l /\ (due_extend l <= now -> expiration_fits now st l).

Lemma get_ltv_fits c l st :
  value_fits st l -> 0 < CurrentBTCPrice st -> 0 < c <= collateral_balance_available l ->
  get_ltv c (loan_balance_total l) (CurrentBTCPrice st)
    = Some (ltv_of c (loan_balance_total l) (CurrentBTCPrice st)).
Proof.
  intros [] Hp [Hc Hle]. set (x := loan_balance_total l) in *. set (p := CurrentBTCPrice st) in *.
  assert (c * p < 2 ^ balance_bits) as Hcp
    by (eapply Z.le_lt_trans; [by apply Z.mul_le_mono_nonneg_r; [lia|exact Hle]|done]).
  rewrite get_ltv_ok by done. assert (0 < c * p) by (by apply Z.mul_pos_pos).
  assert (0 <= x * prec) by (apply Z.mul_nonneg_nonneg; [done|by vm_compute]).
  unfold checked. rewrite decide_True; [done|]. unfold ltv_of. split; [by apply Z.div_pos|].
  apply Z.div_lt_upper_bound; [done|]. eapply Z.lt_le_trans; [exact vf_ltv0|].
  rewrite Z.mul_comm. apply Z.mul_le_mono_nonneg_r; [by vm_compute|]. nia.
Qed.

(** The fee of an expiration, as numbers. *)
Definition penalty_num st l : Balance :=
  loan_balance_total l * PRICE_PREC * PenaltyRate st / LTV_PREC / CurrentBTCPrice st.
Definition interest_num st l : Balance :=
  interest_of (loan_package (package_id l) st) (loan_balance_total l) * PRICE_PREC / CurrentBTCPrice st.

Lemma penalty_fits now st l :
  value_fits st l -> expiration_fits now st l -> 0 < CurrentBTCPrice st ->
  expiration_penalty l (PenaltyRate st) (CurrentBTCPrice st) = Some (penalty_num st l).
Proof.
  intros [] [] Hp. unfold expiration_penalty, penalty_num. set (x := loan_balance_total l) in *.
  unfold prec, PRICE_PREC, LTV_PREC in *.
  rewrite umul_ok by (unfold in_width; lia). cbn [mbind option_bind].
  rewrite umul_ok. { cbn [mbind option_bind]. rewrite udiv_ok by done. cbn [mbind option_bind]. by rewrite udiv_ok by lia. }
  split; [|done]. apply Z.mul_nonneg_nonneg; lia.
Qed.
Lemma interest_num_fits now st l :
  expiration_fits now st l -> 0 < CurrentBTCPrice st ->
  expiration_interest l (loan_package (package_id l) st) (CurrentBTCPrice st) = Some (interest_num st l).
Proof.
  intros [] Hp. unfold expiration_interest, interest_num.
  set (pkg := loan_package (package_id l) st) in *. set (x := loan_balance_total l) in *.
  pose proof (get_interest_owp pkg x (or_intror ef_interest0)) as Hi. unfold owp in Hi.
  destruct (get_interest pkg x) as [i|]; [|by destruct Hi]. destruct Hi as [-> Hi].
  cbn [mbind option_bind]. rewrite umul_ok; [cbn [mbind option_bind]; by rewrite udiv_ok by lia|].
  split; [|done]. by apply Z.mul_nonneg_nonneg.
Qed.

(** Below the warning threshold the fee stays under the collateral. *)
Lemma fee_under now st l :
  let c := collateral_balance_available l in
  value_fits st l -> expiration_fits now st l -> 0 < CurrentBTCPrice st -> 0 < c ->
  ltv_of c (loan_balance_total l) (CurrentBTCPrice st) < GlobalWarningThreshold st ->
  0 <= penalty_num st l /\ 0 <= interest_num st l /\ penalty_num st l + interest_num st l < c.
Proof.
  intros c [] [] Hp Hc Hltv. unfold rates_bounded, expiration_rate, penalty_num, interest_num, interest_of in *.
  set (x := loan_balance_total l) in *. set (q := CurrentBTCPrice st) in *.
  set (R := PenaltyRate st) in *. set (W := GlobalWarningThreshold st) in *.
  destruct ef_interest0 as (_ & Ht & Hh & _).
  set (pkg := loan_package (package_id l) st) in *.
  assert (x * terms pkg * 24 * interest_rate_hourly pkg = x * (terms pkg * 24 * interest_rate_hourly pkg)) as -> by lia.
  assert (0 <= terms pkg * 24 * interest_rate_hourly pkg) as HN by (repeat apply Z.mul_nonneg_nonneg; lia).
  set (N := terms pkg * 24 * interest_rate_hourly pkg) in *.
  assert (x * prec < W * (c * q)) as Hv.
  { replace W with ((W - 1) + 1) by lia. apply ltv_le_iff; [done|done|lia]. }
  assert (0 < INTEREST_RATE_PREC) as HIP by done.
  set (IP := INTEREST_RATE_PREC) in *. unfold prec, LTV_PREC, PRICE_PREC in *.
  rewrite Z.mul_shuffle0, Z.div_mul by done.
  pose proof (Z.mul_div_le (x * R) q Hp) as H1.
  pose proof (Z.mul_div_le (x * N) IP HIP) as H2.
  pose proof (Z.mul_div_le (x * N / IP * 10000) q Hp) as H3.
  assert (0 <= x * R) by (by apply Z.mul_nonneg_nonneg).
  assert (0 <= x * N / IP) by (apply Z.div_pos; [by apply Z.mul_nonneg_nonneg|done]).
  split_and!; [by apply Z.div_pos|apply Z.div_pos; lia|].
  set (pen := x * R / q) in *. set (i := x * N / IP) in *. set (int := i * 10000 / q) in *.
  by apply (fee_arith q IP c x R N W pen int i).
Qed.

Lemma expire_fits now id st l :
  let c := collateral_balance_available l in
  value_fits st l -> expiration_fits now st l -> 0 < CurrentBTCPrice st -> 0 < c ->
  ltv_of c (loan_balance_total l) (CurrentBTCPrice st) < GlobalWarningThreshold st ->
  is_Some (expire now id st l).
Proof.
  intros c Hv He Hp Hc Hltv. destruct (fee_under now st l Hv He Hp Hc Hltv) as (H1 & H2 & H3). fold c in H3.
  assert (c < 2 ^ balance_bits) as Hcw by (pose proof (vf_worth _ _ Hv) as Hw; fold c in Hw; nia).
  unfold expire. rewrite (penalty_fits now), (interest_num_fits now) by done. cbn [mbind option_bind].
  unfold expire_then_update. rewrite uadd_ok by (unfold in_width; lia). cbn [mbind option_bind].
  pose proof (get_dues_owp (loan_package (package_id l) st) now (or_intror (ef_dues _ _ _ He))) as Hd.
  unfold owp in Hd. destruct (get_dues _ now) as [d|]; [|by destruct Hd; apply He]. clear Hd.
  unfold checked_sub, checked. fold c. rewrite (decide_True (P := in_width _ _)) by (unfold in_width; lia).
  cbn [mbind option_bind mret option_ret]. fields. rewrite get_ltv_fits by (done || lia).
  cbn [mbind option_bind]. by repeat case_decide.
Qed.

(** A loan with collateral ages. *)
Lemma age_fits_ages now id st l :
  0 < CurrentBTCPrice st ->
  (id ∉ liquidating_loans st -> age_fits now st l /\ 0 < collateral_balance_available l) ->
  is_Some (age now id st l).
Proof.
  intros Hp Hc. unfold age, check_loan_in_liquidation. case_bool_decide as Hin; [done|].
  destruct (Hc Hin) as [[Hv He] Hpos]. unfold check_loan_health. rewrite (get_ltv_fits _ _ _ Hv Hp) by (done || lia).
  cbn [mbind option_bind mret option_ret]. case_decide as Hl; [done|]. case_decide as Hw; [done|].
  case_decide as Hx; [|by case_decide].
  apply expire_fits; [done|by apply He|done..|lia].
Qed.
End fits.

(** ** The block, in every reachable state *)
Section safety.
Context {S E : Type} `{!Overflow, !Store S (Frame E), !Store S LoanStore, !Inject LoanEvent E}.
Context `{!Separate S (Frame E) LoanStore}.
Context `{!Ledger S, !LedgerEvents E, !LedgerSpec S E, !EventLog LoanEvent E}.
Context (Hforeign : foreign LoanStore _) (Hchecks : overflow_checks = true).
Implicit Types (s : S) (st : LoanStore).
#[local] Abbreviation lst := (sget (T:=LoanStore)).
#[local] Abbreviation fr := (sget (T:=Frame E)).
#[local] Abbreviation inv := (loan_inv (E:=E)).
#[local] Abbreviation fee_of := (fee_of (E:=E)).
#[local] Abbreviation all_fees s := (map_sum (fun k _ => fee_of s k) (Loans (lst s))).

Definition loans_age s : Prop :=
  forall k l, Loans (lst s) !! k = Some l -> is_Some (age (now (fr s)) k (lst s) l).

Lemma fee_of_nonneg s k : inv s -> 0 <= fee_of s k.
Proof.
  intros Hi. unfold LoanRuns.fee_of, aged_of. destruct (Loans (lst s) !! k) as [l|]; [cbn|done].
  destruct (age _ k _ l) as [a|] eqn:Ha; [cbn|done]. unfold aged_fee.
  apply age_fees_nonneg in Ha as [? ?]; [lia|apply (li_books _ Hi)].
Qed.
(** No loan pays more than its collateral, so that the fees fit. *)
Lemma all_fees_width s : inv s -> loans_age s -> in_width balance_bits (all_fees s).
Proof.
  intros Hi Hage. pose proof (li_books _ Hi) as Hb. split.
  - apply map_sum_nonneg. intros. by apply fee_of_nonneg.
  - destruct (bo_collateral_width _ _ Hb) as [_ Hw]. rewrite (bo_collateral _ _ Hb) in Hw.
    destruct (bo_written _ _ Hb) as [_ Hw2].
    enough (0 <= total_of collateral_balance_available (Loans (lst s)) - all_fees s) by lia.
    unfold total_of. rewrite <-map_sum_minus. apply map_sum_nonneg. intros k l Hl.
    destruct (Hage k l Hl) as [a Ha].
    assert (fee_of s k = aged_fee a) as -> by (unfold LoanRuns.fee_of, aged_of; rewrite Hl; cbn; by rewrite Ha).
    eapply age_ages in Ha as (Hto & Hc & _); [|done|by apply (collateral_width s Hi k)|apply Hb].
    rewrite (at_collateral _ _ Hto) in Hc. lia.
Qed.
Lemma loans_age_all enumerate s :
  inv s -> enumerates enumerate s -> all_age s (enumerate (Loans (lst s))) <-> loans_age s.
Proof.
  intros Hi Hen. pose proof Hen as [_ Hids]. split.
  - intros [Hall _] k l Hl. destruct (Hall k) as [a Ha]; [apply Hids; by exists l|].
    unfold aged_of in Ha. rewrite Hl in Ha. by exists a.
  - intros Hage. split; [intros k [l Hl]%Hids; unfold aged_of; rewrite Hl; by apply Hage|].
    rewrite (block_fee_sum s _ Hen). by apply all_fees_width.
Qed.

(** C23: the block does to every loan what the reference says of it alone: in every
    state of the running pallet that the runs of [books_balance] reach, in the build that
    checks for overflow, whatever the order in which the storage enumerates the loans,
    the hook at the start of the block panics exactly when some loan does not age;
    otherwise every loan is the aged one and the loans that enter liquidation join those
    that are in it.  The fees of all loans leave the pawn shop for the profit pool and
    the total collateral, unless there are none or the ledger refuses the transfer:
    then the loans have paid all the same and no balance and no total moves. *)
Theorem block_ages_loans s0 s enumerate :
  loan_start (E:=E) s0 -> rtc (loan_step (E:=E)) s0 s -> enumerates enumerate s ->
  LoanPaused (lst s) = false ->
  (loans_age s -> exists s' d, on_initialize (E:=E) enumerate s = Ok tt s' /\
     Loans (lst s') = block_loans (E:=E) s /\
     (forall k, k ∈ liquidating_loans (lst s') <->
        k ∈ liquidating_loans (lst s) \/ liquidates (E:=E) s k = true) /\
     (forall a w, balance_of a w s' = balance_of a w s + d a w) /\
     fees_paid (all_fees s) (lst s) d (TotalCollateral (lst s')) s) /\
  (~ loans_age s -> on_initialize (E:=E) enumerate s = Panic).
Proof.
  intros Hs Hrun Hen Hp. pose proof (loan_steps_inv Hforeign Hchecks _ _ Hs Hrun) as Hi.
  pose proof (on_initialize_wp Hforeign Hchecks enumerate s Hi Hen) as Hwp.
  pose proof (loans_age_all enumerate s Hi Hen) as Hage. pose proof Hen as [_ Hids].
  destruct (on_initialize enumerate s) as [[] s'|e s'|] eqn:Hr.
  - destruct (wp_Ok _ _ _ _ _ _ _ Hwp Hr) as [[Hpaused _]|(_ & Hall & [HL HQ _ (d & evs & _ & He & Hpaid)])];
      [congruence|]. split; [intros _|intros []; by apply Hage].
    exists s', d. rewrite <-(block_fee_sum s _ Hen).
    split; [done|]. split; [done|]. split; [|split; [apply He|done]]. intros k. rewrite (elem_of_push_all _ _ _ _ HQ).
    rewrite list_elem_of_filter, Hids. split; [tauto|]. intros [Hk|Hk]; [by left|right]. split; [done|].
    unfold liquidates, aged_of in Hk. by destruct (Loans (lst s) !! k).
  - by destruct (wp_Err _ _ _ _ _ _ _ Hwp Hr).
  - destruct (wp_Panic _ _ _ _ _ Hwp Hr) as [_ Hno]. split; [|done]. by intros Hl%Hage.
Qed.

(** A price of 0 divides by zero. *)
Lemma age_price_zero now k st l :
  CurrentBTCPrice st = 0 -> k ∉ liquidating_loans st -> age now k st l = None.
Proof.
  intros Hz Hk. unfold age, check_loan_in_liquidation. rewrite bool_decide_false by done.
  unfold check_loan_health, get_ltv. rewrite Hz.
  destruct (umul _ (loan_balance_total l) _) as [b|]; [cbn|done].
  destruct (umul _ b _) as [b'|]; [cbn|done].
  destruct (umul _ (collateral_balance_available l) 0) as [d|] eqn:Hd; [cbn|done].
  rewrite umul_ok in Hd by (rewrite Z.mul_0_r; by vm_compute). rewrite Z.mul_0_r in Hd.
  by injection Hd as <-.
Qed.

(** C24: blocks do not halt the chain: in every state that the runs of [books_balance]
    reach, in the build that checks for overflow, where a collateral is asked of every
    loan, the current price is positive, the numbers of the loans out of liquidation fit,
    and the rates of an expiration are bounded by the warning threshold, the hook at the
    start of the block returns.  Where the price is 0, which can be reported, it panics
    for any loan out of liquidation while the pallet runs, whatever the numbers. *)
Theorem block_returns s0 s enumerate :
  loan_start (E:=E) s0 -> rtc (loan_step (E:=E)) s0 s -> enumerates enumerate s ->
  (0 < MinimumCollateral (lst s) -> 0 < CurrentBTCPrice (lst s) ->
   (forall k l, Loans (lst s) !! k = Some l -> k ∉ liquidating_loans (lst s) ->
      age_fits (now (fr s)) (lst s) l) ->
   exists s', on_initialize (E:=E) enumerate s = Ok tt s') /\
  (forall k l, CurrentBTCPrice (lst s) = 0 -> LoanPaused (lst s) = false ->
     Loans (lst s) !! k = Some l -> k ∉ liquidating_loans (lst s) ->
     on_initialize (E:=E) enumerate s = Panic).
Proof.
  intros Hs Hrun Hen. pose proof (loan_steps_inv Hforeign Hchecks _ _ Hs Hrun) as Hi.
  pose proof (li_books _ Hi) as Hb.
  pose proof (on_initialize_wp Hforeign Hchecks enumerate s Hi Hen) as Hwp. split.
  - intros Hmin Hp Hfits.
    destruct (on_initialize enumerate s) as [[] s'|e s'|] eqn:Hr; [by exists s'|by destruct (wp_Err _ _ _ _ _ _ _ Hwp Hr)|].
    destruct (wp_Panic _ _ _ _ _ Hwp Hr) as [_ Hno]. destruct Hno. apply loans_age_all; [done..|].
    intros k l Hl. apply age_fits_ages; [done|]. intros Hk. split; [by eapply Hfits|].
    by apply (bo_positive _ _ Hb _ _ Hl).
  - intros k l Hz Hrunning Hl Hk.
    assert (~ all_age s (enumerate (Loans (lst s)))) as Hno.
    { rewrite loans_age_all by done. intros Hage. destruct (Hage k l Hl) as [a Ha].
      by rewrite age_price_zero in Ha. }
    destruct (on_initialize enumerate s) as [[] s'|e s'|] eqn:Hr; [|by destruct (wp_Err _ _ _ _ _ _ _ Hwp Hr)|done].
    destruct (wp_Ok _ _ _ _ _ _ _ Hwp Hr) as [[? _]|(_ & ? & _)]; [congruence|done].
Qed.
End safety.
