(* ===== verification/LoanContracts.v ===== *)
(** * Loans: the contracts of the calls and the health of a loan *)
From S2P Require Export LoanSafety.
From stdpp Require Import relations.
#[local] Open Scope Z_scope.
Import RioLoan.

(** ** The health of a loan *)
Section health.
Context `{!Overflow}.

(** The numbers of the loan to value fit. *)
Definition ltv_fits (c x : Balance) (price : BTCPrice) : Prop :=
  0 <= x /\ 0 < c /\ 0 < price /\ x * prec < 2 ^ balance_bits /\ c * price < 2 ^ balance_bits /\
  ltv_of c x price < 2 ^ ltv_bits.

(** What each health says, given the loan to value [v]. *)
Definition health_means (l : Loan) (now : Moment) (liquidation warning v : LTV) (h : LoanHealth)
    : Prop :=
  match h with
  | Liquidating v' => v' = v /\ liquidation <= v
  | Warning v' => v' = v /\ warning <= v < liquidation
  | Expired => v < liquidation /\ v < warning /\ due_extend l <= now
  | Extended => v < liquidation /\ v < warning /\ due l <= now < due_extend l
  | Well => v < liquidation /\ v < warning /\ now < due l /\ now < due_extend l
  end.

(** The health of a loan is the one that its loan to value and its dates say:
    where the numbers fit it is computed without a panic, and a health is computed
    exactly when it is the right one. *)
Theorem health_classified (l : Loan) now price liquidation warning :
  let c := collateral_balance_available l in let x := loan_balance_total l in
  ltv_fits c x price ->
  exists h, check_loan_health l now price liquidation warning = Some h /\
    forall h', health_means l now liquidation warning (ltv_of c x price) h' <-> h' = h.
Proof.
  intros c x (Hx & Hc & Hp & Hw1 & Hw2 & Hv). unfold check_loan_health. fold c x.
  rewrite get_ltv_ok by done.
  assert (0 <= ltv_of c x price).
  { apply Z.div_pos; [apply Z.mul_nonneg_nonneg; [done|by vm_compute]|by apply Z.mul_pos_pos]. }
  unfold checked. rewrite (decide_True (P := in_width _ _)) by (by split). cbn [mbind option_bind mret option_ret].
  eexists; split; [done|]. set (v := ltv_of c x price) in *.
  intros h'. split.
  - destruct h'; cbn; intros Hh; repeat case_decide; try lia; destruct_and?; subst; try done; lia.
  - intros ->. repeat case_decide; cbn; lia.
Qed.
End health.

Section contracts.
Context {S E : Type} `{!Overflow, !Store S (Frame E), !Store S LoanStore, !Inject LoanEvent E}.
Context `{!Separate S (Frame E) LoanStore}.
Context `{!Ledger S, !LedgerEvents E, !LedgerSpec S E, !EventLog LoanEvent E}.
Context (Hforeign : foreign LoanStore _).
Implicit Types (s : S) (st : LoanStore) (who : AccountId) (loan : Loan).
#[local] Abbreviation lst := (sget (T:=LoanStore)).
#[local] Abbreviation fr := (sget (T:=Frame E)).





(** Repaying a loan right after it was granted undoes it, up to the interest:
    the collateral is back, what was minted is burnt, the loans and the totals are
    those from before; only the interest moved, from the borrower to the profit
    pool. *)
Theorem apply_repay_round_trip who pid c x s s1 s2 :
  let pkg := active_package pid (lst s) in let la := loan_asset_id pkg in
  overflow_checks = true -> loan_inv (E:=E) s -> who <> PawnShop (lst s) ->
  in_width balance_bits c -> in_width balance_bits x ->
  apply_for_loan (E:=E) who pid c x s = Ok tt s1 ->
  repay_loan (E:=E) who (NextLoanId (lst s)) s1 = Ok tt s2 ->
  Loans (lst s2) = Loans (lst s) /\ TotalLoan (lst s2) = TotalLoan (lst s) /\
  TotalCollateral (lst s2) = TotalCollateral (lst s) /\
  (forall a, issuance_of a s2 = issuance_of a s) /\
  exists interest, 0 <= interest /\
    forall a w, balance_of a w s2 = balance_of a w s
      + at_account la (ProfitPool (lst s)) interest a w - at_account la who interest a w.
Proof.
  intros pkg la Hchecks Hi Hwho Hc Hx H1 H2. set (st := lst s) in *. set (id := NextLoanId st) in *.
  pose proof (wp_Ok _ _ _ _ _ _ _ (apply_ready Hforeign Hchecks who pid c x s Hi Hc Hx) H1) as Hd1.
  pose proof (apply_inv _ _ _ _ _ _ Hi Hwho Hd1) as Hi1.
  destruct (wp_Ok _ _ _ _ _ _ _ (repay_ready Hforeign who id s1 Hi1) H2) as [_ E2].
  destruct Hd1 as (cl & _ & [p Hp] & _ & _ & _ & [Hint _] & _ & _ & _ & E1).
  fold st pkg la in E1, Hint. set (loan := new_loan who pid (now (fr s)) cl st) in *.
  pose proof (bo_active _ _ (li_books _ Hi) _ _ Hp) as Hp'. fold st in Hp'.
  assert (Loans st !! id = None) as Hfresh.
  { destruct (Loans st !! id) as [l|] eqn:Hl; [|done].
    destruct (bo_loan _ _ (li_books _ Hi) _ _ Hl) as (_ & Hlt & _). by destruct (Z.lt_irrefl id). }
  rewrite (be_store _ _ _ _ _ _ E1) in E2.
  assert (get_loan_by_id id (st_apply who loan (interest_of pkg (cl_loan_amount cl)) st) = loan) as Hg.
  { apply get_loan_Some. unfold st_apply; fields. by rewrite lookup_insert_eq. }
  rewrite !Hg in E2.
  assert (loan_package (package_id loan) (st_apply who loan (interest_of pkg (cl_loan_amount cl)) st)
    = pkg) as Hpkg.
  { unfold pkg, active_package, loan_package, get_or, st_apply; fields.
    change (package_id loan) with pid. fold st in Hp. by rewrite Hp, Hp'. }
  rewrite !Hpkg in E2. fold la in E2.
  rewrite (be_store _ _ _ _ _ _ E2). unfold st_repay, st_apply; fields.
  split_and!; [by apply delete_insert_id|lia|lia|intros a|].
  - rewrite (be_issuance _ _ _ _ _ _ E2), (be_issuance _ _ _ _ _ _ E1). unfold at_asset.
    change (loan_balance_total loan) with (cl_loan_amount cl). case_decide; lia.
  - exists (interest_of pkg (cl_loan_amount cl)). split; [done|]. intros a w.
    rewrite (be_balance _ _ _ _ _ _ E2), (be_balance _ _ _ _ _ _ E1).
    unfold repay_change, apply_change, Client.plus, move. fold la.
    change (loan_balance_total loan) with (cl_loan_amount cl).
    change (collateral_balance_available loan) with (cl_collateral_amount cl).
    change (PawnShop (st_apply who loan (interest_of pkg (cl_loan_amount cl)) st)) with (PawnShop st).
    unfold at_account. repeat case_decide; lia.
Qed.

(** ** Behaviour to note *)

(** The setters of the two thresholds are swapped: root setting the liquidation
    threshold changes the warning threshold and nothing else, and conversely. *)
Theorem thresholds_swapped t s :
  (exists s', set_global_liquidation_threshold Root t s = Ok tt s' /\
     lst s' = (lst s) <| GlobalWarningThreshold := t |>) /\
  (exists s', set_global_warning_threshold Root t s = Ok tt s' /\
     lst s' = (lst s) <| GlobalLiquidationThreshold := t |>).
Proof. split; eexists; (split; [reflexivity|by rewrite sget_sput]). Qed.

(** C29: marking a loan as liquidated removes it, from those in liquidation as well,
    and moves funds only: the total
    loan and the total collateral still count it, nothing is burnt, and it never
    succeeds when the auction brought less than the loan. *)
Theorem liquidation_keeps_totals loan account x s :
  ledger_inv s -> 0 <= loan_balance_total loan ->
  wp (mark_loan_liquidated (E:=E) loan account x)
    (fun _ s' => loan_balance_total loan <= x /\ loan_id loan ∈ liquidating_loans (lst s) /\
       liquidating_loans (lst s') = others (loan_id loan) (liquidating_loans (lst s)) /\
       Loans (lst s') = delete (loan_id loan) (Loans (lst s)) /\
       TotalLoan (lst s') = TotalLoan (lst s) /\
       TotalCollateral (lst s') = TotalCollateral (lst s) /\
       forall a, issuance_of a s' = issuance_of a s)
    (fun _ s' => lst s' = lst s /\ forall a, issuance_of a s' = issuance_of a s) True s.
Proof.
  intros Hi Ht. wp_apply (liquidated_wp Hforeign loan account x s Hi Ht); [| |done].
  - intros [] s' (Hx & Hin & d & e & _ & _ & He). split; [done|]. split; [done|].
    rewrite (be_store _ _ _ _ _ _ He). unfold st_liquidated; fields. split_and!; try done.
    intros a. rewrite (be_issuance _ _ _ _ _ _ He). unfold no_issue. lia.
  - intros e s' (d & _ & He). split; [apply He|].
    intros a. rewrite (be_issuance _ _ _ _ _ _ He). unfold no_issue. lia.
Qed.

(** A loan without collateral that is not in liquidation, among loans stored under
    their ids. *)
Record no_collateral id (ids : list LoanId) st : Prop := {
  nc_ids k l : Loans st !! k = Some l -> loan_id l = k;
  nc_dom k : k ∈ ids -> is_Some (Loans st !! k);
  nc_loan : exists l, Loans st !! id = Some l /\ collateral_balance_available l = 0;
  nc_free : id ∉ liquidating_loans st;
}.

Lemma no_collateral_insert id ids st k v :
  no_collateral id ids st -> k <> id -> loan_id v = k ->
  no_collateral id ids (st <| Loans ::= <[k := v]> |>).
Proof.
  intros [H1 H2 (l & Hl & Hc) H4] Hk Hv. split; fields.
  - intros k' l'. rewrite lookup_insert. case_decide; [by intros [= <-]; subst|by apply H1].
  - intros k' Hk'. rewrite lookup_insert. case_decide; [done|by apply H2].
  - exists l. by rewrite lookup_insert_ne.
  - done.
Qed.
Lemma no_collateral_liquidate id ids st k :
  no_collateral id ids st -> k <> id ->
  no_collateral id ids (st <| LiquidatingLoans := Some
    match LiquidatingLoans st with Some v => v ++ [k] | None => [k] end |>).
Proof.
  intros [H1 H2 H3 H4] Hk. split; fields; try done.
  unfold liquidating_loans in *; fields. cbn. destruct (LiquidatingLoans st) as [v|]; cbn in *.
  - intros [?|?%list_elem_of_singleton]%elem_of_app; [done|by subst].
  - intros ?%list_elem_of_singleton. by subst.
Qed.

Lemma liquidate_keeps id ids k v s :
  no_collateral id ids (lst s) -> k <> id -> loan_id (get_loan_by_id k (lst s)) = k ->
  wp (liquidate_loan k v) (fun _ s' => no_collateral id ids (lst s')) (fun _ _ => False) True s.
Proof.
  intros Hn Hk Hid. unfold liquidate_loan, mutate_loan. do 3 wp_step. store.
  assert (loan_id ((get_loan_by_id k (lst s)) <| loan_status := Liquidating v |>) = k) as Hv
    by (by fields).
  pose proof (no_collateral_insert _ _ _ _ _ Hn Hk Hv) as H1.
  pose proof (no_collateral_liquidate _ _ _ k H1 Hk) as H2. fields_in H2. exact H2.
Qed.
Lemma expire_keeps_id l p now a b l' :
  expire_then_update l p now a b = Some l' -> loan_id l' = loan_id l.
Proof.
  unfold expire_then_update. cbn. destruct (uadd balance_bits b a) as [fee|]; [|done]. cbn.
  destruct (get_dues p now) as [d|]; [|done]. cbn. intros [= <-]. fields.
  by case_match.
Qed.

Lemma each_loan_other now price lt wt acc id ids k l s :
  no_collateral id ids (lst s) -> k <> id -> Loans (lst s) !! k = Some l ->
  wp (each_loan (E:=E) now price lt wt acc k l) (fun _ s' => no_collateral id ids (lst s'))
    (fun _ _ => False) True s.
Proof.
  intros Hn Hk Hl. pose proof (nc_ids _ _ _ Hn _ _ Hl) as Hid. unfold each_loan.
  assert (loan_id (get_loan_by_id k (lst s)) = k) as Hid' by (by rewrite (get_loan_Some _ _ _ Hl)).
  do 2 wp_step. destruct (check_loan_in_liquidation k (lst s)); [by wp_step|].
  wp_step. apply wp_lift; split; [intros h _|done]. rewrite Hid. unfold mutate_loan.
  destruct h; try by wp_step.
  - wp_step. case_decide; repeat wp_step; store; [done|by apply no_collateral_insert].
  - wp_step. wp_apply (liquidate_keeps id ids k l0 s Hn Hk Hid'); [|done|done].
    intros [] s1 H1. repeat wp_step. by store.
  - wp_step. case_decide; repeat wp_step; store; [done|by apply no_collateral_insert].
  - do 2 wp_step. wp_step. apply wp_lift; split; [intros package _|done]. do 2 wp_step.
    wp_step. apply wp_lift; split; [intros penalty _|done].
    wp_step. apply wp_lift; split; [intros interest _|done].
    wp_step. apply wp_lift; split; [intros tp _|done].
    wp_step. apply wp_lift; split; [intros ti _|done].
    wp_step. apply wp_lift; split; [intros nl Hnl%expire_keeps_id|done].
    wp_step. apply wp_lift; split; [intros new_ltv _|done]. rewrite Hid in Hnl.
    wp_step. case_decide; [|case_decide].
    + do 2 wp_step. wp_step.
      wp_apply (liquidate_keeps id ids k new_ltv); [store; by apply no_collateral_insert|done| | |done|done].
      { store. unfold get_loan_by_id, get_or; fields. by rewrite lookup_insert_eq. }
      intros [] s1 H1. repeat wp_step. by store.
    + repeat wp_step. store. by apply no_collateral_insert.
    + repeat wp_step. store. by apply no_collateral_insert.
Qed.

Lemma each_loans_halt now price lt wt id ids all acc s :
  no_collateral id all (lst s) -> id ∈ ids -> (forall k, k ∈ ids -> k ∈ all) ->
  wp (each_loans (E:=E) now price lt wt acc ids) (fun _ _ => False) (fun _ _ => False) True s.
Proof.
  revert acc s. induction ids as [|k ids IH]; intros acc s Hn Hin Hall; [by apply not_elem_of_nil in Hin|].
  cbn [each_loans]. do 3 wp_step. destruct (nc_dom _ _ _ Hn k) as [l Hl]; [apply Hall; by left|].
  rewrite (get_loan_Some _ _ _ Hl). destruct (decide (k = id)) as [->|Hk].
  - destruct (nc_loan _ _ _ Hn) as (l' & Hl' & Hc). simplify_eq. unfold each_loan. do 2 wp_step.
    unfold check_loan_in_liquidation. rewrite bool_decide_false by apply (nc_free _ _ _ Hn).
    wp_step. unfold check_loan_health. by rewrite Hc, get_ltv_no_collateral.
  - wp_apply (each_loan_other now price lt wt acc id all k l s Hn Hk Hl); [|done|done].
    intros acc' s1 H1. apply IH; [done| |intros; apply Hall; by right].
    by apply elem_of_cons in Hin as [->|?].
Qed.

(** C26: a loan without collateral halts the chain: while it is not in liquidation
    and the pallet runs, the hook at the start of the block divides by zero and
    panics, whatever the order in which the loans are enumerated. *)
Theorem no_collateral_halts enumerate id l s :
  let st := lst s in
  (forall k, k ∈ enumerate (Loans st) <-> is_Some (Loans st !! k)) ->
  (forall k v, Loans st !! k = Some v -> loan_id v = k) ->
  Loans st !! id = Some l -> collateral_balance_available l = 0 ->
  id ∉ liquidating_loans st -> LoanPaused st = false ->
  on_initialize (E:=E) enumerate s = Panic.
Proof.
  intros st Henum Hids Hl Hc Hfree Hrun.
  assert (wp (on_initialize (E:=E) enumerate) (fun _ _ => False) (fun _ _ => False) True s) as Hwp.
  { unfold on_initialize. do 2 wp_step. fold st. rewrite Hrun. unfold on_each_block.
    do 17 wp_step.
    wp_apply (each_loans_halt (now (fr s)) (CurrentBTCPrice (lst s))
      (GlobalLiquidationThreshold (lst s)) (GlobalWarningThreshold (lst s)) id
      (enumerate (Loans st)) (enumerate (Loans st))); [| |done|done|done|done].
    - split; fold st; [done|by intros k ?%Henum|by exists l|done].
    - by apply Henum. }
  destruct (on_initialize enumerate s) as [[] s'|e s'|] eqn:Hrun'; [| |done].
  - by pose proof (wp_Ok _ _ _ _ _ _ _ Hwp Hrun').
  - by pose proof (wp_Err _ _ _ _ _ _ _ Hwp Hrun').
Qed.
End contracts.
