(* ===== verification/LoanWitness.v ===== *)
(** * Loans: a concrete chain on which the theorems are instantiated *)
From S2P Require Export LoanContracts.
From stdpp Require Import relations.
#[local] Open Scope Z_scope.

Module LoanDemo.
Export Demo.
Definition event : Type := (AssetsEvent + LoanEvent)%type.
Definition inject_assets : Inject AssetsEvent event := inl.
Definition inject_loan : Inject LoanEvent event := inr.
#[export] Existing Instances inject_assets inject_loan | 0.

#[export, program] Instance log : EventLog LoanEvent event := {|
  event_of e := match e with inl _ => None | inr b => Some b end |}.
Next Obligation. done. Qed.
Next Obligation. by intros e [ev ->]. Qed.

Definition chain : Type := (Frame event * (AssetsStore * (LoanStore * unit)))%type.
(** The collateral is SBTC, the asset 2 is lent; the price is 1, the loan to value
    at most 65 %, 80 % is a warning and 90 % a liquidation.  alice, who holds both
    assets, is also the liquidation account. *)
Definition lent : AssetId := 2.
Definition shop : AccountId := 30%N.
Definition pool : AccountId := 31%N.
Definition loans : LoanStore :=
  MkLoanStore shop pool SBTC lent 6500 9000 8000 0 ∅ ∅ 0 ∅ ∅ 10000 0 0 0 100 alice None None
    false 10 1000.
Definition ledger : AssetsStore := st_create lent alice [] options assets.
Definition start : chain := (frame, (ledger, (loans, tt))).

Lemma loan_separate : foreign (S:=chain) LoanStore _.
Proof. split; apply _. Defined.
Lemma checked_build : @overflow_checks checks = true.
Proof. reflexivity. Defined.
Lemma loan_start_ok : loan_start (E:=event) (S:=chain) start.
Proof.
  split; try by vm_compute. apply st_create_ok; [apply assets_ok|reflexivity|by vm_compute].
Defined.

#[local] Abbreviation run_ok m s := (match m s with Ok _ s' => s' | _ => start end).
(** Root offers a package; alice locks 400 of collateral and borrows 260, of which
    1 is interest. *)
Definition offered : chain :=
  run_ok (RioLoan.dispatch (E:=event) Root (RioLoan.CallCreatePackage 30 1000 1)) start.
Definition granted : chain :=
  run_ok (RioLoan.dispatch (E:=event) (Signed alice) (RioLoan.CallApply 400 0 0)) offered.
Definition repaid : chain := run_ok (RioLoan.repay_loan (E:=event) alice 0) granted.
(** The price falls to 0.7: the block liquidates the loan, and alice closes it. *)
Definition keys (m : gmap LoanId Loan) : list LoanId := (map_to_list m).*1.
Definition fallen : chain := run_ok (RioLoan.on_change 7000) granted.
Definition liquidating : chain := run_ok (RioLoan.on_initialize (E:=event) keys) fallen.
Definition closed : chain :=
  run_ok (RioLoan.dispatch (E:=event) (Signed alice) (RioLoan.CallMarkLiquidated 0 300)) liquidating.
(** The loan when it has expired. *)
Definition late : chain :=
  sput (MkFrame (events granted.1) 0 None (40 * 86400 * 1000) (sudo_key granted.1)) granted.
(** A loan of one unit on which no collateral is asked. *)
Definition unsecured : chain :=
  run_ok (RioLoan.dispatch (E:=event) (Signed alice) (RioLoan.CallApply 0 1 0))
    ((offered.1, (offered.2.1, (offered.2.2.1 <| CurrentBTCPrice := 20000 |> <| MinimumCollateral := 0 |>, tt)))).

Lemma offered_step :
  RioLoan.dispatch (E:=event) Root (RioLoan.CallCreatePackage 30 1000 1) start = Ok tt offered.
Proof. by vm_compute. Defined.
Lemma granted_step :
  RioLoan.dispatch (E:=event) (Signed alice) (RioLoan.CallApply 400 0 0) offered = Ok tt granted.
Proof. by vm_compute. Defined.
Lemma liquidating_step : RioLoan.on_initialize (E:=event) keys fallen = Ok tt liquidating.
Proof. by vm_compute. Defined.
Lemma closed_step :
  RioLoan.dispatch (E:=event) (Signed alice) (RioLoan.CallMarkLiquidated 0 300) liquidating = Ok tt closed.
Proof. by vm_compute. Defined.
Lemma keys_enumerate (s : chain) : enumerates keys s.
Proof. apply map_keys_complete. Defined.
End LoanDemo.

Section witnesses.
Import LoanDemo RioLoan.
#[local] Abbreviation lst := (sget (T:=LoanStore)).

Lemma granted_reachable : rtc (loan_step (E:=event)) LoanDemo.start granted.
Proof.
  eapply rtc_l; [|eapply rtc_once].
  - eapply (lstep_ok LoanDemo.start Root (CallCreatePackage 30 1000 1) offered);
      [done|done|exact offered_step].
  - eapply (lstep_ok offered (Signed alice) (CallApply 400 0 0) granted);
      [done| |exact granted_step]. by vm_compute.
Defined.

Lemma closed_reachable : rtc (loan_step (E:=event)) LoanDemo.start closed.
Proof.
  eapply rtc_r; [eapply rtc_r; [eapply rtc_r; [exact granted_reachable|]|]|].
  - by apply (lstep_price granted 7000 fallen).
  - apply (lstep_block fallen keys liquidating); [apply keys_enumerate| |exact liquidating_step].
    split; [by vm_compute|].
    assert (LoanPackages (lst fallen) = {[0 := loan_package 0 (lst fallen)]}) as -> by (by vm_compute).
    intros pid p [<- <-]%lookup_singleton_Some. clear. by vm_compute.
  - eapply (lstep_ok liquidating (Signed alice) (CallMarkLiquidated 0 300) closed);
      [by vm_compute|done|exact closed_step].
Defined.
Lemma late_reachable : rtc (loan_step (E:=event)) LoanDemo.start late.
Proof.
  eapply rtc_r; [exact granted_reachable|].
  exact (lstep_time granted 0 None (40 * 86400 * 1000)).
Defined.

Lemma books_balance_witness :
  Loans (lst closed) = ∅ /\ TotalLoan (lst closed) = 260 /\
  locked SBTC (lst closed) <= balance_of SBTC shop closed.
Proof.
  destruct (books_balance (E:=event) LoanDemo.loan_separate checked_build LoanDemo.start closed loan_start_ok
              closed_reachable) as (Ht & _ & Hb & _).
  split; [by vm_compute|]. rewrite Ht. split; [clear; by vm_compute|]. exact (Hb SBTC).
Defined.

Lemma late_loans : Loans (lst late) = {[0 := get_loan_by_id 0 (lst late)]}.
Proof. by vm_compute. Defined.
Lemma block_ages_loans_witness :
  exists s', on_initialize (E:=event) keys late = Ok tt s' /\
    Loans (lst s') = block_loans (E:=event) late /\
    collateral_balance_available (get_loan_by_id 0 (lst s')) = 397.
Proof.
  destruct (block_ages_loans (E:=event) LoanDemo.loan_separate checked_build LoanDemo.start late keys
              loan_start_ok late_reachable (keys_enumerate late)) as [Hages _]; [by vm_compute|].
  destruct Hages as (s' & d & Hr & Hl & _).
  { intros k l. rewrite late_loans. intros [<- <-]%lookup_singleton_Some. clear. vm_compute. by eexists. }
  exists s'. split; [exact Hr|]. split; [exact Hl|]. unfold get_loan_by_id. rewrite Hl. clear. by vm_compute.
Defined.
Lemma block_returns_witness : exists s', on_initialize (E:=event) keys late = Ok tt s'.
Proof.
  apply (block_returns (E:=event) LoanDemo.loan_separate checked_build LoanDemo.start late keys
           loan_start_ok late_reachable (keys_enumerate late)); [by vm_compute..|].
  intros k l. rewrite late_loans. intros [<- <-]%lookup_singleton_Some _. clear.
  split; [split; by vm_compute|intros _; split; by vm_compute].
Defined.

Definition alice_loan : Loan := get_loan_by_id 0 (lst granted).
Lemma alice_loan_stored : Loans (lst granted) !! 0 = Some alice_loan.
Proof. by vm_compute. Defined.

Lemma nothing_liquidating : 0 ∉ liquidating_loans (lst granted).
Proof.
  assert (liquidating_loans (lst granted) = []) as -> by (by vm_compute). apply not_elem_of_nil.
Defined.

Lemma borrower_can_repay_witness :
  exists s', repay (E:=event) (Signed (loan_who alice_loan)) 0 granted = Ok tt s' /\
    balance_of SBTC alice s' = 1000.
Proof.
  destruct (borrower_can_repay (E:=event) LoanDemo.loan_separate checked_build LoanDemo.start granted 0
              alice_loan loan_start_ok granted_reachable alice_loan_stored nothing_liquidating)
    as (s' & Hr & _ & _ & Hb); [by vm_compute..|].
  exists s'. split; [exact Hr|]. rewrite Hb. by vm_compute.
Defined.

Lemma granted_amounts_respect_limit_witness :
  wp (get_collateral_loan 400 0)
    (fun cl s' => s' = LoanDemo.start /\ ltv_of 400 (cl_loan_amount cl) 10000 <= 6500)
    (fun _ _ => False) False LoanDemo.start.
Proof.
  wp_apply (granted_amounts_respect_limit 400 0 LoanDemo.start);
    [by split|by split|by vm_compute| | |done].
  - intros cl s' (-> & _ & _ & H & _). split; [done|]. by apply H.
  - intros e s' (-> & [(Hc & _)|(_ & Hx & _)]); [discriminate Hc|by destruct Hx].
Defined.

Lemma health_classified_witness :
  check_loan_health alice_loan 5 10000 9000 8000 = Some Well.
Proof.
  destruct (health_classified alice_loan 5 10000 9000 8000) as (h & Hh & Hm); [by vm_compute|].
  rewrite Hh. f_equal. symmetry. apply Hm. clear. by vm_compute.
Defined.

Lemma offered_inv : loan_inv (E:=event) (S:=chain) offered.
Proof.
  apply (loan_steps_inv (E:=event) LoanDemo.loan_separate checked_build
    LoanDemo.start); [exact loan_start_ok|].
  eapply rtc_once, (lstep_ok LoanDemo.start Root (CallCreatePackage 30 1000 1) offered);
    [done|done|exact offered_step].
Defined.
Lemma granted_inv : loan_inv (E:=event) (S:=chain) granted.
Proof.
  exact (loan_steps_inv (E:=event) LoanDemo.loan_separate checked_build LoanDemo.start granted
    loan_start_ok granted_reachable).
Defined.





Lemma apply_repay_round_trip_witness :
  exists s1 s2, apply_for_loan (E:=event) alice 0 400 0 offered = Ok tt s1 /\
    repay_loan (E:=event) alice 0 s1 = Ok tt s2 /\
    Loans (lst s2) = ∅ /\ issuance_of lent s2 = 1000.
Proof.
  exists granted, repaid.
  assert (apply_for_loan (E:=event) alice 0 400 0 offered = Ok tt granted) as H1 by (by vm_compute).
  assert (repay_loan (E:=event) alice (NextLoanId (lst offered)) granted = Ok tt repaid) as H2
    by (by vm_compute).
  destruct (apply_repay_round_trip (E:=event) LoanDemo.loan_separate alice 0 400 0 offered granted repaid
              checked_build offered_inv) as (Hl & _ & _ & Hi & _);
    [by vm_compute|by split|by split|exact H1|exact H2|].
  split_and!; [exact H1|exact H2|by rewrite Hl|]. rewrite Hi. clear. by vm_compute.
Defined.

Lemma liquidating_ok : ledger_inv (S:=chain) liquidating.
Proof.
  assert (liquidating.2.1 = granted.2.1) as Ha by (by vm_compute).
  pose proof (li_ledger _ granted_inv) as Hi. unfold ledger_inv in *. cbn in *.
  change (ledger_ok liquidating.2.1). rewrite Ha. exact Hi.
Defined.
Lemma liquidation_keeps_totals_witness :
  wp (mark_loan_liquidated (E:=event) alice_loan alice 300)
    (fun _ s' => Loans (lst s') = delete 0 (Loans (lst liquidating)) /\ TotalLoan (lst s') = 260)
    (fun _ _ => True) True liquidating.
Proof.
  wp_apply (liquidation_keeps_totals (E:=event) LoanDemo.loan_separate alice_loan alice 300 liquidating);
    [exact liquidating_ok|by vm_compute| |done|done].
  intros [] s' (_ & _ & _ & Hl & Ht & _). split; [exact Hl|]. rewrite Ht. clear. by vm_compute.
Defined.

Lemma unsecured_loans : Loans (lst unsecured) = {[0 := get_loan_by_id 0 (lst unsecured)]}.
Proof. by vm_compute. Defined.
Lemma no_collateral_halts_witness :
  on_initialize (E:=event) keys unsecured = Panic.
Proof.
  apply (no_collateral_halts (E:=event) keys 0 (get_loan_by_id 0 (lst unsecured)) unsecured).
  - apply (keys_enumerate unsecured).
  - intros k v. rewrite unsecured_loans. intros [<- <-]%lookup_singleton_Some. clear. by vm_compute.
  - by vm_compute.
  - by vm_compute.
  - assert (liquidating_loans (lst unsecured) = []) as -> by (by vm_compute). apply not_elem_of_nil.
  - by vm_compute.
Defined.
End witnesses.
