(* ===== verification/LoanReplay.v ===== *)
(** * The unit tests of [rio-loan], replayed

    The tests of [rio-loan/src/tests.rs] as runs of the model on the genesis of
    [mock.rs]. *)
From S2P Require Export MockChain LoanWitness.
#[local] Open Scope Z_scope.

Module LoanReplay.
Import LoanDemo constants NoHooks.

Definition PAWN_SHOP : AccountId := 888%N.
Definition LIQUIDATION_ACCOUNT : AccountId := 8%N.
Definition new_test_ext : chain :=
  (mock_frame, (mock_assets,
    (MkLoanStore PAWN_SHOP PROFIT_POOL SBTC_ASSET_ID RIO_ASSET_ID 6500 9000 8000 1 ∅ ∅ 1 ∅ ∅
       80000000 0 0 0 200 LIQUIDATION_ACCOUNT None None false 20000000 1300, tt))).

#[local] Abbreviation test := (M chain unit).
#[local] Abbreviation loan f := (gets (S:=chain) (T:=LoanStore) f).
#[local] Abbreviation mint := (RioAssets.mint (S:=chain) (E:=event) Root).
#[local] Abbreviation create_package := (RioLoan.create_package (S:=chain) (E:=event)).
#[local] Abbreviation apply := (RioLoan.apply (S:=chain) (E:=event)).
#[local] Abbreviation draw := (RioLoan.draw (S:=chain) (E:=event)).
#[local] Abbreviation repay := (RioLoan.repay (S:=chain) (E:=event)).
Definition free_balance (a : AssetId) (who : AccountId) : M chain Balance := free_balance_of a who.
(** The default of a package that is not active. *)
Definition active_loan_packages (id : LoanPackageId) (st : LoanStore) : LoanPackage :=
  get_or LoanPackage_default (ActiveLoanPackages st) id.

Definition pause_works : test :=
  assert_ok (RioLoan.pause Root) ;;
  assert_eq (loan LoanPaused) true.
Definition resume_works : test :=
  assert_ok (RioLoan.pause Root) ;;
  assert_eq (loan LoanPaused) true ;;
  assert_ok (RioLoan.resume Root) ;;
  assert_eq (loan LoanPaused) false.
Definition create_package_works : test :=
  assert_ok (create_package Root 10 100 1) ;;
  active_package ← loan (active_loan_packages 1);
  assert (bool_decide (collateral_asset_id active_package = SBTC_ASSET_ID)) ;;
  assert (bool_decide (interest_rate_hourly active_package = 100)) ;;
  assert (bool_decide (terms active_package = 10)).
Definition disable_package_works : test :=
  assert_ok (create_package Root 10 100 1) ;;
  assert_ok (RioLoan.disable_package (E:=event) Root 1) ;;
  assert_eq (loan (fun st => terms (active_loan_packages 1 st))) 0.
(** The profit pool has the interest, and ALICE the rest of what was lent. *)
Definition paid (interest lent : Balance) : M chain unit :=
  profit_pool ← loan ProfitPool;
  profit ← free_balance RIO_ASSET_ID profit_pool;
  user_got ← free_balance RIO_ASSET_ID ALICE;
  assert (bool_decide (profit = interest)) ;;
  assert (bool_decide (user_got + profit = lent)).
(** ALICE repays and has her collateral back. *)
Definition repaid (id : LoanId) : M chain unit :=
  assert_ok (repay (Signed ALICE) id) ;;
  assert_eq (free_balance SBTC_ASSET_ID ALICE) 100000000 ;;
  assert_eq (free_balance RIO_ASSET_ID ALICE) 0.
Definition apply_repay_works : test :=
  package_id ← loan NextLoanPackageId;
  assert_ok (create_package Root 10 100 1) ;;
  assert_ok (mint SBTC_ASSET_ID ALICE 100000000) ;;
  loan_id ← loan NextLoanId;
  assert_ok (apply (Signed ALICE) 100000000 400000000000 package_id) ;;
  paid 96000000 400000000000 ;;
  assert_ok (mint RIO_ASSET_ID ALICE 96000000) ;;
  repaid loan_id.
Definition draw_works : test :=
  package_id ← loan NextLoanPackageId;
  assert_ok (create_package Root 10 100 1) ;;
  assert_ok (mint SBTC_ASSET_ID ALICE 100000000) ;;
  loan_id ← loan NextLoanId;
  assert_ok (apply (Signed ALICE) 100000000 400000000000 package_id) ;;
  paid 96000000 400000000000 ;;
  assert_ok (draw (Signed ALICE) loan_id 100000000000) ;;
  paid 120000000 500000000000 ;;
  assert_ok (mint RIO_ASSET_ID ALICE 120000000) ;;
  repaid loan_id.
Definition next_block : M chain unit :=
  modify (T:=Frame event) (fun f => f <| block_number ::= Z.succ |>) ;;
  RioLoan.on_initialize (E:=event) keys.
Definition liquidate_loan_works : test :=
  package_id ← loan NextLoanPackageId;
  assert_ok (create_package Root 10 100 1) ;;
  assert_ok (mint SBTC_ASSET_ID ALICE 100000000) ;;
  assert_ok (apply (Signed ALICE) 100000000 400000000000 package_id) ;;
  loan_ids ← loan (loans_by_account ALICE);
  assert (bool_decide (length loan_ids = 1%nat)) ;;
  id ← lift (head loan_ids);
  assert_eq (loan (fun st => loan_balance_total (get_loan_by_id id st))) 400000000000 ;;
  assert_ok (RioLoan.set_price Root 1) ;;
  next_block ;;
  assert_eq (loan liquidating_loans) [id] ;;
  l ← loan (get_loan_by_id id);
  assert_ok (mint RIO_ASSET_ID BOB 500000000000) ;;
  rio_alice ← free_balance RIO_ASSET_ID ALICE;
  assert_ok (RioLoan.mark_loan_liquidated (E:=event) l BOB 500000000000) ;;
  assert_eq (free_balance RIO_ASSET_ID BOB) 0 ;;
  assert_eq (free_balance RIO_ASSET_ID ALICE) (87000000000 + rio_alice).
(** The test runs outside any storage. *)
Definition expiration_penalty_works : test :=
  assert (bool_decide
    (expiration_penalty (MkLoan 1 1 1%N 1 1 100000000 100000000 520000000000 Well) 200 80000000
     = Some 1300000)).

Definition tests : list test :=
  [ pause_works; resume_works; create_package_works; disable_package_works; apply_repay_works;
    draw_works; liquidate_loan_works; expiration_penalty_works ].
Lemma loan_tests_pass : forallb (passes new_test_ext) tests = true.
Proof. vm_compute. reflexivity. Qed.
End LoanReplay.
