(* ===== verification/Saving.v ===== *)
(** * The savings: [modules/rio-saving/src/lib.rs]

    A saver stakes the collected asset in the current phase and gets the IOU asset
    of the phase and a pack of shares, released one portion per phase; redeeming
    the IOU gives the collected asset back against the shares.  The pallet hears of
    every movement of the ledger through its hooks, keeps who owns how many shares,
    and pays the daily profit in that proportion.

    The pallet and [rio-assets] call each other: the pallet calls the ledger, and a
    mint or a burn of the ledger runs the pallet's hook.  The interface [Ledger]
    has the operations without hooks; [asset_mint] and [asset_burn] put the hooks of
    this pallet at their ends. *)
From S2P Require Export Ledger Price.
#[local] Open Scope Z_scope.

Definition DAY_IN_MILLI : Z := 86400000.
Definition RESERVED_MINT_RATIO : Z := 6500.
Definition RESERVED_MINT_DIV : Z := 10000.

Abbreviation PhaseId := Z (only parsing).
(** Phases and terms are [u32]. *)
Definition term_bits : Z := 32.

Record PhaseInfo := MkPhaseInfo {
  ph_id : PhaseId;
  quota : Balance;
  exchange : Balance;
  iou_asset_id : option AssetId;
}.
#[global] Instance PhaseInfo_settable : Settable PhaseInfo := fun p =>
  MkPhaseInfo (ph_id p) (quota p) (exchange p) (iou_asset_id p).
Definition PhaseInfo_default : PhaseInfo := MkPhaseInfo 0 0 0 None.

Record IOU := MkIOU {
  iou_asset : AssetId;
  iou_balance : Balance;
  iou_owner : AccountId;
}.

Inductive ReleaseTrigger := PhaseChange | BlockNumberTrigger (n : Z).
#[global] Instance ReleaseTrigger_eq_dec : EqDecision ReleaseTrigger.
Proof. solve_decision. Defined.

Record SharePackage := MkSharePackage {
  terms_total : Z;
  terms_left : Z;
  per_term : Balance;
}.
#[global] Instance SharePackage_settable : Settable SharePackage := fun p =>
  MkSharePackage (terms_total p) (terms_left p) (per_term p).
#[global] Instance SharePackage_eq_dec : EqDecision SharePackage.
Proof. solve_decision. Defined.

Record ShareReleasePack := MkShareReleasePack {
  pk_asset_id : AssetId;
  pk_owner : AccountId;
  pk_phase_id : PhaseId;
  pk_empty : bool;
  major : SharePackage;
  minor : option SharePackage;
  release_trigger : ReleaseTrigger;
}.
#[global] Instance ShareReleasePack_settable : Settable ShareReleasePack := fun p =>
  MkShareReleasePack (pk_asset_id p) (pk_owner p) (pk_phase_id p) (pk_empty p) (major p) (minor p)
    (release_trigger p).
#[global] Instance ShareReleasePack_eq_dec : EqDecision ShareReleasePack.
Proof. solve_decision. Defined.

Inductive BalanceChange := Positive (b : Balance) | Negative (b : Balance).
Definition is_positive (c : BalanceChange) : bool :=
  match c with Positive _ => true | _ => false end.
Definition is_negative (c : BalanceChange) : bool :=
  match c with Negative _ => true | _ => false end.
Definition get_value (c : BalanceChange) : Balance :=
  match c with Positive v => v | Negative v => v end.

(** ** Packs of shares *)
Definition is_empty (p : ShareReleasePack) : bool := pk_empty p.
Definition get_asset_id (p : ShareReleasePack) : AssetId := pk_asset_id p.
Definition get_owner (p : ShareReleasePack) : AccountId := pk_owner p.
Definition check_release_trigger (p : ShareReleasePack) (t : ReleaseTrigger) : bool :=
  bool_decide (release_trigger p = t).

(** [release(&mut self)]: what is released, and the pack after it. *)
Definition release (p : ShareReleasePack) : option Balance * ShareReleasePack :=
  if pk_empty p then (None, p)
  else if decide (0 < terms_left (major p)) then
    let left := terms_left (major p) - 1 in
    (Some (per_term (major p)),
     p <| major ::= fun m => m <| terms_left := left |> |>
       <| pk_empty := bool_decide (left = 0)
            && match minor p with Some v => bool_decide (terms_left v = 0) | None => true end |>)
  else
    match minor p with
    | Some m =>
        if decide (0 < terms_left m) then
          let left := terms_left m - 1 in
          (Some (per_term m),
           p <| minor := Some (m <| terms_left := left |>) |> <| pk_empty := bool_decide (left = 0) |>)
        else (None, p <| pk_empty := true |>)
    | None => (None, p <| pk_empty := true |>)
    end.

Section packs.
Context `{!Overflow}.
#[local] Abbreviation B := balance_bits.

Definition pack_terms_left (p : ShareReleasePack) : option Z :=
  uadd term_bits (terms_left (major p))
    match minor p with Some v => terms_left v | None => 0 end.
Definition package_total_balance (p : SharePackage) : option Balance :=
  umul B (terms_left p) (per_term p).
Definition get_total_balance (p : ShareReleasePack) : option Balance :=
  if pk_empty p then Some 0
  else
    a ← package_total_balance (major p);
    b ← match minor p with Some m => package_total_balance m | None => Some 0 end;
    uadd B a b.

(** [.iter().filter(..).fold(zero, |acc, v| acc + v.get_total_balance())]. *)
Definition total_balances (l : list ShareReleasePack) : option Balance :=
  foldl (fun acc v => a ← acc; t ← get_total_balance v; uadd B a t) (Some 0) l.

Definition create_share_release_pack (owner : AccountId) (asset_id : AssetId) (phase_id : PhaseId)
    (balance : Balance) (count : Z) : option ShareReleasePack :=
  portion ← (if decide (count = 1) then Some balance
             else c ← usub term_bits count 1;
                  b ← uadd B balance c;
                  udiv b count);
  left ← usub term_bits count 1;
  let pack := MkShareReleasePack asset_id owner phase_id false
                (MkSharePackage count left portion) None PhaseChange in
  virtual_share_balance ← umul B portion count;
  if decide (balance = virtual_share_balance) then
    left ← uadd term_bits left 1;
    mret (pack <| major ::= fun m => m <| terms_left := left |> |>)
  else if decide (virtual_share_balance < balance) then
    rest ← usub B balance virtual_share_balance;
    mret (pack <| minor := Some (MkSharePackage 1 1 rest) |>)
  else
    over ← usub B virtual_share_balance balance;
    rest ← usub B portion over;
    mret (pack <| minor := Some (MkSharePackage 1 1 rest) |>).

(** The loop of [aggregate_phase_unreleased]: the packs of other phases or assets,
    the sum of the others, and their terms. *)
Record aggregate := MkAggregate {
  new_list : list ShareReleasePack;
  unreleased_total_balance : Balance;
  agg_terms_total : Z;
  agg_terms_left : Z;
}.
Fixpoint aggregate_loop (phase_id : PhaseId) (asset_id : AssetId) (acc : aggregate)
    (l : list ShareReleasePack) : option aggregate :=
  match l with
  | [] => Some acc
  | i :: l =>
      acc ← (if decide (pk_asset_id i <> asset_id \/ pk_phase_id i <> phase_id) then
               Some (MkAggregate (new_list acc ++ [i]) (unreleased_total_balance acc)
                       (agg_terms_total acc) (agg_terms_left acc))
             else
               t ← get_total_balance i;
               total ← uadd B (unreleased_total_balance acc) t;
               if decide (agg_terms_total acc <> terms_total (major i)) then
                 left ← pack_terms_left i;
                 Some (MkAggregate (new_list acc) total (terms_total (major i)) left)
               else
                 Some (MkAggregate (new_list acc) total (agg_terms_total acc)
                         (agg_terms_left acc)));
      aggregate_loop phase_id asset_id acc l
  end.

(** The pack that replaces the packs of a phase. *)
Definition aggregated (phase_id : PhaseId) (asset_id : AssetId) (who : AccountId)
    (a : aggregate) (balance : Balance) : option (list ShareReleasePack) :=
  p ← create_share_release_pack who asset_id phase_id balance (agg_terms_left a);
  mret (new_list a ++ [p <| major ::= fun m => m <| terms_total := agg_terms_total a |> |>]).

(** A panic is [None], the error is [Some (inl _)]. *)
Definition aggregate_phase_unreleased (unreleased_list : list ShareReleasePack)
    (phase_id : PhaseId) (asset_id : AssetId) (who : AccountId) (change : option BalanceChange)
    : option (string + list ShareReleasePack) :=
  a ← aggregate_loop phase_id asset_id (MkAggregate [] 0 0 0) unreleased_list;
  match change with
  | None =>
      l ← aggregated phase_id asset_id who a (unreleased_total_balance a);
      mret (inr l)
  | Some change =>
      if is_positive change then
        total ← uadd B (unreleased_total_balance a) (get_value change);
        l ← aggregated phase_id asset_id who a total;
        mret (inr l)
      else if decide (get_value change <= unreleased_total_balance a) then
        if decide (get_value change < unreleased_total_balance a) then
          total ← usub B (unreleased_total_balance a) (get_value change);
          l ← aggregated phase_id asset_id who a total;
          mret (inr l)
        else mret (inr (new_list a))
      else mret (inl "not enought locked balance")
  end.

(** ** The ratio of a redemption, and the daily split *)
Definition redeem_required_balances_in_ratio (phase_id : PhaseId) (required_balance : Balance)
    (total_phases phases_left : Z) : option (Balance * Balance) :=
  a ← usub term_bits phases_left 1;
  b ← umul B required_balance a;
  c ← usub term_bits total_phases phase_id;
  d ← uadd term_bits c 1;
  locked_share_asset_required ← udiv b d;
  free ← usub B required_balance locked_share_asset_required;
  mret (free, locked_share_asset_required).

Definition split_profit (amount : Balance) : option (Balance * Balance) :=
  a ← umul B amount 8;
  users ← udiv a 10;
  teams ← usub B amount users;
  mret (users, teams).

Definition sbtc_to_reserved_mint (price : Price) (amount : Balance) : option Balance :=
  price_in_balance ← checked B price;
  a ← umul B price_in_balance amount;
  b ← umul B a RESERVED_MINT_RATIO;
  c ← umul B PRICE_PRECISION RESERVED_MINT_DIV;
  udiv b c.
End packs.

(** ** Storage *)
Record SavingStore := MkSavingStore {
  CollectionAssetId : AssetId;
  CollectionAccountId : AccountId;
  ShareAssetId : AssetId;
  ShareAssetCollected : gmap AccountId Balance;
  IOUAssetPhaseId : gmap AssetId PhaseId;
  CurrentPhaseId : PhaseId;
  QuotaUsed : Balance;
  NumOfPhasesLeft : Z;
  NumOfPhases : Z;
  PhaseInfos : gmap PhaseId PhaseInfo;
  ShareUnreleasedList : gmap AccountId (list ShareReleasePack);
  AccountShares : gmap AccountId Balance;
  SharesCirculation : Balance;
  SavingPaused : bool;
  LastBonusTime : Moment;
  ProfitAssetId : AssetId;
  SavingProfitPool : AccountId;
  TeamAccountId : AccountId;
  ReservedMintWallet : AccountId;
  ReservedMintAssetId : AssetId;
}.
#[global] Instance SavingStore_settable : Settable SavingStore := fun s =>
  MkSavingStore (CollectionAssetId s) (CollectionAccountId s) (ShareAssetId s)
    (ShareAssetCollected s) (IOUAssetPhaseId s) (CurrentPhaseId s) (QuotaUsed s)
    (NumOfPhasesLeft s) (NumOfPhases s) (PhaseInfos s) (ShareUnreleasedList s) (AccountShares s)
    (SharesCirculation s) (SavingPaused s) (LastBonusTime s) (ProfitAssetId s)
    (SavingProfitPool s) (TeamAccountId s) (ReservedMintWallet s) (ReservedMintAssetId s).

Inductive SavingEvent :=
| PhaseChanged (old new : PhaseId)
| ReleaseSavingShare (who : AccountId) (b : Balance)
| StakingCreated (who : AccountId) (shares : Balance) (iou : AssetId) (b : Balance)
| StakingRedeemed (who : AccountId) (shares : Balance) (iou : AssetId) (b : Balance)
| Paused (line : Z) (block : BlockNumber) (extrinsic : Z)
| Bonus.

(** The getters of the maps. *)
Definition phase_info (id : PhaseId) (st : SavingStore) : PhaseInfo :=
  get_or PhaseInfo_default (PhaseInfos st) id.
Definition iou_asset_phase_id (a : AssetId) (st : SavingStore) : PhaseId :=
  get_or 0 (IOUAssetPhaseId st) a.
Definition share_asset_collected (who : AccountId) (st : SavingStore) : Balance :=
  get_or 0 (ShareAssetCollected st) who.
Definition account_future_releases (who : AccountId) (st : SavingStore) : list ShareReleasePack :=
  get_or [] (ShareUnreleasedList st) who.
Definition account_shares (who : AccountId) (st : SavingStore) : Balance :=
  get_or 0 (AccountShares st) who.

(** The genesis build: phases are numbered from 1, a later phase takes over the
    IOU asset of an earlier one. *)
Definition genesis_phases (phase_infos : list (Balance * Balance * AssetId))
    : list (PhaseId * PhaseInfo) :=
  imap (fun id '(q, e, a) =>
    (Z.of_nat (id + 1), MkPhaseInfo (Z.of_nat (id + 1)) q e (Some a))) phase_infos.
Definition genesis (collection share profit reserved : AssetId)
    (collection_account pool team wallet : AccountId) (current_phase : PhaseId) (now : Moment)
    (phase_infos : list (Balance * Balance * AssetId)) : SavingStore :=
  let phases := genesis_phases phase_infos in
  let n := Z.of_nat (length phase_infos) mod 2 ^ term_bits in
  MkSavingStore collection collection_account share ∅
    (foldl (fun m p => match iou_asset_id p.2 with Some a => <[a := p.1]> m | None => m end) ∅ phases)
    current_phase 0 n n
    (foldl (fun m p => <[p.1 := p.2]> m) ∅ phases)
    ∅ ∅ 0 false now profit pool team wallet reserved.

Module RioSaving.
Section operations.
Context {S E : Type} `{!Overflow}.
Context `{!Store S (Frame E), !Store S SavingStore, !Store S PriceStore, !Inject SavingEvent E}.
#[local] Abbreviation B := balance_bits.

Definition _pause (linum : Z) : M S unit :=
  modify (fun st => st <| SavingPaused := true |>) ;;
  block ← gets (fun f : Frame E => block_number f);
  extrinsic ← gets (fun f : Frame E => extrinsic_index f);
  extrinsic ← lift extrinsic;
  deposit_event (E:=E) (Paused linum block extrinsic).

(** *** The hooks on mints and burns, and the shares of the accounts *)

(** [<AccountShares<T>>::mutate(who, ..)] with a checked operation: a failure
    pauses the pallet and writes the old value back. *)
Definition mutate_shares (who : AccountId) (op : Balance -> option Balance) (linum : Z) : M S unit :=
  v ← gets (account_shares who);
  v' ← match op v with Some v' => mret v' | None => _pause linum ;; mret v end;
  modify (fun st => st <| AccountShares ::= <[who := v']> |>).
Definition mutate_circulation (op : Balance -> option Balance) (linum : Z) : M S unit :=
  v ← gets SharesCirculation;
  v' ← match op v with Some v' => mret v' | None => _pause linum ;; mret v end;
  modify (fun st => st <| SharesCirculation := v' |>).
(** Adds to the shares of an account, or inserts them. *)
Definition add_shares (who : AccountId) (balance : Balance) (linum : Z) : M S unit :=
  exist ← gets (fun st => bool_decide (is_Some (AccountShares st !! who)));
  if (exist : bool) then mutate_shares who (fun v => checked_add B v balance) linum
  else modify (fun st => st <| AccountShares ::= <[who := balance]> |>).

Definition on_asset_mint (asset_id : AssetId) (to : AccountId) (balance : Balance) : M S unit :=
  share_asset_id ← gets ShareAssetId;
  collection_account_id ← gets CollectionAccountId;
  if decide (share_asset_id = asset_id /\ collection_account_id <> to) then
    add_shares to balance 1253 ;;
    mutate_circulation (fun v => checked_add B v balance) 1264
  else mret tt.

Definition on_asset_burn (asset_id : AssetId) (from : AccountId) (balance : Balance) : M S unit :=
  paused ← gets SavingPaused;
  if (paused : bool) then mret tt
  else
    share_asset_id ← gets ShareAssetId;
    collection_account_id ← gets CollectionAccountId;
    if decide (share_asset_id = asset_id /\ collection_account_id <> from) then
      mutate_shares from (fun v => checked_sub B v balance) 1291 ;;
      mutate_circulation (fun v => checked_sub B v balance) 1299
    else mret tt.

Definition track_share_asset_movement (from to : AccountId) (balance : Balance) : M S unit :=
  collection_account_id ← gets CollectionAccountId;
  (if decide (from <> collection_account_id) then
     from_balance ← gets (account_shares from);
     if decide (from_balance < balance) then _pause 1085
     else if decide (from_balance = balance) then
       modify (fun st => st <| AccountShares ::= delete from |>)
     else
       v ← gets (account_shares from);
       v' ← lift (usub B v balance);
       modify (fun st => st <| AccountShares ::= <[from := v']> |>)
   else
     v ← gets SharesCirculation;
     v' ← lift (uadd B v balance);
     modify (fun st => st <| SharesCirculation := v' |>)) ;;
  if decide (to <> collection_account_id) then add_shares to balance 1104
  else mutate_circulation (fun v => checked_sub B v balance) 1116.

(** *** The ledger, with the hooks of this pallet *)
Context `{!Ledger S}.

(** [<rio_assets::Module<T>>::mint] and [burn], which end with the hook. *)
Definition asset_mint (o : origin) (a : AssetId) (to : AccountId) (x : Balance) : M S unit :=
  mint o a to x ;; ignore (on_asset_mint a to x).
Definition asset_burn (o : origin) (a : AssetId) (from : AccountId) (x : Balance) : M S unit :=
  burn o a from x ;; ignore (on_asset_burn a from x).

Definition create_reserved (amount : Balance) : M S unit :=
  a ← gets ReservedMintAssetId;
  w ← gets ReservedMintWallet;
  asset_mint Root a w amount.
Definition burn_reserved (amount : Balance) : M S unit :=
  a ← gets ReservedMintAssetId;
  w ← gets ReservedMintWallet;
  asset_burn Root a w amount.
Definition reserved_amount (amount : Balance) : M S Balance :=
  price ← gets CurrentPrice;
  lift (sbtc_to_reserved_mint price amount).

(** *** Phases *)

(** [mint_assets] releases one portion of the pack; the pack after it is returned. *)
Definition mint_iou (iou : option IOU) : M S Balance :=
  match iou with
  | Some iou => asset_mint Root (iou_asset iou) (iou_owner iou) (iou_balance iou) ;;
                mret (iou_balance iou)
  | None => mret 0
  end.
Definition mint_share (pack : ShareReleasePack) : M S (Balance * ShareReleasePack) :=
  match release pack with
  | (Some share_balance, pack) =>
      asset_mint Root (pk_asset_id pack) (pk_owner pack) share_balance ;;
      mret (share_balance, pack)
  | (None, pack) => mret (0, pack)
  end.
Definition mint_assets (iou_maybe : option IOU) (share_pack_maybe : option ShareReleasePack)
    : M S (Balance * Balance * option ShareReleasePack) :=
  i ← mint_iou iou_maybe;
  match share_pack_maybe with
  | Some pack => r ← mint_share pack; mret (i, r.1, Some r.2)
  | None => mret (i, 0, None)
  end.

Definition create_iou (owner : AccountId) (phase_info : PhaseInfo) (saving : Balance) : option IOU :=
  a ← iou_asset_id phase_info; mret (MkIOU a saving owner).

Definition create_release_pack_for_saving (owner : AccountId) (asset_id : AssetId)
    (balance : Balance) (phase_info : PhaseInfo) : M S ShareReleasePack :=
  if decide (balance = 0) then fail (Msg "saving balance must not be zero")
  else
    share_balance ← lift (checked_mul B balance (exchange phase_info));
    effective_phases_count ← gets NumOfPhasesLeft;
    if decide (effective_phases_count < 1)
    then fail (Msg "should not create share packages for the last phase")
    else lift (create_share_release_pack owner asset_id (ph_id phase_info) share_balance
                 effective_phases_count).

Definition register_iou (_ : IOU) : M S unit := mret tt.

(** [.unwrap()] on the result of the aggregation. *)
Definition unwrap_sum {A} (o : option (string + A)) : M S A :=
  r ← lift o; match r with inl _ => panic | inr a => mret a end.
(** [?] on the result of the aggregation. *)
Definition try_sum {A} (o : option (string + A)) : M S A :=
  r ← lift o; match r with inl e => fail (Msg e) | inr a => mret a end.

Definition register_share_pack (share_pack : ShareReleasePack) : M S unit :=
  if is_empty share_pack then mret tt
  else
    let owner := pk_owner share_pack in
    exist ← gets (fun st => bool_decide (is_Some (ShareUnreleasedList st !! owner)));
    if negb exist then
      modify (fun st => st <| ShareUnreleasedList ::= <[owner := [share_pack]]> |>)
    else
      v ← gets (account_future_releases owner);
      modify (fun st => st <| ShareUnreleasedList ::= delete owner |>) ;;
      v ← unwrap_sum (aggregate_phase_unreleased (v ++ [share_pack]) (pk_phase_id share_pack)
                        (pk_asset_id share_pack) owner None);
      modify (fun st => st <| ShareUnreleasedList ::= <[owner := v]> |>).

(** [ShareUnreleasedList::enumerate] and [AccountShares::enumerate] visit the keys
    in an order of the storage; the loops write only keys already visited. *)
Context (unreleased_keys : gmap AccountId (list ShareReleasePack) -> list AccountId).
Context (shares_keys : gmap AccountId Balance -> list AccountId).

(** [.map(..).filter(|p| !p.is_empty()).collect()] over the packs of an account. *)
Fixpoint release_packs (l : list ShareReleasePack) : M S (list ShareReleasePack) :=
  match l with
  | [] => mret []
  | p :: l =>
      r ← unwrap (mint_share p);
      l ← release_packs l;
      mret (if is_empty r.2 then l else r.2 :: l)
  end.
Definition release_account (account_id : AccountId) : M S unit :=
  l ← gets (account_future_releases account_id);
  l ← release_packs l;
  modify (fun st => st <| ShareUnreleasedList ::= delete account_id |>) ;;
  if decide (0 < length l)%nat
  then modify (fun st => st <| ShareUnreleasedList ::= <[account_id := l]> |>)
  else mret tt.
Definition shares_release_by_phase_change (_from_phase : PhaseId) : M S unit :=
  ids ← gets (fun st => unreleased_keys (ShareUnreleasedList st));
  for_each release_account ids.

Definition shift_next_phase (current_phase_id : PhaseId) : M S (option PhaseId) :=
  new_phase_id ← lift (checked_add term_bits current_phase_id 1);
  unwrap (shares_release_by_phase_change current_phase_id) ;;
  exist ← gets (fun st => bool_decide (is_Some (PhaseInfos st !! new_phase_id)));
  if (exist : bool) then
    modify (fun st => st <| QuotaUsed := 0 |>) ;;
    modify (fun st => st <| CurrentPhaseId := new_phase_id |>) ;;
    modify (fun st => st <| NumOfPhasesLeft ::= fun v => if decide (0 < v) then v - 1 else v |>) ;;
    deposit_event (E:=E) (PhaseChanged current_phase_id new_phase_id) ;;
    mret (Some new_phase_id)
  else
    modify (fun st => st <| QuotaUsed := quota (phase_info current_phase_id st) |>) ;;
    mret None.

(** *** Staking *)

(** What the phase takes of a staking, whether it ends, and what is left for the
    next one. *)
Definition staking_split (balance : Balance) (phase_info : PhaseInfo)
    : M S (Balance * bool * Balance) :=
  used_quota ← gets QuotaUsed;
  quota_will_be ← lift (checked_add B used_quota balance);
  if decide (quota_will_be <= quota phase_info) then
    if decide (quota_will_be = quota phase_info) then mret (balance, true, 0)
    else modify (fun st => st <| QuotaUsed := quota_will_be |>) ;; mret (balance, false, 0)
  else
    rest ← lift (usub B (quota phase_info) used_quota);
    next_phase_iou ← lift (usub B balance rest);
    mret (rest, true, next_phase_iou).

(** The part of a staking within the current phase: the IOU and the first portion
    of the shares are minted, the rest of the pack is registered. *)
Definition stake_in_phase (who : AccountId) (share_asset_id : AssetId) (phase_info : PhaseInfo)
    (iou_balance : Balance) : M S unit :=
  iou ← lift (create_iou who phase_info iou_balance);
  share_pack ← create_release_pack_for_saving who share_asset_id iou_balance phase_info;
  r ← mint_assets (Some iou) (Some share_pack);
  register_iou iou ;;
  share_pack ← lift r.2;
  register_share_pack share_pack ;;
  a ← lift (iou_asset_id phase_info);
  deposit_event (E:=E) (StakingCreated who r.1.2 a iou_balance).

(** [create_staking] calls itself for what the next phase takes; [stop] stands for
    the end of the fuel, which is never reached ([SavingFacts.staking_terminates]). *)
Fixpoint create_staking_from (stop : M S Balance) (fuel : nat) (who : AccountId)
    (balance : Balance) : M S Balance :=
  match fuel with
  | O => stop
  | Datatypes.S fuel =>
      ensure (negb (bool_decide (balance = 0))) "saving can't be zero" ;;
      share_asset_id ← gets ShareAssetId;
      phase_id ← gets CurrentPhaseId;
      exist ← gets (fun st => bool_decide (is_Some (PhaseInfos st !! phase_id)));
      ensure exist "current phase id is invalid" ;;
      info ← gets (phase_info phase_id);
      split ← staking_split balance info;
      let '(iou_balance, next_phase, next_phase_iou) := split in
      stake_in_phase who share_asset_id info iou_balance ;;
      if (next_phase : bool) then
        shifted ← shift_next_phase phase_id;
        if decide (is_Some shifted /\ 0 < next_phase_iou) then
          more ← create_staking_from stop fuel who next_phase_iou;
          lift (uadd B iou_balance more)
        else mret iou_balance
      else mret iou_balance
  end.

(** One call per phase, and the first. *)
Definition staking_fuel (st : SavingStore) : nat := Datatypes.S (size (PhaseInfos st)).
Definition create_staking (who : AccountId) (balance : Balance) : M S Balance :=
  fuel ← gets staking_fuel;
  create_staking_from panic fuel who balance.

(** *** Redemption *)
Definition required_balances (asset_id : AssetId) (amount : Balance)
    : M S (PhaseId * Balance * (Balance * Balance)) :=
  phase_id ← gets (iou_asset_phase_id asset_id);
  info ← gets (phase_info phase_id);
  required ← lift (umul B amount (exchange info));
  num_of_phases ← gets NumOfPhases;
  num_of_phases_left ← gets NumOfPhasesLeft;
  r ← lift (redeem_required_balances_in_ratio phase_id required num_of_phases num_of_phases_left);
  mret (phase_id, required, r).

Definition check_can_redeem (asset_id : AssetId) (who : AccountId) (amount : Balance) : M S unit :=
  share_asset_id ← gets ShareAssetId;
  if decide (share_asset_id = 0) then mret tt
  else
    returned ← gets (share_asset_collected who);
    free ← free_balance_of share_asset_id who;
    req ← required_balances asset_id amount;
    let '(phase_id, required, (free_required, locked_required)) := req in
    available ← lift (uadd B free returned);
    if decide (required <= available) then mret tt
    else
      unreleased_list ← gets (account_future_releases who);
      unreleased ← lift (total_balances (filter (fun v =>
        pk_empty v = false /\ pk_asset_id v = share_asset_id /\ pk_phase_id v = phase_id)
        unreleased_list));
      (if decide (available < free_required) then
         a ← lift (uadd B free_required locked_required);
         b ← lift (uadd B unreleased available);
         ensure (bool_decide (a = b)) "not enough available share asset"
       else mret tt) ;;
      c ← lift (uadd B returned unreleased);
      d ← lift (uadd B c free);
      ensure (bool_decide (required <= d)) "exceed allowed redeem limits".

(** What the shares returned in advance cover: what they burn, and what is still to
    be deducted from the free and from the locked shares. *)
Definition use_returned (who : AccountId) (returned free locked : Balance)
    : M S (Balance * Balance * Balance) :=
  if decide (0 < returned) then
    if decide (returned < free) then
      modify (fun st => st <| ShareAssetCollected ::= delete who |>) ;;
      free ← lift (usub B free returned);
      mret (returned, free, locked)
    else
      returned_left ← lift (usub B returned free);
      if decide (locked < returned_left) then
        left ← lift (usub B returned_left locked);
        modify (fun st => st <| ShareAssetCollected ::= <[who := left]> |>) ;;
        burn ← lift (uadd B free locked);
        mret (burn, 0, 0)
      else
        modify (fun st => st <| ShareAssetCollected ::= delete who |>) ;;
        burn ← lift (uadd B free returned_left);
        locked ← lift (usub B locked returned_left);
        mret (burn, 0, locked)
  else mret (0, free, locked).

(** What is missing in the free shares is taken from the locked ones, and
    conversely. *)
Definition balance_deductions (who : AccountId) (share_asset_id : AssetId)
    (required unreleased free locked : Balance) : M S (Balance * Balance) :=
  short_locked ← (if decide (unreleased < locked) then
                    s ← lift (usub B locked unreleased); mret (s, unreleased)
                  else mret (0, locked));
  short_free ← (if decide (0 < free) then
                  free_share_asset ← free_balance_of share_asset_id who;
                  total ← lift (uadd B free_share_asset unreleased);
                  ensure (bool_decide (required <= total)) "total balance doesn't match" ;;
                  if decide (free_share_asset < free) then
                    s ← lift (usub B free free_share_asset); mret (s, free_share_asset)
                  else mret (0, free)
                else mret (0, free));
  free ← lift (uadd B short_free.2 short_locked.1);
  locked ← lift (uadd B short_locked.2 short_free.1);
  mret (free, locked).

Definition make_redeem (iou_asset_id : AssetId) (who : AccountId) (collection_asset_id : AssetId)
    (collection_account : AccountId) (amount : Balance) (share_asset_id : AssetId) : M S unit :=
  phase_id ← gets (iou_asset_phase_id iou_asset_id);
  returned ← gets (share_asset_collected who);
  req ← required_balances iou_asset_id amount;
  let '(_, required, (free_required, locked_required)) := req in
  used ← use_returned who returned free_required locked_required;
  let '(to_burn, free, locked) := used in
  unrel_list ← gets (account_future_releases who);
  modify (fun st => st <| ShareUnreleasedList ::= delete who |>) ;;
  unrel_total ← lift (total_balances (filter (fun v =>
    pk_phase_id v = phase_id /\ pk_owner v = who) unrel_list));
  deductions ← balance_deductions who share_asset_id required unrel_total free locked;
  let '(free, locked) := deductions in
  a ← lift (uadd B free locked);
  inputs ← lift (uadd B a returned);
  outputs ← lift (uadd B free_required locked_required);
  ensure (bool_decide (inputs = outputs)) "in & out don't match" ;;
  make_transfer_with_event share_asset_id who collection_account free ;;
  to_burn ← lift (uadd B to_burn free);
  nl ← try_sum (aggregate_phase_unreleased unrel_list phase_id share_asset_id who
                  (Some (Negative locked)));
  modify (fun st => st <| ShareUnreleasedList ::= <[who := nl]> |>) ;;
  (if decide (to_burn = 0) then mret tt
   else asset_burn Root share_asset_id collection_account to_burn) ;;
  make_transfer_with_event collection_asset_id collection_account who amount ;;
  deposit_event (E:=E) (StakingRedeemed who to_burn iou_asset_id amount).

(** *** The hooks on transfers *)
Definition before_asset_transfer (asset_id : AssetId) (from to : AccountId) (balance : Balance)
    : M S unit :=
  paused ← gets SavingPaused;
  if (paused : bool) then mret tt
  else
    iou ← gets (fun st => bool_decide (is_Some (IOUAssetPhaseId st !! asset_id)));
    collection_account_id ← gets CollectionAccountId;
    if decide (iou = true /\ to = collection_account_id)
    then check_can_redeem asset_id from balance
    else mret tt.

Definition on_asset_transfer (asset_id : AssetId) (from to : AccountId) (balance : Balance)
    : M S unit :=
  paused ← gets SavingPaused;
  if (paused : bool) then mret tt
  else
    ensure (negb (bool_decide (from = to))) "from == to in transfer" ;;
    share_asset_id ← gets ShareAssetId;
    if decide (share_asset_id = 0) then mret tt
    else if decide (asset_id = share_asset_id) then track_share_asset_movement from to balance
    else
      collection_account_id ← gets CollectionAccountId;
      collection_asset_id ← gets CollectionAssetId;
      iou ← gets (fun st => bool_decide (is_Some (IOUAssetPhaseId st !! asset_id)));
      if decide (asset_id = collection_asset_id /\ to = collection_account_id) then
        create_staking from balance ;; mret tt
      else if decide (iou = true /\ to = collection_account_id) then
        make_redeem asset_id from collection_asset_id to balance share_asset_id
      else mret tt.

(** [<rio_assets::Module<T>>::transfer], between the two hooks. *)
Definition asset_transfer (o : origin) (a : AssetId) (to : AccountId) (x : Balance) : M S unit :=
  who ← ensure_signed o;
  before_asset_transfer a who to x ;;
  make_transfer_with_event a who to x ;;
  ignore (on_asset_transfer a who to x).

(** *** The bonus *)
Definition check_bonus_time : M S bool :=
  last ← gets LastBonusTime;
  now ← gets (fun f : Frame E => now f);
  if decide (last = 0) then
    d ← lift (udiv now DAY_IN_MILLI);
    t ← lift (umul moment_bits d DAY_IN_MILLI);
    modify (fun st => st <| LastBonusTime := t |>) ;;
    mret false
  else
    elapsed ← lift (usub moment_bits now last);
    if decide (elapsed < DAY_IN_MILLI) then mret false
    else
      t ← lift (uadd moment_bits last DAY_IN_MILLI);
      modify (fun st => st <| LastBonusTime := t |>) ;;
      mret true.

Definition pay_bonus (profit_asset : AssetId) (profit_pool : AccountId) (users circulation : Balance)
    (user_id : AccountId) : M S unit :=
  balance ← gets (account_shares user_id);
  a ← lift (umul B balance users);
  user_bonus ← lift (udiv a circulation);
  ignore (make_transfer_with_event profit_asset profit_pool user_id user_bonus).

Definition dispatch_bonus : M S unit :=
  team_account ← gets TeamAccountId;
  profit_pool ← gets SavingProfitPool;
  profit_asset ← gets ProfitAssetId;
  total_profit ← free_balance_of profit_asset profit_pool;
  circulation ← gets SharesCirculation;
  split ← lift (split_profit total_profit);
  ignore (make_transfer_with_event profit_asset profit_pool team_account split.2) ;;
  ids ← gets (fun st => shares_keys (AccountShares st));
  for_each (pay_bonus profit_asset profit_pool split.1 circulation) ids ;;
  deposit_event (E:=E) Bonus.

Definition on_initialize : M S unit :=
  paused ← gets SavingPaused;
  if (paused : bool) then mret tt
  else
    time ← check_bonus_time;
    if (time : bool) then dispatch_bonus else mret tt.

(** *** The dispatchables *)
(** [<rio_assets::Module<T>>::asset_exists]. *)
Context (known_asset : AssetId -> S -> bool).
Definition asset_known (a : AssetId) : M S bool := fun s => Ok (known_asset a s) s.

Definition not_paused : M S unit :=
  paused ← gets SavingPaused; ensure (negb paused) "module is paused".
Definition root_sets (o : origin) (f : SavingStore -> SavingStore) : M S unit :=
  ensure_root o ;; modify f.
Definition root_sets_asset (o : origin) (a : AssetId) (e : string) (f : SavingStore -> SavingStore)
    : M S unit :=
  ensure_root o ;; known ← asset_known a; ensure known e ;; modify f.

Definition pause (o : origin) : M S unit := root_sets o (fun st => st <| SavingPaused := true |>).
Definition resume (o : origin) : M S unit := root_sets o (fun st => st <| SavingPaused := false |>).
Definition set_share_asset_id (o : origin) (a : AssetId) : M S unit :=
  root_sets_asset o a "invalid asset id for rio saving share asset"
    (fun st => st <| ShareAssetId := a |>).
Definition set_iou_asset_id_for_phase (o : origin) (phase_id : PhaseId) (asset_id : AssetId)
    : M S unit :=
  ensure_root o ;;
  exist ← gets (fun st => bool_decide (is_Some (PhaseInfos st !! phase_id)));
  ensure exist "invalid phase id for rio saving" ;;
  known ← asset_known asset_id;
  ensure known "invalid iou asset id for rio saving" ;;
  modify (fun st => st <| IOUAssetPhaseId ::= delete asset_id |>) ;;
  modify (fun st => st <| PhaseInfos ::=
    <[phase_id := (phase_info phase_id st) <| iou_asset_id := Some asset_id |>]> |>) ;;
  modify (fun st => st <| IOUAssetPhaseId ::= <[asset_id := phase_id]> |>).
Definition set_collection_account (o : origin) (who : AccountId) : M S unit :=
  root_sets o (fun st => st <| CollectionAccountId := who |>).
Definition set_collection_asset_id (o : origin) (a : AssetId) : M S unit :=
  root_sets_asset o a "invalid collection asset id" (fun st => st <| CollectionAssetId := a |>).
Definition set_profit_asset_id (o : origin) (a : AssetId) : M S unit :=
  root_sets_asset o a "invalid collection asset id" (fun st => st <| ProfitAssetId := a |>).
Definition set_profit_pool (o : origin) (who : AccountId) : M S unit :=
  root_sets o (fun st => st <| SavingProfitPool := who |>).
Definition set_team_account_id (o : origin) (who : AccountId) : M S unit :=
  root_sets o (fun st => st <| TeamAccountId := who |>).

(** The common end of [staking] and [sudo_staking]. *)
Definition stake (asset_id : AssetId) (amount : Balance) (who : AccountId) : M S unit :=
  collection_account_id ← gets CollectionAccountId;
  collection_asset_id ← gets CollectionAssetId;
  ensure (bool_decide (collection_asset_id = asset_id)) "can't collect this asset" ;;
  b ← free_balance_of asset_id who;
  ensure (bool_decide (amount <= b)) "insufficient balance" ;;
  staking_balance ← create_staking who amount;
  make_transfer_with_event asset_id who collection_account_id staking_balance ;;
  r ← reserved_amount staking_balance;
  create_reserved r.
Definition staking (o : origin) (asset_id : AssetId) (amount : Balance) : M S unit :=
  not_paused ;; who ← ensure_signed o; stake asset_id amount who.
Definition sudo_staking (o : origin) (asset_id : AssetId) (amount : Balance)
    (delegatee : AccountId) : M S unit :=
  not_paused ;; ensure_root o ;; stake asset_id amount delegatee.

(** The common start and end of [redeem] and [sudo_redeem]; only [redeem] burns the
    reserved asset in between. *)
Definition redeem_of (who : AccountId) (iou_asset_id : AssetId) (iou_asset_amount : Balance)
    (reserved : bool) : M S unit :=
  share_asset_id ← gets ShareAssetId;
  collection_asset_id ← gets CollectionAssetId;
  collection_account_id ← gets CollectionAccountId;
  ensure (negb (bool_decide (share_asset_id = 0))) "fail to find share asset id" ;;
  ensure (negb (bool_decide (collection_asset_id = 0))) "fail to find collection asset id" ;;
  iou ← gets (fun st => bool_decide (is_Some (IOUAssetPhaseId st !! iou_asset_id)));
  ensure iou "no such contract assets" ;;
  (if reserved then
     burn_amount ← reserved_amount iou_asset_amount;
     a ← gets ReservedMintAssetId;
     w ← gets ReservedMintWallet;
     b ← free_balance_of a w;
     ensure (bool_decide (burn_amount <= b)) "reserved wallet is short" ;;
     check_can_redeem iou_asset_id who iou_asset_amount ;;
     burn_reserved burn_amount
   else check_can_redeem iou_asset_id who iou_asset_amount) ;;
  make_transfer_with_event iou_asset_id who collection_account_id iou_asset_amount ;;
  or_else
    (make_redeem iou_asset_id who collection_asset_id collection_account_id iou_asset_amount
       share_asset_id)
    (fun err =>
       make_transfer_with_event iou_asset_id collection_account_id who iou_asset_amount ;;
       fail err) ;;
  asset_burn Root iou_asset_id collection_account_id iou_asset_amount.
Definition redeem (o : origin) (iou_asset_id : AssetId) (iou_asset_amount : Balance) : M S unit :=
  not_paused ;; who ← ensure_signed o; redeem_of who iou_asset_id iou_asset_amount true.
Definition sudo_redeem (o : origin) (iou_asset_id : AssetId) (iou_asset_amount : Balance)
    (delegatee : AccountId) : M S unit :=
  not_paused ;; ensure_root o ;; redeem_of delegatee iou_asset_id iou_asset_amount false.
Definition force_release_bonus (o : origin) : M S unit :=
  not_paused ;; ensure_root o ;; dispatch_bonus.

Inductive Call :=
| CallPause
| CallResume
| CallSetShareAssetId (a : AssetId)
| CallSetIouAssetIdForPhase (phase_id : PhaseId) (a : AssetId)
| CallSetCollectionAccount (who : AccountId)
| CallSetCollectionAssetId (a : AssetId)
| CallSetProfitAssetId (a : AssetId)
| CallSetProfitPool (who : AccountId)
| CallSetTeamAccountId (who : AccountId)
| CallStaking (a : AssetId) (amount : Balance)
| CallSudoStaking (a : AssetId) (amount : Balance) (delegatee : AccountId)
| CallRedeem (iou : AssetId) (amount : Balance)
| CallSudoRedeem (iou : AssetId) (amount : Balance) (delegatee : AccountId)
| CallForceReleaseBonus.

Definition dispatch (o : origin) (c : Call) : M S unit :=
  match c with
  | CallPause => pause o
  | CallResume => resume o
  | CallSetShareAssetId a => set_share_asset_id o a
  | CallSetIouAssetIdForPhase p a => set_iou_asset_id_for_phase o p a
  | CallSetCollectionAccount w => set_collection_account o w
  | CallSetCollectionAssetId a => set_collection_asset_id o a
  | CallSetProfitAssetId a => set_profit_asset_id o a
  | CallSetProfitPool w => set_profit_pool o w
  | CallSetTeamAccountId w => set_team_account_id o w
  | CallStaking a x => staking o a x
  | CallSudoStaking a x w => sudo_staking o a x w
  | CallRedeem a x => redeem o a x
  | CallSudoRedeem a x w => sudo_redeem o a x w
  | CallForceReleaseBonus => force_release_bonus o
  end.
End operations.
End RioSaving.
