(* ===== verification/SavingPacks.v ===== *)
(** * Packs of shares: what is created is what is released

    A pack splits a balance into terms; releasing them one by one gives the balance
    back, and merging the packs of a phase keeps their total. *)
From S2P Require Export Saving.
#[local] Open Scope Z_scope.

Definition package_total (p : SharePackage) : Z := terms_left p * per_term p.
Definition pack_total (p : ShareReleasePack) : Z :=
  if pk_empty p then 0 else package_total (major p) + from_option package_total 0 (minor p).
Definition pack_terms (p : ShareReleasePack) : Z :=
  terms_left (major p) + from_option terms_left 0 (minor p).

Definition package_ok (p : SharePackage) : Prop := 0 <= terms_left p /\ 0 <= per_term p.
Record pack_ok (p : ShareReleasePack) : Prop := {
  po_major : package_ok (major p);
  po_minor m : minor p = Some m -> package_ok m;
  po_empty : pk_empty p = bool_decide (pack_terms p = 0);
}.

(** Whose pack it is. *)
Definition same_pack (p q : ShareReleasePack) : Prop :=
  pk_asset_id q = pk_asset_id p /\ pk_owner q = pk_owner p /\ pk_phase_id q = pk_phase_id p.

Lemma pack_total_nonneg p : pack_ok p -> 0 <= pack_total p.
Proof.
  intros [[] Hm _]. unfold pack_total, package_total. destruct (pk_empty p); [done|].
  destruct (minor p) as [m|]; cbn; [destruct (Hm m) as []; [done|]|]; nia.
Qed.

Lemma release_spec p :
  pack_ok p ->
  match release p with
  | (Some b, p') => pack_ok p' /\ 0 < pack_terms p /\ pack_terms p' = pack_terms p - 1 /\
                    pack_total p = b + pack_total p' /\ 0 <= b /\ same_pack p p'
  | (None, p') => pack_terms p = 0 /\ p' = p
  end.
Proof.
  destruct p as [a w ph e [tt left per] mi trig]. intros [[H1 H2] Hm He].
  unfold release, pack_terms, pack_total, package_total, same_pack in *; cbn in *.
  destruct e; [by symmetry in He; apply bool_decide_eq_true in He|].
  symmetry in He. apply bool_decide_eq_false in He.
  destruct mi as [[ttm leftm perm]|]; cbn in *;
    [destruct (Hm _ eq_refl) as [Hm1 Hm2]; cbn in *|]; case_decide; try case_decide; try lia;
    unfold set_field; cbn; (split; [split; cbn|]);
    unfold package_ok, pack_terms in *; cbn.
  all: try (intros ? [= <-]; cbn; lia).
  all: try (intros ? [=]).
  all: repeat case_bool_decide; split_and?; try done; try lia; nia.
Qed.

(** Releasing term after term. *)
Fixpoint release_all (n : nat) (p : ShareReleasePack) : list Balance * ShareReleasePack :=
  match n with
  | O => ([], p)
  | S n =>
      match release p with
      | (Some b, p') => let r := release_all n p' in (b :: r.1, r.2)
      | (None, p') => ([], p')
      end
  end.

Lemma release_all_spec n p :
  pack_ok p -> pack_terms p <= Z.of_nat n ->
  let r := release_all n p in
  Z.of_nat (length r.1) = pack_terms p /\ zsum r.1 = pack_total p /\
  Forall (fun b => 0 <= b) r.1 /\ is_empty r.2 = true /\ same_pack p r.2.
Proof.
  intros Hp. unfold is_empty. revert p Hp. induction n as [|n IH]; intros p Hp Hn; cbn.
  - assert (pack_terms p = 0) as Hz.
    { destruct Hp as [[] Hm _]. unfold pack_terms in *. destruct (minor p) as [m|]; cbn in *; [|lia].
      destruct (Hm m eq_refl). lia. }
    pose proof (po_empty _ Hp) as He. rewrite bool_decide_true in He by done.
    unfold pack_total. rewrite He. split_and!; done.
  - pose proof (release_spec p Hp) as Hr. destruct (release p) as [[b|] p'].
    + destruct Hr as (Hp' & Hpos & Ht & Hs & Hb & Hi).
      destruct (IH p' Hp' ltac:(lia)) as (H1 & H2 & H3 & H4 & H5). cbn.
      split_and!; [lia|unfold zsum in *; cbn; lia|by constructor|done|].
      unfold same_pack in *. intuition congruence.
    + destruct Hr as [Hz ->]. pose proof (po_empty _ Hp) as He. rewrite bool_decide_true in He by done.
      unfold pack_total. rewrite He. cbn. split_and!; done.
Qed.

Section creation.
Context `{!Overflow}.

(** The portion of each term, rounded up. *)
Definition portion_of (balance count : Z) : Z := (balance + (count - 1)) / count.

Lemma portion_bounds balance count :
  0 <= balance -> 1 <= count ->
  balance <= portion_of balance count * count <= balance + count - 1 /\
  0 <= portion_of balance count.
Proof.
  intros Hb Hc. unfold portion_of.
  pose proof (Z.div_mod (balance + (count - 1)) count). pose proof (Z.mod_pos_bound (balance + (count - 1)) count).
  split; [nia|]. apply Z.div_pos; lia.
Qed.

(** The creation does not panic: the number of terms is one, or nothing overflows
    and the last term is not negative. *)
Definition creation_fits (balance count : Z) : Prop :=
  balance + count - 1 < 2 ^ balance_bits /\ portion_of balance count * (count - 1) <= balance.

Lemma create_pack_owp owner a ph balance count :
  exact (creation_fits balance count) -> in_width balance_bits balance -> 1 <= count < 2 ^ term_bits ->
  owp (create_share_release_pack owner a ph balance count)
    (fun p => pack_ok p /\ pack_total p = balance /\ pack_terms p = count /\
       pk_asset_id p = a /\ pk_owner p = owner /\ pk_phase_id p = ph)
    (~ creation_fits balance count).
Proof.
  intros Hx Hb Hc. unfold create_share_release_pack.
  pose proof (portion_bounds balance count) as Hp. destruct Hb as [Hb0 Hb].
  assert (2 ^ term_bits < 2 ^ balance_bits) as Hbits by (by vm_compute).
  apply owp_bind, (owp_mono _ (fun x => x = portion_of balance count) _ (~ creation_fits balance count)); [|intros x ->|done].
  { case_decide as H1.
    - subst. cbn. unfold portion_of. rewrite Z.div_1_r. lia.
    - rewrite usub_ok by (unfold in_width; lia). cbn [mbind option_bind].
      apply owp_bind. unfold uadd. owp_step Hx; [unfold creation_fits, in_width in *; lia|].
      owp_step Hx; [lia|done]. }
  rewrite usub_ok by (unfold in_width; lia). cbn [mbind option_bind].
  destruct Hp as [[Hp1 Hp2] Hp0]; [done|lia|]. set (n := portion_of balance count) in *.
  owp_step Hx. unfold umul. owp_step Hx; [unfold creation_fits, in_width in *; lia|].
  case_decide as Heq.
  { rewrite uadd_ok by (unfold in_width; lia). cbn. unfold set_field, pack_total; cbn.
    split_and!; try done; [|unfold package_total; cbn; lia|unfold pack_terms; cbn; lia].
    split; cbn; [split; cbn; lia|done|]. unfold pack_terms; cbn. rewrite bool_decide_false by lia. done. }
  rewrite decide_False by lia. owp_step Hx.
  assert (in_width balance_bits (n * count - balance)) by (unfold in_width; lia).
  rewrite usub_ok, owp_Some by done. cbv beta. owp_step Hx.
  unfold usub. owp_step Hx.
  { match goal with Hf : creation_fits _ _ |- _ => destruct Hf as [_ Hf]; fold n in Hf end.
    unfold in_width. nia. }
  cbn. unfold set_field, pack_total; cbn.
  split_and!; try done; [|unfold package_total; cbn; lia|unfold pack_terms; cbn; lia].
  split; cbn; [split; cbn; lia| |].
  - intros m [= <-]. unfold in_width in *. split; cbn; lia.
  - unfold pack_terms; cbn. rewrite bool_decide_false by lia. done.
Qed.

(** The build that checks creates no other pack. *)
Lemma create_pack_panics owner a ph balance count :
  overflow_checks = true -> in_width balance_bits balance -> 1 <= count < 2 ^ term_bits ->
  ~ creation_fits balance count -> create_share_release_pack owner a ph balance count = None.
Proof.
  intros Hc [Hb0 Hb] Hn Hno.
  assert (2 ^ term_bits < 2 ^ balance_bits) as Hbits by (by vm_compute).
  destruct (portion_bounds balance count) as [[Hp1 Hp2] Hp0]; [done|lia|].
  unfold creation_fits in Hno.
  assert (count <> 1) as H1 by (intros ->; unfold portion_of in Hno; rewrite Z.div_1_r in Hno; lia).
  unfold create_share_release_pack. rewrite decide_False by done.
  rewrite (usub_ok term_bits count 1) by (unfold in_width; lia). cbn [mbind option_bind].
  destruct (decide (balance + count - 1 < 2 ^ balance_bits)) as [Hfit|Hfit].
  2: { assert (uadd balance_bits balance (count - 1) = None) as ->; [|done].
    unfold uadd, arith. by rewrite decide_False, Hc by (unfold in_width; lia). }
  rewrite (uadd_ok balance_bits balance) by (unfold in_width; lia). cbn [mbind option_bind].
  unfold udiv. rewrite decide_False by lia. cbn [mbind option_bind].
  fold (portion_of balance count). set (n := portion_of balance count) in *.
  rewrite umul_ok by (unfold in_width; lia). cbn [mbind option_bind].
  rewrite decide_False by nia. rewrite decide_False by lia.
  rewrite (usub_ok balance_bits (n * count)) by (unfold in_width; lia). cbn [mbind option_bind].
  assert (usub balance_bits n (n * count - balance) = None) as ->; [|done].
  unfold usub, arith. by rewrite decide_False, Hc by (unfold in_width; nia).
Qed.
(** The creation where the last term is negative: it wraps, in the build that does not
    check for overflow. *)
Lemma create_pack_wraps owner a ph balance count :
  overflow_checks = false -> in_width balance_bits balance -> 1 <= count < 2 ^ term_bits ->
  balance + count - 1 < 2 ^ balance_bits -> balance < portion_of balance count * (count - 1) ->
  exists p, create_share_release_pack owner a ph balance count = Some p /\
    pack_total p = balance + 2 ^ balance_bits.
Proof.
  intros Hc [Hb0 Hb] Hn Hfit Hlow.
  assert (2 ^ term_bits < 2 ^ balance_bits) as Hbits by (by vm_compute).
  destruct (portion_bounds balance count) as [[Hp1 Hp2] Hp0]; [done|lia|].
  assert (count <> 1) as H1 by (intros ->; lia).
  unfold create_share_release_pack. rewrite decide_False by done.
  rewrite (usub_ok term_bits count 1) by (unfold in_width; lia). cbn [mbind option_bind].
  rewrite (uadd_ok balance_bits balance) by (unfold in_width; lia). cbn [mbind option_bind].
  unfold udiv. rewrite decide_False by lia. cbn [mbind option_bind].
  fold (portion_of balance count). set (n := portion_of balance count) in *.
  rewrite umul_ok by (unfold in_width; lia). cbn [mbind option_bind].
  rewrite decide_False by nia. rewrite decide_False by lia.
  rewrite (usub_ok balance_bits (n * count)) by (unfold in_width; lia). cbn [mbind option_bind].
  assert (usub balance_bits n (n * count - balance) =
    Some (n - (n * count - balance) + 2 ^ balance_bits)) as ->.
  { unfold usub, arith. rewrite decide_False by (unfold in_width; nia). rewrite Hc. f_equal.
    symmetry. apply (Z.mod_unique _ _ (-1)); [left; nia|lia]. }
  cbn [mbind option_bind mret option_ret]. eexists; split; [done|].
  unfold pack_total, set_field; cbn. unfold package_total; cbn. lia.
Qed.

(** C36: a pack of shares is worth the balance it was created from.  Where the last term
    is not negative and nothing overflows, in either build: the pack, released term by
    term in as many terms as asked for, gives exactly that balance and is then empty.
    Where this fails, which needs a balance below the square of the number of terms or at
    the end of the range, the build that checks for overflow panics; the one that does
    not creates, before the end of the range, a pack that is worth the balance and 2 to
    the power of 128. *)
Theorem pack_conserves_balance owner a ph balance count :
  in_width balance_bits balance -> 1 <= count < 2 ^ term_bits ->
  let pack := create_share_release_pack owner a ph balance count in
  (creation_fits balance count -> exists p, pack = Some p /\
     let r := release_all (Z.to_nat count) p in
     Z.of_nat (length r.1) = count /\ zsum r.1 = balance /\ Forall (fun b => 0 <= b) r.1 /\
     is_empty r.2 = true /\ same_pack p r.2 /\
     pk_asset_id p = a /\ pk_owner p = owner /\ pk_phase_id p = ph) /\
  (~ creation_fits balance count ->
     (balance < (count - 1) * (count - 1) \/ 2 ^ balance_bits <= balance + count - 1) /\
     (overflow_checks = true -> pack = None) /\
     (overflow_checks = false -> balance + count - 1 < 2 ^ balance_bits ->
        exists p, pack = Some p /\ pack_total p = balance + 2 ^ balance_bits)).
Proof.
  intros Hb Hn pack. destruct (portion_bounds balance count) as [[Hp1 Hp2] _]; [apply Hb|lia|].
  split; [intros Hfit|intros Hno; split_and!].
  - pose proof (create_pack_owp owner a ph balance count (or_intror Hfit) Hb Hn) as Ho. fold pack in Ho.
    destruct pack as [p|]; [|by destruct Ho]. exists p. split; [done|].
    destruct Ho as (Hp & Ht & Hterms & Hi). cbv zeta.
    destruct (release_all_spec (Z.to_nat count) p Hp ltac:(lia)) as (H1 & H2 & H3 & H4 & H5).
    rewrite H1, H2, Hterms, Ht. done.
  - destruct (decide (2 ^ balance_bits <= balance + count - 1)) as [|Hlt]; [by right|left].
    apply Znot_ge_lt. intros Hge. apply Hno. split; [lia|]. nia.
  - intros Hc. apply create_pack_panics; done.
  - intros Hc Hlt. apply create_pack_wraps; try done. unfold creation_fits in Hno. lia.
Qed.

(** ** Merging the packs of a phase *)
Context (Hchecks : overflow_checks = true).

Lemma arith_exact w r x : 0 <= w -> arith w r = Some x -> x = r /\ in_width w r.
Proof. unfold arith. rewrite Hchecks. intros _. by case_decide; [intros [= <-]|]. Qed.

Lemma create_pack_Some owner a ph balance count p :
  in_width balance_bits balance -> in_width term_bits count ->
  create_share_release_pack owner a ph balance count = Some p ->
  pack_ok p /\ pack_total p = balance /\ pk_asset_id p = a /\ pk_owner p = owner /\
  pk_phase_id p = ph.
Proof.
  intros Hb Hn Hp. destruct (decide (count = 0)) as [->|Hne].
  { revert Hp. unfold create_share_release_pack, usub, arith. rewrite Hchecks. done. }
  unfold in_width in Hn.
  pose proof (create_pack_owp owner a ph balance count (or_introl Hchecks) Hb ltac:(lia)) as Ho.
  rewrite Hp in Ho. cbn in Ho. tauto.
Qed.

Lemma package_total_exact p x :
  package_total_balance p = Some x -> x = package_total p /\ in_width balance_bits x.
Proof. by intros [-> ?]%arith_exact. Qed.
Lemma get_total_exact p x :
  get_total_balance p = Some x -> x = pack_total p /\ in_width balance_bits x.
Proof.
  unfold get_total_balance, pack_total. destruct (pk_empty p); [by intros [= <-]|].
  intros (u & [-> _]%package_total_exact & Hx)%bind_Some. apply bind_Some in Hx as (v & Hv & Hx).
  apply arith_exact in Hx as [-> Hx]; [|done].
  destruct (minor p); cbn; [apply package_total_exact in Hv as [-> _]|injection Hv as <-]; done.
Qed.

Definition in_phase (a : AssetId) (ph : PhaseId) (p : ShareReleasePack) : Prop :=
  pk_asset_id p = a /\ pk_phase_id p = ph.
#[local] Instance in_phase_dec a ph p : Decision (in_phase a ph p).
Proof. unfold in_phase. apply _. Defined.
Definition of_phase a ph (l : list ShareReleasePack) : list ShareReleasePack :=
  filter (in_phase a ph) l.
Definition others a ph (l : list ShareReleasePack) : list ShareReleasePack :=
  filter (fun p => ~ in_phase a ph p) l.
Definition phase_total a ph (l : list ShareReleasePack) : Z := zsum (map pack_total (of_phase a ph l)).

Lemma aggregate_loop_spec ph a acc l acc' :
  aggregate_loop ph a acc l = Some acc' ->
  in_width balance_bits (unreleased_total_balance acc) -> in_width term_bits (agg_terms_left acc) ->
  new_list acc' = new_list acc ++ others a ph l /\
  unreleased_total_balance acc' = unreleased_total_balance acc + phase_total a ph l /\
  in_width balance_bits (unreleased_total_balance acc') /\ in_width term_bits (agg_terms_left acc').
Proof.
  revert acc. induction l as [|i l IH]; intros acc; cbn [aggregate_loop].
  { intros [= <-] H1 H2. cbn. rewrite app_nil_r. unfold phase_total, zsum; cbn. split_and!; [done|lia|done|done]. }
  intros (acc1 & Hacc1 & Hacc')%bind_Some H1 H2. unfold phase_total, of_phase, others.
  rewrite !filter_cons. case_decide as Hi.
  - injection Hacc1 as <-. destruct (IH _ Hacc' H1 H2) as (-> & -> & ?). cbn.
    assert (~ in_phase a ph i) as Hout by (unfold in_phase; tauto).
    rewrite (decide_False (P := in_phase a ph i)), (decide_True (P := ~ in_phase a ph i)) by done.
    by rewrite <-app_assoc.
  - assert (in_phase a ph i) as Hin
      by (destruct (decide (in_phase a ph i)) as [|Hn]; [done|unfold in_phase in Hn; lia]).
    rewrite (decide_True (P := in_phase a ph i)), (decide_False (P := ~ in_phase a ph i)) by tauto.
    apply bind_Some in Hacc1 as (t & [-> _]%get_total_exact & Hacc1).
    apply bind_Some in Hacc1 as (total & [-> Hw]%arith_exact & Hacc1); [|done]. case_decide.
    + apply bind_Some in Hacc1 as (left & [-> Hl]%arith_exact & [= <-]); [|done].
      destruct (IH _ Hacc' Hw Hl) as (-> & -> & ?). cbn. unfold phase_total, of_phase, zsum. cbn.
      split_and!; [done|lia|tauto|tauto].
    + injection Hacc1 as <-.
      destruct (IH _ Hacc' Hw H2) as (-> & -> & ?). cbn. unfold phase_total, of_phase, zsum. cbn.
      split_and!; [done|lia|tauto|tauto].
Qed.

Lemma phase_total_others a ph l : of_phase a ph (others a ph l) = [].
Proof.
  unfold of_phase, others. induction l as [|i l IH]; [done|]. rewrite filter_cons.
  case_decide; [|done]. rewrite filter_cons, decide_False by done. done.
Qed.
Lemma others_others a ph l : others a ph (others a ph l) = others a ph l.
Proof.
  unfold others. induction l as [|i l IH]; [done|]. rewrite filter_cons.
  case_decide; [|done]. rewrite filter_cons, decide_True by done. by rewrite IH.
Qed.

Lemma aggregated_spec ph a who acc b l' l :
  aggregated ph a who acc b = Some l' -> new_list acc = others a ph l ->
  in_width balance_bits b -> in_width term_bits (agg_terms_left acc) ->
  others a ph l' = others a ph l /\ phase_total a ph l' = b /\ length (of_phase a ph l') = 1%nat.
Proof.
  intros (p & Hp & [= <-])%bind_Some Hl Hb Ht. rewrite Hl.
  apply create_pack_Some in Hp as (Hok & <- & Ha & _ & Hph); [|done|done].
  set (q := p <| major ::= _ |>). assert (in_phase a ph q) as Hq by (split; unfold q; fields; done).
  assert (pack_total q = pack_total p) as Htot.
  { unfold q, pack_total, package_total. fields. by destruct p as [? ? ? ? []]. }
  unfold phase_total, of_phase. unfold others at 1. rewrite !filter_app, !filter_cons, !filter_nil.
  rewrite decide_False, decide_True by tauto. fold (others a ph (others a ph l)).
  fold (of_phase a ph (others a ph l)). rewrite phase_total_others, others_others, app_nil_r.
  unfold zsum. cbn. split_and!; [done|lia|done].
Qed.

(** A merge keeps the packs well formed. *)
Lemma aggregated_ok ph a who acc b l' :
  aggregated ph a who acc b = Some l' -> Forall pack_ok (new_list acc) ->
  in_width balance_bits b -> in_width term_bits (agg_terms_left acc) -> Forall pack_ok l'.
Proof.
  intros (p & Hp & [= <-])%bind_Some Hl Hb Ht.
  apply create_pack_Some in Hp as ([[H1 H2] Hm He] & _); [|done|done].
  apply Forall_app; split; [done|]. constructor; [|done]. split; fields; [by split; fields|done|].
  unfold pack_terms in *. by fields.
Qed.
Lemma merge_ok l ph a who l' :
  Forall pack_ok l -> aggregate_phase_unreleased l ph a who None = Some (inr l') -> Forall pack_ok l'.
Proof.
  intros Hl (acc & Hacc & Hr)%bind_Some.
  assert (in_width balance_bits 0 /\ in_width term_bits 0) as [Hb0 Ht0] by done.
  destruct (aggregate_loop_spec _ _ _ _ _ Hacc Hb0 Ht0) as (Hnew & _ & Hw & Hn).
  cbn in Hr. apply bind_Some in Hr as (l1 & Hl1 & [= ->]).
  eapply aggregated_ok; [exact Hl1| |done|done]. rewrite Hnew. cbn.
  apply Forall_forall. intros p [_ Hp]%list_elem_of_filter. by eapply Forall_forall.
Qed.

Definition change_value (c : option BalanceChange) : Z :=
  match c with None => 0 | Some (Positive x) => x | Some (Negative x) => - x end.

Lemma aggregate_inr l ph a who change l' :
  match change with Some (Negative x) => 0 <= x | _ => True end ->
  aggregate_phase_unreleased l ph a who change = Some (inr l') ->
  others a ph l' = others a ph l /\
  phase_total a ph l' = phase_total a ph l + change_value change /\
  (length (of_phase a ph l') <= 1)%nat.
Proof.
  intros Hch (acc & Hacc & Hr)%bind_Some.
  assert (in_width balance_bits 0 /\ in_width term_bits 0) as [Hb0 Ht0] by done.
  destruct (aggregate_loop_spec _ _ _ _ _ Hacc Hb0 Ht0) as (Hl & Ht & Hw & Hn).
  cbn in Hl, Ht. rewrite Z.add_0_l in Ht.
  assert (forall b l', aggregated ph a who acc b = Some l' -> in_width balance_bits b ->
    others a ph l' = others a ph l /\ phase_total a ph l' = b /\
    (length (of_phase a ph l') <= 1)%nat) as Hnew.
  { intros b l1 Ha Hb. destruct (aggregated_spec _ _ _ _ _ _ _ Ha Hl Hb Hn) as (? & ? & ->). done. }
  rewrite <-Ht. destruct change as [[x|x]|]; cbn in Hr |- *.
  - apply bind_Some in Hr as (total & [-> Htw]%arith_exact & Hr); [|done].
    apply bind_Some in Hr as (l1 & Hl' & [= <-]). by apply Hnew.
  - destruct (decide (x <= _)) as [Hx|Hx]; [|done]. case_decide as Hlt.
    + apply bind_Some in Hr as (total & [-> Htw]%arith_exact & Hr); [|done].
      apply bind_Some in Hr as (l1 & Hl' & [= <-]). by apply Hnew.
    + injection Hr as <-. rewrite Hl, others_others. unfold phase_total at 1.
      rewrite phase_total_others. unfold zsum; cbn. split_and!; [done|lia|lia].
  - apply bind_Some in Hr as (l1 & Hl' & [= <-]). rewrite Z.add_0_r. by apply Hnew.
Qed.

Lemma aggregate_keeps l ph a who change r :
  match change with Some (Negative x) => 0 <= x | _ => True end ->
  aggregate_phase_unreleased l ph a who change = Some r ->
  match r with
  | inr l' => others a ph l' = others a ph l /\
              phase_total a ph l' = phase_total a ph l + change_value change /\
              (length (of_phase a ph l') <= 1)%nat
  | inl e => exists x, change = Some (Negative x) /\ phase_total a ph l < x
  end.
Proof.
  intros Hch Hr. destruct r as [e|l']; [|by apply aggregate_inr in Hr].
  apply bind_Some in Hr as (acc & Hacc & Hr).
  destruct (aggregate_loop_spec _ _ _ _ _ Hacc) as (_ & Ht & _); [done..|].
  cbn in Ht. rewrite Z.add_0_l in Ht. rewrite <-Ht.
  destruct change as [[x|x]|]; cbn in Hr.
  - by apply bind_Some in Hr as (total & _ & (l1 & _ & [=])%bind_Some).
  - destruct (decide (x <= _)); [|exists x; split; [done|lia]]. case_decide; [|done].
    by apply bind_Some in Hr as (total & _ & (l1 & _ & [=])%bind_Some).
  - by apply bind_Some in Hr as (l1 & _ & [=]).
Qed.
End creation.

(** ** The two builds

    Where the build that checks for overflow does not panic, the other one computes the
    same. *)
Definition checking : Overflow := {| overflow_checks := true |}.
Definition agrees {A} (m m' : option A) : Prop := forall x, m = Some x -> m' = Some x.

Section builds.
Context (o : Overflow).

Lemma agrees_refl {A} (m : option A) : agrees m m.
Proof. by intros x. Qed.
Lemma agrees_bind {A B} (m m' : option A) (f f' : A -> option B) :
  agrees m m' -> (forall a, agrees (f a) (f' a)) -> agrees (m ≫= f) (m' ≫= f').
Proof.
  intros Hm Hf x (a & Ha & Hx)%bind_Some. rewrite (Hm a Ha). cbn. by apply Hf.
Qed.
Lemma agrees_arith w r : agrees (arith (H:=checking) w r) (arith (H:=o) w r).
Proof. intros x. unfold arith. by case_decide. Qed.
Ltac agrees_steps := repeat first
  [ apply agrees_refl | apply agrees_arith | apply agrees_bind; [|intros ?]
  | match goal with |- agrees (match ?b with _ => _ end) (match ?b with _ => _ end) => destruct b end ].

Lemma create_agrees owner a ph balance count :
  agrees (create_share_release_pack (H:=checking) owner a ph balance count)
    (create_share_release_pack (H:=o) owner a ph balance count).
Proof. unfold create_share_release_pack, uadd, usub, umul. agrees_steps. Qed.
Lemma get_total_agrees p : agrees (get_total_balance (H:=checking) p) (get_total_balance (H:=o) p).
Proof. unfold get_total_balance, package_total_balance, uadd, umul. agrees_steps. Qed.
Lemma aggregate_loop_agrees ph a acc l :
  agrees (aggregate_loop (H:=checking) ph a acc l) (aggregate_loop (H:=o) ph a acc l).
Proof.
  revert acc. induction l as [|i l IH]; intros acc; cbn [aggregate_loop]; [apply agrees_refl|].
  apply agrees_bind; [|done]. case_decide; [apply agrees_refl|].
  apply agrees_bind; [apply get_total_agrees|intros t]. unfold pack_terms_left, uadd. agrees_steps.
Qed.
Lemma aggregate_agrees l ph a who change :
  agrees (aggregate_phase_unreleased (H:=checking) l ph a who change)
    (aggregate_phase_unreleased (H:=o) l ph a who change).
Proof.
  unfold aggregate_phase_unreleased. apply agrees_bind; [apply aggregate_loop_agrees|intros acc].
  unfold aggregated, uadd, usub.
  repeat first [apply create_agrees|progress agrees_steps].
Qed.

(** C38: merging the packs of a phase keeps every share: the packs of other phases
    and assets stay as they are, in their order, and those of the phase become at
    most one pack that is worth their total and the change; taking more than
    they are worth is the only error.  It holds for every merge that returns in the
    build that checks for overflow, and the build [o], which may not check, then
    returns the same; where a number overflows the first panics and the other wraps. *)
Theorem aggregation_keeps_shares l ph a who change r :
  match change with Some (Negative x) => 0 <= x | _ => True end ->
  aggregate_phase_unreleased (H:=checking) l ph a who change = Some r ->
  aggregate_phase_unreleased (H:=o) l ph a who change = Some r /\
  match r with
  | inr l' => others a ph l' = others a ph l /\
              phase_total a ph l' = phase_total a ph l + change_value change /\
              (length (of_phase a ph l') <= 1)%nat
  | inl e => exists x, change = Some (Negative x) /\ phase_total a ph l < x
  end.
Proof.
  intros Hch Hr. split; [by apply aggregate_agrees|]. by eapply (aggregate_keeps (H:=checking)).
Qed.
End builds.
