(* ===== verification/SavingFacts.v ===== *)
(** * What the operations of the savings keep, and that staking ends *)
From S2P Require Export SavingPacks.
#[local] Open Scope Z_scope.
Import RioSaving.

Section facts.
Context {S E : Type} `{!Overflow}.
Context `{!Store S (Frame E), !Store S SavingStore, !Store S PriceStore, !Inject SavingEvent E}.
Context `{!Separate S (Frame E) SavingStore}.
Context `{!Ledger S, !LedgerEvents E, !LedgerSpec S E}.
Context (Hforeign : foreign SavingStore _).
Context (unreleased_keys : gmap AccountId (list ShareReleasePack) -> list AccountId).
Implicit Types (s : S) (st : SavingStore) (who : AccountId).
#[local] Abbreviation sst := (sget (T:=SavingStore)).
#[local] Abbreviation fr := (sget (T:=Frame E)).

(** ** Parts of the storage that an operation does not write *)
Definition same {X} (f : SavingStore -> X) s s' : Prop := f (sst s') = f (sst s).
#[export] Instance same_preorder {X} (f : SavingStore -> X) : PreOrder (same f).
Proof. split; [by intros s|]. intros s1 s2 s3 H1 H2. unfold same in *. congruence. Qed.

Lemma same_ledger_op {A X} (f : SavingStore -> X) (m : M S A) :
  keeps_others (E:=E) m -> preserves (same f) m.
Proof.
  intros Hm s. wp_apply (Hm s); [| |done]; intros ? s' [_ Hs]; unfold same; by rewrite (Hs _ _ Hforeign).
Qed.
Lemma same_transfer {X} (f : SavingStore -> X) a from to x :
  preserves (same f) (make_transfer_with_event a from to x).
Proof. apply same_ledger_op, transfer_keeps. Qed.
Lemma same_mint {X} (f : SavingStore -> X) a to x : preserves (same f) (mint Root a to x).
Proof. apply same_ledger_op, mint_keeps. Qed.
Lemma same_burn {X} (f : SavingStore -> X) a to x : preserves (same f) (burn Root a to x).
Proof. apply same_ledger_op, burn_keeps. Qed.
Lemma same_event {X} (f : SavingStore -> X) (ev : SavingEvent) :
  preserves (same f) (deposit_event (S:=S) (E:=E) ev).
Proof. apply preserves_modify. intros s. unfold same. by store. Qed.
Lemma same_modify {X} (f : SavingStore -> X) (g : SavingStore -> SavingStore) :
  (forall st, f (g st) = f st) -> preserves (same f) (modify (S:=S) g).
Proof. intros Hg. apply preserves_modify. intros s. unfold same. by rewrite sget_sput. Qed.
#[local] Hint Resolve same_transfer same_mint same_burn same_event : preserves.

(** *** What staking writes *)
Section staking.
Context {X : Type} (f : SavingStore -> X).
(** [f] does not read what the hooks, the packs and the quota are kept in. *)
Record staking_blind : Prop := {
  sb_paused st b : f (st <| SavingPaused := b |>) = f st;
  sb_shares st g : f (st <| AccountShares ::= g |>) = f st;
  sb_circulation st x : f (st <| SharesCirculation := x |>) = f st;
  sb_packs st g : f (st <| ShareUnreleasedList ::= g |>) = f st;
  sb_quota st x : f (st <| QuotaUsed := x |>) = f st;
}.
Context (Hf : staking_blind).

Lemma same_pause line : preserves (same f) (_pause (E:=E) line).
Proof. unfold _pause. preserves_steps. apply same_modify. intros. apply Hf. Qed.
#[local] Hint Resolve same_pause : preserves.
Lemma same_mutate_shares who op line : preserves (same f) (mutate_shares (E:=E) who op line).
Proof. unfold mutate_shares. preserves_steps. apply same_modify. intros. apply Hf. Qed.
Lemma same_mutate_circulation op line : preserves (same f) (mutate_circulation (E:=E) op line).
Proof. unfold mutate_circulation. preserves_steps. apply same_modify. intros. apply Hf. Qed.
#[local] Hint Resolve same_mutate_shares same_mutate_circulation : preserves.
Lemma same_asset_mint a to x : preserves (same f) (asset_mint (E:=E) Root a to x).
Proof.
  unfold asset_mint, on_asset_mint, add_shares. preserves_steps. apply same_modify. intros. apply Hf.
Qed.
Lemma same_asset_burn a from x : preserves (same f) (asset_burn (E:=E) Root a from x).
Proof.
  unfold asset_burn, on_asset_burn. preserves_steps.
Qed.
#[local] Hint Resolve same_asset_mint same_asset_burn : preserves.
Lemma same_mint_share p : preserves (same f) (mint_share (E:=E) p).
Proof. unfold mint_share. preserves_steps. Qed.
#[local] Hint Resolve same_mint_share : preserves.
Lemma same_mint_assets iou p : preserves (same f) (mint_assets (E:=E) iou p).
Proof. unfold mint_assets, mint_iou. preserves_steps. Qed.
#[local] Hint Resolve same_mint_assets : preserves.
Lemma same_register p : preserves (same f) (register_share_pack p).
Proof.
  unfold register_share_pack, unwrap_sum. preserves_steps; apply same_modify; intros; apply Hf.
Qed.
#[local] Hint Resolve same_register : preserves.
Lemma same_stake_in_phase who a info x : preserves (same f) (stake_in_phase (E:=E) who a info x).
Proof.
  unfold stake_in_phase, create_release_pack_for_saving, register_iou. preserves_steps.
Qed.
Lemma same_split x info : preserves (same f) (staking_split x info).
Proof. unfold staking_split. preserves_steps. apply same_modify; intros; apply Hf. Qed.
Lemma same_release_packs l : preserves (same f) (release_packs (E:=E) l).
Proof. induction l; cbn; preserves_steps. Qed.
#[local] Hint Resolve same_release_packs : preserves.
Lemma same_release id : preserves (same f) (shares_release_by_phase_change (E:=E) unreleased_keys id).
Proof.
  unfold shares_release_by_phase_change, release_account. preserves_steps; apply same_modify; intros; apply Hf.
Qed.
#[local] Hint Resolve same_stake_in_phase same_split same_release : preserves.
Context (Hphase : forall st p, f (st <| CurrentPhaseId := p |>) = f st).
Context (Hleft : forall st g, f (st <| NumOfPhasesLeft ::= g |>) = f st).
Lemma same_shift id : preserves (same f) (shift_next_phase (E:=E) unreleased_keys id).
Proof.
  unfold shift_next_phase. preserves_steps; try apply same_release;
    apply same_modify; intros; first [apply Hf|apply Hphase|apply Hleft].
Qed.
#[local] Hint Resolve same_shift : preserves.
Lemma same_create_staking who x : preserves (same f) (create_staking (E:=E) unreleased_keys who x).
Proof.
  unfold create_staking. apply preserves_bind; [apply _|apply preserves_gets, _|]. intros fuel.
  revert x. induction fuel as [|fuel IH]; intros x; cbn [create_staking_from]; preserves_steps.
Qed.
End staking.

(** ** Staking ends *)
Definition phases st : gmap PhaseId PhaseInfo * PhaseId := (PhaseInfos st, CurrentPhaseId st).
Lemma phases_blind : staking_blind phases.
Proof. split; intros; unfold phases; by fields. Qed.

Lemma shift_phase_wp id s :
  wp (shift_next_phase (E:=E) unreleased_keys id)
    (fun r s' => PhaseInfos (sst s') = PhaseInfos (sst s) /\
       (is_Some r -> CurrentPhaseId (sst s') = id + 1 /\ is_Some (PhaseInfos (sst s) !! (id + 1))) /\
       (r = None -> CurrentPhaseId (sst s') = CurrentPhaseId (sst s) /\ PhaseInfos (sst s) !! (id + 1) = None))
    (fun _ _ => True) True s.
Proof.
  unfold shift_next_phase. wp_step. apply wp_lift; split; [intros new [-> _]%checked_Some|done].
  do 2 wp_step. wp_apply (same_release phases phases_blind id s); [|done|done].
  intros [] s1 [= Hp Hc]. do 2 wp_step. wp_step.
  - match goal with H : bool_decide _ = true |- _ => apply bool_decide_eq_true in H; rewrite Hp in H end.
    do 9 wp_step. by store.
  - match goal with H : bool_decide _ = false |- _ =>
      apply bool_decide_eq_false in H; rewrite Hp, <-eq_None_not_Some in H end.
    do 3 wp_step. store. split_and!; [done|by intros [? [=]]|done].
Qed.

(** The phases from the given one on. *)
Definition phases_from (m : gmap PhaseId PhaseInfo) (id : PhaseId) : gmap PhaseId PhaseInfo :=
  filter (fun kv : PhaseId * PhaseInfo => id <= kv.1) m.
Definition remaining st : nat := size (phases_from (PhaseInfos st) (CurrentPhaseId st)).
Lemma remaining_size st : (remaining st <= size (PhaseInfos st))%nat.
Proof. apply map_size_filter. Qed.
Lemma remaining_next m id :
  is_Some (m !! id) -> (size (phases_from m (id + 1)) < size (phases_from m id))%nat.
Proof.
  intros [p Hp].
  assert (phases_from m id !! id = Some p) as Hin
    by (apply map_lookup_filter_Some; split; [done|cbn; lia]).
  assert (phases_from m (id + 1) ⊆ delete id (phases_from m id)) as Hsub.
  { apply map_subseteq_spec. intros k v [Hk Hle]%map_lookup_filter_Some. cbn in Hle.
    rewrite lookup_delete_ne by lia. apply map_lookup_filter_Some. split; [done|cbn; lia]. }
  apply map_subseteq_size in Hsub. rewrite (map_size_delete_Some _ _ (ex_intro _ _ Hin)) in Hsub.
  assert (size (phases_from m id) <> 0%nat); [|lia].
  intros Hz%map_size_empty_inv. by rewrite Hz, lookup_empty in Hin.
Qed.

Lemma staking_stable stop1 stop2 f1 f2 who x s :
  (remaining (sst s) < f1)%nat -> (remaining (sst s) < f2)%nat ->
  create_staking_from (E:=E) unreleased_keys stop1 f1 who x s =
  create_staking_from (E:=E) unreleased_keys stop2 f2 who x s.
Proof.
  revert f2 x s. induction f1 as [|f1 IH]; intros f2 x s H1 H2; [lia|].
  destruct f2 as [|f2]; [lia|]. cbn [create_staking_from].
  apply bind_ext_wp, wp_ensure; split; [intros _|done].
  apply bind_ext_wp. rewrite wp_gets. apply bind_ext_wp. rewrite wp_gets.
  apply bind_ext_wp. rewrite wp_gets. apply bind_ext_wp, wp_ensure; split; [|done].
  intros Hin%bool_decide_eq_true. apply bind_ext_wp. rewrite wp_gets.
  set (id := CurrentPhaseId (sst s)) in *.
  apply bind_ext_wp. wp_apply (same_split phases phases_blind x (phase_info id (sst s)) s); [|done|done].
  intros [[b next] rest] s1 Hs1. apply bind_ext_wp.
  wp_apply (same_stake_in_phase phases phases_blind who (ShareAssetId (sst s)) (phase_info id (sst s)) b s1);
    [|done|done].
  intros [] s2 Hs2. unfold same, phases in Hs1, Hs2. destruct next; [|done].
  apply bind_ext_wp. wp_apply (shift_phase_wp id s2); [|done|done].
  intros r s3 (Hp & Hr & _). case_decide as Hd; [|done]. destruct Hd as [Hsome _].
  destruct (Hr Hsome) as [Hcur _].
  assert (remaining (sst s3) < remaining (sst s))%nat as Hlt.
  { unfold remaining. rewrite Hcur, Hp. replace (PhaseInfos (sst s2)) with (PhaseInfos (sst s)) by congruence.
    by apply remaining_next. }
  unfold mbind at 1 2, M_bind at 1 2. by rewrite (IH f2 rest s3) by lia.
Qed.

(** C37: staking ends: with as many calls as there are phases, and one more, the
    recursion over the phases never runs out of fuel, so that more fuel, or
    another result at the end of the fuel, changes nothing. *)
Theorem staking_terminates stop fuel who x s :
  (staking_fuel (sst s) <= fuel)%nat ->
  create_staking_from (E:=E) unreleased_keys stop fuel who x s =
  create_staking (E:=E) unreleased_keys who x s.
Proof.
  intros Hf. unfold create_staking, staking_fuel in *. pose proof (remaining_size (sst s)).
  change ((gets staking_fuel ≫= ?f) s) with (f (staking_fuel (sst s)) s).
  apply staking_stable; unfold staking_fuel; lia.
Qed.
End facts.
