(* ===== verification/SavingTypes.v ===== *)
(** * The savings: every number stays in its machine type

    A type system for the storage: the balances, phases, terms and moments that the
    pallet stores fit their types, and the packs of an account are its own, well
    formed and not empty.  Every call and hook keeps it, whether the build checks
    for overflow or wraps. *)
From S2P Require Export SavingFacts.
From stdpp Require Import relations.
#[local] Open Scope Z_scope.
Import RioSaving.

(** ** Packs *)
Definition package_typed (p : SharePackage) : Prop :=
  in_width term_bits (terms_total p) /\ in_width term_bits (terms_left p) /\
  in_width balance_bits (per_term p).
(** The pack belongs to [who]; it is empty exactly when no term is left. *)
Record pack_typed (who : AccountId) (p : ShareReleasePack) : Prop := {
  pt_owner : pk_owner p = who;
  pt_major : package_typed (major p);
  pt_minor : forall m, minor p = Some m -> package_typed m;
  pt_empty : pk_empty p = bool_decide (pack_terms p = 0);
}.
(** The packs that are stored. *)
Definition stored_pack (who : AccountId) (p : ShareReleasePack) : Prop :=
  pack_typed who p /\ pk_empty p = false.

Lemma pack_typed_ok who p : pack_typed who p -> pack_ok p.
Proof.
  intros [Ho (_ & [? _] & [? _]) Hm He]. split; [by split| |done].
  intros m Hmi. by destruct (Hm m Hmi) as (_ & [? _] & [? _]).
Qed.

Lemma package_typed_spend m :
  package_typed m -> 0 < terms_left m -> package_typed (m <| terms_left := terms_left m - 1 |>).
Proof. unfold package_typed, in_width. intros (? & ? & ?) Hl. fields. lia. Qed.

Lemma release_typed who p :
  pack_typed who p ->
  (forall b, (release p).1 = Some b -> in_width balance_bits b) /\ pack_typed who (release p).2.
Proof.
  intros Hp. pose proof (release_spec p (pack_typed_ok _ _ Hp)) as Hr.
  destruct Hp as [Ho (Ht & Hl & Hb) Hm He]. revert Hr. unfold release.
  destruct (pk_empty p) eqn:Hem; [intros _; split; [done|split; [done..|]]|]; [cbn; congruence|].
  destruct (decide (0 < terms_left (major p))) as [H1|H1];
    [|destruct (minor p) as [m|] eqn:Hmi; [destruct (decide (0 < terms_left m)) as [H2|H2]|]];
    cbv beta iota zeta; cbn [fst snd].
  - intros ([_ _ He'] & _). split; [by intros b [= <-]|]. split; [done| |done|exact He'].
    by apply package_typed_spend.
  - intros ([_ _ He'] & _). split; [intros b [= <-]; by apply Hm|].
    split; [done|by unfold package_typed|intros m' [= <-]|exact He'].
    apply package_typed_spend; [by apply Hm|done].
  - intros [H0 _]. split; [done|]. split; fields; [done|by split| |].
    + intros m' Hm'. apply Hm. by rewrite <-Hmi, <-Hm'.
    + symmetry. by apply bool_decide_eq_true.
  - intros [H0 _]. split; [done|]. split; fields; [done|by split| |].
    + intros m' Hm'. by rewrite Hmi in Hm'.
    + symmetry. by apply bool_decide_eq_true.
Qed.

Section packs.
Context `{!Overflow}.

(** What a computation gives fits its type, whichever build runs it. *)
Lemma arith_typed w r x : arith w r = Some x -> 0 <= w -> in_width w x.
Proof. intros Hx Hw. by eapply arith_in_width. Qed.
Lemma uadd_typed w x y z : uadd w x y = Some z -> 0 <= w -> in_width w z.
Proof. by apply arith_typed. Qed.
Lemma usub_typed w x y z : usub w x y = Some z -> 0 <= w -> in_width w z.
Proof. by apply arith_typed. Qed.
Lemma umul_typed w x y z : umul w x y = Some z -> 0 <= w -> in_width w z.
Proof. by apply arith_typed. Qed.
Lemma udiv_typed w x y z : udiv x y = Some z -> in_width w x -> 0 <= y -> in_width w z.
Proof.
  unfold udiv, in_width. case_decide as Hy; [done|]. intros [= <-] Hx Hy'.
  pose proof (Z.div_le_upper_bound x y x). pose proof (Z.div_pos x y). nia.
Qed.

Lemma create_typed owner a ph balance count p :
  create_share_release_pack owner a ph balance count = Some p ->
  in_width balance_bits balance -> in_width term_bits count ->
  stored_pack owner p /\ pk_asset_id p = a.
Proof.
  intros (portion & Hpor & Hp)%bind_Some Hb [Hc0 Hc]. apply bind_Some in Hp as (left & Hl & Hp).
  assert (1 <= count) as Hc1.
  { destruct (decide (count = 1)); [lia|]. destruct (decide (count = 0)) as [->|]; [|lia].
    apply bind_Some in Hpor as (c & _ & (b & _ & Hd)%bind_Some). done. }
  assert (in_width balance_bits portion) as Hpt.
  { destruct (decide (count = 1)); [by injection Hpor as <-|].
    apply bind_Some in Hpor as (c & _ & (b & Hb1 & Hd)%bind_Some).
    eapply udiv_typed; [exact Hd| |lia]. by eapply arith_typed. }
  rewrite usub_ok in Hl by (unfold in_width; lia). injection Hl as <-.
  apply bind_Some in Hp as (virtual & _ & Hp).
  assert (in_width term_bits 1) as H1 by done.
  assert (forall rest, in_width balance_bits rest -> stored_pack owner
    (MkShareReleasePack a owner ph false (MkSharePackage count (count - 1) portion)
       (Some (MkSharePackage 1 1 rest)) PhaseChange)) as Hminor.
  { intros rest Hr. split; [|done]. split; cbn; [done|unfold package_typed, in_width in *; cbn [terms_total terms_left per_term]; lia|by intros m [= <-]|].
    unfold pack_terms; cbn. rewrite bool_decide_false by lia. done. }
  destruct (decide (balance = virtual)); [|case_decide].
  - rewrite uadd_ok in Hp by (unfold in_width; lia). injection Hp as <-. split; [|done].
    split; [|done]. split; fields; [done|unfold package_typed, in_width in *; fields|done|].
    { cbn [major terms_total terms_left per_term]. lia. }
    unfold pack_terms; fields. cbn. rewrite bool_decide_false by lia. done.
  - apply bind_Some in Hp as (rest & Hr%arith_typed & [= <-]); [|done]. by split; [apply Hminor|].
  - apply bind_Some in Hp as (over & _ & (rest & Hr%arith_typed & [= <-])%bind_Some); [|done].
    by split; [apply Hminor|].
Qed.

Lemma aggregate_loop_typed who ph a acc l acc' :
  aggregate_loop ph a acc l = Some acc' ->
  Forall (stored_pack who) (new_list acc) -> Forall (stored_pack who) l ->
  in_width balance_bits (unreleased_total_balance acc) -> in_width term_bits (agg_terms_total acc) ->
  in_width term_bits (agg_terms_left acc) ->
  Forall (stored_pack who) (new_list acc') /\
  in_width balance_bits (unreleased_total_balance acc') /\ in_width term_bits (agg_terms_total acc') /\
  in_width term_bits (agg_terms_left acc').
Proof.
  intros Hacc Hn Hl. revert acc Hacc Hn. induction Hl as [|p l Hp _ IH]; intros acc; cbn [aggregate_loop].
  { by intros [= <-]. }
  intros (acc1 & Hacc1 & Hacc')%bind_Some Hn Hu Ht Hleft. case_decide.
  - injection Hacc1 as <-. apply (IH _ Hacc'); try done. cbn. apply Forall_app. split; [done|by constructor].
  - apply bind_Some in Hacc1 as (t & _ & (total & Htot%arith_typed & Hacc1)%bind_Some); [|done].
    destruct Hp as [[_ (Htt & _) _ _] _]. case_decide.
    + apply bind_Some in Hacc1 as (left & Hleft'%arith_typed & [= <-]); [|done]. by apply (IH _ Hacc').
    + injection Hacc1 as <-. by apply (IH _ Hacc').
Qed.

Lemma aggregated_typed who ph a acc b l' :
  aggregated ph a who acc b = Some l' -> Forall (stored_pack who) (new_list acc) ->
  in_width balance_bits b -> in_width term_bits (agg_terms_total acc) ->
  in_width term_bits (agg_terms_left acc) -> Forall (stored_pack who) l'.
Proof.
  intros (p & Hp & [= <-])%bind_Some Hn Hb Ht Hl. apply Forall_app. split; [done|].
  apply create_typed in Hp as [[[Ho (? & ? & ?) Hm He] Hem] _]; [|done|done].
  constructor; [|done]. split; [|by fields]. split; fields; [done|by unfold package_typed; fields|done|].
  rewrite He. unfold pack_terms. by fields.
Qed.

(** What an aggregation gives: the other packs, and at most one new one. *)
Lemma aggregate_cases l ph a who change l' :
  aggregate_phase_unreleased l ph a who change = Some (inr l') ->
  exists acc, aggregate_loop ph a (MkAggregate [] 0 0 0) l = Some acc /\
    (l' = new_list acc \/
     exists b, aggregated ph a who acc b = Some l' /\
       (in_width balance_bits (unreleased_total_balance acc) -> in_width balance_bits b)).
Proof.
  intros (acc & Hacc & Hr)%bind_Some. exists acc. split; [done|].
  destruct change as [c|]; [destruct (is_positive c); [|case_decide; [case_decide|]]|].
  - apply bind_Some in Hr as (t & Ht%arith_typed & (l1 & Hl1 & [= ->])%bind_Some); [|done]. eauto.
  - apply bind_Some in Hr as (t & Ht%arith_typed & (l1 & Hl1 & [= ->])%bind_Some); [|done]. eauto.
  - injection Hr as <-. by left.
  - done.
  - apply bind_Some in Hr as (l1 & Hl1 & [= ->]). eauto.
Qed.
Lemma aggregate_typed who ph a l change l' :
  aggregate_phase_unreleased l ph a who change = Some (inr l') ->
  Forall (stored_pack who) l -> Forall (stored_pack who) l'.
Proof.
  intros (acc & Hacc & Hr)%aggregate_cases Hl.
  destruct (aggregate_loop_typed who _ _ _ _ _ Hacc) as (Hn & Hu & Ht & Hleft); try done.
  destruct Hr as [->|(b & Hb & Hw)]; [done|]. eapply aggregated_typed; [exact Hb|auto..].
Qed.
End packs.
#[export] Hint Resolve uadd_typed usub_typed umul_typed : typed.
#[export] Hint Extern 1 (0 <= _) => done : typed.

(** ** The storage *)
Definition info_typed (i : PhaseInfo) : Prop :=
  in_width term_bits (ph_id i) /\ in_width balance_bits (quota i) /\
  in_width balance_bits (exchange i).
Record store_typed (st : SavingStore) : Prop := {
  ty_collected : map_Forall (fun _ => in_width balance_bits) (ShareAssetCollected st);
  ty_iou : map_Forall (fun _ => in_width term_bits) (IOUAssetPhaseId st);
  ty_current : in_width term_bits (CurrentPhaseId st);
  ty_quota : in_width balance_bits (QuotaUsed st);
  ty_left : in_width term_bits (NumOfPhasesLeft st);
  ty_phases : in_width term_bits (NumOfPhases st);
  ty_infos : map_Forall (fun _ => info_typed) (PhaseInfos st);
  ty_packs : map_Forall (fun who => Forall (stored_pack who)) (ShareUnreleasedList st);
  ty_shares : map_Forall (fun _ => in_width balance_bits) (AccountShares st);
  ty_circulation : in_width balance_bits (SharesCirculation st);
  ty_bonus : in_width moment_bits (LastBonusTime st);
}.

Lemma get_or_typed `{Countable K} {V} (P : V -> Prop) (m : gmap K V) k d :
  map_Forall (fun _ => P) m -> P d -> P (get_or d m k).
Proof. intros Hm Hd. unfold get_or. destruct (m !! k) eqn:Hk; [by eapply Hm|done]. Qed.
Lemma info_default_typed : info_typed PhaseInfo_default.
Proof. done. Qed.
Lemma phase_info_typed id st : store_typed st -> info_typed (phase_info id st).
Proof. intros []. by apply (get_or_typed info_typed). Qed.
Lemma account_shares_typed who st : store_typed st -> in_width balance_bits (account_shares who st).
Proof. intros []. by apply (get_or_typed (in_width balance_bits)). Qed.
Lemma future_typed who st : store_typed st -> Forall (stored_pack who) (account_future_releases who st).
Proof.
  intros []. unfold account_future_releases, get_or.
  destruct (ShareUnreleasedList st !! who) eqn:Hk; [by eapply ty_packs0|done].
Qed.
#[local] Hint Resolve phase_info_typed account_shares_typed future_typed ty_quota ty_left ty_current
  ty_circulation ty_bonus : typed.

(** A write of fields that fit. *)
Ltac typed_write :=
  apply typed_modify; let s := fresh "s" in let Hs := fresh "Hs" in
  intros s Hs; cbv beta in *; rewrite sget_sput; let H := fresh in pose proof Hs as H; destruct H;
  split; fields; try apply map_Forall_insert_2; try apply map_Forall_delete; eauto 3 with typed;
  try done.

Section handlers.
Context {S E : Type} `{!Overflow}.
Context `{!Store S (Frame E), !Store S SavingStore, !Store S PriceStore, !Inject SavingEvent E}.
Context `{!Separate S (Frame E) SavingStore}.
Context `{!Ledger S, !LedgerEvents E, !LedgerSpec S E}.
Context (Hforeign : foreign SavingStore _).
Context (unreleased_keys : gmap AccountId (list ShareReleasePack) -> list AccountId).
Context (shares_keys : gmap AccountId Balance -> list AccountId).
Implicit Types (s : S) (st : SavingStore) (who : AccountId).
#[local] Abbreviation sst := (sget (T:=SavingStore)).
#[local] Abbreviation B := balance_bits.
#[local] Abbreviation any := (fun _ => True).
#[local] Abbreviation ok := (fun s : S => store_typed (sst s)).

(** What does not write the storage. *)
Lemma same_typed {A} (m : M S A) : preserves (same (S:=S) (fun st => st)) m -> typed ok m any.
Proof.
  intros Hm. apply typed_preserves. intros s. eapply wp_mono; [apply (Hm s)| | |done];
    unfold same; intros ? s' -> Hs; exact Hs.
Qed.
Lemma typed_transfer a from to x : typed ok (make_transfer_with_event a from to x) any.
Proof. by apply same_typed, same_transfer. Qed.
Lemma typed_mint a to x : typed ok (mint Root a to x) any.
Proof. by apply same_typed, same_mint. Qed.
Lemma typed_burn a to x : typed ok (burn Root a to x) any.
Proof. by apply same_typed, same_burn. Qed.
Lemma typed_event (e : SavingEvent) : typed ok (deposit_event (E:=E) e) any.
Proof. by apply same_typed, same_event. Qed.
Lemma typed_free_balance a who : typed ok (free_balance_of a who) any.
Proof. apply same_typed, preserves_free_balance, _. Qed.
#[local] Hint Resolve typed_transfer typed_mint typed_burn typed_event typed_free_balance : typed.

(** *** The hooks *)
Lemma typed_pause line : typed ok (_pause (E:=E) line) any.
Proof. unfold _pause. eapply typed_bind; [typed_write|]. typed_steps. Qed.
#[local] Hint Resolve typed_pause : typed.

Lemma typed_mutate_shares who op line :
  (forall v v', op v = Some v' -> in_width B v') -> typed ok (mutate_shares (E:=E) who op line) any.
Proof.
  intros Hop. unfold mutate_shares. do 2 typed_step.
  eapply (typed_bind _ _ _ (in_width B)); [typed_steps; eauto with typed|].
  intros v Hv. typed_write.
Qed.
Lemma typed_mutate_circulation op line :
  (forall v v', op v = Some v' -> in_width B v') -> typed ok (mutate_circulation (E:=E) op line) any.
Proof.
  intros Hop. unfold mutate_circulation. do 2 typed_step.
  eapply (typed_bind _ _ _ (in_width B)); [typed_steps; eauto with typed|].
  intros v Hv. typed_write.
Qed.
Lemma checked_typed w r x : checked w r = Some x -> in_width w x.
Proof. by intros [-> ?]%checked_Some. Qed.
#[local] Hint Resolve typed_mutate_shares typed_mutate_circulation : typed.
#[local] Hint Resolve checked_typed : typed.
#[local] Hint Unfold checked_add checked_sub checked_mul : typed.
Lemma typed_add_shares who x line : in_width B x -> typed ok (add_shares (E:=E) who x line) any.
Proof.
  intros Hx. unfold add_shares. typed_steps. typed_write.
Qed.
#[local] Hint Resolve typed_add_shares : typed.
Lemma typed_on_asset_mint a to x : in_width B x -> typed ok (on_asset_mint (E:=E) a to x) any.
Proof. intros Hx. unfold on_asset_mint. typed_steps. done. Qed.
Lemma typed_on_asset_burn a from x : typed ok (on_asset_burn (E:=E) a from x) any.
Proof. unfold on_asset_burn. typed_steps; done. Qed.
#[local] Hint Resolve typed_on_asset_mint typed_on_asset_burn : typed.
Lemma typed_asset_mint a to x : in_width B x -> typed ok (asset_mint (E:=E) Root a to x) any.
Proof. intros Hx. unfold asset_mint. typed_steps. Qed.
Lemma typed_asset_burn a from x : typed ok (asset_burn (E:=E) Root a from x) any.
Proof. unfold asset_burn. typed_steps. Qed.
#[local] Hint Resolve typed_asset_mint typed_asset_burn : typed.

Lemma typed_reserved_amount x : typed ok (reserved_amount x) (in_width B).
Proof.
  unfold reserved_amount. do 2 typed_step. eapply typed_weaken; [apply typed_lift|].
  intros y (p & _ & (a & _ & (b & Hb%arith_typed & (c & Hc%arith_typed & Hy)%bind_Some)%bind_Some)%bind_Some)%bind_Some;
    [|done..]. eapply udiv_typed; [exact Hy|exact Hb|apply Hc].
Qed.
Lemma typed_create_reserved x : in_width B x -> typed ok (create_reserved (E:=E) x) any.
Proof. intros Hx. unfold create_reserved. typed_steps. Qed.
Lemma typed_burn_reserved x : typed ok (burn_reserved (E:=E) x) any.
Proof. unfold burn_reserved. typed_steps. Qed.
#[local] Hint Resolve typed_reserved_amount typed_create_reserved typed_burn_reserved : typed.

(** *** Packs in the storage *)
Lemma typed_mint_share who p :
  pack_typed who p -> typed ok (mint_share (E:=E) p) (fun r => pack_typed who r.2).
Proof.
  intros Hp. unfold mint_share. destruct (release_typed _ _ Hp) as [Hb Hp'].
  destruct (release p) as [[b|] p']; cbn in *; [|by typed_step].
  eapply typed_bind; [apply typed_asset_mint; auto|]. intros [] _. by typed_step.
Qed.
Lemma typed_mint_assets who iou p :
  in_width B (iou_balance iou) -> pack_typed who p ->
  typed ok (mint_assets (E:=E) (Some iou) (Some p)) (fun r => forall q, r.2 = Some q -> pack_typed who q).
Proof.
  intros Hi Hp. unfold mint_assets, mint_iou.
  eapply (typed_bind _ _ _ any); [by typed_steps|]. intros i _.
  eapply typed_bind; [by apply typed_mint_share|]. intros r Hr. typed_step. by intros q [= <-].
Qed.
Lemma typed_create_pack who a x info :
  typed ok (create_release_pack_for_saving who a x info) (fun p => stored_pack who p /\ pk_asset_id p = a).
Proof.
  unfold create_release_pack_for_saving. case_decide; [apply typed_fail|].
  eapply typed_bind; [apply typed_lift|]. intros b Hb%checked_typed. do 2 typed_step.
  case_decide; [apply typed_fail|]. eapply typed_weaken; [apply typed_lift|].
  intros p Hp. eapply create_typed; [exact Hp|done|by apply ty_left].
Qed.
Lemma typed_register p : pack_typed (pk_owner p) p -> typed ok (register_share_pack p) any.
Proof.
  intros Hp. unfold register_share_pack, unwrap_sum. typed_step; [by typed_step|].
  assert (stored_pack (pk_owner p) p) as Hs by done.
  do 2 typed_step. typed_step; [typed_write; by constructor|]. do 2 typed_step.
  eapply typed_bind; [typed_write|]. intros [] _.
  eapply (typed_bind _ _ _ (Forall (stored_pack (pk_owner p)))).
  - typed_step. intros r Hr. typed_step; typed_steps. eapply aggregate_typed; [exact Hr|].
    apply Forall_app. split; [by apply future_typed|by constructor].
  - intros l Hl. typed_write.
Qed.
Lemma typed_release_packs who l :
  Forall (stored_pack who) l -> typed ok (release_packs (E:=E) l) (Forall (stored_pack who)).
Proof.
  induction 1 as [|p l [Hp _] _ IH]; cbn [release_packs]; [by typed_step|].
  eapply typed_bind; [by apply typed_unwrap, typed_mint_share|]. intros r Hr.
  eapply typed_bind; [exact IH|]. intros l' Hl'. typed_step.
  unfold is_empty. destruct (pk_empty r.2) eqn:He; [done|]. by constructor.
Qed.
Lemma typed_release_account who : typed ok (release_account (E:=E) who) any.
Proof.
  unfold release_account. typed_step. intros ? (s & Hs & ->).
  eapply typed_bind; [by apply typed_release_packs, future_typed|]. intros l Hl.
  eapply typed_bind; [typed_write|]. intros [] _. typed_step; [typed_write|by typed_step].
Qed.

(** *** Staking *)
Lemma typed_shift id : typed ok (shift_next_phase (E:=E) unreleased_keys id) any.
Proof.
  unfold shift_next_phase, shares_release_by_phase_change.
  eapply typed_bind; [apply typed_lift|]. intros new Hn%checked_typed.
  eapply (typed_bind _ _ _ any).
  { apply typed_unwrap. do 2 typed_step. apply typed_for_each, typed_release_account. }
  intros [] _. do 3 typed_step.
  - eapply typed_bind; [typed_write|]. intros [] _. eapply typed_bind; [typed_write|]. intros [] _.
    eapply typed_bind; [typed_write|].
    { pose proof (ty_left _ Hs) as Hl. unfold in_width in *. case_decide; lia. }
    intros [] _. by typed_steps.
  - eapply typed_bind; [typed_write|]. { by apply phase_info_typed. }
    intros [] _. by typed_step.
Qed.
Lemma typed_split x info :
  in_width B x -> typed ok (staking_split x info) (fun r => in_width B r.1.1 /\ in_width B r.2).
Proof.
  intros Hx. unfold staking_split. do 2 typed_step. eapply typed_bind; [apply typed_lift|].
  intros q Hq%checked_typed. typed_step; [typed_step; [by typed_step|]|].
  - eapply typed_bind; [typed_write|]. intros [] _. by typed_step.
  - do 4 typed_step. typed_step. cbn. split; by eapply arith_typed.
Qed.
Lemma typed_stake_in_phase who a info x :
  in_width B x -> typed ok (stake_in_phase (E:=E) who a info x) any.
Proof.
  intros Hx. unfold stake_in_phase, create_iou, register_iou.
  eapply typed_bind; [apply typed_lift|]. intros iou (i & _ & [= <-])%bind_Some.
  eapply typed_bind; [apply typed_create_pack|]. intros p [[Hp _] _].
  eapply typed_bind; [by apply typed_mint_assets|]. intros r Hr.
  eapply typed_bind; [by apply (typed_ret _ _ any)|]. intros [] _.
  eapply typed_bind; [apply typed_lift|]. intros q Hq%Hr.
  eapply typed_bind; [apply typed_register; by rewrite (pt_owner _ _ Hq)|]. intros [] _.
  typed_steps.
Qed.
Lemma typed_create_staking_from stop fuel who x :
  typed ok stop (in_width B) -> in_width B x ->
  typed ok (create_staking_from (E:=E) unreleased_keys stop fuel who x) (in_width B).
Proof.
  intros Hstop. revert x. induction fuel as [|fuel IH]; intros x Hx; cbn [create_staking_from]; [done|].
  do 12 typed_step. eapply typed_bind; [by apply typed_split|]. intros [[b next] rest] [Hb Hr].
  cbn in Hb, Hr. eapply typed_bind; [by apply typed_stake_in_phase|]. intros [] _.
  destruct next; [|by typed_step]. eapply typed_bind; [apply typed_shift|]. intros shifted _.
  destruct (decide (is_Some shifted /\ 0 < rest)); [|by typed_step]. eapply typed_bind; [by apply IH|]. intros more Hm.
  eapply typed_weaken; [apply typed_lift|]. intros y Hy. eapply (uadd_typed B); [exact Hy|done].
Qed.
Lemma typed_create_staking who x :
  in_width B x -> typed ok (create_staking (E:=E) unreleased_keys who x) (in_width B).
Proof.
  intros Hx. unfold create_staking. do 2 typed_step. apply typed_create_staking_from; [apply typed_panic|done].
Qed.
#[local] Hint Resolve typed_create_staking : typed.

(** *** Redemption *)
Lemma typed_required_balances a x : typed ok (required_balances a x) any.
Proof. apply same_typed. unfold required_balances. preserves_steps. Qed.
#[local] Hint Resolve typed_required_balances : typed.
Lemma typed_check_can_redeem a who x : typed ok (check_can_redeem a who x) any.
Proof. apply same_typed. unfold check_can_redeem, required_balances. preserves_steps. Qed.
#[local] Hint Resolve typed_check_can_redeem : typed.
Lemma typed_use_returned who r f l : typed ok (use_returned who r f l) any.
Proof.
  unfold use_returned. case_decide; [|by typed_step]. case_decide.
  - eapply typed_bind; [typed_write|]. intros [] _. by typed_steps.
  - typed_step. intros left _. case_decide.
    + typed_step. intros l' Hl'. eapply typed_bind; [typed_write|]. intros [] _. by typed_steps.
    + eapply typed_bind; [typed_write|]. intros [] _. by typed_steps.
Qed.
Lemma typed_deductions who a r u f l : typed ok (balance_deductions who a r u f l) any.
Proof. apply same_typed. unfold balance_deductions. preserves_steps. Qed.
Lemma typed_make_redeem iou who ca coll x sa : typed ok (make_redeem (E:=E) iou who ca coll x sa) any.
Proof.
  unfold make_redeem. do 4 typed_step. eapply typed_bind; [apply typed_required_balances|].
  intros [[phase required] [free locked]] _. eapply typed_bind; [apply typed_use_returned|].
  intros [[to_burn f] l] _. typed_step. intros ? (s & Hs & ->).
  eapply typed_bind; [typed_write|]. intros [] _. typed_step. intros u _.
  eapply typed_bind; [apply typed_deductions|]. intros [f' l'] _. do 8 typed_step.
  do 2 typed_step. typed_step. intros tb _. unfold try_sum.
  eapply (typed_bind _ _ _ (Forall (stored_pack who))).
  { typed_step. intros r Hr. typed_step; [apply typed_fail|]. typed_step.
    eapply aggregate_typed; [exact Hr|by apply future_typed]. }
  intros nl Hnl. eapply typed_bind; [typed_write|]. intros [] _.
  eapply (typed_bind _ _ _ any); [by typed_steps|]. intros [] _. typed_steps.
Qed.
#[local] Hint Resolve typed_make_redeem : typed.

(** *** The hooks on transfers, the bonus and the calls *)
Lemma typed_track from to x : in_width B x -> typed ok (track_share_asset_movement (E:=E) from to x) any.
Proof.
  intros Hx. unfold track_share_asset_movement. do 2 typed_step.
  eapply (typed_bind _ _ _ any); [|intros [] _; by typed_steps].
  typed_step; [do 2 typed_step; typed_step; [by typed_steps|]; typed_step; [typed_write|]|].
  - do 4 typed_step. typed_write.
  - do 4 typed_step. typed_write.
Qed.
#[local] Hint Resolve typed_track : typed.
Lemma typed_on_asset_transfer a from to x :
  in_width B x -> typed ok (on_asset_transfer (E:=E) unreleased_keys a from to x) any.
Proof. intros Hx. unfold on_asset_transfer. by typed_steps. Qed.
#[local] Hint Resolve typed_on_asset_transfer : typed.
Lemma typed_before a from to x : typed ok (before_asset_transfer a from to x) any.
Proof. unfold before_asset_transfer. by typed_steps. Qed.
#[local] Hint Resolve typed_before : typed.
Lemma typed_asset_transfer o a to x :
  in_width B x -> typed ok (asset_transfer (E:=E) unreleased_keys o a to x) any.
Proof. intros Hx. unfold asset_transfer. by typed_steps. Qed.

Lemma typed_dispatch_bonus : typed ok (dispatch_bonus (E:=E) shares_keys) any.
Proof.
  assert (forall pa pool users c w, typed ok (pay_bonus pa pool users c w) any) as Hpay
    by (intros; unfold pay_bonus; by typed_steps).
  assert (forall pa pool users c l, typed ok (for_each (pay_bonus pa pool users c) l) any)
    by (intros; by apply typed_for_each).
  unfold dispatch_bonus. by typed_steps.
Qed.
#[local] Hint Resolve typed_dispatch_bonus : typed.
Lemma typed_check_bonus : typed ok (check_bonus_time (E:=E)) any.
Proof.
  unfold check_bonus_time. do 4 typed_step. typed_step.
  - do 2 typed_step. typed_step. typed_step. eapply typed_bind; [typed_write|]. intros [] _. by typed_step.
  - do 2 typed_step. typed_step; [by typed_step|]. do 2 typed_step.
    eapply typed_bind; [typed_write|]. intros [] _. by typed_step.
Qed.
#[local] Hint Resolve typed_check_bonus : typed.
Lemma typed_on_initialize : typed ok (on_initialize (E:=E) shares_keys) any.
Proof. unfold on_initialize. by typed_steps. Qed.

Context (known_asset : AssetId -> S -> bool).
(** The arguments that are stored fit their types. *)
Definition call_typed (c : Call) : Prop :=
  match c with
  | CallSetIouAssetIdForPhase phase_id _ => in_width term_bits phase_id
  | CallStaking _ x | CallSudoStaking _ x _ => in_width B x
  | _ => True
  end.
Lemma typed_known a : typed ok (asset_known known_asset a) any.
Proof. intros s Hs. by eapply wp_run_Ok. Qed.
#[local] Hint Resolve typed_known : typed.
Lemma typed_set_iou o phase_id a :
  in_width term_bits phase_id -> typed ok (set_iou_asset_id_for_phase known_asset o phase_id a) any.
Proof.
  intros Hp. unfold set_iou_asset_id_for_phase. do 10 typed_step.
  eapply typed_bind; [typed_write|]. intros [] _. eapply typed_bind; [typed_write|]; [|intros [] _; typed_write].
  destruct (phase_info_typed phase_id _ Hs) as (? & ? & ?). by unfold info_typed; fields.
Qed.
Lemma typed_stake a x who : in_width B x -> typed ok (stake (E:=E) unreleased_keys a x who) any.
Proof. intros Hx. unfold stake. by typed_steps. Qed.
Lemma typed_redeem who a x b : typed ok (redeem_of (E:=E) who a x b) any.
Proof.
  unfold redeem_of. do 14 typed_step. eapply (typed_bind _ _ _ any); [destruct b; by typed_steps|].
  intros [] _. do 2 typed_step. eapply (typed_bind _ _ _ any); [|intros [] _; by typed_steps].
  apply typed_or_else; [apply typed_make_redeem|]. intros e. by typed_steps.
Qed.
#[local] Hint Resolve typed_set_iou typed_stake typed_redeem : typed.
Lemma typed_not_paused : typed ok not_paused any.
Proof. unfold not_paused. by typed_steps. Qed.
#[local] Hint Resolve typed_not_paused : typed.
Lemma typed_dispatch o c :
  call_typed c -> typed ok (dispatch (E:=E) unreleased_keys shares_keys known_asset o c) any.
Proof.
  destruct c; cbn [call_typed dispatch]; intros Hc; [..|by unfold force_release_bonus; typed_steps].
  all: first [by apply typed_set_iou
    |by unfold staking, sudo_staking, redeem, sudo_redeem; typed_steps
    |unfold pause, resume, set_share_asset_id, set_collection_account, set_collection_asset_id,
       set_profit_asset_id, set_profit_pool, set_team_account_id, root_sets, root_sets_asset;
     repeat typed_step; typed_write].
Qed.

(** ** Runs: calls, the movements of the ledger with their hooks, blocks, and steps
    of other pallets, with whatever outcome *)
Inductive saving_step (s : S) : S -> Prop :=
| step_call o c s' : call_typed c ->
    leads (dispatch (E:=E) unreleased_keys shares_keys known_asset o c) s s' -> saving_step s s'
| step_mint a to x s' : in_width B x -> leads (asset_mint (E:=E) Root a to x) s s' -> saving_step s s'
| step_burn a from x s' : leads (asset_burn (E:=E) Root a from x) s s' -> saving_step s s'
| step_transfer o a to x s' : in_width B x ->
    leads (asset_transfer (E:=E) unreleased_keys o a to x) s s' -> saving_step s s'
| step_block s' : leads (on_initialize (E:=E) shares_keys) s s' -> saving_step s s'
| step_others s' : sst s' = sst s -> saving_step s s'.

Lemma saving_step_typed s s' : ok s -> saving_step s s' -> ok s'.
Proof.
  intros Hs [o c s1 Hc Hr|a to x s1 Hx Hr|a from x s1 Hr|o a to x s1 Hx Hr|s1 Hr|s1 Hr];
    [eapply (typed_leads ok _ any) in Hr; [done| |done]..|by rewrite Hr].
  - by apply typed_dispatch.
  - by apply typed_asset_mint.
  - apply typed_asset_burn.
  - by apply typed_asset_transfer.
  - apply typed_on_initialize.
Qed.

(** *** The genesis *)
Definition phase_config_typed (p : Balance * Balance * AssetId) : Prop :=
  in_width B p.1.1 /\ in_width B p.1.2.
Lemma genesis_phases_typed l p :
  Forall phase_config_typed l -> in_width term_bits (Z.of_nat (length l)) ->
  p ∈ genesis_phases l -> in_width term_bits p.1 /\ info_typed p.2.
Proof.
  intros Hl [_ Hn] (i & [[q e] a] & -> & Hi)%elem_of_lookup_imap.
  assert (in_width term_bits (Z.of_nat (i + 1))) as Hw
    by (apply lookup_lt_Some in Hi; unfold in_width; lia).
  rewrite Forall_lookup in Hl. by destruct (Hl _ _ Hi).
Qed.
Lemma genesis_typed ca sa pa ra coll pool team wallet current t l :
  in_width term_bits current -> in_width moment_bits t ->
  in_width term_bits (Z.of_nat (length l)) -> Forall phase_config_typed l ->
  store_typed (genesis ca sa pa ra coll pool team wallet current t l).
Proof.
  intros Hc Ht Hn Hl. pose proof (fun p => genesis_phases_typed l p Hl Hn) as Hp.
  assert (in_width term_bits (Z.of_nat (length l) mod 2 ^ term_bits)) as Hm
    by (by rewrite Z.mod_small).
  split; cbn [genesis ShareAssetCollected IOUAssetPhaseId CurrentPhaseId QuotaUsed NumOfPhasesLeft
    NumOfPhases PhaseInfos ShareUnreleasedList AccountShares SharesCirculation LastBonusTime];
    try done; try apply map_Forall_empty.
  - apply foldl_map_Forall; [apply map_Forall_empty|]. intros m p Hin Hm'.
    destruct (iou_asset_id p.2); [|done]. apply map_Forall_insert_2; [by apply Hp|done].
  - apply foldl_map_Forall; [apply map_Forall_empty|]. intros m p Hin Hm'.
    apply map_Forall_insert_2; [by apply Hp|done].
Qed.

(** C32: every number stays in its machine type: from a genesis with fitting phases,
    over all runs of calls, ledger movements with their hooks and blocks, whatever
    their outcome and whether the build checks for overflow or wraps, the stored
    balances fit 128 bits, the phases and terms 32 and the moment 64, and the packs
    kept for an account are its own, not empty, and empty exactly when no term is
    left. *)
Theorem storage_well_typed ca sa pa ra coll pool team wallet current t l s0 s :
  sst s0 = genesis ca sa pa ra coll pool team wallet current t l ->
  in_width term_bits current -> in_width moment_bits t ->
  in_width term_bits (Z.of_nat (length l)) -> Forall phase_config_typed l ->
  rtc saving_step s0 s -> store_typed (sst s).
Proof.
  intros H0 Hc Ht Hn Hl Hrun. assert (ok s0) as Hs by (rewrite H0; by apply genesis_typed).
  clear H0. induction Hrun as [|s0 s1 s Hstep _ IH]; [done|]. by eapply IH, saving_step_typed.
Qed.
End handlers.
