(* ===== verification/SavingContracts.v ===== *)
(** * The savings: what a staking and a redemption do to the ledger *)
From S2P Require Export Client SavingTypes.
#[local] Open Scope Z_scope.
Import RioSaving.

Section contracts.
Context {S E : Type} `{!Overflow}.
Context `{!Store S (Frame E), !Store S SavingStore, !Store S PriceStore, !Inject SavingEvent E}.
Context `{!Separate S (Frame E) SavingStore}.
Context `{!Ledger S, !LedgerEvents E, !LedgerSpec S E}.
Context (Hforeign : foreign SavingStore _) (Hchecks : overflow_checks = true).
Context (unreleased_keys : gmap AccountId (list ShareReleasePack) -> list AccountId).
Implicit Types (s : S) (st : SavingStore) (who : AccountId).
#[local] Abbreviation sst := (sget (T:=SavingStore)).
#[local] Abbreviation B := balance_bits.
#[local] Abbreviation any := (fun _ => True).

(** ** Staking is backed

    The shares move at every change of the phase; the other assets have the
    balances [bal]. *)
Section staking.
Context (sa : AssetId).
Implicit Types (bal : AssetId -> AccountId -> Z).

(** All the recorded packs are packs of the share asset. *)
Definition packs_in (st : SavingStore) : Prop :=
  map_Forall (fun _ => Forall (fun p => pk_asset_id p = sa)) (ShareUnreleasedList st).
Record staking_inv bal s : Prop := {
  si_ledger : ledger_inv s;
  si_balance b w : b <> sa -> balance_of b w s = bal b w;
  si_typed : store_typed (sst s);
  si_packs : packs_in (sst s);
  si_share : ShareAssetId (sst s) = sa;
}.

Lemma staking_inv_ledger bal s s' :
  staking_inv bal s -> same_ledger s' s -> store_typed (sst s') -> packs_in (sst s') ->
  ShareAssetId (sst s') = sa -> staking_inv bal s'.
Proof. intros [] Hl. split; try done; [by rewrite Hl|]. intros b w Hb. rewrite Hl. auto. Qed.
Lemma staking_inv_put bal st' s :
  staking_inv bal s -> store_typed st' -> packs_in st' -> ShareAssetId st' = sa ->
  staking_inv bal (sput st' s).
Proof.
  intros. eapply staking_inv_ledger; [done|by apply (same_ledger_foreign (E:=E))|..];
    by rewrite sget_sput.
Qed.

(** *** The hook on a mint *)
Definition hook_only s s' : Prop :=
  same_ledger s' s /\ ShareUnreleasedList (sst s') = ShareUnreleasedList (sst s) /\
  ShareAssetId (sst s') = ShareAssetId (sst s).
#[local] Instance hook_only_preorder : PreOrder hook_only.
Proof.
  split; [by intros s|]. intros s1 s2 s3 (Hl1 & ? & ?) (Hl2 & ? & ?).
  split_and!; [by rewrite Hl2, Hl1|congruence..].
Qed.
Lemma hook_only_write (g : SavingStore -> SavingStore) :
  (forall st, ShareUnreleasedList (g st) = ShareUnreleasedList st) ->
  (forall st, ShareAssetId (g st) = ShareAssetId st) -> preserves hook_only (modify (S:=S) g).
Proof.
  intros Hp Ha. apply preserves_modify. intros s. unfold hook_only. rewrite sget_sput.
  split_and!; [by apply (same_ledger_foreign (E:=E))|apply Hp|apply Ha].
Qed.
Lemma hook_only_event (e : SavingEvent) : preserves hook_only (deposit_event (S:=S) (E:=E) e).
Proof.
  apply preserves_modify. intros s. unfold hook_only. store.
  split_and!; [by apply (same_ledger_frame (E:=E))|done|done].
Qed.
#[local] Hint Resolve hook_only_event : preserves.
Lemma hook_only_mint a to x : preserves hook_only (on_asset_mint (E:=E) a to x).
Proof.
  unfold on_asset_mint, add_shares, mutate_shares, mutate_circulation, _pause.
  preserves_steps; by apply hook_only_write.
Qed.
Definition credit bal (a : AssetId) (w : AccountId) (x : Z) : AssetId -> AccountId -> Z :=
  fun b v => bal b v + at_account a w x b v.
Lemma inv_mint bal a to x s :
  staking_inv bal s -> in_width B x ->
  wp (asset_mint (E:=E) Root a to x) (fun _ => staking_inv (credit bal a to x))
    (fun _ => staking_inv bal) True s.
Proof.
  intros Hs Hx. unfold asset_mint. wp_step.
  wp_apply (mint_spec (E:=E) a to x s); [apply Hs|apply Hx| |by intros e s' [_ ->]|done].
  intros [] s1 [_ Hc]. assert (sst s1 = sst s) as Hst by (by apply (lc_foreign _ _ _ _ Hc)).
  assert (staking_inv (credit bal a to x) s1) as Hs1.
  { destruct Hs. split; rewrite ?Hst; try done; [apply Hc|]. intros b w Hb.
    rewrite (lc_balance _ _ _ _ Hc). unfold credit. f_equal. auto. }
  wp_step. pose proof (typed_on_asset_mint a to x Hx s1 (si_typed _ _ Hs1)) as Ht.
  eapply wp_mono; [exact (wp_conj _ _ _ _ _ _ _ _ Ht (hook_only_mint a to x s1))|..|done];
    intros ? s2 [Hts (Hl & Hp & Ha)]; [|wp_step];
    (eapply (staking_inv_ledger _ s1); [exact Hs1|done|tauto|unfold packs_in; rewrite Hp; apply Hs1|
       rewrite Ha; apply Hs1]).
Qed.
Lemma staking_inv_ext bal bal' s :
  staking_inv bal s -> (forall b w, b <> sa -> bal b w = bal' b w) -> staking_inv bal' s.
Proof. intros [] Hb. split; try done. intros b w Hne. rewrite <-Hb by done. auto. Qed.

(** *** What mints shares only *)
Section shares_only.
Context (bal : AssetId -> AccountId -> Z).
#[local] Abbreviation inv := (staking_inv bal).

Lemma inv_mint_share to x : in_width B x -> typed inv (asset_mint (E:=E) Root sa to x) any.
Proof.
  intros Hx s Hs. wp_apply (inv_mint bal sa to x s Hs Hx); [|done|done]. intros [] s' Hs'.
  split; [done|]. eapply staking_inv_ext; [exact Hs'|]. intros b w Hb.
  unfold credit, at_account. rewrite decide_False by tauto. lia.
Qed.
Lemma inv_write (g : SavingStore -> SavingStore) :
  typed (S:=S) (fun s => store_typed (sst s)) (modify g) any ->
  (forall st, packs_in st -> packs_in (g st)) ->
  (forall st, ShareAssetId (g st) = ShareAssetId st) -> typed inv (modify g) any.
Proof.
  intros Ht Hp Ha. apply typed_modify. intros s Hs. pose proof Hs as [].
  apply staking_inv_put; [done| |by apply Hp|by rewrite Ha].
  pose proof (proj2 (wp_Ok _ _ _ _ _ tt _ (Ht s si_typed0) eq_refl)) as Hg. by rewrite sget_sput in Hg.
Qed.
Lemma inv_event (e : SavingEvent) : typed inv (deposit_event (E:=E) e) any.
Proof.
  apply typed_modify. intros s Hs. pose proof Hs as [].
  eapply staking_inv_ledger; [done|by apply (same_ledger_frame (E:=E))|by store..].
Qed.

Definition share_pack who (p : ShareReleasePack) : Prop := pack_typed who p /\ pk_asset_id p = sa.
Lemma inv_future who s :
  inv s -> Forall (fun p => stored_pack who p /\ pk_asset_id p = sa) (account_future_releases who (sst s)).
Proof.
  intros Hs. apply Forall_and. split; [by apply future_typed, Hs|].
  unfold account_future_releases, get_or. destruct (ShareUnreleasedList (sst s) !! who) as [l|] eqn:Hl; [|done].
  exact (si_packs _ _ Hs who l Hl).
Qed.
Lemma inv_put_packs who l :
  Forall (fun p => stored_pack who p /\ pk_asset_id p = sa) l ->
  typed inv (modify (S:=S) (fun st => st <| ShareUnreleasedList ::= <[who := l]> |>)) any.
Proof.
  intros [Hl Ha]%Forall_and. apply inv_write; [typed_write| |done].
  intros st Hst. by apply map_Forall_insert_2.
Qed.
Lemma inv_delete_packs who :
  typed inv (modify (S:=S) (fun st => st <| ShareUnreleasedList ::= delete who |>)) any.
Proof.
  apply inv_write; [typed_write| |done]. intros st Hst. by apply map_Forall_delete.
Qed.

Lemma inv_mint_share_pack who p :
  share_pack who p -> typed inv (mint_share (E:=E) p) (fun r => share_pack who r.2).
Proof.
  intros [Hp Ha]. unfold mint_share. destruct (release_typed _ _ Hp) as [Hb Hp'].
  pose proof (release_spec p (pack_typed_ok _ _ Hp)) as Hr.
  destruct (release p) as [[b|] p']; cbn in *; [|typed_step; destruct Hr as [_ ->]; by split].
  destruct Hr as (_ & _ & _ & _ & _ & Ha' & _). rewrite Ha', Ha.
  eapply typed_bind; [apply inv_mint_share; auto|]. intros [] _. typed_step. split; [done|cbn; congruence].
Qed.
Lemma inv_release_packs who l :
  Forall (fun p => stored_pack who p /\ pk_asset_id p = sa) l ->
  typed inv (release_packs (E:=E) l) (Forall (fun p => stored_pack who p /\ pk_asset_id p = sa)).
Proof.
  induction 1 as [|p l [[Hp _] Ha] _ IH]; cbn [release_packs]; [by typed_step|].
  eapply typed_bind; [by apply typed_unwrap, inv_mint_share_pack|]. intros r [Hr Hra].
  eapply typed_bind; [exact IH|]. intros l' Hl'. typed_step.
  unfold is_empty. destruct (pk_empty r.2) eqn:He; [done|]. by constructor.
Qed.
Lemma inv_release_account who : typed inv (release_account (E:=E) who) any.
Proof.
  unfold release_account. typed_step. intros ? (s & Hs & ->).
  eapply typed_bind; [by apply inv_release_packs, inv_future|]. intros l Hl.
  eapply typed_bind; [apply inv_delete_packs|]. intros [] _.
  typed_step; [by apply inv_put_packs|by typed_step].
Qed.
Lemma inv_shift id : typed inv (shift_next_phase (E:=E) unreleased_keys id) any.
Proof.
  unfold shift_next_phase, shares_release_by_phase_change.
  eapply typed_bind; [apply typed_lift|]. intros new Hn%checked_typed.
  eapply (typed_bind _ _ _ any).
  { apply typed_unwrap. do 2 typed_step. apply typed_for_each, inv_release_account. }
  intros [] _. do 3 typed_step.
  - eapply typed_bind; [by apply inv_write; [typed_write|..]|]. intros [] _.
    eapply typed_bind; [by apply inv_write; [typed_write|..]|]. intros [] _.
    eapply typed_bind; [apply inv_write; [typed_write|done..]|].
    { unfold in_width in *. case_decide; lia. }
    intros [] _. eapply typed_bind; [apply inv_event|]. intros [] _. by typed_step.
  - eapply typed_bind; [apply inv_write; [typed_write; by apply phase_info_typed|done..]|].
    intros [] _. by typed_step.
Qed.
Lemma inv_split x info :
  in_width B x -> typed inv (staking_split x info) (fun r => in_width B r.1.1 /\ in_width B r.2).
Proof.
  intros Hx. unfold staking_split. do 2 typed_step. eapply typed_bind; [apply typed_lift|].
  intros q Hq%checked_typed. typed_step; [typed_step; [by typed_step|]|].
  - eapply typed_bind; [by apply inv_write; [typed_write|..]|]. intros [] _. by typed_step.
  - do 4 typed_step. typed_step. cbn. split; by eapply arith_typed.
Qed.

Lemma aggregate_asset l ph who change l' :
  aggregate_phase_unreleased l ph sa who change = Some (inr l') ->
  Forall (fun p => pk_asset_id p = sa) l -> Forall (fun p => pk_asset_id p = sa) l'.
Proof.
  intros (acc & Hacc & Hr)%aggregate_cases Hl.
  assert (in_width B 0 /\ in_width term_bits 0) as [Hb0 Ht0] by done.
  destruct (aggregate_loop_spec Hchecks _ _ _ _ _ Hacc Hb0 Ht0) as (Hn & _ & Hu & Ht).
  assert (Forall (fun p => pk_asset_id p = sa) (new_list acc)) as Hnew.
  { rewrite Hn. cbn. apply Forall_forall. intros p [_ Hp]%list_elem_of_filter. rewrite Forall_forall in Hl; auto. }
  destruct Hr as [->|(b & (p & Hp & [= <-])%bind_Some & Hw)]; [done|].
  apply create_typed in Hp as [_ Ha]; [|by apply Hw|done].
  apply Forall_app. split; [done|]. constructor; [|done]. by fields.
Qed.
Lemma inv_register p : share_pack (pk_owner p) p -> typed inv (register_share_pack p) any.
Proof.
  intros [Hp Ha]. unfold register_share_pack, unwrap_sum. typed_step; [by typed_step|].
  assert (stored_pack (pk_owner p) p) as Hs by done.
  do 2 typed_step. typed_step; [apply inv_put_packs; by constructor|]. do 2 typed_step.
  eapply typed_bind; [apply inv_delete_packs|]. intros [] _.
  eapply (typed_bind _ _ _ (Forall (fun q => stored_pack (pk_owner p) q /\ pk_asset_id q = sa)));
    [|intros l Hl; by apply inv_put_packs].
  typed_step. intros r Hr. typed_step; [by typed_step|]. typed_step.
  match goal with Hx : inv ?y |- _ => pose proof (inv_future (pk_owner p) y Hx) as [Hf Hfa]%Forall_and end.
  rewrite Ha in Hr. apply Forall_and. split.
  - eapply aggregate_typed; [exact Hr|]. apply Forall_app. split; [done|by constructor].
  - eapply aggregate_asset; [exact Hr|]. apply Forall_app. split; [done|by constructor].
Qed.
End shares_only.

(** *** The IOU of a phase *)
Lemma inv_stake_in_phase bal who info x s :
  staking_inv bal s -> in_width B x ->
  wp (stake_in_phase (E:=E) who sa info x)
    (fun _ s' => exists i, iou_asset_id info = Some i /\ staking_inv (credit bal i who x) s')
    (fun _ s' => staking_inv bal s' \/
       exists i, iou_asset_id info = Some i /\ staking_inv (credit bal i who x) s') True s.
Proof.
  intros Hs Hx. unfold stake_in_phase, create_iou, register_iou. wp_step.
  apply wp_lift; split; [intros iou (i & Hi & [= <-])%bind_Some|done]. wp_step.
  assert (preserves eq (create_release_pack_for_saving (S:=S) who sa x info)) as Hpure
    by (unfold create_release_pack_for_saving; preserves_steps).
  eapply wp_mono; [exact (wp_conj _ _ _ _ _ _ _ _ (typed_create_pack who sa x info s (si_typed _ _ Hs)) (Hpure s))
    |..|done]; [|intros e s1 [_ <-]; by left].
  intros p s1 [[[[Hp _] Ha] _] <-]. wp_step. unfold mint_assets, mint_iou. do 2 wp_step.
  wp_apply (inv_mint bal i who x s Hs Hx); [|by intros e s1 Hs1; left|done]. intros [] s1 Hs1. do 2 wp_step.
  wp_apply (inv_mint_share_pack _ who p ltac:(by split) s1 Hs1); [|by intros e s2 Hs2; right; exists i|done].
  intros r s2 [Hr Hs2]. do 4 wp_step.
  apply wp_lift; split; [intros q [= <-]|done]. wp_step.
  assert (share_pack (pk_owner r.2) r.2) as Hq
    by (destruct Hr as [Hr Har]; split; [by rewrite (pt_owner _ _ Hr)|done]).
  wp_apply (inv_register _ r.2 Hq s2 Hs2); [|by intros e s3 Hs3; right; exists i|done]. intros [] s3 [_ Hs3]. wp_step.
  apply wp_lift; split; [intros j Hj|done].
  wp_apply (inv_event _ (StakingCreated who r.1 j x) s3 Hs3); [|by intros e s4 Hs4; right; exists i|done].
  intros [] s4 [_ Hs4]. by exists i.
Qed.

Lemma split_exact x info s :
  wp (staking_split x info) (fun r _ => r.1.1 + r.2 = x /\ (r.1.2 = false -> r.2 = 0))
    (fun _ _ => True) True s.
Proof.
  unfold staking_split. do 3 wp_step. apply wp_lift; split; [intros q _|done].
  case_decide; [case_decide; [wp_step; cbn; split; [lia|done]|]|].
  - do 3 wp_step. cbn. split; [lia|done].
  - wp_step. apply wp_lift; split; [intros r [-> _]%(arith_exact Hchecks)|]; [|done|done].
    wp_step. apply wp_lift; split; [intros n [-> _]%(arith_exact Hchecks)|]; [|done|done].
    wp_step. cbn. split; [lia|done].
Qed.

(** The IOUs that a staking credits, and the balances after them. *)
Definition iou_of (infos : gmap PhaseId PhaseInfo) (e : AssetId * Balance) : Prop :=
  0 <= e.2 /\ exists id info, infos !! id = Some info /\ iou_asset_id info = Some e.1.
Definition credits (who : AccountId) (l : list (AssetId * Balance)) : AssetId -> AccountId -> Z :=
  fun b w => zsum (map (fun e => at_account e.1 who e.2 b w) l).
(** Everything was staked, or the last phase is used up. *)
Definition exhausted st : Prop := PhaseInfos st !! (CurrentPhaseId st + 1) = None.

Lemma inv_create_staking fuel who x bal s :
  staking_inv bal s -> in_width B x ->
  wp (create_staking_from (E:=E) unreleased_keys panic fuel who x)
    (fun y s' => exists l, staking_inv (fun b w => bal b w + credits who l b w) s' /\
       PhaseInfos (sst s') = PhaseInfos (sst s) /\ Forall (iou_of (PhaseInfos (sst s))) l /\
       y = zsum (map snd l) /\ 0 <= y <= x /\ (y = x \/ exhausted (sst s')))
    (fun _ s' => exists l, staking_inv (fun b w => bal b w + credits who l b w) s' /\
       Forall (iou_of (PhaseInfos (sst s))) l /\ 0 <= zsum (map snd l) <= x) True s.
Proof.
  revert x bal s. induction fuel as [|fuel IH]; intros x bal s Hs Hx; cbn [create_staking_from]; [done|].
  assert (forall s', staking_inv bal s' -> exists l,
    staking_inv (fun b w => bal b w + credits who l b w) s' /\
    Forall (iou_of (PhaseInfos (sst s))) l /\ 0 <= zsum (map snd l) <= x) as Hnil.
  { intros s' Hs'. exists []. destruct Hx. split_and!; [|constructor|done|done].
    eapply staking_inv_ext; [exact Hs'|]. intros b w _. unfold credits, zsum. cbn. lia. }
  do 2 wp_step; [|by apply Hnil]. do 8 wp_step; [|by apply Hnil]. do 3 wp_step.
  match goal with Hi : bool_decide (is_Some _) = true |- _ =>
    apply bool_decide_eq_true in Hi as [info Hinfo] end.
  set (id := CurrentPhaseId (sst s)) in *. rewrite (si_share _ _ Hs).
  assert (phase_info id (sst s) = info) as -> by (unfold phase_info, get_or; by rewrite Hinfo).
  eapply wp_mono; [exact (wp_conj _ _ _ _ _ _ _ _ (inv_split bal x info Hx s Hs)
    (wp_conj _ _ _ _ _ _ _ _ (split_exact x info s) (same_split phases phases_blind x info s)))|..|done]; [|by intros e s1 [Hs1 _]; apply Hnil].
  intros [[b next] rest] s1 [[[Hb Hr] Hs1] [[Hsum Hno] [= Hp1 Hc1]]]. cbn in Hb, Hr, Hsum, Hno. wp_step.
  unfold in_width in Hb, Hr.
  assert (forall i s', iou_asset_id info = Some i -> staking_inv (credit bal i who b) s' ->
    staking_inv (fun a w => bal a w + credits who [(i, b)] a w) s') as Hone.
  { intros i s' Hi Hs'. eapply staking_inv_ext; [exact Hs'|]. intros a w _. unfold credit, credits, zsum. cbn. lia. }
  assert (forall i, iou_asset_id info = Some i -> iou_of (PhaseInfos (sst s)) (i, b)) as Hiou
    by (intros i Hi; split; [apply Hb|by exists id, info]).
  assert (forall i s', iou_asset_id info = Some i -> staking_inv (credit bal i who b) s' -> exists l,
    staking_inv (fun b w => bal b w + credits who l b w) s' /\
    Forall (iou_of (PhaseInfos (sst s))) l /\ 0 <= zsum (map snd l) <= x) as Hfst.
  { intros i s' Hi Hs'. exists [(i, b)]. split_and!; [by apply Hone|by constructor; auto|..]; unfold zsum; cbn; lia. }
  eapply wp_mono; [exact (wp_conj _ _ _ _ _ _ _ _ (inv_stake_in_phase bal who info b s1 Hs1 Hb)
    (same_stake_in_phase Hforeign phases phases_blind who sa info b s1))|..|done].
  2: { intros e s2 [[Hs2|(i & Hi & Hs2)] _]; [by apply Hnil|by eapply Hfst]. }
  intros [] s2 [(i & Hi & Hs2) [= Hp2 Hc2]].
  destruct next; wp_step.
  2:{ exists [(i, b)]. rewrite Hno in Hsum by done. split_and!; [by apply Hone|congruence|by constructor; auto|..];
        unfold zsum; cbn; lia. }
  eapply wp_mono; [exact (wp_conj _ _ _ _ _ _ _ _ (inv_shift _ id s2 Hs2) (shift_phase_wp Hforeign unreleased_keys id s2))
    |..|done]; [|by intros e s3 [Hs3 _]; eapply Hfst].
  intros r s3 [[_ Hs3] (Hp3 & _ & Hlast)]. destruct (decide (is_Some r /\ 0 < rest)) as [Hd|Hd].
  - wp_step. assert (PhaseInfos (sst s3) = PhaseInfos (sst s)) as Hps by congruence.
    wp_apply (IH rest _ s3 Hs3 Hr); [| |done].
    2: { intros e s4 (l & Hs4 & Hl & Hsl). rewrite Hps in Hl. exists ((i, b) :: l).
      split_and!; [|by constructor; auto|unfold zsum in *; cbn; lia..].
      eapply staking_inv_ext; [exact Hs4|]. intros a w _. unfold credit, credits, zsum. cbn. lia. }
    intros more s4 (l & Hs4 & Hp4 & Hl & -> & Hm & Hex).
    apply wp_lift; split; [intros y [-> Hy]%(arith_exact Hchecks)|]; [|done|done].
    exists ((i, b) :: l). split_and!; [|congruence| |done|unfold in_width in Hy; lia|lia|].
    + eapply staking_inv_ext; [exact Hs4|]. intros a w _. unfold credit, credits, zsum. cbn. lia.
    + constructor; [by auto|]. by replace (PhaseInfos (sst s)) with (PhaseInfos (sst s3)) by congruence.
    + destruct Hex as [->|Hex]; [left; lia|by right].
  - wp_step. exists [(i, b)]. split_and!; [by apply Hone|congruence|by constructor; auto|..];
      try (unfold zsum; cbn; lia).
    destruct r as [new|]; [left; assert (~ 0 < rest) by (intros ?; apply Hd; by split); lia|right].
    destruct (Hlast eq_refl) as [Hc Hnone]. unfold exhausted. rewrite Hp3, Hc, Hc2, Hc1. done.
Qed.
End staking.

(** The errors that a staking finds before it writes anything. *)
Definition staking_error (o : origin) (a : AssetId) (x : Balance) s : option error :=
  let st := sst s in
  if SavingPaused st then Some (Msg "module is paused")
  else match o with
  | Signed who =>
      if decide (CollectionAssetId st <> a) then Some (Msg "can't collect this asset")
      else if decide (balance_of a who s < x) then Some (Msg "insufficient balance")
      else if decide (x = 0) then Some (Msg "saving can't be zero")
      else if decide (PhaseInfos st !! CurrentPhaseId st = None)
      then Some (Msg "current phase id is invalid")
      else None
  | _ => Some BadOrigin
  end.

(** What a staking leaves as it is. *)
Definition reserve_of st : AssetId * AccountId := (ReservedMintAssetId st, ReservedMintWallet st).
Lemma reserve_blind : staking_blind reserve_of.
Proof. split; intros; unfold reserve_of; by fields. Qed.

(** From the start of the recursion to the reserve. *)
Definition staked_with (who : AccountId) (a : AssetId) (x : Balance) s s' : Prop :=
  let st := sst s in
  exists l r, let y := zsum (map snd l) in
    Forall (iou_of (PhaseInfos st)) l /\ 0 <= y <= x /\ (y = x \/ exhausted (sst s')) /\ 0 <= r /\
    forall b w, b <> ShareAssetId st ->
      balance_of b w s' = balance_of b w s + credits who l b w
        + move a who (CollectionAccountId st) y b w
        + at_account (ReservedMintAssetId st) (ReservedMintWallet st) r b w.

(** What a staking leaves that fails once it has started to write: IOUs are credited,
    and either nothing moved to the vault or exactly their sum did; the reserve is not
    minted. *)
Definition stopped_with (who : AccountId) (a : AssetId) (x : Balance) s s' : Prop :=
  let st := sst s in
  exists l deposit, let y := zsum (map snd l) in
    Forall (iou_of (PhaseInfos st)) l /\ 0 <= y <= x /\ (deposit = 0 \/ deposit = y) /\
    forall b w, b <> ShareAssetId st ->
      balance_of b w s' = balance_of b w s + credits who l b w
        + move a who (CollectionAccountId st) deposit b w.

Lemma staked_wp who a x s :
  ledger_inv s -> store_typed (sst s) -> packs_in (ShareAssetId (sst s)) (sst s) -> in_width B x ->
  wp (staking_balance ← create_staking (E:=E) unreleased_keys who x;
      make_transfer_with_event a who (CollectionAccountId (sst s)) staking_balance ;;
      r ← reserved_amount staking_balance;
      create_reserved (E:=E) r)
    (fun _ s' => staked_with who a x s s') (fun _ s' => stopped_with who a x s s') True s.
Proof.
  intros Hi Ht Hp Hx. set (st := sst s) in *. wp_step. unfold create_staking at 1.
  assert (staking_inv (ShareAssetId st) (fun b w => balance_of b w s) s) as Hs by done.
  pose proof (same_create_staking Hforeign unreleased_keys reserve_of reserve_blind
    ltac:(intros; unfold reserve_of; by fields) ltac:(intros; unfold reserve_of; by fields) who x s) as Hsame.
  rewrite wp_bind, wp_gets. cbv beta.
  eapply wp_mono; [exact (wp_conj _ _ _ _ _ _ _ _
    (inv_create_staking (ShareAssetId st) (staking_fuel st) who x _ s Hs Hx) Hsame)|..|done].
  2: { intros e s1 [(l & Hs1 & Hl & Hy) _]. exists l, 0. split_and!; [done|lia|lia|by left|].
    intros b w Hb. rewrite (si_balance _ _ _ Hs1) by done. unfold move, at_account.
    repeat case_decide; lia. }
  intros y s1 [(l & Hs1 & Hp1 & Hl & -> & Hy & Hex) [= Ha1 Hw1]].
  wp_step. set (y := zsum (map snd l)) in *.
  wp_apply (transfer_spec (E:=E) a who (CollectionAccountId st) y s1); [apply Hs1|lia| | |done].
  2: { intros e s2 [_ ->]. exists l, 0. split_and!; [done|lia|lia|by left|]. intros b w Hb.
    rewrite (si_balance _ _ _ Hs1) by done. unfold move, at_account. repeat case_decide; lia. }
  intros [] s2 [_ Hc]. assert (sst s2 = sst s1) as Hst by (by apply (lc_foreign _ _ _ _ Hc)).
  set (bal := fun b w => balance_of b w s + credits who l b w + move a who (CollectionAccountId st) y b w).
  assert (staking_inv (ShareAssetId st) bal s2) as Hs2.
  { destruct Hs1. split; rewrite ?Hst; try done; [apply Hc|]. intros b w Hb.
    rewrite (lc_balance _ _ _ _ Hc), si_balance0 by done. unfold bal, move. lia. }
  assert (preserves eq (reserved_amount (S:=S) y)) as Hpure by (unfold reserved_amount; preserves_steps).
  assert (forall s', staking_inv (ShareAssetId st) bal s' -> stopped_with who a x s s') as Hstop.
  { intros s' Hs'. exists l, y. split_and!; [done|lia|lia|by right|]. intros b w Hb.
    by rewrite (si_balance _ _ _ Hs') by done. }
  wp_step. eapply wp_mono; [exact (wp_conj _ _ _ _ _ _ _ _ (typed_reserved_amount y s2 (si_typed _ _ _ Hs2))
    (Hpure s2))|..|done]; [|by intros e s3 [_ <-]; apply Hstop]. intros r s3 [[Hr _] <-].
  unfold create_reserved. do 4 wp_step. rewrite Hst, Ha1, Hw1.
  eapply wp_mono; [exact (wp_conj _ _ _ _ _ _ _ _ (inv_mint _ bal _ (ReservedMintWallet st) r s2 Hs2 Hr)
    (same_asset_mint Hforeign phases phases_blind (ReservedMintAssetId st) (ReservedMintWallet st) r s2))|..|done];
    [|by intros e s4 [Hs4 _]; apply Hstop].
  intros [] s4 [Hs4 [= Hp4 Hc4]]. exists l, r.
  split_and!; [done|lia|lia| |apply Hr|].
  - destruct Hex as [Hex|Hex]; [by left|right]. unfold exhausted in *. by rewrite Hp4, Hc4, Hst.
  - intros b w Hb. rewrite (si_balance _ _ _ Hs4) by done. done.
Qed.

Lemma create_staking_refused who x s e :
  x = 0 /\ e = Msg "saving can't be zero" \/
  x <> 0 /\ PhaseInfos (sst s) !! CurrentPhaseId (sst s) = None /\ e = Msg "current phase id is invalid" ->
  create_staking (E:=E) unreleased_keys who x s = Err e s.
Proof.
  unfold create_staking, staking_fuel. run. cbn [create_staking_from]. run.
  intros [[-> ->]|(Hx & Hn & ->)]; [done|].
  rewrite (bool_decide_eq_false_2 (x = 0)) by done. cbn [negb].
  rewrite bool_decide_eq_false_2 by (rewrite Hn; by intros [? [=]]). done.
Qed.

(** C30: what a staking does, in the build that checks for overflow, on a well-typed
    storage.  It is refused without a write when the pallet is paused, the origin
    unsigned, the asset not the collected one, the funds short, the amount zero or the
    phase unknown.  When it succeeds, through however many phases, the collected asset
    that moves to the vault is exactly the sum of the IOUs credited to the saver, each
    the IOU of a phase; it is the amount asked for unless the phases are used up; besides
    the shares and the reserve nothing else moves.  When it fails after its first write
    the IOUs credited so far stay, with no deposit at all or with exactly their sum
    deposited, and the reserve is not minted.  A panic is not excluded: an overflow, a
    phase without an IOU, or a release of shares that the ledger refuses. *)
Theorem staking_is_backed o a x s :
  ledger_inv s -> store_typed (sst s) -> packs_in (ShareAssetId (sst s)) (sst s) -> in_width B x ->
  wp (staking (E:=E) unreleased_keys o a x)
    (fun _ s' => staking_error o a x s = None /\ exists who, o = Signed who /\ staked_with who a x s s')
    (fun e s' => match staking_error o a x s with
       | Some e' => e = e' /\ s' = s
       | None => exists who, o = Signed who /\ stopped_with who a x s s'
       end)
    True s.
Proof.
  intros Hi Ht Hp Hx. unfold staking, not_paused. do 3 wp_step.
  unfold staking_error. destruct (SavingPaused (sst s)) eqn:Hpaused; cbn [negb];
    [by apply wp_ensure|apply wp_ensure; split; [intros _|done]].
  wp_step. destruct o as [|who|]; cbn [ensure_signed]; [by wp_step| |by wp_step]. wp_step.
  unfold stake. do 6 wp_step.
  2:{ match goal with Hn : bool_decide _ = false |- _ => apply bool_decide_eq_false in Hn end.
      by rewrite decide_True. }
  match goal with Hn : bool_decide _ = true |- _ => apply bool_decide_eq_true in Hn; rename Hn into Ha end.
  rewrite (decide_False (P := CollectionAssetId _ <> a)) by (intros Hn; exact (Hn Ha)).
  wp_step. apply free_balance_wp. do 2 wp_step.
  2:{ match goal with Hn : bool_decide _ = false |- _ => apply bool_decide_eq_false in Hn end.
      by rewrite decide_True by lia. }
  match goal with Hn : bool_decide _ = true |- _ => apply bool_decide_eq_true in Hn; rename Hn into Hb end.
  rewrite decide_False by lia. case_decide as H0.
  { rewrite wp_bind. eapply wp_run_Err; [apply create_staking_refused; by left|done]. }
  case_decide as Hph.
  { rewrite wp_bind. eapply wp_run_Err; [apply create_staking_refused; by right|done]. }
  wp_apply (staked_wp who a x s Hi Ht Hp Hx); [| |done].
  - intros [] s' Hs'. split; [done|]. by exists who.
  - intros e s' Hs'. by exists who.
Qed.

(** ** Redemption *)
Context `{!EventLog SavingEvent E}.
#[local] Abbreviation eff := (effect (E:=E) (T:=SavingStore) (Ev:=SavingEvent)).

(** The shares that an amount of an IOU is worth. *)
Definition shares_of (iou : AssetId) (x : Balance) st : Balance :=
  x * exchange (phase_info (iou_asset_phase_id iou st) st).
(** The part of them that the ratio of the phases asks for in locked shares. *)
Definition locked_part (iou : AssetId) (x : Balance) st : Balance :=
  shares_of iou x st * (NumOfPhasesLeft st - 1)
  / (NumOfPhases st - iou_asset_phase_id iou st + 1).
(** The packs of the saver in the phase of the IOU. *)
Definition unreleased_of (who : AccountId) (ph : PhaseId) st : Balance :=
  zsum (map pack_total (filter (fun v => pk_phase_id v = ph /\ pk_owner v = who)
    (account_future_releases who st))).

Lemma required_exact iou x s :
  wp (required_balances iou x)
    (fun r s' => s' = s /\ r.1 = (iou_asset_phase_id iou (sst s), shares_of iou x (sst s)) /\
       r.2.2 = locked_part iou x (sst s) /\ r.2.1 + r.2.2 = shares_of iou x (sst s) /\
       in_width B (shares_of iou x (sst s)) /\ 0 <= r.2.1)
    (fun _ _ => False) True s.
Proof.
  unfold required_balances. do 5 wp_step.
  apply wp_lift; split; [intros n [-> Hn]%(arith_exact Hchecks)|]; [|done|done]. do 5 wp_step.
  apply wp_lift; split; [intros [f l] Hr|done]. wp_step. split; [done|]. split; [done|].
  apply bind_Some in Hr as (a & [-> _]%(arith_exact Hchecks) & Hr); [|done].
  apply bind_Some in Hr as (b & [-> _]%(arith_exact Hchecks) & Hr); [|done].
  apply bind_Some in Hr as (c & [-> _]%(arith_exact Hchecks) & Hr); [|done].
  apply bind_Some in Hr as (d & [-> _]%(arith_exact Hchecks) & Hr); [|done].
  apply bind_Some in Hr as (lk & Hlk & Hr). unfold udiv in Hlk. case_decide; [done|].
  injection Hlk as <-.
  apply bind_Some in Hr as (free & [-> Hf]%(arith_exact Hchecks) & [= <- <-]); [|done]. cbn.
  unfold shares_of, locked_part. split_and!; [done|lia|done..|apply Hf].
Qed.

Lemma total_balances_exact l u :
  total_balances l = Some u -> u = zsum (map pack_total l).
Proof.
  unfold total_balances.
  assert (forall acc, foldl (fun acc v => a ← acc; t ← get_total_balance v; uadd B a t) acc l = Some u ->
    exists a, acc = Some a /\ u = a + zsum (map pack_total l)) as Hgen.
  { induction l as [|v l IH]; intros acc; cbn [foldl].
    - intros ->. exists u. split; [done|]. unfold zsum; cbn. lia.
    - intros (a' & Ha & ->)%IH. apply bind_Some in Ha as (a & -> & Ha).
      apply bind_Some in Ha as (t & [-> _]%(get_total_exact Hchecks) & Ha).
      apply (arith_exact Hchecks) in Ha as [-> _]; [|done]. exists a. split; [done|].
      unfold zsum; cbn. lia. }
  intros (a & [= <-] & ->)%Hgen. lia.
Qed.

Lemma typed_trivial {A} (m : M S A) : typed (fun _ => True) m any.
Proof. intros s _. by apply wp_intro. Qed.
(** What the deductions take: what is missing of the one in the other; they write
    nothing. *)
Lemma deductions_exact who a r u f l s :
  ledger_inv s -> 0 <= f ->
  wp (balance_deductions who a r u f l)
    (fun d s' => s' = s /\ 0 <= d.1 /\ 0 <= d.2 /\
       d.1 = Z.min f (balance_of a who s) + Z.max 0 (l - u) /\
       d.2 = Z.min l u + Z.max 0 (f - balance_of a who s))
    (fun _ s' => s' = s) True s.
Proof.
  intros Hi Hf0. pose proof (balance_nonneg (E:=E) a who s Hi) as Hb.
  set (bal := balance_of a who s) in *. unfold balance_deductions. wp_step.
  apply (wp_mono _ (fun sl s' => s' = s /\ sl = (Z.max 0 (l - u), Z.min l u)) _ (fun _ s' => s' = s) _ True);
    [|intros [sl l'] s1 [-> [= -> ->]]|done|done].
  { case_decide; [|wp_step; split; [done|f_equal; lia]]. wp_step.
    apply wp_lift; split; [intros n [-> _]%(arith_exact Hchecks)|]; [|done|done].
    wp_step. split; [done|f_equal; lia]. }
  wp_step.
  apply (wp_mono _ (fun sf s' => s' = s /\ sf = (Z.max 0 (f - bal), Z.min f bal)) _ (fun _ s' => s' = s) _ True);
    [|intros [sf f'] s1 [-> [= -> ->]]|done|done].
  { case_decide; [|wp_step; split; [done|f_equal; lia]]. wp_step. apply free_balance_wp. fold bal. wp_step.
    apply wp_lift; split; [intros n _|done]. do 2 wp_step; [|done]. wp_step.
    - wp_step. apply wp_lift; split; [intros m [-> _]%(arith_exact Hchecks)|]; [|done|done].
      wp_step. split; [done|f_equal; lia].
    - wp_step. split; [done|f_equal; lia]. }
  cbn [fst snd]. wp_step. apply wp_lift; split; [intros x [-> [Hx _]]%(arith_exact Hchecks)|]; [|done|done].
  wp_step. apply wp_lift; split; [intros y [-> [Hy _]]%(arith_exact Hchecks)|]; [|done|done].
  wp_step. cbn. split_and!; done.
Qed.
(** Nothing was returned in advance: nothing is covered. *)
Lemma nothing_returned who f l : use_returned (S:=S) who 0 f l = mret (0, f, l).
Proof. unfold use_returned. by rewrite decide_False by lia. Qed.
(** The hook on a burn does nothing at the collection account. *)
Lemma burn_at_collection a x s :
  wp (on_asset_burn (E:=E) a (CollectionAccountId (sst s)) x) (fun _ s' => s' = s) (fun _ _ => False) False s.
Proof.
  unfold on_asset_burn. do 2 wp_step. wp_step; [by wp_step|]. do 4 wp_step.
  rewrite decide_False by tauto. by wp_step.
Qed.

(** The burn of the shares at the collection account, after an effect. *)
Lemma eff_burn_shares sa coll x d i st l s s1 :
  eff d i st l s s1 -> CollectionAccountId st = coll -> 0 <= x ->
  wp (if decide (x = 0) then mret tt else asset_burn (E:=E) Root sa coll x)
    (fun _ s2 => eff (Client.plus d (at_account sa coll (- x))) (plus_issue i (at_asset sa (- x))) st l s s2)
    (fun _ s2 => s2 = s1) True s1.
Proof.
  intros Heff Hc Hx. case_decide as H0.
  { subst x. wp_step. eapply be_eq; [exact Heff|..|done]; intros;
      unfold Client.plus, plus_issue, at_account, at_asset; case_decide; lia. }
  unfold asset_burn. wp_step. eapply wp_mono; [eapply (eff_burn Hforeign); [exact Heff|done]|..|done].
  - intros [] s2 [_ H2]. wp_step. pose proof (be_store _ _ _ _ _ _ H2) as Hst.
    assert (coll = CollectionAccountId (sst s2)) as -> by (by rewrite Hst).
    wp_apply (burn_at_collection sa x s2); [|done|done]. by intros [] s3 ->.
  - by intros e s2 [_ ->].
Qed.

(** A call before the payment has not touched the asset that is paid. *)
Lemma unpaid ca sa from to x d i st l s s' :
  eff d i st l s s' -> ca <> sa ->
  (forall b w, d b w = Client.plus no_change (move sa from to x) b w) ->
  forall w, balance_of ca w s' = balance_of ca w s.
Proof.
  intros Heff Hne Hd w. rewrite (be_balance _ _ _ _ _ _ Heff), Hd.
  unfold Client.plus, no_change, move, at_account. rewrite !decide_False by tauto. lia.
Qed.

(** C31: a redemption takes what the IOU is worth, in the build that checks for overflow,
    for a saver without shares returned in advance: [x] of the IOU is [x * exchange]
    shares; the locked part of them is in the ratio of the phases left, less one, to the
    phases from that of the IOU on, rounded down, and the rest is free; what the saver's
    packs of the phase miss of the locked part is taken from the free shares, and what the
    free balance misses of the free part from the packs.  The free shares move to the
    collection account and are burnt and the locked ones leave the packs of the phase, the
    packs of other phases and accounts staying as they are; [x] of the collected asset is
    paid from the collection account; nothing else changes, and a redemption that fails
    pays nothing. *)
Theorem redemption_contract iou who ca x sa s :
  let st := sst s in let coll := CollectionAccountId st in
  let ph := iou_asset_phase_id iou st in let packs := account_future_releases who st in
  let locked_req := locked_part iou x st in let free_req := shares_of iou x st - locked_req in
  let free := Z.min free_req (balance_of sa who s) + Z.max 0 (locked_req - unreleased_of who ph st) in
  let locked := Z.min locked_req (unreleased_of who ph st) + Z.max 0 (free_req - balance_of sa who s) in
  ledger_inv s -> share_asset_collected who st = 0 -> 0 <= x -> ca <> sa ->
  wp (make_redeem (E:=E) iou who ca coll x sa)
    (fun _ s' => 0 <= free_req /\ 0 <= free /\ 0 <= locked /\ free + locked = shares_of iou x st /\
       exists nl,
       eff (fun b w => move ca coll who x b w - at_account sa who free b w)
         (at_asset sa (- free)) (st <| ShareUnreleasedList ::= <[who := nl]> |>)
         [StakingRedeemed who free iou x] s s' /\
       phase_total sa ph nl = phase_total sa ph packs - locked /\
       others sa ph nl = others sa ph packs)
    (fun _ s' => forall w, balance_of ca w s' = balance_of ca w s) True s.
Proof.
  intros st coll ph packs locked_req free_req free0 locked0 Hi Hret Hx Hne. unfold make_redeem. do 4 wp_step. fold st. rewrite Hret.
  wp_step. wp_apply (required_exact iou x s); [|done|done].
  intros [[ph' req] [f l]] s1 (-> & [= -> ->] & Hl0 & Hfl & Hreq & Hf0). cbn in Hfl, Hl0, Hf0.
  rewrite nothing_returned.
  do 7 wp_step. apply wp_lift; split; [intros u Hu%total_balances_exact|done]. wp_step.
  fold st coll ph packs.
  set (st1 := st <| ShareUnreleasedList ::= delete who |>).
  pose proof (be_step_write Hforeign st1 _ _ _ _ _ _ (be_refl s Hi)) as H1.
  set (s1 := sput st1 s) in *.
  assert (forall w, balance_of ca w s1 = balance_of ca w s) as Hsame
    by (intros w; rewrite (be_balance _ _ _ _ _ _ H1); unfold no_change; lia).
  wp_apply (deductions_exact who sa (shares_of iou x st) u f l s1 (be_inv _ _ _ _ _ _ H1) Hf0);
    [|by intros e s' ->|done].
  intros [free locked] s2 (-> & Hf & Hl & Hfd & Hld). cbn in Hf, Hl, Hfd, Hld. wp_step.
  assert (free = free0 /\ locked = locked0) as [Hfree Hlocked].
  { assert (balance_of sa who s1 = balance_of sa who s) as Hbal
      by (rewrite (be_balance _ _ _ _ _ _ H1); unfold no_change; lia).
    rewrite Hbal in Hfd, Hld. assert (u = unreleased_of who ph st) as Hu' by exact Hu.
    unfold free0, locked0, free_req, locked_req, st. rewrite Hfd, Hld, Hu', <-Hl0.
    replace (shares_of iou x (sst s) - l) with f by lia. done. }
  apply wp_lift; split; [intros a [-> _]%(arith_exact Hchecks)|]; [|done|done]. wp_step.
  apply wp_lift; split; [intros ins [-> _]%(arith_exact Hchecks)|]; [|done|done]. wp_step.
  apply wp_lift; split; [intros outs [-> _]%(arith_exact Hchecks)|]; [|done|done].
  do 2 wp_step; [|done].
  match goal with Hb : bool_decide _ = true |- _ => apply bool_decide_eq_true in Hb; rename Hb into Hio end.
  wp_step. wp_apply (eff_transfer Hforeign _ _ _ _ _ _ H1 sa who coll free Hf);
    [|by intros e s' [_ ->]|done].
  intros [] s2 [_ H2]. wp_step.
  apply wp_lift; split; [intros tb [-> _]%(arith_exact Hchecks)|]; [|done|done]. rewrite Z.add_0_l.
  wp_step. unfold try_sum. wp_step. apply wp_lift; split; [intros r Hr|done].
  destruct r as [e|nl]; [wp_step; by apply (unpaid ca sa who coll free _ _ _ _ _ _ H2 Hne)|].
  apply (aggregate_inr Hchecks) in Hr as (Hoth & Htot & _); [|done]. cbn [change_value] in Htot.
  do 3 wp_step. rewrite (be_store _ _ _ _ _ _ H2).
  assert (st1 <| ShareUnreleasedList ::= <[who := nl]> |> = st <| ShareUnreleasedList ::= <[who := nl]> |>)
    as -> by (unfold st1, set_field; cbn; by rewrite insert_delete_eq).
  set (st2 := st <| ShareUnreleasedList ::= <[who := nl]> |>).
  pose proof (eff_write Hforeign _ _ _ _ _ _ H2 st2) as H3.
  wp_step. wp_apply (eff_burn_shares sa coll free _ _ _ _ _ _ H3); [done|done| | |done].
  2:{ intros e s' ->. by apply (unpaid ca sa who coll free _ _ _ _ _ _ H3 Hne). }
  intros [] s4 H4. wp_step. wp_apply (eff_transfer Hforeign _ _ _ _ _ _ H4 ca coll who x Hx); [| |done].
  2:{ intros e s' [_ ->] w. rewrite (be_balance _ _ _ _ _ _ H4).
      unfold Client.plus, no_change, move, at_account. rewrite !(decide_False (P := ca = sa /\ _)) by tauto. lia. }
  intros [] s5 [_ H5]. unfold deposit_event. rewrite wp_modify.
  rewrite <-Hfree, <-Hlocked. split_and!; [|done|done|unfold st; lia|].
  { unfold free_req, locked_req, st. lia. }
  exists nl. split_and!; [|lia|done].
  eapply be_eq; [apply (eff_event _ _ _ []); [exact H5|by store]| | |done].
  - intros b w. unfold Client.plus, no_change, move, at_account. repeat case_decide; lia.
  - intros b. done.
Qed.
End contracts.
