(* ===== verification/SavingShares.v ===== *)
(** * The savings: the shares of the accounts are their balances of the share asset *)
From S2P Require Export SavingFacts.
From stdpp Require Import relations.
#[local] Open Scope Z_scope.
Import RioSaving.

(** ** What a hook may do to the shares

    [hook_change d t c st st']: the shares of the accounts change by [d], their
    total by [t], the circulation by [c], and nothing else changes. *)
Definition shares_total (m : gmap AccountId Balance) : Z := map_sum (fun _ x => x) m.

Record hook_change (d : AccountId -> Z) (t c : Z) (st st' : SavingStore) : Prop := {
  hc_shares w : account_shares w st' = account_shares w st + d w;
  hc_total : shares_total (AccountShares st') = shares_total (AccountShares st) + t;
  hc_circulation : SharesCirculation st' = SharesCirculation st + c;
  hc_collection : AccountShares st !! CollectionAccountId st = None ->
    AccountShares st' !! CollectionAccountId st = None;
  hc_others : st' = st <| AccountShares := AccountShares st' |>
                       <| SharesCirculation := SharesCirculation st' |>;
}.
Definition one (who : AccountId) (x : Z) : AccountId -> Z := fun w => if decide (w = who) then x else 0.

Lemma hook_refl st : hook_change (fun _ => 0) 0 0 st st.
Proof. split; [intros; lia|lia|lia|done|by destruct st]. Qed.
Lemma hook_trans d1 t1 c1 d2 t2 c2 st st1 st2 :
  hook_change d1 t1 c1 st st1 -> hook_change d2 t2 c2 st1 st2 ->
  hook_change (fun w => d1 w + d2 w) (t1 + t2) (c1 + c2) st st2.
Proof.
  intros [H1 H2 H3 H4 H5] [G1 G2 G3 G4 G5].
  assert (CollectionAccountId st1 = CollectionAccountId st) as Hc by (rewrite H5; by fields).
  rewrite Hc in G4. split; [intros w; rewrite G1, H1; lia|lia|lia|auto|].
  rewrite G5, H5. destruct st. done.
Qed.

Lemma hook_write who v st :
  who <> CollectionAccountId st ->
  hook_change (one who (v - account_shares who st)) (v - account_shares who st) 0 st
    (st <| AccountShares ::= <[who := v]> |>).
Proof.
  intros Hw. split; unfold account_shares, get_or, one, shares_total; fields.
  - intros w. rewrite lookup_insert. repeat case_decide; subst; cbn; congruence || lia.
  - rewrite map_sum_insert. destruct (AccountShares st !! who); cbn; lia.
  - lia.
  - intros Hn. by rewrite lookup_insert_ne.
  - by destruct st.
Qed.
Lemma hook_delete who st :
  hook_change (one who (- account_shares who st)) (- account_shares who st) 0 st
    (st <| AccountShares ::= delete who |>).
Proof.
  split; unfold account_shares, get_or, one, shares_total; fields.
  - intros w. rewrite lookup_delete. repeat case_decide; subst; cbn; congruence || lia.
  - rewrite map_sum_delete. destruct (AccountShares st !! who); cbn; lia.
  - lia.
  - intros Hn. rewrite lookup_delete. by case_decide.
  - by destruct st.
Qed.
Lemma hook_circulation v st :
  hook_change (fun _ => 0) 0 (v - SharesCirculation st) st (st <| SharesCirculation := v |>).
Proof.
  split; unfold account_shares, shares_total; fields; [intros; lia|lia|lia|done|by destruct st].
Qed.

Section hooks.
Context {S E : Type} `{!Overflow}.
Context `{!Store S (Frame E), !Store S SavingStore, !Inject SavingEvent E}.
Implicit Types (s : S) (st : SavingStore) (who : AccountId).
#[local] Abbreviation sst := (sget (T:=SavingStore)).

(** The hook changed the pallet's storage only, in this way. *)
Definition hooked (d : AccountId -> Z) (t c : Z) s s' : Prop :=
  exists st', s' = sput st' s /\ hook_change d t c (sst s) st'.
Lemma hooked_refl s : hooked (fun _ => 0) 0 0 s s.
Proof. exists (sst s). rewrite sput_sget. split; [done|apply hook_refl]. Qed.
Lemma hooked_write d t c s st' : hook_change d t c (sst s) st' -> hooked d t c s (sput st' s).
Proof. by exists st'. Qed.
Lemma hooked_trans d1 t1 c1 d2 t2 c2 s s1 s2 :
  hooked d1 t1 c1 s s1 -> hooked d2 t2 c2 s1 s2 ->
  hooked (fun w => d1 w + d2 w) (t1 + t2) (c1 + c2) s s2.
Proof.
  intros (st1 & -> & H1) (st2 & -> & H2). rewrite sget_sput in H2. exists st2.
  rewrite sput_sput. split; [done|by eapply hook_trans].
Qed.
Lemma hooked_eq d t c d' t' c' s s' :
  hooked d t c s s' -> (forall w, d w = d' w) -> t = t' -> c = c' -> hooked d' t' c' s s'.
Proof.
  intros (st' & -> & [H1 H2 H3 H4 H5]) Hd <- <-. exists st'. split; [done|].
  split; try done. intros w. by rewrite H1, Hd.
Qed.

Lemma mutate_shares_wp who op v line s :
  op (account_shares who (sst s)) = Some v -> who <> CollectionAccountId (sst s) ->
  wp (mutate_shares (E:=E) who op line)
    (fun _ s' => let x := v - account_shares who (sst s) in hooked (one who x) x 0 s s')
    (fun _ _ => False) False s.
Proof.
  intros Hop Hw. unfold mutate_shares. do 2 wp_step. rewrite Hop. do 3 wp_step.
  by apply hooked_write, hook_write.
Qed.
Lemma mutate_circulation_wp op v line s :
  op (SharesCirculation (sst s)) = Some v ->
  wp (mutate_circulation (E:=E) op line)
    (fun _ s' => hooked (fun _ => 0) 0 (v - SharesCirculation (sst s)) s s')
    (fun _ _ => False) False s.
Proof.
  intros Hop. unfold mutate_circulation. do 2 wp_step. rewrite Hop. do 3 wp_step.
  by apply hooked_write, hook_circulation.
Qed.
Lemma add_shares_wp who x line s :
  in_width balance_bits (account_shares who (sst s) + x) -> who <> CollectionAccountId (sst s) ->
  wp (add_shares (E:=E) who x line) (fun _ s' => hooked (one who x) x 0 s s')
    (fun _ _ => False) False s.
Proof.
  intros Hx Hw. unfold add_shares. do 3 wp_step.
  - wp_apply (mutate_shares_wp who _ (account_shares who (sst s) + x)); [by apply checked_Some|done| |done|done].
    intros [] s' Hs. cbv zeta in Hs. by replace (account_shares who (sst s) + x - account_shares who (sst s)) with x in Hs by lia.
  - wp_step. apply hooked_write.
    match goal with Hn : bool_decide _ = false |- _ => apply bool_decide_eq_false in Hn;
      rewrite <-eq_None_not_Some in Hn; rename Hn into Hno end.
    assert (account_shares who (sst s) = 0) as Hz by (unfold account_shares, get_or; by rewrite Hno).
    pose proof (hook_write who x (sst s) Hw) as Hk. by rewrite Hz, Z.sub_0_r in Hk.
Qed.

Lemma on_asset_mint_wp a to x s :
  (ShareAssetId (sst s) = a -> CollectionAccountId (sst s) <> to ->
     in_width balance_bits (account_shares to (sst s) + x) /\
     in_width balance_bits (SharesCirculation (sst s) + x)) ->
  wp (on_asset_mint (E:=E) a to x)
    (fun _ s' => if decide (ShareAssetId (sst s) = a /\ CollectionAccountId (sst s) <> to)
       then hooked (one to x) x x s s' else s' = s) (fun _ _ => False) False s.
Proof.
  intros Hw. unfold on_asset_mint. do 4 wp_step. case_decide as Hd; [|by wp_step].
  destruct (Hw (proj1 Hd) (proj2 Hd)) as [H1 H2]. wp_step. wp_apply (add_shares_wp to x); [done|by apply not_eq_sym, Hd| |done|done].
  intros [] s1 Hs1. assert (SharesCirculation (sst s1) = SharesCirculation (sst s)) as Hc.
  { destruct Hs1 as (st1 & -> & Hst). rewrite sget_sput, (hc_circulation _ _ _ _ _ Hst). lia. }
  wp_apply (mutate_circulation_wp _ (SharesCirculation (sst s) + x)); [rewrite Hc; by apply checked_Some| |done|done].
  intros [] s2 Hs2. eapply hooked_eq; [by eapply hooked_trans|intros; cbv beta; lia|lia|lia].
Qed.

Lemma hooked_same d t c s s' :
  hooked d t c s s' -> CollectionAccountId (sst s') = CollectionAccountId (sst s) /\
    SharesCirculation (sst s') = SharesCirculation (sst s) + c /\
    forall w, account_shares w (sst s') = account_shares w (sst s) + d w.
Proof.
  intros (st' & -> & [H1 H2 H3 H4 H5]). rewrite !sget_sput. split_and!; [rewrite H5; by fields|done|done].
Qed.

Lemma on_asset_burn_wp a from x s :
  SavingPaused (sst s) = false ->
  (ShareAssetId (sst s) = a -> CollectionAccountId (sst s) <> from ->
     in_width balance_bits (account_shares from (sst s) - x) /\
     in_width balance_bits (SharesCirculation (sst s) - x)) ->
  wp (on_asset_burn (E:=E) a from x)
    (fun _ s' => if decide (ShareAssetId (sst s) = a /\ CollectionAccountId (sst s) <> from)
       then hooked (one from (- x)) (- x) (- x) s s' else s' = s) (fun _ _ => False) False s.
Proof.
  intros Hp Hw. unfold on_asset_burn. do 2 wp_step. rewrite Hp. do 4 wp_step.
  case_decide as Hd; [|by wp_step]. destruct (Hw (proj1 Hd) (proj2 Hd)) as [H1 H2].
  wp_step. wp_apply (mutate_shares_wp from _ (account_shares from (sst s) - x));
    [by apply checked_Some|by apply not_eq_sym, Hd| |done|done].
  cbv zeta. intros [] s1 Hs1. destruct (hooked_same _ _ _ _ _ Hs1) as (_ & Hc & _).
  wp_apply (mutate_circulation_wp _ (SharesCirculation (sst s) - x));
    [rewrite Hc, Z.add_0_r; by apply checked_Some| |done|done].
  intros [] s2 Hs2. eapply hooked_eq; [by eapply hooked_trans| |lia|lia].
  intros w. unfold one. case_decide; lia.
Qed.

Lemma track_from_wp from x s :
  let st := sst s in let coll := CollectionAccountId st in
  (from <> coll -> x <= account_shares from st /\ in_width balance_bits (account_shares from st - x)) ->
  (from = coll -> in_width balance_bits (SharesCirculation st + x)) ->
  wp (if decide (from <> coll) then
        from_balance ← gets (account_shares from);
        if decide (from_balance < x) then _pause (E:=E) 1085
        else if decide (from_balance = x) then
          modify (fun st => st <| AccountShares ::= delete from |>)
        else
          v ← gets (account_shares from);
          v' ← lift (usub balance_bits v x);
          modify (fun st => st <| AccountShares ::= <[from := v']> |>)
      else
        v ← gets SharesCirculation;
        v' ← lift (uadd balance_bits v x);
        modify (fun st => st <| SharesCirculation := v' |>))
    (fun _ s' => if decide (from = coll) then hooked (fun _ => 0) 0 x s s'
                 else hooked (one from (- x)) (- x) 0 s s') (fun _ _ => False) False s.
Proof.
  intros st coll H1 H2. destruct (decide (from = coll)) as [Heq|Hne].
  - rewrite decide_False by tauto. do 2 wp_step. fold st. rewrite uadd_ok by auto.
    wp_step. cbn [lift]. do 2 wp_step. eapply hooked_eq; [apply hooked_write, hook_circulation|done|done|]. fold st. lia.
  - destruct (H1 Hne) as [Hle Hw]. rewrite decide_True by done. do 2 wp_step. fold st.
    rewrite decide_False by lia. wp_step.
    + wp_step. eapply hooked_eq; [apply hooked_write, hook_delete| |fold st; lia|done].
      intros w. fold st. by f_equal; lia.
    + do 2 wp_step. fold st. rewrite usub_ok by done. wp_step. cbn [lift]. do 2 wp_step.
      eapply hooked_eq; [apply hooked_write, hook_write; done| |fold st; lia|done].
      intros w. fold st. by f_equal; lia.
Qed.

Lemma track_wp from to x s :
  let st := sst s in let coll := CollectionAccountId st in from <> to ->
  (from <> coll -> x <= account_shares from st /\ in_width balance_bits (account_shares from st - x)) ->
  (to <> coll -> in_width balance_bits (account_shares to st + x)) ->
  (from = coll -> in_width balance_bits (SharesCirculation st + x)) ->
  (to = coll -> in_width balance_bits (SharesCirculation st - x)) ->
  wp (track_share_asset_movement (E:=E) from to x)
    (fun _ s' => exists d t, hooked d t t s s' /\ forall w, w <> coll -> d w = one to x w - one from x w)
    (fun _ _ => False) False s.
Proof.
  intros st coll Hft H1 H2 H3 H4. unfold track_share_asset_movement. do 2 wp_step. fold st coll. wp_step.
  wp_apply (track_from_wp from x s); [done|done| |done|done]. fold st coll. intros [] s1 Hs1.
  destruct (decide (from = coll)) as [Heq|Hne]; destruct (hooked_same _ _ _ _ _ Hs1) as (Hcoll & Hc & Hsh); fold st in Hc.
  - rewrite decide_True by congruence.
    wp_apply (add_shares_wp to x); [rewrite Hsh, Z.add_0_r; apply H2; congruence|rewrite Hcoll; fold st coll; congruence| |done|done].
    intros [] s2 Hs2. eexists _, x. split; [eapply hooked_eq; [by eapply hooked_trans|done|lia|lia]|].
    intros w Hw. unfold one. repeat case_decide; subst; try lia; tauto.
  - destruct (decide (to = coll)) as [Ht|Ht].
    + rewrite decide_False by tauto.
      wp_apply (mutate_circulation_wp _ (SharesCirculation st - x));
        [rewrite Hc, Z.add_0_r; by apply checked_Some; auto| |done|done].
      intros [] s2 Hs2. eexists _, (- x). split; [eapply hooked_eq; [by eapply hooked_trans|done|lia|lia]|].
      intros w Hw. unfold one. repeat case_decide; subst; try lia; tauto.
    + rewrite decide_True by done.
      wp_apply (add_shares_wp to x); [|rewrite Hcoll; done| |done|done].
      { rewrite Hsh. unfold one. rewrite decide_False by done. rewrite Z.add_0_r. auto. }
      intros [] s2 Hs2. eexists _, 0. split; [eapply hooked_eq; [by eapply hooked_trans|done|lia|lia]|].
      intros w Hw. unfold one. repeat case_decide; subst; try lia; tauto.
Qed.
End hooks.

(** ** The shares are the balances of the share asset *)
Section shares.
Context {S E : Type} `{!Overflow}.
Context `{!Store S (Frame E), !Store S SavingStore, !Store S PriceStore, !Inject SavingEvent E}.
Context `{!Separate S (Frame E) SavingStore}.
Context `{!Ledger S, !LedgerEvents E, !LedgerSpec S E}.
Context (Hforeign : foreign SavingStore _).
Implicit Types (s : S) (st : SavingStore) (who : AccountId).
#[local] Abbreviation sst := (sget (T:=SavingStore)).
#[local] Abbreviation fr := (sget (T:=Frame E)).

Record shares_ok s : Prop := {
  so_ledger : ledger_inv s;
  so_running : SavingPaused (sst s) = false;
  so_shares w : w <> CollectionAccountId (sst s) ->
    account_shares w (sst s) = balance_of (ShareAssetId (sst s)) w s;
  so_collection : AccountShares (sst s) !! CollectionAccountId (sst s) = None;
  so_circulation : SharesCirculation (sst s) = shares_total (AccountShares (sst s));
  so_asset : CollectionAssetId (sst s) <> ShareAssetId (sst s);
  so_share : ShareAssetId (sst s) <> 0;
  so_terms : in_width term_bits (NumOfPhasesLeft (sst s));
  so_packs w l : ShareUnreleasedList (sst s) !! w = Some l -> Forall pack_ok l;
}.

(** The shares in circulation are in the ledger. *)
Lemma circulation_bound s :
  shares_ok s ->
  SharesCirculation (sst s) + balance_of (ShareAssetId (sst s)) (CollectionAccountId (sst s)) s
    <= issuance_of (ShareAssetId (sst s)) s /\
  0 <= SharesCirculation (sst s) /\
  forall w, w <> CollectionAccountId (sst s) ->
    0 <= account_shares w (sst s) <= SharesCirculation (sst s).
Proof.
  intros Hs. set (st := sst s). set (coll := CollectionAccountId st). set (a := ShareAssetId st).
  assert (forall k v, AccountShares st !! k = Some v -> k <> coll /\ v = balance_of a k s) as Hm.
  { intros k v Hk. assert (k <> coll) as Hne.
    { intros ->. pose proof (so_collection _ Hs) as Hn. fold st coll in Hn. congruence. }
    split; [done|]. unfold a, st. rewrite <-(so_shares _ Hs) by done. unfold account_shares, get_or.
    fold st. by rewrite Hk. }
  pose proof (so_circulation _ Hs) as Hc. fold st in Hc. split.
  - rewrite Hc. unfold shares_total. rewrite map_sum_list.
    set (l := (map_to_list (AccountShares st)).*1).
    assert (NoDup (coll :: l)) as Hnd.
    { constructor; [|apply NoDup_fst_map_to_list]. intros ([k v] & Hk & Hin)%list_elem_of_fmap.
      apply elem_of_map_to_list in Hin. by apply Hm in Hin as [? _]. }
    pose proof (balances_sum_le_issuance (E:=E) a _ s (so_ledger _ Hs) Hnd) as Hle. cbn in Hle.
    assert (zsum (map (fun kv => kv.2) (map_to_list (AccountShares st))) =
            foldr (fun w sum => balance_of a w s + sum) 0 l) as ->; [|lia].
    unfold l. assert (forall k v, (k, v) ∈ map_to_list (AccountShares st) -> v = balance_of a k s) as Hv
      by (intros k v Hk%elem_of_map_to_list; by apply Hm in Hk as [_ ->]).
    clear -Hv. induction (map_to_list (AccountShares st)) as [|[k v] m IH]; [done|]. cbn.
    rewrite <-(Hv k v) by left. unfold zsum in *. cbn. rewrite IH; [done|]. intros. apply Hv. by right.
  - rewrite Hc. assert (forall k v, AccountShares st !! k = Some v -> 0 <= v) as Hnn
      by (intros k v Hk; apply Hm in Hk as [_ ->]; apply balance_nonneg, Hs).
    assert (0 <= shares_total (AccountShares st)) as H0 by (by apply map_sum_nonneg).
    split; [done|]. intros w Hw. unfold account_shares, get_or.
    destruct (AccountShares st !! w) as [v|] eqn:Hv; cbn; [|done].
    split; [by eapply Hnn|]. by apply (map_sum_lookup_le (fun _ x => x) _ w).
Qed.

(** A movement of the ledger, followed by the hook. *)
Lemma shares_ok_next d d' t s s1 s2 :
  let a := ShareAssetId (sst s) in let coll := CollectionAccountId (sst s) in
  shares_ok s -> sst s1 = sst s -> ledger_inv s1 ->
  (forall w, w <> coll -> balance_of a w s1 = balance_of a w s + d w) ->
  hooked d' t t s1 s2 -> (forall w, w <> coll -> d' w = d w) -> shares_ok s2.
Proof.
  intros a coll [] Hst Hi Hb (st' & -> & [H1 H2 H3 H4 H5]) Hd. rewrite Hst in *.
  assert (same_ledger (sput st' s1) s1) as Hl by (by apply (same_ledger_foreign (E:=E))).
  assert (CollectionAccountId st' = coll /\ ShareAssetId st' = a) as [Hc Ha] by (rewrite H5; by fields).
  split; rewrite ?sget_sput, ?Hc, ?Ha.
  - by rewrite Hl.
  - rewrite H5. by fields.
  - intros w Hw. rewrite H1, Hd by done. rewrite Hl, Hb, so_shares0 by done. done.
  - by apply H4.
  - rewrite H2, H3. lia.
  - rewrite H5. by fields.
  - done.
  - rewrite H5. by fields.
  - rewrite H5. by fields.
Qed.

(** A mint and its hook. *)
Record share_mint a to x s s' : Prop := {
  sm_ok : shares_ok s';
  sm_balance b w : balance_of b w s' = balance_of b w s + at_account a to x b w;
  sm_issuance b : issuance_of b s' = issuance_of b s + at_asset a x b;
  sm_mintable b : mintable b s' = mintable b s;
  sm_store : sst s' = (sst s) <| AccountShares := AccountShares (sst s') |>
                              <| SharesCirculation := SharesCirculation (sst s') |>;
}.
Lemma share_mint_next d t a to x s s1 s2 :
  ledger_change (E:=E) (at_account a to x) (at_asset a x) s s1 -> sst s1 = sst s ->
  hooked d t t s1 s2 -> shares_ok s2 -> share_mint a to x s s2.
Proof.
  intros Hc Hst (st' & -> & Hh) Hok.
  assert (same_ledger (sput st' s1) s1) as Hl by (by apply (same_ledger_foreign (E:=E))).
  split; [done|intros b w|intros b|intros b|]; rewrite ?Hl; try apply Hc.
  rewrite sget_sput, <-Hst. apply Hh.
Qed.

Lemma asset_mint_wp a to x s :
  shares_ok s -> 0 <= x ->
  wp (asset_mint (E:=E) Root a to x) (fun _ s' => mint_err a x s = None /\ share_mint a to x s s')
    (fun e s' => mint_err a x s = Some e /\ s' = s) False s.
Proof.
  intros Hs Hx. unfold asset_mint. wp_step.
  wp_apply (mint_spec (E:=E) a to x s); [apply Hs|done| |done|done].
  intros [] s1 [Herr Hc].
  assert (sst s1 = sst s) as Hst by (by apply (lc_foreign _ _ _ _ Hc)).
  destruct (circulation_bound s Hs) as (Hcirc & Hc0 & Hsh).
  pose proof Herr as [_ Hfit]%(mint_err_None (E:=E)).
  pose proof (balance_nonneg (E:=E) (ShareAssetId (sst s)) (CollectionAccountId (sst s)) s (so_ledger _ Hs)).
  wp_step. wp_apply (on_asset_mint_wp a to x s1); rewrite ?Hst; [| |done|done].
  { intros <- Hne. specialize (Hsh to (not_eq_sym Hne)). unfold in_width. lia. }
  intros [] s2 Hs2. split; [done|]. pose proof (lc_balance _ _ _ _ Hc (ShareAssetId (sst s))) as Hb.
  case_decide as Hd.
  - eapply share_mint_next; [exact Hc|done|exact Hs2|]. destruct Hd as [<- Hne].
    eapply (shares_ok_next (one to x)); [done|done|apply Hc| |exact Hs2|done].
    intros w Hw. rewrite Hb. unfold at_account, one. repeat case_decide; tauto || lia.
  - subst. eapply share_mint_next; [exact Hc|done|apply hooked_refl|].
    eapply (shares_ok_next (fun _ => 0)); [done|done|apply Hc| |apply hooked_refl|done].
    intros w Hw. rewrite Hb. unfold at_account. case_decide as Ha; [|lia]. destruct Ha, Hd; split; congruence.
Qed.
Lemma mint_shares a to x s :
  shares_ok s -> 0 <= x ->
  wp (asset_mint (E:=E) Root a to x) (fun _ => shares_ok) (fun _ => shares_ok) False s.
Proof.
  intros Hs Hx. wp_apply (asset_mint_wp a to x s Hs Hx); [by intros _ s' [_ []]|by intros e s' [_ ->]|done].
Qed.

Lemma burn_shares a from x s :
  shares_ok s -> 0 <= x ->
  wp (asset_burn (E:=E) Root a from x) (fun _ => shares_ok) (fun _ => shares_ok) False s.
Proof.
  intros Hs Hx. unfold asset_burn. wp_step.
  wp_apply (burn_spec (E:=E) a from x s); [apply Hs|done| |by intros e s' [_ ->]|done].
  intros [] s1 [Herr Hc].
  assert (sst s1 = sst s) as Hst by (by apply (lc_foreign _ _ _ _ Hc)).
  destruct (circulation_bound s Hs) as (Hcirc & Hc0 & Hsh).
  apply (burn_err_None (E:=E)) in Herr as [_ Hfit]; [|apply Hs].
  pose proof (issuance_width (E:=E) (ShareAssetId (sst s)) s (so_ledger _ Hs)) as [_ Hiw].
  pose proof (balance_nonneg (E:=E) (ShareAssetId (sst s)) (CollectionAccountId (sst s)) s (so_ledger _ Hs)).
  wp_step. wp_apply (on_asset_burn_wp a from x s1); rewrite ?Hst; [apply Hs| | |done|done].
  { intros <- Hne. specialize (Hsh from (not_eq_sym Hne)).
    rewrite <-(so_shares _ Hs) in Hfit by done. unfold in_width. lia. }
  intros [] s2 Hs2. pose proof (lc_balance _ _ _ _ Hc (ShareAssetId (sst s))) as Hb.
  case_decide as Hd.
  - destruct Hd as [<- Hne]. eapply (shares_ok_next (one from (- x))); [done|done|apply Hc| |exact Hs2|done].
    intros w Hw. rewrite Hb. unfold at_account, one. repeat case_decide; tauto || lia.
  - subst. eapply (shares_ok_next (fun _ => 0)); [done|done|apply Hc| |apply hooked_refl|done].
    intros w Hw. rewrite Hb. unfold at_account. case_decide as Ha; [|lia]. destruct Ha, Hd; split; congruence.
Qed.

(** *** Steps that leave the shares alone *)
Lemma shares_ok_put st' s :
  shares_ok s ->
  st' = (sst s) <| QuotaUsed := QuotaUsed st' |> <| CurrentPhaseId := CurrentPhaseId st' |>
          <| NumOfPhasesLeft := NumOfPhasesLeft st' |>
          <| ShareUnreleasedList := ShareUnreleasedList st' |>
          <| LastBonusTime := LastBonusTime st' |> ->
  in_width term_bits (NumOfPhasesLeft st') ->
  (forall w l, ShareUnreleasedList st' !! w = Some l -> Forall pack_ok l) ->
  shares_ok (sput st' s).
Proof.
  intros [] Hst Ht Hp.
  assert (same_ledger (sput st' s) s) as Hl by (by apply (same_ledger_foreign (E:=E))).
  assert (SavingPaused st' = SavingPaused (sst s) /\ AccountShares st' = AccountShares (sst s) /\
    CollectionAccountId st' = CollectionAccountId (sst s) /\ ShareAssetId st' = ShareAssetId (sst s) /\
    SharesCirculation st' = SharesCirculation (sst s) /\
    CollectionAssetId st' = CollectionAssetId (sst s)) as (H1 & H2 & H3 & H4 & H5 & H6)
    by (rewrite Hst; by fields).
  split; rewrite ?sget_sput; unfold account_shares; rewrite ?H1, ?H2, ?H3, ?H4, ?H5, ?H6; try done.
  - by rewrite Hl.
  - intros w Hw. rewrite Hl. by apply so_shares0.
Qed.
Lemma shares_ok_event (ev : SavingEvent) s :
  shares_ok s ->
  shares_ok (sput ((fr s) <| events ::= fun l => l ++ [inject ev] |>) s).
Proof.
  intros []. set (s' := sput _ _). assert (same_ledger s' s) as Hl by (by apply (same_ledger_frame (E:=E))).
  assert (sst s' = sst s) as Hst by (unfold s'; by store).
  split; rewrite ?Hst; try done; [by rewrite Hl|]. intros w Hw. rewrite Hl. by apply so_shares0.
Qed.
Lemma transfer_shares a from to x s :
  shares_ok s -> 0 <= x -> a <> ShareAssetId (sst s) ->
  wp (make_transfer_with_event a from to x) (fun _ s' => shares_ok s' /\ sst s' = sst s)
    (fun _ s' => shares_ok s' /\ sst s' = sst s) False s.
Proof.
  intros Hs Hx Ha. wp_apply (transfer_spec (E:=E) a from to x s); [apply Hs|done| |by intros e s' [_ ->]|done].
  intros [] s1 [_ Hc]. assert (sst s1 = sst s) as Hst by (by apply (lc_foreign _ _ _ _ Hc)).
  split; [|done].
  eapply (shares_ok_next (fun _ => 0)); [done|done|apply Hc| |apply hooked_refl|done].
  intros w Hw. rewrite (lc_balance _ _ _ _ Hc). unfold at_account.
  rewrite !decide_False by (intros [? _]; congruence). lia.
Qed.

End shares.
