(* ===== verification/SavingRelease.v ===== *)
(** * The savings: what a change of phase releases

    [left_of] and [dues] are the reference: the packs that one release leaves of a list,
    and the shares it releases.  The change of phase loops over the accounts and their
    packs, and mints and writes as it goes. *)
From S2P Require Export SavingShares.
#[local] Open Scope Z_scope.
Import RioSaving.

(** ** The reference *)
Definition due_of_pack (p : ShareReleasePack) : Balance := default 0 (release p).1.
Definition dues (l : list ShareReleasePack) : Balance := zsum (map due_of_pack l).
Definition left_of (l : list ShareReleasePack) : list ShareReleasePack :=
  filter (fun p => is_empty p = false) (map (fun p => (release p).2) l).
Definition unreleased (l : list ShareReleasePack) : Balance := zsum (map pack_total l).
(** Some pack releases a term, however small. *)
Definition releases (l : list ShareReleasePack) : Prop := Exists (fun p => is_Some (release p).1) l.

Lemma due_nonneg p : pack_ok p -> 0 <= due_of_pack p.
Proof.
  intros Hp. pose proof (release_spec p Hp) as Hr. unfold due_of_pack.
  destruct (release p) as [[b|] p']; cbn; [apply Hr|done].
Qed.
Lemma dues_nonneg l : Forall pack_ok l -> 0 <= dues l.
Proof.
  intros Hl. apply zsum_nonneg, Forall_forall. intros x (p & -> & Hp)%list_elem_of_fmap.
  apply due_nonneg. by eapply Forall_forall in Hl.
Qed.
Lemma dues_app l l' : dues (l ++ l') = dues l + dues l'.
Proof. unfold dues. by rewrite map_app, zsum_app. Qed.
Lemma releases_app l l' : releases (l ++ l') <-> releases l \/ releases l'.
Proof. apply Exists_app. Qed.
Lemma dues_none l : ~ releases l -> dues l = 0.
Proof.
  unfold releases, dues. induction l as [|p l IH]; [done|]. rewrite Exists_cons. intros Hno. cbn.
  unfold zsum in IH. rewrite IH by tauto. unfold due_of_pack.
  destruct (release p) as [[b|] p']; cbn; [|done]. destruct Hno. left. by eexists.
Qed.

(** Nothing is lost: what a release takes from the packs it gives out. *)
Lemma release_conserves l : Forall pack_ok l -> unreleased l = dues l + unreleased (left_of l).
Proof.
  unfold unreleased, dues, left_of.
  induction 1 as [|p l Hp _ IH]; [done|]. cbn [map]. rewrite filter_cons. pose proof (release_spec p Hp) as Hr.
  unfold zsum in *. cbn [foldr]. rewrite IH.
  assert (pack_total p = due_of_pack p + pack_total (release p).2) as ->.
  { unfold due_of_pack. destruct (release p) as [[b|] p']; cbn; [apply Hr|]. by destruct Hr as [_ ->]. }
  case_decide as He; cbn [map foldr]; [lia|]. apply not_false_iff_true in He. unfold is_empty in He.
  unfold pack_total at 1. rewrite He. lia.
Qed.
Lemma left_ok l : Forall pack_ok l -> Forall pack_ok (left_of l).
Proof.
  intros Hl. apply Forall_forall. intros p (_ & (q & -> & Hq)%list_elem_of_fmap)%list_elem_of_filter.
  eapply Forall_forall in Hl; [|exact Hq]. pose proof (release_spec q Hl) as Hr.
  destruct (release q) as [[b|] q']; cbn; [apply Hr|]. by destruct Hr as [_ ->].
Qed.

(** ** The loop *)
Section release.
Context {S E : Type} `{!Overflow}.
Context `{!Store S (Frame E), !Store S SavingStore, !Store S PriceStore, !Inject SavingEvent E}.
Context `{!Separate S (Frame E) SavingStore}.
Context `{!Ledger S, !LedgerEvents E, !LedgerSpec S E}.
Context (Hforeign : foreign SavingStore _).
Implicit Types (s : S) (st : SavingStore) (who : AccountId).
#[local] Abbreviation sst := (sget (T:=SavingStore)).
#[local] Abbreviation ok := (shares_ok (S:=S)).
#[local] Abbreviation share s := (ShareAssetId (sst s)).

(** [d] shares were minted for each account, [i] in all, and of the pallet only the
    shares, the circulation and the packs were written. *)
Record minted (d : AccountId -> Z) (i : Z) s s' : Prop := {
  mi_ok : ok s';
  mi_balance w : balance_of (share s) w s' = balance_of (share s) w s + d w;
  mi_issuance : issuance_of (share s) s' = issuance_of (share s) s + i;
  mi_mintable : mintable (share s) s' = mintable (share s) s;
  mi_store : sst s' = (sst s) <| AccountShares := AccountShares (sst s') |>
    <| SharesCirculation := SharesCirculation (sst s') |>
    <| ShareUnreleasedList := ShareUnreleasedList (sst s') |>;
}.
(** Releasing the packs mints what the ledger lets it mint. *)
Definition can_release (l : list ShareReleasePack) s : Prop :=
  releases l -> mintable (share s) s = true /\ issuance_of (share s) s + dues l < 2 ^ balance_bits.

Lemma minted_refl s : ok s -> minted (fun _ => 0) 0 s s.
Proof. intros Hs. split; [done|intros; lia|lia|done|by destruct (sst s)]. Qed.
Lemma minted_asset d i s s' : minted d i s s' -> share s' = share s.
Proof. intros Hm. rewrite (mi_store _ _ _ _ Hm). by fields. Qed.
Lemma minted_trans d1 i1 d2 i2 s s1 s2 :
  minted d1 i1 s s1 -> minted d2 i2 s1 s2 -> minted (fun w => d1 w + d2 w) (i1 + i2) s s2.
Proof.
  intros H1 H2. pose proof (minted_asset _ _ _ _ H1) as Ha. destruct H1 as [_ Hb Hi Hm Hst], H2 as [Hok Gb Gi Gm Gst].
  rewrite Ha in *. split; [done|intros w; rewrite Gb, Hb; lia|lia|congruence|].
  rewrite Gst, Hst. by destruct (sst s).
Qed.
Lemma minted_eq d i d' i' s s' :
  minted d i s s' -> (forall w, d w = d' w) -> i = i' -> minted d' i' s s'.
Proof. intros [] Hd <-. split; try done. intros w. by rewrite <-Hd. Qed.

(** What was released and what is left to be. *)
Lemma can_release_app l l' d s s1 :
  Forall pack_ok l -> Forall pack_ok l' -> minted d (dues l) s s1 -> can_release l s ->
  can_release l' s1 <-> can_release (l ++ l') s.
Proof.
  intros Hl Hl' Hm Hcan. unfold can_release in *. rewrite (minted_asset _ _ _ _ Hm), (mi_mintable _ _ _ _ Hm),
    (mi_issuance _ _ _ _ Hm), releases_app, dues_app, Z.add_assoc.
  pose proof (dues_nonneg l' Hl'). split; [|tauto].
  intros Hcan' [Hr|Hr]; [|by apply Hcan'].
  destruct (Hcan Hr) as [Hmint Hfit]. split; [done|].
  destruct (decide (dues l' = 0)) as [Hz|Hz]; [by rewrite Hz, Z.add_0_r|]. apply Hcan'.
  destruct (Exists_dec (fun p => is_Some (release p).1) l') as [He|Hno]; [done|].
  by rewrite dues_none in Hz.
Qed.

Lemma unwrapped_mint_wp p s :
  ok s -> pack_ok p -> pk_asset_id p = share s ->
  wp (unwrap (mint_share (E:=E) p))
    (fun r s' => r.2 = (release p).2 /\ can_release [p] s /\
       ShareUnreleasedList (sst s') = ShareUnreleasedList (sst s) /\
       minted (one (pk_owner p) (dues [p])) (dues [p]) s s')
    (fun _ _ => False) (~ can_release [p] s) s.
Proof.
  intros Hs Hp Ha. unfold mint_share. pose proof (release_spec p Hp) as Hr.
  assert (dues [p] = due_of_pack p) as -> by apply Z.add_0_r. unfold due_of_pack.
  destruct (release p) as [[b|] p'] eqn:Hrel; cbn [fst snd default].
  - destruct Hr as (_ & _ & _ & _ & Hb & Hpa & Hpo & _). rewrite Hpa, Hpo, Ha.
    assert (releases [p]) as Hyes by (constructor; rewrite Hrel; by eexists).
    assert (can_release [p] s <-> mint_err (share s) b s = None) as Hcan.
    { rewrite (mint_err_None (E:=E)). unfold can_release. assert (dues [p] = b) as ->; [|tauto].
      unfold dues, due_of_pack; cbn. rewrite Hrel. cbn. lia. }
    do 2 wp_step. wp_apply (asset_mint_wp Hforeign (share s) (pk_owner p) b s Hs Hb); [| |done].
    + intros [] s1 [Herr [Hok Hbal Hiss Hm Hst]]. wp_step. split; [done|]. split; [by apply Hcan|].
      split; [rewrite Hst; by fields|]. split; [done| | |done|].
      * intros w. rewrite Hbal. unfold at_account, one. repeat case_decide; tauto || lia.
      * rewrite Hiss. unfold at_asset. by rewrite decide_True.
      * rewrite Hst. by destruct (sst s).
    + intros e s1 [Herr _]. wp_step. rewrite Hcan. congruence.
  - wp_step. wp_step. split; [done|]. split.
    + intros Hyes. apply Exists_exists in Hyes as (q & Hq & Hsome). apply list_elem_of_singleton in Hq as ->.
      rewrite Hrel in Hsome. by destruct Hsome.
    + split; [done|]. eapply minted_eq; [by apply minted_refl| |done]. intros w. unfold one. by case_decide.
Qed.

Lemma release_packs_wp who l s :
  ok s -> Forall (fun p => pack_ok p /\ pk_owner p = who /\ pk_asset_id p = share s) l ->
  wp (release_packs (E:=E) l)
    (fun l' s' => l' = left_of l /\ can_release l s /\
       ShareUnreleasedList (sst s') = ShareUnreleasedList (sst s) /\
       minted (one who (dues l)) (dues l) s s')
    (fun _ _ => False) (~ can_release l s) s.
Proof.
  revert s. induction l as [|p l IH]; intros s Hs Hl; cbn [release_packs].
  { wp_step. split; [done|]. split; [by intros ?%Exists_nil|]. split; [done|].
    eapply minted_eq; [by apply minted_refl| |done]. intros w. unfold one. by case_decide. }
  inversion Hl as [|? ? (Hp & <- & Ha) Hl']; subst.
  assert (Forall pack_ok l) as Hok by (by eapply Forall_impl; [exact Hl'|intros q (? & _)]).
  assert (forall d s1, minted d (dues [p]) s s1 -> can_release [p] s ->
    can_release l s1 <-> can_release (p :: l) s) as Happ.
  { intros d s1 H1 Hc. apply (can_release_app [p] l d s s1); try done. by constructor. }
  wp_step. wp_apply (unwrapped_mint_wp p s Hs Hp Ha); [|done|].
  - intros r s1 (Hr & Hc & Hu1 & H1). wp_step.
    wp_apply (IH s1); [apply H1|by rewrite (minted_asset _ _ _ _ H1)| |done|by rewrite (Happ _ _ H1 Hc)].
    intros l' s2 (-> & Hc2 & Hu2 & H2). wp_step.
    split; [|split; [by apply (Happ _ _ H1 Hc)|split; [congruence|]]].
    + unfold left_of. cbn [map]. rewrite filter_cons, Hr. unfold is_empty. by destruct (pk_empty _).
    + eapply minted_eq; [exact (minted_trans _ _ _ _ _ _ _ H1 H2)| |].
      * intros w. unfold one. change (p :: l) with ([p] ++ l). rewrite dues_app. case_decide; lia.
      * by rewrite <-dues_app.
  - intros Hno Hcan. apply Hno. intros Hr. destruct Hcan as [Hm Hfit]; [by apply (releases_app [p] l); left|].
    split; [done|]. change (p :: l) with ([p] ++ l) in Hfit. rewrite dues_app in Hfit.
    pose proof (dues_nonneg l Hok). lia.
Qed.

Definition set_packs who (l : list ShareReleasePack) (m : gmap AccountId (list ShareReleasePack)) :=
  if decide (0 < length l)%nat then <[who := l]> (delete who m) else delete who m.
Lemma lookup_set_packs who l m w :
  get_or [] (set_packs who l m) w = if decide (w = who) then l else get_or [] m w.
Proof.
  unfold set_packs, get_or. case_decide as Hl; rewrite ?lookup_insert, lookup_delete;
    repeat case_decide; subst; try done. destruct l; [done|]. cbn in Hl. lia.
Qed.

Lemma minted_put d i m s s1 :
  minted d i s s1 -> (forall w l, m !! w = Some l -> Forall pack_ok l) ->
  minted d i s (sput ((sst s1) <| ShareUnreleasedList := m |>) s1).
Proof.
  intros [Hok Hb Hi Hm Hst] Hpacks. set (st' := (sst s1) <| ShareUnreleasedList := m |>).
  assert (same_ledger (sput st' s1) s1) as Hl by (by apply (same_ledger_foreign (E:=E))).
  split; [|intros w; by rewrite Hl|by rewrite Hl|by rewrite Hl|].
  - apply (shares_ok_put Hforeign); [done|by destruct (sst s1)|fields; apply Hok|done].
  - rewrite sget_sput. unfold st'. rewrite Hst. by destruct (sst s).
Qed.

(** The packs of an account are its own, of the share asset. *)
Definition own_packs who s : Prop :=
  Forall (fun p => pk_owner p = who /\ pk_asset_id p = share s) (account_future_releases who (sst s)).
Lemma packs_ok who s : ok s -> Forall pack_ok (account_future_releases who (sst s)).
Proof.
  intros Hs. unfold account_future_releases, get_or.
  destruct (ShareUnreleasedList (sst s) !! who) as [l|] eqn:Hl; cbn; [|done]. by eapply (so_packs _ Hs).
Qed.

Lemma release_account_wp who s :
  let l := account_future_releases who (sst s) in
  ok s -> own_packs who s ->
  wp (release_account (E:=E) who)
    (fun _ s' => can_release l s /\ minted (one who (dues l)) (dues l) s s' /\
       ShareUnreleasedList (sst s') = set_packs who (left_of l) (ShareUnreleasedList (sst s)))
    (fun _ _ => False) (~ can_release l s) s.
Proof.
  intros l Hs Hown. unfold release_account. do 3 wp_step. fold l. pose proof (packs_ok who s Hs) as Hok.
  wp_apply (release_packs_wp who l s Hs); [| |done|done].
  { apply Forall_and; split; [done|exact Hown]. }
  intros l' s1 (-> & Hcan & Hu & Hm). wp_step. rewrite wp_modify.
  assert (forall w l', delete who (ShareUnreleasedList (sst s1)) !! w = Some l' -> Forall pack_ok l') as Hdel.
  { intros w l' [_ Hl']%lookup_delete_Some. by eapply (so_packs _ (mi_ok _ _ _ _ Hm)). }
  pose proof (minted_put _ _ _ _ _ Hm Hdel) as Hm1. unfold set_packs. rewrite <-Hu.
  case_decide.
  - rewrite wp_modify. split; [done|]. split; [|by store].
    assert (forall w l', <[who := left_of l]> (delete who (ShareUnreleasedList (sst s1))) !! w = Some l' ->
      Forall pack_ok l') as Hins.
    { intros w l'. rewrite lookup_insert. case_decide; [intros [= <-]; by apply left_ok|apply Hdel]. }
    pose proof (minted_put _ _ _ _ _ Hm1 Hins) as Hm2. rewrite sget_sput in Hm2 |- *. exact Hm2.
  - wp_step. split; [done|]. split; [exact Hm1|by store].
Qed.

(** *** All accounts, from the state [s0] *)
Section all.
Context (s0 : S).
#[local] Abbreviation packs := (fun w => account_future_releases w (sst s0)).
#[local] Abbreviation all l := (concat (map packs l)).

Record released (done : list AccountId) s : Prop := {
  rd_minted : minted (fun w => if decide (w ∈ done) then dues (packs w) else 0) (dues (all done)) s0 s;
  rd_packs w : account_future_releases w (sst s) =
    if decide (w ∈ done) then left_of (packs w) else packs w;
  rd_can : can_release (all done) s0;
}.
Lemma released_start : ok s0 -> released [] s0.
Proof.
  intros Hs. split; [by apply minted_refl|done|by intros ?%Exists_nil].
Qed.
Lemma all_app l l' : all (l ++ l') = all l ++ all l'.
Proof. by rewrite map_app, concat_app. Qed.
Lemma all_ok l : ok s0 -> Forall pack_ok (all l).
Proof.
  intros Hs. apply Forall_concat, Forall_forall. intros q (w & -> & _)%list_elem_of_fmap.
  by apply packs_ok.
Qed.

Lemma releases_wp rest done s :
  ok s0 -> (forall w, own_packs w s0) -> NoDup (done ++ rest) -> released done s ->
  wp (for_each (release_account (E:=E)) rest) (fun _ s' => released (done ++ rest) s')
    (fun _ _ => False) (~ can_release (all (done ++ rest)) s0) s.
Proof.
  intros Hs0 Hown. revert done s. induction rest as [|w rest IH]; intros done s Hnd Hd; cbn [for_each].
  { rewrite wp_ret. by rewrite app_nil_r. }
  assert (w ∉ done) as Hw.
  { apply NoDup_app in Hnd as (_ & Hnd & _). intros Hin. apply (Hnd w Hin). by left. }
  pose proof (rd_packs _ _ Hd w) as Hpw. rewrite decide_False in Hpw by done.
  pose proof (minted_asset _ _ _ _ (rd_minted _ _ Hd)) as Hshare.
  pose proof (can_release_app (all done) (packs w) _ s0 s (all_ok done Hs0) (packs_ok w s0 Hs0)
    (rd_minted _ _ Hd) (rd_can _ _ Hd)) as Hcan.
  assert (done ++ w :: rest = (done ++ [w]) ++ rest) as Hsplit by (by rewrite <-app_assoc).
  wp_step. pose proof (release_account_wp w s) as Hwp. cbv zeta in Hwp. rewrite Hpw in Hwp.
  wp_apply Hwp; [apply (rd_minted _ _ Hd)| |clear Hwp|done|].
  { unfold own_packs. rewrite Hpw, Hshare. apply Hown. }
  - intros [] s1 (Hc & Hm & Hu). rewrite Hsplit in *. apply IH; [done|].
    assert (all (done ++ [w]) = all done ++ packs w) as Hall by (rewrite all_app; cbn; by rewrite app_nil_r).
    split; rewrite ?Hall.
    + eapply minted_eq; [exact (minted_trans _ _ _ _ _ _ _ (rd_minted _ _ Hd) Hm)| |by rewrite dues_app].
      intros v. unfold one. rewrite (decide_ext (v ∈ done ++ [w]) (v ∈ done \/ v = w))
        by (rewrite elem_of_app, list_elem_of_singleton; tauto).
      repeat case_decide; subst; tauto || lia.
    + intros v. unfold account_future_releases at 1. rewrite Hu, lookup_set_packs.
      fold (account_future_releases v (sst s)). rewrite (rd_packs _ _ Hd v).
      rewrite (decide_ext (v ∈ done ++ [w]) (v ∈ done \/ v = w))
        by (rewrite elem_of_app, list_elem_of_singleton; tauto).
      repeat case_decide; subst; tauto.
    + by apply Hcan.
  - intros Hno Hall. apply Hno, Hcan. rewrite Hsplit, all_app, all_app in Hall. cbn in Hall.
    rewrite app_nil_r in Hall. pose proof (dues_nonneg (all rest) (all_ok rest Hs0)).
    intros Hr. destruct Hall as [Hm Hfit]; [by apply releases_app; left|]. split; [done|].
    rewrite dues_app in Hfit. lia.
Qed.
End all.

(** ** The change of phase *)
Context (unreleased_keys : gmap AccountId (list ShareReleasePack) -> list AccountId).
(** What all accounts are due, and that the ledger can mint it. *)
Definition all_dues s : Balance := map_sum (fun _ l => dues l) (ShareUnreleasedList (sst s)).
Definition releasable s : Prop :=
  (exists w l, ShareUnreleasedList (sst s) !! w = Some l /\ releases l) ->
  mintable (share s) s = true /\ issuance_of (share s) s + all_dues s < 2 ^ balance_bits.

Lemma all_dues_keys keys s :
  complete keys (ShareUnreleasedList (sst s)) ->
  all_dues s = dues (concat (map (fun w => account_future_releases w (sst s)) keys)).
Proof.
  intros Hkeys. unfold all_dues.
  rewrite (map_sum_ext _ (fun w _ => dues (account_future_releases w (sst s)))).
  2: { intros w l Hl. unfold account_future_releases, get_or. by rewrite Hl. }
  rewrite (map_sum_keys _ _ keys) by done. clear. induction keys as [|w l IH]; [done|].
  cbn [map concat]. rewrite dues_app, <-IH. done.
Qed.
Lemma releasable_all keys s :
  complete keys (ShareUnreleasedList (sst s)) ->
  releasable s <-> can_release (concat (map (fun w => account_future_releases w (sst s)) keys)) s.
Proof.
  intros Hkeys. unfold releasable, can_release. rewrite (all_dues_keys keys) by done. destruct Hkeys as [_ Hkeys].
  assert (forall w l, ShareUnreleasedList (sst s) !! w = Some l -> account_future_releases w (sst s) = l) as Hget
    by (intros w l Hl; unfold account_future_releases, get_or; by rewrite Hl).
  assert ((exists w l, ShareUnreleasedList (sst s) !! w = Some l /\ releases l) <->
    releases (concat (map (fun w => account_future_releases w (sst s)) keys))) as ->; [|done].
  unfold releases. rewrite Exists_concat, Exists_exists. split.
  - intros (w & l & Hl & Hr). exists l. split; [|done]. apply list_elem_of_fmap. exists w.
    split; [by rewrite (Hget _ _ Hl)|]. apply Hkeys. by exists l.
  - intros (l & (w & -> & Hw)%list_elem_of_fmap & Hr). apply Hkeys in Hw as [l Hl].
    exists w, l. by rewrite (Hget _ _ Hl) in Hr.
Qed.

(** C34: a change of phase releases one term of every pack and loses nothing: whatever the
    order in which the storage enumerates the accounts, each account is minted what its
    packs release, keeps the packs that are not used up, and holds, in shares and in
    unreleased shares together, what it held before; the recorded shares remain its
    balance.  The pallet panics exactly when the ledger cannot mint what all are due. *)
Theorem phase_change_releases id s :
  let keys := unreleased_keys (ShareUnreleasedList (sst s)) in
  let packs w s := account_future_releases w (sst s) in
  ok s -> complete keys (ShareUnreleasedList (sst s)) ->
  (forall w, own_packs w s) ->
  (releasable s -> exists s', shares_release_by_phase_change (E:=E) unreleased_keys id s = Ok tt s' /\
     ok s' /\ issuance_of (share s) s' = issuance_of (share s) s + all_dues s /\
     forall w, packs w s' = left_of (packs w s) /\
       balance_of (share s) w s' = balance_of (share s) w s + dues (packs w s) /\
       balance_of (share s) w s' + unreleased (packs w s')
         = balance_of (share s) w s + unreleased (packs w s)) /\
  (~ releasable s -> shares_release_by_phase_change (E:=E) unreleased_keys id s = Panic).
Proof.
  intros keys packs Hs Hkeys Hown. rewrite (releasable_all keys) by done.
  set (all := concat _).
  assert (wp (shares_release_by_phase_change (E:=E) unreleased_keys id) (fun _ s' => released s keys s')
    (fun _ _ => False) (~ can_release all s) s) as Hwp.
  { unfold shares_release_by_phase_change. do 2 wp_step. by apply (releases_wp s keys []); [..|apply Hkeys|apply released_start]. }
  destruct (shares_release_by_phase_change _ id s) as [[] s'|e s'|] eqn:Hr.
  - apply (wp_Ok _ _ _ _ _ _ _ Hwp) in Hr as [Hm Hp Hc]. split; [intros _|done].
    exists s'. split; [done|]. split; [apply Hm|]. split.
    { by rewrite (mi_issuance _ _ _ _ Hm), (all_dues_keys keys). }
    intros w.
    assert (packs w s' = left_of (packs w s) /\ balance_of (share s) w s'
      = balance_of (share s) w s + dues (packs w s)) as [Hl Hb].
    { unfold packs. rewrite (mi_balance _ _ _ _ Hm), Hp. case_decide as Hw; [done|].
      rewrite (proj2 Hkeys), <-eq_None_not_Some in Hw. unfold account_future_releases, get_or. rewrite Hw. cbn. by rewrite Z.add_0_r. }
    split; [done|]. split; [done|]. rewrite Hl, Hb.
    rewrite (release_conserves (packs w s)) by by apply packs_ok. lia.
  - by apply (wp_Err _ _ _ _ _ _ _ Hwp) in Hr.
  - by apply (wp_Panic _ _ _ _ _ Hwp) in Hr.
Qed.
End release.
