(* ===== verification/SavingRuns.v ===== *)
(** * The savings: staking keeps the shares, over all runs *)
From S2P Require Export SavingShares.
From stdpp Require Import relations.
#[local] Open Scope Z_scope.
Import RioSaving.

Section runs.
Context {S E : Type} `{!Overflow}.
Context `{!Store S (Frame E), !Store S SavingStore, !Store S PriceStore, !Inject SavingEvent E}.
Context `{!Separate S (Frame E) SavingStore}.
Context `{!Ledger S, !LedgerEvents E, !LedgerSpec S E}.
Context (Hforeign : foreign SavingStore _) (Hchecks : overflow_checks = true).
Context (unreleased_keys : gmap AccountId (list ShareReleasePack) -> list AccountId).
Implicit Types (s : S) (st : SavingStore) (who : AccountId).
#[local] Abbreviation sst := (sget (T:=SavingStore)).
#[local] Abbreviation fr := (sget (T:=Frame E)).
#[local] Abbreviation ok := (shares_ok (S:=S)).
(** Every outcome keeps the shares; a panic is possible. *)
#[local] Abbreviation keeps m Q s := (wp m (fun r s' => Q r /\ ok s') (fun _ s' => ok s') True s).
#[local] Abbreviation any := (fun _ => True).

Lemma runs_keep_event (ev : SavingEvent) s : ok s -> keeps (deposit_event (E:=E) ev) any s.
Proof. intros Hs. wp_step. split; [done|]. by apply shares_ok_event. Qed.

Lemma keeps_write f s :
  ok s ->
  f (sst s) = (sst s) <| QuotaUsed := QuotaUsed (f (sst s)) |>
    <| CurrentPhaseId := CurrentPhaseId (f (sst s)) |>
    <| NumOfPhasesLeft := NumOfPhasesLeft (f (sst s)) |>
    <| ShareUnreleasedList := ShareUnreleasedList (f (sst s)) |>
    <| LastBonusTime := LastBonusTime (f (sst s)) |> ->
  (in_width term_bits (NumOfPhasesLeft (sst s)) -> in_width term_bits (NumOfPhasesLeft (f (sst s)))) ->
  ShareUnreleasedList (f (sst s)) = ShareUnreleasedList (sst s) ->
  keeps (modify f) any s.
Proof.
  intros Hs Hf Ht Hp. rewrite wp_modify. split; [done|]. apply (shares_ok_put Hforeign); [done|done|exact (Ht (so_terms _ Hs))|].
  rewrite Hp. apply Hs.
Qed.

Lemma staking_split_keeps x info s :
  ok s -> 0 <= x -> keeps (staking_split x info) (fun r => 0 <= r.1.1 /\ 0 <= r.2) s.
Proof.
  intros Hs Hx. unfold staking_split. do 3 wp_step. apply wp_lift; split; [intros q _|done].
  case_decide; [case_decide; [by wp_step|]|].
  - do 3 wp_step. split; [done|]. apply shares_ok_put; try done; fields; try apply Hs.
  - wp_step. apply wp_lift; split; [intros r [-> Hr]%(arith_exact Hchecks)|]; [|done|done].
    wp_step. apply wp_lift; split; [intros n [-> Hn]%(arith_exact Hchecks)|]; [|done|done].
    wp_step. unfold in_width in *. cbn. split; [lia|done].
Qed.

Lemma mint_share_keeps p s :
  ok s -> pack_ok p -> keeps (mint_share (E:=E) p) (fun r => pack_ok r.2) s.
Proof.
  intros Hs Hp. unfold mint_share. pose proof (release_spec p Hp) as Hr.
  destruct (release p) as [[b|] p']; [|destruct Hr as [_ ->]; by wp_step].
  destruct Hr as (Hp' & _ & _ & _ & Hb & _). wp_step.
  wp_apply (mint_shares Hforeign (pk_asset_id p') (pk_owner p') b s Hs Hb); [|done|done].
  intros _ s1 Hs1. by wp_step.
Qed.
Lemma mint_assets_keeps iou p s :
  ok s -> 0 <= iou_balance iou -> pack_ok p ->
  keeps (mint_assets (E:=E) (Some iou) (Some p)) (fun r => forall q, r.2 = Some q -> pack_ok q) s.
Proof.
  intros Hs Hi Hp. unfold mint_assets, mint_iou. do 2 wp_step.
  wp_apply (mint_shares Hforeign (iou_asset iou) (iou_owner iou) (iou_balance iou) s Hs Hi); [|done|done].
  intros _ s1 Hs1. do 2 wp_step. wp_apply (mint_share_keeps p s1 Hs1 Hp); [|done|done].
  intros r s2 [Hr Hs2]. wp_step. split; [|done]. by intros q [= <-].
Qed.

Lemma create_pack_keeps who a x info s :
  ok s -> keeps (create_release_pack_for_saving who a x info) pack_ok s.
Proof.
  intros Hs. unfold create_release_pack_for_saving. case_decide; [by wp_step|].
  wp_step. apply wp_lift; split; [intros b [-> Hb]%checked_Some|done]. do 2 wp_step.
  case_decide; [by wp_step|]. apply wp_lift; split; [|done].
  intros p Hp. apply (create_pack_Some Hchecks) in Hp as [? _]; [done|done|apply Hs].
Qed.

Lemma future_ok who s : ok s -> Forall pack_ok (account_future_releases who (sst s)).
Proof.
  intros Hs. unfold account_future_releases, get_or.
  destruct (ShareUnreleasedList (sst s) !! who) as [l|] eqn:Hl; cbn; [|done].
  by eapply (so_packs _ Hs).
Qed.
Lemma packs_put m s :
  ok s -> (forall w l, m !! w = Some l -> Forall pack_ok l) ->
  ok (sput ((sst s) <| ShareUnreleasedList := m |>) s).
Proof. intros Hs Hm. apply shares_ok_put; try done; fields; apply Hs. Qed.
Lemma packs_insert who l s :
  ok s -> Forall pack_ok l -> ok (sput ((sst s) <| ShareUnreleasedList ::= <[who := l]> |>) s).
Proof.
  intros Hs Hl. apply (packs_put (<[who := l]> (ShareUnreleasedList (sst s)))); [done|].
  intros w l'. rewrite lookup_insert. case_decide; [by intros [= <-]|apply Hs].
Qed.
Lemma packs_delete who s :
  ok s -> ok (sput ((sst s) <| ShareUnreleasedList ::= delete who |>) s).
Proof.
  intros Hs. apply (packs_put (delete who (ShareUnreleasedList (sst s)))); [done|].
  intros w l'. rewrite lookup_delete. case_decide; [done|apply Hs].
Qed.

Lemma register_keeps p s : ok s -> pack_ok p -> keeps (register_share_pack p) any s.
Proof.
  intros Hs Hp. unfold register_share_pack. wp_step; [by wp_step|]. do 3 wp_step.
  { wp_step. split; [done|]. apply packs_insert; [done|]. by constructor. }
  do 4 wp_step. unfold unwrap_sum. wp_step. wp_step. apply wp_lift; split; [intros r Hr|done].
  destruct r as [e|l]; [by wp_step|]. wp_step. rewrite wp_modify. split; [done|].
  apply packs_insert; [by apply packs_delete|]. eapply (merge_ok Hchecks); [|exact Hr].
  apply Forall_app; split; [by apply future_ok|by constructor].
Qed.

Lemma stake_in_phase_keeps who a info x s :
  ok s -> 0 <= x -> keeps (stake_in_phase (E:=E) who a info x) any s.
Proof.
  intros Hs Hx. unfold stake_in_phase, create_iou, register_iou. wp_step.
  apply wp_lift; split; [intros iou (i & _ & [= <-])%bind_Some|done]. wp_step.
  wp_apply (create_pack_keeps who a x info s Hs); [|done|done]. intros p s1 [Hp Hs1]. wp_step.
  wp_apply (mint_assets_keeps (MkIOU i x who) p s1 Hs1); [done|done| |done|done].
  intros r s2 [Hr Hs2]. do 3 wp_step. apply wp_lift; split; [intros q Hq|done]. wp_step.
  wp_apply (register_keeps q s2 Hs2); [by apply Hr| |done|done]. intros [] s3 [_ Hs3]. wp_step.
  apply wp_lift; split; [intros j _|done]. by apply runs_keep_event.
Qed.

Lemma release_packs_keeps l s :
  ok s -> Forall pack_ok l -> keeps (release_packs (E:=E) l) (Forall pack_ok) s.
Proof.
  intros Hs Hl. revert s Hs. induction Hl as [|p l Hp _ IH]; intros s Hs; cbn [release_packs]; [by wp_step|].
  do 2 wp_step. wp_apply (mint_share_keeps p s Hs Hp); [|intros; by wp_step|done].
  intros r s1 [Hr Hs1]. wp_step. wp_apply (IH s1 Hs1); [|done|done]. intros l' s2 [Hl' Hs2].
  wp_step. split; [|done]. case_match; [done|by constructor].
Qed.
Lemma release_account_keeps who s : ok s -> keeps (release_account (E:=E) who) any s.
Proof.
  intros Hs. unfold release_account. do 3 wp_step.
  wp_apply (release_packs_keeps _ s Hs); [by apply future_ok| |done|done]. intros l s1 [Hl Hs1].
  wp_step. rewrite wp_modify. case_decide.
  - rewrite wp_modify. split; [done|]. apply packs_insert; [by apply packs_delete|done].
  - wp_step. split; [done|]. by apply packs_delete.
Qed.
Lemma for_each_keeps {A} (f : A -> M S unit) l s :
  (forall x s, ok s -> keeps (f x) any s) -> ok s -> keeps (for_each f l) any s.
Proof.
  intros Hf. revert s. induction l as [|x l IH]; intros s Hs; cbn; [by wp_step|].
  wp_step. wp_apply (Hf x s Hs); [|done|done]. intros [] s1 [_ Hs1]. by apply IH.
Qed.
Lemma shift_keeps id s : ok s -> keeps (shift_next_phase (E:=E) unreleased_keys id) any s.
Proof.
  intros Hs. unfold shift_next_phase, shares_release_by_phase_change. wp_step.
  apply wp_lift; split; [intros new _|done]. do 4 wp_step.
  wp_apply (for_each_keeps (release_account (E:=E)) (unreleased_keys (ShareUnreleasedList (sst s))) s); [..|done].
  - by intros; apply release_account_keeps.
  - done.
  - intros [] s1 [_ Hs1]. do 3 wp_step.
    + wp_step. wp_apply (keeps_write (fun st => st <| QuotaUsed := 0 |>) s1 Hs1); [done..| |done|done].
      intros [] s2 [_ Hs2]. wp_step.
      wp_apply (keeps_write (fun st => st <| CurrentPhaseId := new |>) s2 Hs2); [done..| |done|done].
      intros [] s3 [_ Hs3]. wp_step.
      wp_apply (keeps_write (fun st => st <| NumOfPhasesLeft ::= fun v => if decide (0 < v) then v - 1 else v |>) s3 Hs3);
        [done| |done| |done|done].
      { fields. pose proof (so_terms _ Hs3) as Ht. unfold in_width in *. case_decide; lia. }
      intros [] s4 [_ Hs4]. wp_step. wp_apply (runs_keep_event _ s4 Hs4); [|done|done].
      intros [] s5 [_ Hs5]. by wp_step.
    + wp_step.
      wp_apply (keeps_write (fun st => st <| QuotaUsed := quota (phase_info id st) |>) s1 Hs1);
        [done..| |done|done].
      intros [] s2 [_ Hs2]. by wp_step.
  - intros e s1 _. by wp_step.
Qed.

Lemma create_staking_keeps stop fuel who x s :
  (forall s, ok s -> keeps stop (fun b => 0 <= b) s) -> ok s -> 0 <= x ->
  keeps (create_staking_from (E:=E) unreleased_keys stop fuel who x) (fun b => 0 <= b) s.
Proof.
  intros Hstop. revert x s. induction fuel as [|fuel IH]; intros x s Hs Hx; cbn [create_staking_from];
    [by apply Hstop|].
  do 2 wp_step; [|done]. do 8 wp_step; [|done]. do 3 wp_step.
  wp_apply (staking_split_keeps x _ s Hs Hx); [|done|done]. intros [[b next] rest] s1 [[Hb Hr] Hs1].
  cbn in Hb, Hr. wp_step.
  wp_apply (stake_in_phase_keeps who _ _ b s1 Hs1 Hb); [|done|done]. intros [] s2 [_ Hs2].
  destruct next; [|by wp_step]. wp_step.
  wp_apply (shift_keeps _ s2 Hs2); [|done|done]. intros r s3 [_ Hs3]. destruct (decide (is_Some r /\ 0 < rest)); [|by wp_step].
  wp_step. wp_apply (IH rest s3 Hs3 Hr); [|done|done]. intros more s4 [Hm Hs4].
  apply wp_lift; split; [|done]. intros y [-> Hy]%(arith_exact Hchecks); [|done]. split; [apply Hy|done].
Qed.

Lemma staking_keeps who x s :
  ok s -> 0 <= x -> keeps (create_staking (E:=E) unreleased_keys who x) (fun b => 0 <= b) s.
Proof.
  intros Hs Hx. unfold create_staking. do 2 wp_step. apply create_staking_keeps; [|done|done].
  intros s1 _. by wp_step.
Qed.

(** *** The extrinsic transfer *)
Lemma before_transfer_pure a from to x : preserves eq (before_asset_transfer (S:=S) a from to x).
Proof. unfold before_asset_transfer, check_can_redeem, required_balances. preserves_steps. Qed.

Lemma track_keeps from to x s s1 :
  ok s -> 0 <= x ->
  transfer_err (ShareAssetId (sst s)) from x s = None ->
  ledger_change (E:=E) (fun b v => at_account (ShareAssetId (sst s)) to x b v
    - at_account (ShareAssetId (sst s)) from x b v) (fun _ => 0) s s1 ->
  from <> to -> keeps (track_share_asset_movement (E:=E) from to x) any s1.
Proof.
  intros Hs Hx [_ Hle]%(transfer_err_None (E:=E)) Hc Hne.
  set (a := ShareAssetId (sst s)) in *. set (coll := CollectionAccountId (sst s)).
  assert (sst s1 = sst s) as Hst by (by apply (lc_foreign _ _ _ _ Hc)).
  destruct (circulation_bound s Hs) as (Hcirc & Hc0 & Hsh). fold a coll in Hcirc, Hsh.
  pose proof (issuance_width (E:=E) a s (so_ledger _ Hs)) as [_ Hiw].
  pose proof (balance_pair_le_issuance (E:=E) a from to s (so_ledger _ Hs) Hne) as Hpair.
  pose proof (balance_nonneg (E:=E) a to s (so_ledger _ Hs)).
  pose proof (balance_nonneg (E:=E) a from s (so_ledger _ Hs)).
  pose proof (so_shares _ Hs) as Hshares. fold a coll in Hshares.
  wp_apply (track_wp from to x s1); rewrite ?Hst; fold coll; [done| | | | | |done|done].
  - intros Hw. rewrite (Hshares from Hw). unfold in_width. lia.
  - intros Hw. rewrite (Hshares to Hw). unfold in_width. lia.
  - intros Hw. subst from. unfold in_width. lia.
  - intros Hw. assert (from <> coll) as Hf by congruence. specialize (Hsh from Hf).
    rewrite (Hshares from Hf) in Hsh. subst to. unfold in_width. lia.
  - intros [] s2 (d & t & Hk & Hd). split; [done|].
    eapply (shares_ok_next Hforeign (fun w => one to x w - one from x w)); [done|done|apply Hc| |exact Hk|exact Hd].
    intros w Hw. rewrite (lc_balance _ _ _ _ Hc). fold a. unfold at_account, one.
    repeat case_decide; tauto || lia.
Qed.

(** A transfer that redeems nothing. *)
Definition no_redemption (a : AssetId) (to : AccountId) st : Prop :=
  a = ShareAssetId st \/ a = CollectionAssetId st \/ IOUAssetPhaseId st !! a = None \/
  to <> CollectionAccountId st.

Lemma asset_transfer_keeps o a to x s :
  ok s -> 0 <= x -> no_redemption a to (sst s) ->
  keeps (asset_transfer (E:=E) unreleased_keys o a to x) any s.
Proof.
  intros Hs Hx Hno. unfold asset_transfer. wp_step.
  apply wp_ensure_signed; split; [intros who _|done]. wp_step.
  wp_apply (before_transfer_pure a who to x s); [|by intros e s' <-|done]. intros [] s' <-. wp_step.
  destruct (decide (a = ShareAssetId (sst s))) as [->|Ha].
  - wp_apply (transfer_spec (E:=E) (ShareAssetId (sst s)) who to x s); [apply Hs|done| |by intros e s' [_ ->]|done].
    intros [] s1 [Herr Hc]. assert (sst s1 = sst s) as Hst by (by apply (lc_foreign _ _ _ _ Hc)).
    unfold on_asset_transfer. wp_step. do 2 wp_step. rewrite Hst, (so_running _ Hs). do 2 wp_step.
    + do 2 wp_step. rewrite Hst, decide_False, decide_True by (done || apply Hs).
      apply negb_true_iff, bool_decide_eq_false in H0.
      wp_apply (track_keeps who to x s s1); [done..| | |done]; [done|].
      intros e s2 Hs2. by wp_step.
    + apply negb_false_iff, bool_decide_eq_true in H0. subst. wp_step. split; [done|].
      eapply (shares_ok_next Hforeign (fun _ => 0)); [done|done|apply Hc| |apply hooked_refl|done].
      intros w Hw. rewrite (lc_balance _ _ _ _ Hc). lia.
  - wp_apply (transfer_shares Hforeign a who to x s Hs Hx Ha); [|by intros e s' [? _]|done].
    intros [] s1 [Hs1 Hst]. unfold on_asset_transfer. do 3 wp_step. rewrite (so_running _ Hs1). do 2 wp_step.
    2: { wp_step. by split. }
    do 2 wp_step. rewrite decide_False by apply Hs1. rewrite decide_False by congruence.
    do 7 wp_step.
    + wp_step. wp_apply (staking_keeps who x s1 Hs1 Hx); [|intros; by wp_step|done].
      intros b s2 [_ Hs2]. by wp_step.
    + rewrite decide_False; [by wp_step|]. rewrite Hst in *. intros [Hi%bool_decide_eq_true Ht].
      destruct Hno as [?|[?|[Hn|?]]]; [done| | |done]; [by match goal with Hn : ~ (_ /\ _) |- _ => apply Hn; rewrite Hst end|]. rewrite Hn in Hi. by destruct Hi.
Qed.

(** *** The extrinsics *)
Lemma reserved_nonneg price x r : sbtc_to_reserved_mint price x = Some r -> 0 <= r.
Proof.
  intros (p & _ & Hr)%bind_Some. apply bind_Some in Hr as (a & _ & Hr).
  apply bind_Some in Hr as (b & [-> Hb]%(arith_exact Hchecks) & Hr); [|done].
  apply bind_Some in Hr as (c & [-> Hc]%(arith_exact Hchecks) & Hr); [|done].
  unfold udiv in Hr. case_decide; [done|]. injection Hr as <-. apply Z.div_pos; [apply Hb|done].
Qed.
Lemma stake_keeps a x who s : ok s -> 0 <= x -> keeps (stake (E:=E) unreleased_keys a x who) any s.
Proof.
  intros Hs Hx. unfold stake. do 4 wp_step. do 2 wp_step; [|done].
  match goal with Hb : bool_decide (_ = a) = true |- _ => apply bool_decide_eq_true in Hb as <- end.
  wp_step. apply free_balance_wp. do 2 wp_step; [|done]. wp_step.
  assert (wp (create_staking (E:=E) unreleased_keys who x)
    (fun b s' => (0 <= b /\ ok s') /\ ShareAssetId (sst s') = ShareAssetId (sst s))
    (fun _ s' => ok s') True s) as Hstake.
  { eapply wp_mono; [apply wp_conj; [apply (staking_keeps who x s Hs Hx)|]| | |by intros _]; cycle 1.
    - intros b s1 [H1 H2]. split; [exact H1|exact H2].
    - by intros e s1 [? _].
    - apply (same_create_staking Hforeign _ ShareAssetId); [split|..]; intros; by fields. }
  wp_apply Hstake; [|done|done]. intros b s1 [[Hb Hs1] Hsh]. wp_step.
  wp_apply (transfer_shares Hforeign (CollectionAssetId (sst s)) who (CollectionAccountId (sst s)) b s1 Hs1 Hb);
    [rewrite Hsh; apply Hs| |by intros e s2 [? _]|done].
  intros [] s2 [Hs2 _]. unfold reserved_amount, create_reserved. do 3 wp_step.
  apply wp_lift; split; [intros r Hr|done]. do 4 wp_step.
  wp_apply (mint_shares Hforeign (ReservedMintAssetId (sst s2)) (ReservedMintWallet (sst s2)) r s2 Hs2); [|done|done|done].
  by apply (reserved_nonneg _ _ _ Hr).
Qed.
Lemma staking_call_keeps o a x s :
  ok s -> 0 <= x -> keeps (staking (E:=E) unreleased_keys o a x) any s.
Proof.
  intros Hs Hx. unfold staking, not_paused. do 4 wp_step; [|done]. wp_step.
  apply wp_ensure_signed; split; [intros who _|done]. by apply stake_keeps.
Qed.
Lemma sudo_staking_keeps o a x who s :
  ok s -> 0 <= x -> keeps (sudo_staking (E:=E) unreleased_keys o a x who) any s.
Proof.
  intros Hs Hx. unfold sudo_staking, not_paused. do 4 wp_step; [|done]. do 2 wp_step; [|done].
  by apply stake_keeps.
Qed.

(** The bonus moves the profit asset only. *)
Context (shares_keys : gmap AccountId Balance -> list AccountId).

Lemma split_profit_nonneg x r : split_profit x = Some r -> 0 <= r.1 /\ 0 <= r.2.
Proof.
  intros (a & [-> Ha]%(arith_exact Hchecks) & Hr)%bind_Some; [|done].
  apply bind_Some in Hr as (u & [= <-] & Hr).
  apply bind_Some in Hr as (t & [-> Ht]%(arith_exact Hchecks) & [= <-]); [|done].
  split; [apply Z.div_pos; [apply Ha|done]|apply Ht].
Qed.
Lemma bonus_transfer_keeps a from to x s :
  ok s -> a <> ShareAssetId (sst s) -> 0 <= x ->
  wp (ignore (make_transfer_with_event a from to x)) (fun _ s' => ok s' /\ sst s' = sst s)
    (fun _ _ => False) False s.
Proof.
  intros Hs Ha Hx. wp_step. wp_apply (transfer_shares Hforeign a from to x s Hs Hx Ha); [done| |done].
  intros e s1 H1. by wp_step.
Qed.
Lemma dispatch_bonus_keeps s :
  ok s -> ProfitAssetId (sst s) <> ShareAssetId (sst s) ->
  keeps (dispatch_bonus (E:=E) shares_keys) any s.
Proof.
  intros Hs Ha. destruct (circulation_bound s Hs) as (_ & Hc & _).
  unfold dispatch_bonus. do 7 wp_step. apply free_balance_wp. do 3 wp_step.
  apply wp_lift; split; [intros r [Hu Ht]%split_profit_nonneg|done]. wp_step.
  wp_apply (bonus_transfer_keeps (ProfitAssetId (sst s)) (SavingProfitPool (sst s)) (TeamAccountId (sst s)) r.2 s Hs Ha Ht);
    [|done|done].
  intros [] s1 [Hs1 Hst1]. do 3 wp_step.
  eapply (wp_mono _ (fun _ s' => ok s' /\ sst s' = sst s)); [|intros [] s2 [Hs2 _]; by apply runs_keep_event|by intros e s' Hs'; exact Hs'|done].
  apply (wp_for_each _ (fun s' => ok s' /\ sst s' = sst s)); [by split|].
  intros who s2 _ [Hs2 Hst2]. unfold pay_bonus. do 3 wp_step. apply wp_lift; split; [intros x [-> Hx]%(arith_exact Hchecks)|]; [|done|done].
  wp_step. apply wp_lift; split; [intros y Hy|done]. unfold udiv in Hy. case_decide; [done|]. injection Hy as <-.
  wp_apply (bonus_transfer_keeps (ProfitAssetId (sst s)) (SavingProfitPool (sst s)) who
    (account_shares who (sst s2) * r.1 / SharesCirculation (sst s)) s2 Hs2); [congruence| | |done|done].
  - apply Z.div_pos; [apply Hx|lia].
  - intros [] s3 [Hs3 Hst3]. split; [done|congruence].
Qed.
Lemma check_bonus_keeps s :
  ok s -> wp (check_bonus_time (E:=E))
    (fun _ s' => ok s' /\ ProfitAssetId (sst s') = ProfitAssetId (sst s) /\
       ShareAssetId (sst s') = ShareAssetId (sst s)) (fun _ _ => False) True s.
Proof.
  intros Hs.
  assert (forall t, ok (sput ((sst s) <| LastBonusTime := t |>) s)) as Hput.
  { intros t. apply (shares_ok_put Hforeign); [done|done|fields; apply Hs|fields; apply Hs]. }
  unfold check_bonus_time. do 4 wp_step. wp_step.
  - wp_step. apply wp_lift; split; [intros d _|done]. wp_step. apply wp_lift; split; [intros t _|done].
    do 3 wp_step. split; [apply Hput|]. by store.
  - wp_step. apply wp_lift; split; [intros el _|done]. wp_step; [by wp_step|].
    wp_step. apply wp_lift; split; [intros t _|done].
    do 3 wp_step. split; [apply Hput|]. by store.
Qed.
Lemma block_keeps s :
  ok s -> ProfitAssetId (sst s) <> ShareAssetId (sst s) ->
  keeps (on_initialize (E:=E) shares_keys) any s.
Proof.
  intros Hs Ha. unfold on_initialize. do 2 wp_step. rewrite (so_running _ Hs). wp_step.
  wp_apply (check_bonus_keeps s Hs); [|by intros|done]. intros b s1 (Hs1 & Hp & Hsh).
  destruct b; [|by wp_step]. apply dispatch_bonus_keeps; [done|congruence].
Qed.

(** ** Runs *)
Inductive share_op :=
| OpMint (a : AssetId) (to : AccountId) (x : Balance)
| OpBurn (a : AssetId) (from : AccountId) (x : Balance)
| OpTransfer (o : origin) (a : AssetId) (to : AccountId) (x : Balance)
| OpStaking (o : origin) (a : AssetId) (x : Balance)
| OpSudoStaking (o : origin) (a : AssetId) (x : Balance) (who : AccountId)
| OpBonus (o : origin)
| OpBlock.
Definition run_op (op : share_op) : M S unit :=
  match op with
  | OpMint a to x => asset_mint (E:=E) Root a to x
  | OpBurn a from x => asset_burn (E:=E) Root a from x
  | OpTransfer o a to x => asset_transfer (E:=E) unreleased_keys o a to x
  | OpStaking o a x => staking (E:=E) unreleased_keys o a x
  | OpSudoStaking o a x who => sudo_staking (E:=E) unreleased_keys o a x who
  | OpBonus o => force_release_bonus (E:=E) shares_keys o
  | OpBlock => on_initialize (E:=E) shares_keys
  end.
(** Amounts are not negative, no transfer redeems, and the profit is not paid in
    shares. *)
Definition op_ok (op : share_op) st : Prop :=
  match op with
  | OpMint _ _ x | OpBurn _ _ x | OpStaking _ _ x | OpSudoStaking _ _ x _ => 0 <= x
  | OpTransfer _ a to x => 0 <= x /\ no_redemption a to st
  | OpBonus _ | OpBlock => ProfitAssetId st <> ShareAssetId st
  end.
Inductive share_step : S -> S -> Prop :=
| share_step_ok s op s' : op_ok op (sst s) -> run_op op s = Ok tt s' -> share_step s s'
| share_step_err s op e s' : op_ok op (sst s) -> run_op op s = Err e s' -> share_step s s'.

Record share_start s : Prop := {
  ss_ledger : ledger_inv s;
  ss_running : SavingPaused (sst s) = false;
  ss_none w : w <> CollectionAccountId (sst s) -> balance_of (ShareAssetId (sst s)) w s = 0;
  ss_shares : AccountShares (sst s) = ∅;
  ss_circulation : SharesCirculation (sst s) = 0;
  ss_asset : CollectionAssetId (sst s) <> ShareAssetId (sst s);
  ss_share : ShareAssetId (sst s) <> 0;
  ss_terms : in_width term_bits (NumOfPhasesLeft (sst s));
  ss_packs : ShareUnreleasedList (sst s) = ∅;
}.
Lemma share_start_ok s : share_start s -> ok s.
Proof.
  intros []. split; try done.
  - intros w Hw. rewrite ss_none0 by done. unfold account_shares, get_or. by rewrite ss_shares0, lookup_empty.
  - by rewrite ss_shares0, lookup_empty.
  - by rewrite ss_circulation0, ss_shares0.
  - intros w l. by rewrite ss_packs0, lookup_empty.
Qed.

Lemma run_op_keeps op s : ok s -> op_ok op (sst s) -> keeps (run_op op) any s.
Proof.
  intros Hs. destruct op as [a to x|a from x|o a to x|o a x|o a x who|o|]; cbn [run_op op_ok]; intros Hop.
  - wp_apply (mint_shares Hforeign a to x s Hs Hop); done.
  - wp_apply (burn_shares Hforeign a from x s Hs Hop); done.
  - destruct Hop. by apply asset_transfer_keeps.
  - by apply staking_call_keeps.
  - by apply sudo_staking_keeps.
  - unfold force_release_bonus, not_paused. do 4 wp_step; [|done]. do 2 wp_step; [|done].
    by apply dispatch_bonus_keeps.
  - by apply block_keeps.
Qed.
Lemma share_steps_ok s0 s : share_start s0 -> rtc share_step s0 s -> ok s.
Proof.
  intros Hs%share_start_ok Hrun. induction Hrun as [|s0 s1 s Hstep _ IH]; [done|]. apply IH.
  destruct Hstep as [s1 op s2 Hop Hr|s1 op e s2 Hop Hr].
  - exact (proj2 (wp_Ok _ _ _ _ _ _ _ (run_op_keeps op s1 Hs Hop) Hr)).
  - exact (wp_Err _ _ _ _ _ _ _ (run_op_keeps op s1 Hs Hop) Hr).
Qed.

(** C33: the recorded shares are the balances, in the build that checks for overflow,
    from a running pallet without shares, along the runs of mints and burns of any asset,
    transfers, stakings, forced bonuses and blocks, successful or not, in which no
    transfer redeems (sends an IOU to the collection account), the profit is not paid in
    shares and nothing is reconfigured: the shares of each account but the collection
    account are its balance of the share asset, the circulation is their sum and within
    the issuance, and the pallet never pauses itself. *)
Theorem shares_follow_balances s0 s :
  let a := ShareAssetId (sst s) in let coll := CollectionAccountId (sst s) in
  share_start s0 -> rtc share_step s0 s ->
  (forall w, w <> coll -> account_shares w (sst s) = balance_of a w s) /\
  SharesCirculation (sst s) = shares_total (AccountShares (sst s)) /\
  SharesCirculation (sst s) + balance_of a coll s <= issuance_of a s /\
  SavingPaused (sst s) = false.
Proof.
  intros a coll H0 Hrun. pose proof (share_steps_ok _ _ H0 Hrun) as Hs.
  destruct (circulation_bound s Hs) as [Hc _]. split_and!; [apply Hs|apply Hs|exact Hc|apply Hs].
Qed.
End runs.
