(* ===== verification/SavingBonus.v ===== *)
(** * The savings: the daily bonus, and what the pallet gets wrong *)
From S2P Require Export SavingRuns Client.
From stdpp Require Import relations.
#[local] Open Scope Z_scope.
Import RioSaving.

Section bonus.
Context {S E : Type} `{!Overflow}.
Context `{!Store S (Frame E), !Store S SavingStore, !Store S PriceStore, !Inject SavingEvent E}.
Context `{!Separate S (Frame E) SavingStore}.
Context `{!Ledger S, !LedgerEvents E, !LedgerSpec S E, !EventLog SavingEvent E}.
Context (Hforeign : foreign SavingStore _).
Context (shares_keys : gmap AccountId Balance -> list AccountId).
Implicit Types (s : S) (st : SavingStore) (who : AccountId).
#[local] Abbreviation sst := (sget (T:=SavingStore)).
#[local] Abbreviation fr := (sget (T:=Frame E)).
#[local] Abbreviation eff := (effect (E:=E) (T:=SavingStore) (Ev:=SavingEvent)).

(** The shares of the users and of the team. *)
Definition users_of (profit : Balance) : Balance := profit * 8 / 10.
Definition bonus_of (users : Balance) st who : Balance :=
  account_shares who st * users / SharesCirculation st.

Lemma users_bounds profit : 0 <= profit -> 0 <= users_of profit <= profit.
Proof.
  intros Hp. unfold users_of. split; [apply Z.div_pos; lia|]. apply Z.div_le_upper_bound; lia.
Qed.
Lemma split_profit_ok profit :
  0 <= profit -> profit * 8 < 2 ^ balance_bits ->
  split_profit profit = Some (users_of profit, profit - users_of profit).
Proof.
  intros Hp Hw. pose proof (users_bounds profit Hp).
  unfold split_profit. rewrite umul_ok by (unfold in_width; lia). cbn -[Z.mul].
  unfold udiv. rewrite decide_False by done. cbn -[Z.mul]. fold (users_of profit).
  rewrite usub_ok by (unfold in_width; lia). done.
Qed.

(** What the bonuses of a list of users move. *)
Definition paid (pa : AssetId) (pool : AccountId) (bonus : AccountId -> Balance) (l : list AccountId)
    : AssetId -> AccountId -> Z :=
  fun a w => zsum (map (fun k => move pa pool k (bonus k) a w) l).

Lemma paid_other pa pool bonus l w :
  NoDup l -> w <> pool -> paid pa pool bonus l pa w = if decide (w ∈ l) then bonus w else 0.
Proof.
  intros Hl Hw. unfold paid, zsum. induction Hl as [|k l Hk _ IH]; [done|]. cbn. rewrite IH.
  unfold move, at_account. rewrite (decide_False (P := pa = pa /\ w = pool)) by tauto.
  destruct (decide (pa = pa /\ w = k)) as [[_ ->]|Hne].
  - rewrite decide_False by done. rewrite decide_True by set_solver. lia.
  - assert (w <> k) by tauto. destruct (decide (w ∈ l)).
    + rewrite decide_True by set_solver. lia.
    + rewrite decide_False by set_solver. lia.
Qed.

Lemma pay_loop pa pool users circ l d i st' lg s0 s :
  let bonus := fun w => account_shares w st' * users / circ in
  eff d i st' lg s0 s -> transferable pa s0 = true -> circ <> 0 ->
  (forall w, w ∈ l -> in_width balance_bits (account_shares w st' * users) /\ 0 <= bonus w) ->
  zsum (map bonus l) <= balance_of pa pool s0 + d pa pool ->
  wp (for_each (pay_bonus pa pool users circ) l)
    (fun _ s' => eff (Client.plus d (paid pa pool bonus l)) i st' lg s0 s') (fun _ _ => False) False s.
Proof.
  intros bonus He Ht Hc. revert d s He. induction l as [|w l IH]; intros d s He Hw Hsum; cbn [for_each].
  { wp_step. eapply be_eq; [exact He| |done|done]. intros a w. unfold Client.plus, paid, zsum. cbn. lia. }
  destruct (Hw w ltac:(by left)) as [Hfit Hpos]. unfold zsum in Hsum. cbn in Hsum.
  assert (0 <= foldr Z.add 0 (map bonus l)) as Hrest.
  { apply zsum_nonneg, Forall_map, Forall_forall. intros k Hk. apply (Hw k). by right. }
  wp_step. unfold pay_bonus at 1. do 2 wp_step. rewrite (eff_store _ _ _ _ _ _ He).
  wp_step. rewrite umul_ok by done. cbn [lift]. do 2 wp_step. unfold udiv. rewrite decide_False by done.
  cbn [lift]. do 2 wp_step. fold (bonus w).
  wp_apply (eff_transfer_ok Hforeign d i st' lg s0 s He pa pool w (bonus w)); [done|done|lia| |done|done].
  intros [] s1 H1. wp_apply (IH _ s1 H1); [intros k Hk; apply Hw; by right| | |done|done].
  - unfold zsum, Client.plus, move, at_account. repeat case_decide; lia || tauto.
  - intros [] s2 H2. eapply be_eq; [exact H2| |done|done].
    intros a v. unfold Client.plus, paid, zsum. cbn. lia.
Qed.

Lemma complete_total keys st :
  complete keys (AccountShares st) ->
  zsum (map (fun w => account_shares w st) keys) = shares_total (AccountShares st).
Proof.
  intros Hk. rewrite <-(map_sum_keys _ _ _ Hk). apply map_sum_ext.
  intros w v Hv. unfold account_shares, get_or. by rewrite Hv.
Qed.

(** Rounding down never pays more than there is. *)
Lemma bonus_sum (f : AccountId -> Balance) users circ l :
  0 < circ -> (forall w, w ∈ l -> 0 <= f w) -> 0 <= users ->
  zsum (map f l) <= circ -> zsum (map (fun w => f w * users / circ) l) <= users.
Proof.
  intros Hc Hf Hu Hsum.
  assert (zsum (map (fun w => f w * users / circ) l) * circ <= zsum (map f l) * users) as Hle.
  { clear Hsum. unfold zsum. induction l as [|w l IH]; cbn; [lia|].
    specialize (IH ltac:(intros; apply Hf; by right)).
    pose proof (Z.mul_div_le (f w * users) circ Hc). nia. }
  nia.
Qed.

(** C35: the bonus is paid in full and in proportion, in either build, where there are
    shares in circulation, which are the sum of the recorded ones, none of them negative,
    all accounts with shares are enumerated, once each, the profit asset is transferable
    and the products fit a balance: eight tenths of the profit go to the accounts, to
    each its part of the circulation rounded down, the rest to the team; the pool never
    runs short, nothing is created, and there is no error and no panic.  Without shares
    in circulation the payment divides by zero ([empty_circulation_halts]). *)
Theorem bonus_pays_in_proportion s :
  let st := sst s in let pa := ProfitAssetId st in let pool := SavingProfitPool st in
  let profit := balance_of pa pool s in let users := users_of profit in
  let keys := shares_keys (AccountShares st) in
  ledger_inv s -> transferable pa s = true -> complete keys (AccountShares st) ->
  (forall w v, AccountShares st !! w = Some v -> 0 <= v) ->
  0 < SharesCirculation st -> SharesCirculation st = shares_total (AccountShares st) ->
  profit * 8 < 2 ^ balance_bits -> SharesCirculation st * profit < 2 ^ balance_bits ->
  wp (dispatch_bonus (E:=E) shares_keys)
    (fun _ s' => sst s' = st /\ (forall a, issuance_of a s' = issuance_of a s) /\
       zsum (map (bonus_of users st) keys) <= users /\
       forall w, w <> pool -> balance_of pa w s' = balance_of pa w s + bonus_of users st w
         + (if decide (w = TeamAccountId st) then profit - users else 0))
    (fun _ _ => False) False s.
Proof.
  intros st pa pool profit users keys Hi Ht Hkeys Hnn Hcpos Hcirc Hw1 Hw2.
  pose proof (balance_nonneg (E:=E) pa pool s Hi) as Hp. fold profit in Hp.
  pose proof (users_bounds profit Hp) as Hu. fold users in Hu.
  assert (forall w, 0 <= account_shares w st <= SharesCirculation st) as Hsh.
  { intros w. unfold account_shares, get_or.
    destruct (AccountShares st !! w) as [v|] eqn:Hv; cbn; [|lia].
    rewrite Hcirc. split; [by eapply Hnn|]. by apply (map_sum_lookup_le (fun _ x => x) _ w). }
  assert (zsum (map (bonus_of users st) keys) <= users) as Hsum.
  { apply (bonus_sum (fun w => account_shares w st)); [done|intros; apply Hsh|apply Hu|].
    rewrite complete_total by done. lia. }
  unfold dispatch_bonus. do 7 wp_step. fold st pa pool. apply free_balance_wp. fold profit.
  do 3 wp_step. fold st. rewrite split_profit_ok by done. fold users. cbn [lift]. wp_step. cbn [fst snd].
  do 2 wp_step.
  wp_apply (eff_transfer_ok Hforeign _ _ _ _ _ _ (be_refl s Hi) pa pool (TeamAccountId st)
    (profit - users)); [lia|done| | |done|done].
  { unfold no_change. fold profit. lia. }
  intros [] s1 H1. do 3 wp_step. rewrite (eff_store _ _ _ _ _ _ H1). fold st keys.
  wp_apply (pay_loop pa pool users (SharesCirculation st) keys _ _ _ _ _ _ H1 Ht); [lia| | | |done|done].
  - intros w _. specialize (Hsh w). fold st.
    assert (0 <= account_shares w st * users <= SharesCirculation st * profit) as Hm
      by (split; [apply Z.mul_nonneg_nonneg; lia|apply Z.mul_le_mono_nonneg; lia]).
    split; [unfold in_width; lia|]. apply Z.div_pos; lia.
  - change (zsum (map (bonus_of users st) keys) <=
      profit + Client.plus no_change (move pa pool (TeamAccountId st) (profit - users)) pa pool).
    unfold Client.plus, no_change, move, at_account. repeat case_decide; lia || tauto.
  - intros [] s2 H2. wp_step.
    assert (fr s2 = fr s2) as Hfr by done.
    pose proof (eff_event (Ev:=SavingEvent) _ _ _ _ _ _ H2 _ Bonus Hfr) as H3.
    split_and!; [apply (eff_store _ _ _ _ _ _ H2)| |done|].
    + intros a. rewrite (be_issuance _ _ _ _ _ _ H3). unfold no_issue. lia.
    + intros w Hw. rewrite (be_balance _ _ _ _ _ _ H3). unfold Client.plus at 1.
      rewrite paid_other by (done || apply Hkeys).
      assert ((if decide (w ∈ keys) then account_shares w (sst s) * users / SharesCirculation st else 0)
        = bonus_of users st w) as ->.
      { case_decide as Hin; [done|]. unfold bonus_of, account_shares, get_or.
        destruct (AccountShares st !! w) eqn:Hv; [|done]. destruct Hin. apply Hkeys. by eexists. }
      unfold Client.plus, no_change, move, at_account. repeat case_decide; lia || tauto.
Qed.

(** C39: accounts whose shares are all gone halt the chain: while the circulation is
    zero and an account is still recorded, even with no shares, the block of the
    daily bonus divides by zero and panics. *)
Theorem empty_circulation_halts s w :
  let st := sst s in
  SavingPaused st = false -> SharesCirculation st = 0 -> w ∈ shares_keys (AccountShares st) ->
  0 < LastBonusTime st -> LastBonusTime st + DAY_IN_MILLI <= now (fr s) < 2 ^ moment_bits ->
  on_initialize (E:=E) shares_keys s = Panic.
Proof.
  intros st Hrun Hc Hw Hl Hnow.
  assert (wp (on_initialize (E:=E) shares_keys) (fun _ _ => False) (fun _ _ => False) True s) as Hwp.
  { unfold on_initialize. do 2 wp_step. fold st. rewrite Hrun. wp_step. unfold check_bonus_time.
    do 4 wp_step. fold st. rewrite decide_False by lia.
    assert (0 < DAY_IN_MILLI) by done. wp_step. rewrite usub_ok by (unfold in_width; lia). cbn [lift]. wp_step.
    rewrite decide_False by lia. wp_step. apply wp_lift; split; [intros t _|done]. do 3 wp_step.
    unfold dispatch_bonus. do 7 wp_step. apply free_balance_wp. do 3 wp_step. fold st.
    apply wp_lift; split; [intros r _|done]. wp_step.
    set (s1 := sput _ s).
    eapply (wp_mono _ (fun _ s2 => sst s2 = sst s1) _ (fun _ _ => False) _ True); [| |done|done].
    { wp_step. wp_apply (same_transfer Hforeign id (ProfitAssetId st) (SavingProfitPool st)
        (TeamAccountId st) r.2 s1); [done|intros; by wp_step|done]. }
    intros [] s2 Hs2. do 3 wp_step. rewrite Hs2. unfold s1. store. fold st.
    destruct (shares_keys (AccountShares st)) as [|k keys]; [by apply not_elem_of_nil in Hw|].
    cbn [for_each]. wp_step. unfold pay_bonus at 1. do 3 wp_step. apply wp_lift; split; [intros a _|done].
    wp_step. by rewrite Hc. }
  destruct (on_initialize shares_keys s) as [[] s'|e s'|] eqn:Hr; [| |done].
  - by pose proof (wp_Ok _ _ _ _ _ _ _ Hwp Hr).
  - by pose proof (wp_Err _ _ _ _ _ _ _ Hwp Hr).
Qed.

(** ** Redemptions are not tracked *)
Definition tracked_part st : gmap AccountId Balance * Balance * AccountId :=
  (AccountShares st, SharesCirculation st, CollectionAccountId st).
Definition untracked (coll : AccountId) s s' : Prop :=
  CollectionAccountId (sst s) = coll -> tracked_part (sst s') = tracked_part (sst s).
#[local] Instance untracked_preorder coll : PreOrder (untracked coll).
Proof.
  split; [by intros s|]. intros s1 s2 s3 H1 H2 Hc. specialize (H1 Hc).
  rewrite H2; [done|]. unfold tracked_part in H1. congruence.
Qed.
Lemma untracked_same {A} coll (m : M S A) : preserves (same tracked_part) m -> preserves (untracked coll) m.
Proof. intros Hm s. wp_apply (Hm s); [| |done]; by intros ? s' Hs _. Qed.
Lemma untracked_write coll (g : SavingStore -> SavingStore) :
  (forall st, tracked_part (g st) = tracked_part st) -> preserves (untracked coll) (modify (S:=S) g).
Proof. intros Hg. by apply untracked_same, same_modify. Qed.
Lemma untracked_burn coll a x : preserves (untracked coll) (asset_burn (E:=E) Root a coll x).
Proof.
  unfold asset_burn. apply preserves_bind; [apply _|by apply untracked_same, same_burn|]. intros [] s.
  unfold on_asset_burn. do 3 wp_step. wp_step; [by wp_step|]. do 4 wp_step.
  destruct (decide (CollectionAccountId (sst s) = coll)) as [Hc|Hc].
  - rewrite decide_False by tauto. by wp_step.
  - eapply wp_mono; [by apply (wp_intro _ (fun _ _ => True) (fun _ _ => True) True)| | |done].
    + by intros ? s' _ Hn.
    + intros ? s' _. wp_step. by intros Hn.
Qed.

(** Redeeming is not tracked: whatever its outcome, a redemption leaves the
    recorded shares and the circulation as they were, although it takes shares
    from the account and burns them; the account goes on drawing a bonus for
    them. *)
Theorem redemption_is_not_tracked iou who ca x sa s :
  let st := sst s in
  wp (make_redeem (E:=E) iou who ca (CollectionAccountId st) x sa)
    (fun _ s' => AccountShares (sst s') = AccountShares st /\
       SharesCirculation (sst s') = SharesCirculation st)
    (fun _ s' => AccountShares (sst s') = AccountShares st /\
       SharesCirculation (sst s') = SharesCirculation st) True s.
Proof.
  intros st. set (coll := CollectionAccountId st).
  assert (preserves (untracked coll) (make_redeem (E:=E) iou who ca coll x sa)) as Hp.
  { unfold make_redeem, required_balances, use_returned, balance_deductions, try_sum.
    preserves_steps; try (apply untracked_write; intros; unfold tracked_part; by fields).
    all: try apply untracked_burn. all: apply untracked_same.
    all: first [apply same_transfer|apply same_event]; done. }
  wp_apply (Hp s); [| |done]; intros ? s' Hs; specialize (Hs eq_refl); unfold tracked_part in Hs;
    by injection Hs as -> -> _.
Qed.
End bonus.
