(* ===== verification/SavingWitness.v ===== *)
(** * The savings: the wiring of the hooks, and a concrete chain *)
From S2P Require Export SavingContracts SavingBonus SavingRelease AssetsLedger Demo.
From stdpp Require Import relations.
#[local] Open Scope Z_scope.

(** ** The wiring: [rio-assets] with the hooks of the savings *)
Section wiring.
Context {S E : Type} `{!Overflow}.
Context `{!Store S (Frame E), !Store S AssetsStore, !Store S SavingStore, !Store S PriceStore}.
Context `{!Inject AssetsEvent E, !Inject SavingEvent E}.
Context (unreleased_keys : gmap AccountId (list ShareReleasePack) -> list AccountId).

(** The configuration of [mock.rs]. *)
#[local] Instance wired_mint : OnAssetMint S := RioSaving.on_asset_mint (E:=E).
#[local] Instance wired_burn : OnAssetBurn S := RioSaving.on_asset_burn (E:=E).
#[local] Instance wired_before : BeforeAssetTransfer S := RioSaving.before_asset_transfer.
#[local] Instance wired_transfer : OnAssetTransfer S :=
  RioSaving.on_asset_transfer (E:=E) unreleased_keys.
#[local] Existing Instances NoHooks.before_mint NoHooks.before_burn.

Lemma mint_wired o a to x s :
  RioAssets.mint (E:=E) o a to x s = RioSaving.asset_mint (E:=E) o a to x s.
Proof.
  unfold RioSaving.asset_mint, mint, rio_assets_ledger, RioAssets.mint, on_asset_mint at 1 2,
    wired_mint, NoHooks.on_mint. run.
  destruct o; [|done..]. destruct (RioAssets.root_key s) as [k s1|e s1|]; [|done..].
  destruct (before_asset_mint a to x s1) as [[] s2|e s2|]; [|done..].
  by destruct (RioAssets.mint_free a k to x s2) as [[] s3|e s3|].
Qed.
Lemma burn_wired o a from x s :
  RioAssets.burn (E:=E) o a from x s = RioSaving.asset_burn (E:=E) o a from x s.
Proof.
  unfold RioSaving.asset_burn, burn, rio_assets_ledger, RioAssets.burn, on_asset_burn at 1 2,
    wired_burn, NoHooks.on_burn. run.
  destruct o; [|done..]. destruct (RioAssets.root_key s) as [k s1|e s1|]; [|done..].
  destruct (before_asset_burn a from x s1) as [[] s2|e s2|]; [|done..].
  by destruct (RioAssets.burn_free a k from x s2) as [[] s3|e s3|].
Qed.
Lemma transfer_wired o a to x s :
  RioAssets.transfer (E:=E) o a to x s = RioSaving.asset_transfer (E:=E) unreleased_keys o a to x s.
Proof. reflexivity. Qed.
End wiring.

(** ** The concrete chain *)
Module SavingDemo.
Export Demo.
Definition event : Type := (AssetsEvent + SavingEvent)%type.
Definition inject_assets : Inject AssetsEvent event := inl.
Definition inject_saving : Inject SavingEvent event := inr.
#[export] Existing Instances inject_assets inject_saving | 0.

#[export, program] Instance log : EventLog SavingEvent event := {|
  event_of e := match e with inl _ => None | inr b => Some b end |}.
Next Obligation. done. Qed.
Next Obligation. by intros e [ev ->]. Qed.

Definition chain : Type :=
  (Frame event * (AssetsStore * (SavingStore * (PriceStore * unit))))%type.
(** alice saves SBTC; the shares are the asset 20, the phases have the IOU assets 21
    and 22, the asset 23 is the reserve; the pool holds 1000 of the profit asset 2. *)
Definition vault : AccountId := 40%N.
Definition pool : AccountId := 31%N.
Definition team : AccountId := 32%N.
Definition wallet : AccountId := 33%N.
Definition none : AssetOptions := MkAssetOptions 0 (permissions options).
Definition ledger : AssetsStore :=
  st_create 23 wallet [] none (st_create 22 alice [] none (st_create 21 alice [] none
    (st_create 20 alice [] none (st_create 2 pool [] options assets)))).
Definition saving : SavingStore :=
  genesis SBTC 20 2 23 vault pool team wallet 1 86400000 [(300, 2, 21); (500, 1, 22)].
Definition day : Frame event := MkFrame [] 5 (Some 1) 172800000 root.
Definition start : chain := (day, (ledger, (saving, (MkPriceStore 10000 [], tt)))).
(** The keys of a map, in the order of the map. *)
Definition keys {V} (m : gmap AccountId V) : list AccountId := (map_to_list m).*1.

#[local] Abbreviation run_ok m s := (match m s with Ok _ s' => s' | _ => start end).
Definition staked : chain :=
  run_ok (RioSaving.staking (E:=event) keys (Signed alice) SBTC 400) start.
(** alice saves within the first phase: half of the shares are released later. *)
Definition saved : chain :=
  run_ok (RioSaving.staking (E:=event) keys (Signed alice) SBTC 100) start.
Definition moved : chain :=
  run_ok (RioSaving.asset_transfer (E:=event) keys (Signed alice) 20 bob 175) staked.
(** All the shares of alice are burnt. *)
Definition burnt : chain := run_ok (RioSaving.asset_burn (E:=event) Root 20 alice 700) staked.

Lemma saving_separate : foreign (S:=chain) SavingStore _.
Proof. split; apply _. Defined.
Lemma saving_checks : @overflow_checks checks = true.
Proof. reflexivity. Defined.
Lemma saving_start_ok : share_start (S:=chain) start.
Proof.
  split; [|reflexivity| |reflexivity|reflexivity|by vm_compute|by vm_compute|by vm_compute|reflexivity].
  - do 5 (apply st_create_ok; [|reflexivity|by vm_compute]). exact assets_ok.
  - intros w _. unfold balance_of. cbn. unfold free_balance, get_or.
    destruct (FreeBalance ledger !! (20, w)) as [v|] eqn:Hv; [|done]. cbn.
    unfold ledger, assets, st_create in Hv. revert Hv. fields.
    rewrite !lookup_insert. repeat case_decide; try congruence; intros [= <-]; done.
Defined.
End SavingDemo.

Section witnesses.
Import SavingDemo RioSaving.
#[local] Abbreviation sst := (sget (T:=SavingStore)).

(** One unit in three terms wraps in the build of the release profile. *)
Definition unchecked : Overflow := {| overflow_checks := false |}.
Lemma pack_conserves_balance_witness :
  (exists p, create_share_release_pack alice 20 1 1000 3 = Some p /\
     zsum (release_all 3 p).1 = 1000) /\
  create_share_release_pack alice 20 1 1 3 = None /\
  exists p, create_share_release_pack (H:=unchecked) alice 20 1 1 3 = Some p /\
    pack_total p = 1 + 2 ^ balance_bits.
Proof.
  destruct (pack_conserves_balance alice 20 1 1000 3) as [Hp _]; [by vm_compute..|].
  destruct (pack_conserves_balance alice 20 1 1 3) as [_ (_ & Hn & _)]; [by vm_compute..| |].
  { intros [_ Hf]. vm_compute in Hf. by apply Hf. }
  destruct (pack_conserves_balance (H:=unchecked) alice 20 1 1 3) as [_ (_ & _ & Hw)]; [by vm_compute..| |].
  { intros [_ Hf]. vm_compute in Hf. by apply Hf. }
  split_and!.
  - destruct Hp as (p & Hp & _ & Hz & _); [by split|]. by exists p.
  - by apply Hn.
  - by apply Hw.
Defined.

Lemma staking_terminates_witness :
  create_staking_from (E:=event) keys panic 10 alice 400 start =
  create_staking (E:=event) keys alice 400 start.
Proof.
  apply (staking_terminates (E:=event) saving_separate). apply Nat.leb_le. by vm_compute.
Defined.

Lemma staked_step : run_op (E:=event) keys keys (OpStaking (Signed alice) SBTC 400) start = Ok tt staked.
Proof. by vm_compute. Defined.
Lemma moved_step : run_op (E:=event) keys keys (OpTransfer (Signed alice) 20 bob 175) staked = Ok tt moved.
Proof. by vm_compute. Defined.
Lemma moved_reachable : rtc (share_step (E:=event) keys keys) start moved.
Proof.
  eapply rtc_l; [|eapply rtc_once].
  - apply (share_step_ok keys keys start (OpStaking (Signed alice) SBTC 400) staked); [done|exact staked_step].
  - apply (share_step_ok keys keys staked (OpTransfer (Signed alice) 20 bob 175) moved); [|exact moved_step].
    split; [done|]. left. by vm_compute.
Defined.
Lemma shares_follow_balances_witness :
  account_shares bob (sst moved) = balance_of 20 bob moved /\ account_shares bob (sst moved) = 175.
Proof.
  destruct (shares_follow_balances (E:=event) saving_separate saving_checks keys keys start moved
              saving_start_ok moved_reachable) as [Hs _].
  split; [|by vm_compute]. apply (Hs bob). by vm_compute.
Defined.

Lemma saved_ok : shares_ok (S:=chain) saved.
Proof.
  apply (share_steps_ok (E:=event) saving_separate saving_checks keys keys start); [exact saving_start_ok|].
  eapply rtc_once, (share_step_ok keys keys start (OpStaking (Signed alice) SBTC 100) saved); [done|by vm_compute].
Defined.
Definition saved_packs : list ShareReleasePack := account_future_releases alice (sst saved).
Lemma saved_list : ShareUnreleasedList (sst saved) = {[alice := saved_packs]}.
Proof. by vm_compute. Defined.
Lemma phase_change_releases_witness :
  exists s', shares_release_by_phase_change (E:=event) keys 1 saved = Ok tt s' /\
    balance_of 20 alice saved = 100 /\ unreleased saved_packs = 100 /\
    balance_of 20 alice s' = 200 /\ account_future_releases alice (sst s') = [].
Proof.
  destruct (phase_change_releases (E:=event) saving_separate keys 1 saved saved_ok) as [Hrel _].
  - apply map_keys_complete.
  - intros w. unfold own_packs, account_future_releases, get_or. rewrite saved_list.
    destruct (decide (w = alice)) as [->|Hw]; [rewrite lookup_singleton_eq|by rewrite lookup_singleton_ne].
    clear. vm_compute. by repeat constructor.
  - destruct Hrel as (s' & Hr & _ & _ & Hall); [intros _; by vm_compute|].
    destruct (Hall alice) as (Hp & Hb & _).
    exists s'. split; [exact Hr|]. split; [by vm_compute|]. split; [by vm_compute|].
    change 20 with (ShareAssetId (sst saved)). rewrite Hb, Hp. clear. by vm_compute.
Defined.

Definition pack_of (phase : PhaseId) (b : Balance) : ShareReleasePack :=
  MkShareReleasePack 20 alice phase false (MkSharePackage 3 3 b) None PhaseChange.
Definition pack1 : ShareReleasePack := pack_of 1 200.
Definition pack2 : ShareReleasePack :=
  (pack_of 2 34) <| major := MkSharePackage 3 2 34 |> <| minor := Some (MkSharePackage 1 1 32) |>.
Definition merged : list ShareReleasePack :=
  match aggregate_phase_unreleased [pack1; pack2; pack1] 1 20 alice (Some (Negative 500)) with
  | Some (inr l) => l | _ => [] end.
Lemma merged_packs :
  aggregate_phase_unreleased [pack1; pack2; pack1] 1 20 alice (Some (Negative 500)) = Some (inr merged).
Proof. by vm_compute. Defined.
Lemma aggregation_keeps_shares_witness :
  exists p q l, create_share_release_pack alice 20 1 600 3 = Some p /\
    create_share_release_pack alice 20 2 100 3 = Some q /\
    aggregate_phase_unreleased [p; q; p] 1 20 alice (Some (Negative 500)) = Some (inr l) /\
    phase_total 20 1 l = 700 /\ others 20 1 l = [q].
Proof.
  exists pack1, pack2, merged. split; [by vm_compute|]. split; [by vm_compute|].
  split; [exact merged_packs|].
  destruct (aggregation_keeps_shares checks [pack1; pack2; pack1] 1 20 alice (Some (Negative 500))
              (inr merged) ltac:(done) merged_packs) as (_ & Ho & Ht & _).
  rewrite Ht, Ho. split; by vm_compute.
Defined.

Definition shares : gmap AccountId Balance := AccountShares (sst moved).
Lemma moved_shares : shares = <[bob := 175]> {[alice := 525]}.
Proof. by vm_compute. Defined.
Lemma moved_ledger : ledger_inv (S:=chain) moved.
Proof.
  apply so_ledger, (share_steps_ok (E:=event) saving_separate saving_checks keys keys start);
    [exact saving_start_ok|exact moved_reachable].
Defined.

Lemma bonus_pays_in_proportion_witness :
  wp (dispatch_bonus (E:=event) keys)
    (fun _ s' => balance_of 2 bob s' = 200 /\ balance_of 2 alice s' = 600 /\ balance_of 2 team s' = 200)
    (fun _ _ => False) False moved.
Proof.
  wp_apply (bonus_pays_in_proportion (E:=event) saving_separate keys moved);
    [exact moved_ledger|by vm_compute|apply map_keys_complete| |by vm_compute..| |done|done].
  { intros w v. change (AccountShares (sst moved)) with shares. rewrite moved_shares.
    intros [[_ <-]|[_ [_ <-]%lookup_singleton_Some]]%lookup_insert_Some; done. }
  assert (SavingProfitPool (sst moved) = pool) as Hpool by (by vm_compute).
  assert (ProfitAssetId (sst moved) = 2) as Hasset by (by vm_compute).
  intros [] s' (_ & _ & _ & Hb). rewrite Hpool, Hasset in Hb.
  rewrite (Hb bob), (Hb alice), (Hb team) by discriminate. clear. by vm_compute.
Defined.

Lemma empty_circulation_halts_witness : on_initialize (E:=event) keys burnt = Panic.
Proof.
  apply (empty_circulation_halts (E:=event) saving_separate keys burnt alice);
    [by vm_compute|by vm_compute| |by vm_compute|by vm_compute].
  apply map_keys_complete. exists 0. by vm_compute.
Defined.

(** alice gives 50 of the second IOU back: she owns 650 shares and draws the bonus
    of 700. *)
Definition returned : chain :=
  match make_transfer_with_event 22 alice vault 50 staked with Ok _ s => s | _ => staked end.
Definition redeemed : chain :=
  match make_redeem (E:=event) 22 alice SBTC vault 50 20 returned with Ok _ s => s | _ => returned end.
Lemma redeemed_step : make_redeem (E:=event) 22 alice SBTC vault 50 20 returned = Ok tt redeemed.
Proof. by vm_compute. Defined.
Lemma returned_ledger : ledger_inv (S:=chain) returned.
Proof.
  assert (ledger_inv (S:=chain) staked) as Hs.
  { apply so_ledger, (share_steps_ok (E:=event) saving_separate saving_checks keys keys start);
      [exact saving_start_ok|].
    apply rtc_once, (share_step_ok keys keys start (OpStaking (Signed alice) SBTC 400) staked);
      [done|exact staked_step]. }
  assert (make_transfer_with_event 22 alice vault 50 staked = Ok tt returned) as Hr by (by vm_compute).
  exact (lc_inv _ _ _ _ (proj2 (wp_Ok _ _ _ _ _ _ _
    (transfer_spec (E:=event) 22 alice vault 50 staked Hs ltac:(done)) Hr))).
Defined.

(** alice gives 50 of the first IOU back within the first phase: of the 100 shares that
    they are worth, 50 are in the pack that is not released yet. *)
Definition given_back : chain :=
  match make_transfer_with_event 21 alice vault 50 saved with Ok _ s => s | _ => saved end.
Definition paid : chain :=
  match make_redeem (E:=event) 21 alice SBTC vault 50 20 given_back with Ok _ s => s | _ => given_back end.
Lemma paid_step : make_redeem (E:=event) 21 alice SBTC vault 50 20 given_back = Ok tt paid.
Proof. by vm_compute. Defined.
Lemma saved_step : run_op (E:=event) keys keys (OpStaking (Signed alice) SBTC 100) start = Ok tt saved.
Proof. by vm_compute. Defined.
Lemma given_back_ledger : ledger_inv (S:=chain) given_back.
Proof.
  assert (ledger_inv (S:=chain) saved) as Hs.
  { apply so_ledger, (share_steps_ok (E:=event) saving_separate saving_checks keys keys start);
      [exact saving_start_ok|].
    apply rtc_once, (share_step_ok keys keys start (OpStaking (Signed alice) SBTC 100) saved);
      [done|exact saved_step]. }
  assert (make_transfer_with_event 21 alice vault 50 saved = Ok tt given_back) as Hr by (by vm_compute).
  exact (lc_inv _ _ _ _ (proj2 (wp_Ok _ _ _ _ _ _ _
    (transfer_spec (E:=event) 21 alice vault 50 saved Hs ltac:(done)) Hr))).
Defined.
Lemma redemption_contract_witness :
  balance_of SBTC alice paid = balance_of SBTC alice given_back + 50 /\
  balance_of 20 alice paid = balance_of 20 alice given_back - 50 /\
  phase_total 20 1 (account_future_releases alice (sst given_back)) = 100 /\
  exists nl, sst paid = (sst given_back) <| ShareUnreleasedList ::= <[alice := nl]> |> /\
    phase_total 20 1 nl = 50.
Proof.
  destruct (wp_Ok _ _ _ _ _ _ _ (redemption_contract (E:=event) saving_separate saving_checks 21 alice SBTC 50
    20 given_back given_back_ledger ltac:(by vm_compute) ltac:(done) ltac:(done)) paid_step)
    as (_ & _ & _ & _ & nl & He & Ht & _).
  rewrite !(be_balance _ _ _ _ _ _ He). split_and!; [by vm_compute|by vm_compute|by vm_compute|].
  exists nl. split; [exact (be_store _ _ _ _ _ _ He)|]. etrans; [exact Ht|]. by vm_compute.
Defined.
Lemma redemption_is_not_tracked_witness :
  balance_of 20 alice redeemed = 650 /\ AccountShares (sst redeemed) = AccountShares (sst returned).
Proof.
  split; [by vm_compute|].
  exact (proj1 (wp_Ok _ _ _ _ _ _ _
    (redemption_is_not_tracked (E:=event) saving_separate 22 alice SBTC 50 20 returned) redeemed_step)).
Defined.

(** *** Types and contracts *)
Lemma start_typed : store_typed (sst start).
Proof.
  apply genesis_typed; [by vm_compute..|]. repeat constructor; by vm_compute.
Defined.
Lemma staked_saving_step :
  saving_step (E:=event) keys keys (fun _ _ => true) start staked.
Proof.
  apply (step_call _ _ _ start (Signed alice) (CallStaking SBTC 400)); [by vm_compute|].
  left. exists tt. exact staked_step.
Defined.
Lemma storage_well_typed_witness :
  store_typed (sst staked) /\ QuotaUsed (sst staked) = 100.
Proof.
  split; [|by vm_compute].
  apply (storage_well_typed (E:=event) saving_separate keys keys (fun _ _ => true)
    SBTC 20 2 23 vault pool team wallet 1 86400000 [(300, 2, 21); (500, 1, 22)] start staked);
    [reflexivity|by vm_compute..| |].
  - repeat constructor; by vm_compute.
  - apply rtc_once, staked_saving_step.
Defined.
Lemma staking_is_backed_witness :
  staked_with alice SBTC 400 start staked /\ balance_of 21 alice staked = 300 /\
  balance_of 22 alice staked = 100.
Proof.
  split; [|split; by vm_compute].
  destruct (wp_Ok _ _ _ _ _ _ _ (staking_is_backed (E:=event) saving_separate saving_checks keys
    (Signed alice) SBTC 400 start (ss_ledger _ saving_start_ok) start_typed
    ltac:(apply map_Forall_empty) ltac:(by vm_compute)) staked_step) as (_ & who & [= <-] & Hs).
  exact Hs.
Defined.
End witnesses.
