(* ===== verification/SavingReplay.v ===== *)
(** * The unit tests of [rio-saving], replayed

    The tests of [rio-saving/src/tests.rs] as runs of the model on the genesis of
    [mock.rs]; a test passes when it returns. *)
From S2P Require Export MockChain SavingWitness.
#[local] Open Scope Z_scope.

#[global] Instance PhaseInfo_eq_dec : EqDecision PhaseInfo.
Proof. solve_decision. Defined.
#[global] Instance SavingStore_eq_dec : EqDecision SavingStore.
Proof. solve_decision. Defined.
#[global] Instance PriceReport_eq_dec : EqDecision PriceReport.
Proof. solve_decision. Defined.
#[global] Instance PriceStore_eq_dec : EqDecision PriceStore.
Proof. solve_decision. Defined.

Module SavingReplay.
Import SavingDemo constants.

(** [new_test_ext]: no price was ever reported. *)
Definition new_test_ext : chain :=
  (mock_frame, (mock_assets,
    (genesis SBTC_ASSET_ID RBTC_ASSET_ID RIO_ASSET_ID RIO_ASSET_ID COLLECTION_ACCOUNT_ID
       PROFIT_POOL TEAM BOB 1 0
       [ (PHASE1_QUOTA, PHASE1_EXCHANGE, RSC1_ASSET_ID);
         (PHASE2_QUOTA, PHASE2_EXCHANGE, RSC2_ASSET_ID);
         (PHASE3_QUOTA, PHASE3_EXCHANGE, RSC3_ASSET_ID);
         (PHASE4_QUOTA, PHASE4_EXCHANGE, RSC4_ASSET_ID);
         (PHASE5_QUOTA, PHASE5_EXCHANGE, RSC5_ASSET_ID) ],
     (MkPriceStore 0 [], tt)))).

(** The operations the tests call, on the wiring of [mock.rs]. *)
#[local] Abbreviation test := (M chain unit).
#[local] Abbreviation mint := (RioSaving.asset_mint (S:=chain) (E:=event) Root).
#[local] Abbreviation transfer := (RioSaving.asset_transfer (S:=chain) (E:=event) keys).
#[local] Abbreviation create_staking who x :=
  (RioSaving.create_staking (S:=chain) (E:=event) keys who x).
#[local] Abbreviation staking := (RioSaving.staking (S:=chain) (E:=event) keys).
#[local] Abbreviation redeem := (RioSaving.redeem (S:=chain) (E:=event)).
#[local] Abbreviation saving f := (gets (S:=chain) (T:=SavingStore) f).
Definition known_asset (a : AssetId) (s : chain) : bool := asset_exists a (sget s).
Definition free_balance (a : AssetId) (who : AccountId) : M chain Balance := free_balance_of a who.

Definition releases (who : AccountId) : M chain (list ShareReleasePack) :=
  saving (account_future_releases who).
(** The terms left of the packs of an account. *)
Definition terms_of (who : AccountId) (terms : list Z) : test :=
  packs ← releases who;
  assert (bool_decide (map (fun p => terms_left (major p)) packs = terms)).

Definition genesis_values : test :=
  assert_eq (saving CurrentPhaseId) PHASE1 ;;
  assert_eq (saving (phase_info PHASE2))
    (MkPhaseInfo PHASE2 PHASE2_QUOTA PHASE2_EXCHANGE (Some RSC2_ASSET_ID)).
Definition current_phase_id : test := assert_eq (saving CurrentPhaseId) PHASE1.
Definition set_iou_asset_id : test :=
  assert_ok (RioSaving.set_iou_asset_id_for_phase known_asset Root PHASE1 RSC5_ASSET_ID) ;;
  assert_eq (saving (fun st => iou_asset_id (phase_info PHASE1 st))) (Some RSC5_ASSET_ID).
Definition creates_staking : test :=
  assert_noop (create_staking ALICE 0) "saving can't be zero" ;;
  assert_ok (create_staking ALICE (10 * DECIMALS)) ;;
  assert_eq (free_balance RSC1_ASSET_ID ALICE) (10 * DECIMALS).
Definition staking_by_transfer : test :=
  assert_ok (mint SBTC_ASSET_ID ALICE (100 * DECIMALS)) ;;
  assert_ok (transfer (Signed ALICE) SBTC_ASSET_ID COLLECTION_ACCOUNT_ID (10 * DECIMALS)) ;;
  assert_eq (free_balance SBTC_ASSET_ID ALICE) (90 * DECIMALS) ;;
  assert_eq (free_balance RSC1_ASSET_ID ALICE) (10 * DECIMALS) ;;
  assert_eq (free_balance RBTC_ASSET_ID ALICE) (20000 * DECIMALS) ;;
  assert_ok (transfer (Signed ALICE) SBTC_ASSET_ID COLLECTION_ACCOUNT_ID (10 * DECIMALS)) ;;
  assert_eq (free_balance RSC1_ASSET_ID ALICE) (20 * DECIMALS) ;;
  assert_eq (free_balance RBTC_ASSET_ID ALICE) (40000 * DECIMALS) ;;
  assert_eq (free_balance SBTC_ASSET_ID ALICE) (80 * DECIMALS).
Definition staking_by_staking : test :=
  assert_ok (mint SBTC_ASSET_ID ALICE (100 * DECIMALS)) ;;
  assert_ok (staking (Signed ALICE) SBTC_ASSET_ID (10 * DECIMALS)) ;;
  assert_eq (free_balance SBTC_ASSET_ID ALICE) (90 * DECIMALS) ;;
  assert_eq (free_balance RSC1_ASSET_ID ALICE) (10 * DECIMALS) ;;
  assert_eq (free_balance RBTC_ASSET_ID ALICE) (20000 * DECIMALS) ;;
  assert_ok (RioSaving.sudo_staking (E:=event) keys Root SBTC_ASSET_ID (10 * DECIMALS) ALICE) ;;
  assert_eq (free_balance RSC1_ASSET_ID ALICE) (20 * DECIMALS) ;;
  assert_eq (free_balance RBTC_ASSET_ID ALICE) (40000 * DECIMALS) ;;
  assert_eq (free_balance SBTC_ASSET_ID ALICE) (80 * DECIMALS).
Definition iou_when_create_staking : test :=
  assert_ok (create_staking ALICE DECIMALS) ;;
  assert_eq (free_balance RSC1_ASSET_ID ALICE) DECIMALS ;;
  assert_ok (create_staking BOB 110000000) ;;
  assert_eq (free_balance RSC1_ASSET_ID BOB) 110000000.
Definition share_when_create_staking : test :=
  assert_ok (create_staking ALICE DECIMALS) ;;
  assert_eq (free_balance RBTC_ASSET_ID ALICE) (PHASE1_EXCHANGE * DECIMALS / NUM_OF_PHASE) ;;
  alice_release_list ← releases ALICE;
  assert (bool_decide (length alice_release_list = 1%nat)) ;;
  first ← lift (head alice_release_list);
  assert (bool_decide (get_total_balance first = Some 800000000000)).
Definition iou_with_shift_phases : test :=
  assert_ok (create_staking ALICE (200 * DECIMALS)) ;;
  assert_eq (saving CurrentPhaseId) PHASE2 ;;
  assert_eq (free_balance RSC1_ASSET_ID ALICE) PHASE1_QUOTA ;;
  assert_eq (free_balance RSC2_ASSET_ID ALICE) (200 * DECIMALS - PHASE1_QUOTA).
Definition phase1_portion : Balance := PHASE1_QUOTA * PHASE1_EXCHANGE / NUM_OF_PHASE.
Definition phase2_portion : Balance :=
  (200 * DECIMALS - PHASE1_QUOTA) * PHASE2_EXCHANGE / (NUM_OF_PHASE - 1).
Definition phase2_portion_se : Balance :=
  (PHASE2_QUOTA + PHASE1_QUOTA - 200 * DECIMALS) * PHASE2_EXCHANGE / (NUM_OF_PHASE - 1).
Definition phase3_portion : Balance :=
  (((500 + 200) * DECIMALS - PHASE2_QUOTA - PHASE1_QUOTA) * PHASE3_EXCHANGE + (NUM_OF_PHASE - 3))
    / (NUM_OF_PHASE - 2).
Definition share_with_shift_phases : test :=
  assert_ok (create_staking ALICE (200 * DECIMALS)) ;;
  assert_eq (saving CurrentPhaseId) PHASE2 ;;
  assert_eq (saving NumOfPhasesLeft) 4 ;;
  assert_eq (free_balance RBTC_ASSET_ID ALICE)
    (phase1_portion + phase1_portion + phase2_portion) ;;
  assert_ok (create_staking ALICE (500 * DECIMALS)) ;;
  assert_eq (saving CurrentPhaseId) PHASE3 ;;
  assert_eq (saving NumOfPhasesLeft) 3 ;;
  assert_eq (free_balance RBTC_ASSET_ID ALICE)
    (phase1_portion + phase1_portion + phase1_portion + phase2_portion + phase2_portion
     + phase2_portion_se + phase2_portion_se + phase3_portion).
Definition once_for_all_quota : test :=
  assert_ok (create_staking ALICE
    (PHASE1_QUOTA + PHASE2_QUOTA + PHASE3_QUOTA + PHASE4_QUOTA + PHASE5_QUOTA)) ;;
  assert_eq (free_balance RBTC_ASSET_ID ALICE)
    (PHASE1_QUOTA * PHASE1_EXCHANGE + PHASE2_QUOTA * PHASE2_EXCHANGE
     + PHASE3_QUOTA * PHASE3_EXCHANGE + PHASE4_QUOTA * PHASE4_EXCHANGE
     + PHASE5_QUOTA * PHASE5_EXCHANGE) ;;
  alice_releases ← releases ALICE;
  assert (bool_decide (length alice_releases = 0%nat)).
Definition wire_sbtc_to_collection_account : test :=
  assert_ok (mint SBTC_ASSET_ID ALICE 100000000) ;;
  assert_eq (free_balance SBTC_ASSET_ID ALICE) 100000000 ;;
  assert_ok (transfer (Signed ALICE) SBTC_ASSET_ID COLLECTION_ACCOUNT_ID 100000000) ;;
  assert_eq (free_balance RSC1_ASSET_ID ALICE) 100000000 ;;
  assert_eq (free_balance RBTC_ASSET_ID ALICE) 200000000000.
(** [redeem_1_sbtc_by_transfer] and [redeem_1_sbtc_by_redeem] differ in the call that redeems. *)
Definition redeem_1_sbtc (call : Balance -> test) : test :=
  assert_ok (mint SBTC_ASSET_ID ALICE 100000000) ;;
  assert_ok (transfer (Signed ALICE) SBTC_ASSET_ID COLLECTION_ACCOUNT_ID 100000000) ;;
  assert_eq (free_balance RSC1_ASSET_ID ALICE) 100000000 ;;
  assert_ok (call 50000000) ;;
  assert_eq (free_balance RSC1_ASSET_ID ALICE) 50000000 ;;
  alice_release ← releases ALICE;
  assert (bool_decide (length alice_release = 1%nat)) ;;
  first ← lift (head alice_release);
  assert (bool_decide (per_term (major first) = 100000000000)) ;;
  assert (bool_decide (terms_left (major first) = 4)) ;;
  assert (bool_decide (terms_total (major first) = 5)) ;;
  assert (bool_decide (minor first = None)) ;;
  assert_eq (free_balance RBTC_ASSET_ID ALICE) 100000000000 ;;
  assert_ok (call 50000000) ;;
  assert_eq (free_balance SBTC_ASSET_ID ALICE) 100000000 ;;
  assert_eq (saving (share_asset_collected ALICE)) 0.
Definition redeem_1_sbtc_by_transfer : test :=
  redeem_1_sbtc (transfer (Signed ALICE) RSC1_ASSET_ID COLLECTION_ACCOUNT_ID).
Definition redeem_1_sbtc_by_redeem : test :=
  redeem_1_sbtc (redeem (Signed ALICE) RSC1_ASSET_ID).
Definition redeem_501_sbtc_by_redeem : test :=
  assert_ok (mint SBTC_ASSET_ID BOB 50100000000) ;;
  assert_ok (transfer (Signed BOB) SBTC_ASSET_ID COLLECTION_ACCOUNT_ID 100000000) ;;
  assert_eq (free_balance RSC1_ASSET_ID BOB) 100000000 ;;
  assert_ok (redeem (Signed BOB) RSC1_ASSET_ID 100000000) ;;
  assert_ok (staking (Signed BOB) SBTC_ASSET_ID 50000000000) ;;
  assert_ok (redeem (Signed BOB) RSC2_ASSET_ID 40000000000) ;;
  assert_ok (redeem (Signed BOB) RSC1_ASSET_ID 9900000000) ;;
  assert_eq (saving CurrentPhaseId) 3 ;;
  assert_eq (free_balance RSC3_ASSET_ID BOB) 100000000 ;;
  assert_eq (free_balance RBTC_ASSET_ID BOB) 166666666667 ;;
  assert_ok (redeem (Signed BOB) RSC3_ASSET_ID 80000000) ;;
  assert_ok (redeem (Signed BOB) RSC3_ASSET_ID 13000000) ;;
  assert_eq (free_balance RSC3_ASSET_ID BOB) 7000000 ;;
  assert_ok (redeem (Signed BOB) RSC3_ASSET_ID 1110000) ;;
  assert_ok (redeem (Signed BOB) RSC3_ASSET_ID 5890000) ;;
  assert_eq (free_balance RBTC_ASSET_ID BOB) 0.
Definition illegal_redeem : test :=
  assert_ok (mint SBTC_ASSET_ID ALICE 100000000) ;;
  assert_ok (transfer (Signed ALICE) SBTC_ASSET_ID COLLECTION_ACCOUNT_ID 100000000) ;;
  assert_noop (transfer (Signed ALICE) RSC1_ASSET_ID COLLECTION_ACCOUNT_ID 110000000)
    "not enough available share asset" ;;
  assert_ok (mint RSC1_ASSET_ID ALICE 100000000) ;;
  assert_noop (transfer (Signed ALICE) RSC1_ASSET_ID COLLECTION_ACCOUNT_ID 110000000)
    "not enough available share asset" ;;
  assert_noop (transfer (Signed ALICE) RBTC_ASSET_ID COLLECTION_ACCOUNT_ID 500000000000)
    "balance too low to send amount".
Definition shares_release_list : test :=
  assert_ok (create_staking ALICE (PHASE1_QUOTA / 2)) ;;
  assert_eq (free_balance RBTC_ASSET_ID ALICE) (PHASE1_QUOTA / 10 * PHASE1_EXCHANGE) ;;
  terms_of ALICE [4] ;;
  assert_ok (create_staking BOB (PHASE1_QUOTA / 2)) ;;
  assert_eq (free_balance RBTC_ASSET_ID BOB) (PHASE1_QUOTA / 5 * PHASE1_EXCHANGE) ;;
  terms_of BOB [3] ;;
  terms_of ALICE [3] ;;
  assert_ok (create_staking BOB (PHASE2_QUOTA / 2)) ;;
  terms_of BOB [3; 3] ;;
  terms_of ALICE [3].
Definition pause_works : test :=
  assert_ok (RioSaving.pause Root) ;;
  assert_eq (saving SavingPaused) true ;;
  assert_ok (mint SBTC_ASSET_ID ALICE (100 * DECIMALS)) ;;
  assert_noop (staking (Signed ALICE) SBTC_ASSET_ID (10 * DECIMALS)) "module is paused" ;;
  assert_noop (redeem (Signed ALICE) RSC1_ASSET_ID 50000000) "module is paused" ;;
  assert_ok (RioSaving.resume Root) ;;
  assert_eq (saving SavingPaused) false.
Definition share_asset_distribution : test :=
  assert_ok (create_staking CHRIS 1000000000) ;;
  assert_ok (create_staking BOB 1000000000) ;;
  assert_eq (saving (account_shares CHRIS)) (1000000000 / NUM_OF_PHASE * PHASE1_EXCHANGE) ;;
  assert_eq (saving (account_shares BOB)) (1000000000 / NUM_OF_PHASE * PHASE1_EXCHANGE) ;;
  assert_ok (transfer (Signed CHRIS) RBTC_ASSET_ID BOB 1000000000000) ;;
  assert_eq (saving (account_shares CHRIS)) 1000000000000 ;;
  assert_eq (saving (account_shares BOB)) 3000000000000 ;;
  assert_ok (transfer (Signed CHRIS) RBTC_ASSET_ID DAVE 1000000000000) ;;
  assert_eq (saving (account_shares CHRIS)) 0 ;;
  assert_eq (saving (account_shares DAVE)) 1000000000000.
Definition manually_release_bonus : test :=
  assert_eq (saving ProfitAssetId) RIO_ASSET_ID ;;
  assert_eq (saving ShareAssetId) RBTC_ASSET_ID ;;
  assert_ok (mint RBTC_ASSET_ID DAVE 100000000) ;;
  assert_ok (mint RBTC_ASSET_ID BOB 100000000) ;;
  assert_ok (mint RBTC_ASSET_ID CHRIS 800000000) ;;
  assert_eq (saving (account_shares DAVE)) 100000000 ;;
  assert_eq (saving (account_shares BOB)) 100000000 ;;
  assert_eq (saving (account_shares CHRIS)) 800000000 ;;
  assert_eq (saving SharesCirculation) 1000000000 ;;
  assert_ok (mint RIO_ASSET_ID PROFIT_POOL 2400000000) ;;
  RioSaving.dispatch_bonus (E:=event) keys ;;
  assert_eq (free_balance RIO_ASSET_ID TEAM) 480000000 ;;
  assert_eq (free_balance RIO_ASSET_ID DAVE) 192000000 ;;
  assert_eq (free_balance RIO_ASSET_ID BOB) 192000000 ;;
  assert_eq (free_balance RIO_ASSET_ID CHRIS) (192000000 * 8) ;;
  assert_eq (free_balance RIO_ASSET_ID PROFIT_POOL) 0.

Definition tests : list test :=
  [ genesis_values; current_phase_id; set_iou_asset_id; creates_staking; staking_by_transfer;
    staking_by_staking; iou_when_create_staking; share_when_create_staking; iou_with_shift_phases;
    share_with_shift_phases; once_for_all_quota; wire_sbtc_to_collection_account;
    redeem_1_sbtc_by_transfer; redeem_1_sbtc_by_redeem; redeem_501_sbtc_by_redeem;
    illegal_redeem; shares_release_list; pause_works; share_asset_distribution;
    manually_release_bonus ].
Lemma tests_pass : forallb (passes new_test_ext) tests = true.
Proof. by vm_compute. Qed.
End SavingReplay.
